(** * pl-cstack.c: saving and printing the most recent C-stack traces

    A shallow embedding of [src/os/pl-cstack.c] of SWI-Prolog.  The file
    keeps, per thread, a ring of the [SAVE_TRACES] most recent labeled
    C-stack traces and prints them on demand or from the crash handler.

    The C file is compiled in one of four configurations: libunwind,
    glibc ([backtrace()] from execinfo.h), Windows (dbghelp), or a fallback
    without any stack walker.  Each configuration has its own [btrace]
    structure and its own copy of the functions; the development keeps
    one module per configuration, and the code under "SHARED" in a section
    over the configuration.

    Modelling conventions:
    - a C [int] is a [Z]; arithmetic on it goes through [wrap], the
      two's-complement wrap-around of a 32-bit [int];
    - a C array is a [list]; [arr_get] and [arr_set] take the [int] index and
      yield [None] out of range (undefined behaviour in C);
    - pointers to a [btrace] are locations of a heap [gmap loc _]; a cell is
      [None] between [malloc] and [memset];
    - [malloc] takes its outcome as an argument (the allocator is part of
      the environment), and so do the stack walkers;
    - everything written with [Sdprintf] is appended to the log of the
      world, one [message] per call;
    - loops without a static bound ([for(;;)], [do ... while]) take fuel
      and yield [Timeout] when it runs out. *)

From Stdlib Require Import ZArith Lia Ascii String.
From stdpp Require Import base option list gmap strings.

Open Scope Z_scope.

(** ** Integers and arrays *)

Definition SAVE_TRACES : Z := 10.

(** Two's-complement wrap-around of a 32-bit [int]. *)
Definition wrap (z : Z) : Z := (z + 2 ^ 31) mod 2 ^ 32 - 2 ^ 31.

Definition int_add (a b : Z) : Z := wrap (a + b).
Definition int_sub (a b : Z) : Z := wrap (a - b).
(** C's [%] truncates towards zero. *)
Definition int_rem (a b : Z) : Z := Z.rem a b.

Definition arr_get {A} (a : list A) (i : Z) : option A :=
  if bool_decide (0 ≤ i) then a !! Z.to_nat i else None.

Definition arr_set {A} (a : list A) (i : Z) (x : A) : option (list A) :=
  if bool_decide (0 ≤ i < Z.of_nat (length a))
  then Some (<[Z.to_nat i := x]> a) else None.

(** ** The diagnostic sink and other observable effects *)

(** One constructor per [Sdprintf] call of the file; the format is quoted
    in the comment, the arguments are the constructor's. *)
Inductive message :=
  | MsgTraceLabel (why : string)
      (* C-stack trace labeled "%s":\n *)
  | MsgUnwFrame (depth : Z) (name : string) (offset : Z)
      (*   [%d] %s+%p\n *)
  | MsgNoStackTrace
      (* No stack trace\n *)
  | MsgNoStore
      (* No backtrace store?\n *)
  | MsgFrameLine (i : Z) (buf : string) (addr : Z)
      (*   [%zd] %s [%p]\n *)
  | MsgFrameSym (i : Z) (fname sname : string) (off : Z) (addr : Z)
      (*   [%zd] %s(%s+0x%tx) [%p]\n *)
  | MsgFrameOff (i : Z) (fname : string) (offset : Z) (addr : Z)
      (*   [%zd] %s(+%p) [%p]\n *)
  | MsgFrameUnknown (i : Z) (addr : Z)
      (*   [%zd] ??? [%p]\n *)
  | MsgNoBacktraceNamed (why : string)
      (* No backtrace named %s\n *)
  | MsgWinTraceLabel (why : string)
      (* Stack trace labeled "%s":\n *)
  | MsgWinFrameLine (depth : Z) (module name srcline : string) (offset : Z)
      (*   [%d] <%s>:%s() at %s [%p]\n *)
  | MsgWinFrame (depth : Z) (module name : string) (offset : Z)
      (*   [%d] <%s>:%s() [%p]\n *)
  | MsgWinFrameUnknown (depth : Z) (name : string) (offset : Z)
      (*   [%d] <unknown module>:%s [%p]\n *)
  | MsgBanner (tid : Z) (name tbuf : string) (sig : Z) (signame : string)
      (* \nSWI-Prolog [thread %d (%Ws) at %s]: received fatal signal %d (%s)\n *)
  | MsgPrologStack
      (* Prolog stack:\n *)
  | MsgRunningHooks (status : Z)
      (* Running on_halt hooks with status %d\n *)
  | MsgKilling (pid : Z)
      (* Killing %d with default signal handlers\n *)
  | MsgAborting
      (* Aborting\n *)
  | MsgNotSupported
      (* %s:%d C-stack dumps are not supported on this platform\n *).

(** What the process does that is visible from outside, in program order. *)
Inductive event :=
  | Out (m : message)                    (* Sdprintf / SdprintfX *)
  | SignalDfl (sig : Z)                  (* signal(sig, SIG_DFL) *)
  | Alarm (seconds : Z)                  (* alarm(seconds) *)
  | PrologBacktrace (depth flags : Z)    (* PL_backtrace(depth, flags) *)
  | RunOnHalt (status : Z)               (* run_on_halt(&GD->os.exit_hooks, status) *)
  | Kill (pid sig : Z)                   (* kill(pid, sig) *)
  | Abort                                (* abort() *)
  | FatalError (msg : string)            (* fatalError(msg) *).

(** ** Memory: the thread's local data and the heap of trace stores *)

Definition loc := positive.

(** The one field of [PL_local_data] this file uses. *)
Record PL_local_data := mkLD { btrace_store : option loc }.

Record world (B : Type) := mkWorld {
  ld : option PL_local_data;        (* LD, [None] when the thread has none *)
  heap : gmap loc (option B);       (* malloc'ed stores; [Some None]: not yet written *)
  log : list event
}.
Arguments mkWorld {B}.
Arguments ld {B}.
Arguments heap {B}.
Arguments log {B}.

(** ** Results and the state monad of the embedding *)

Inductive result (A : Type) :=
  | Ok (a : A)
  | Undefined        (* undefined behaviour: bad index, bad pointer *)
  | Timeout          (* the fuel of a loop ran out *).
Arguments Ok {A}.
Arguments Undefined {A}.
Arguments Timeout {A}.

Definition Mon (B A : Type) : Type := world B → result (A * world B).

Global Instance Mon_ret B : MRet (Mon B) := λ A a w, Ok (a, w).
Global Instance Mon_bind B : MBind (Mon B) := λ A C f m w,
  match m w with
  | Ok (a, w') => f a w'
  | Undefined => Undefined
  | Timeout => Timeout
  end.

Section Primitives.
Context {B : Type}.

Definition undefined {A} : Mon B A := λ _, Undefined.
Definition timeout {A} : Mon B A := λ _, Timeout.

Definition defined {A} (o : option A) : Mon B A :=
  match o with Some a => mret a | None => undefined end.

Definition emit (e : event) : Mon B unit :=
  λ w, Ok ((), mkWorld (ld w) (heap w) (log w ++ [e])).

Definition Sdprintf (m : message) : Mon B unit := emit (Out m).

(** [HAS_LD] / [if ( LD )] *)
Definition HAS_LD : Mon B bool := λ w, Ok (bool_decide (is_Some (ld w)), w).

(** [LD->btrace_store]; dereferences [LD]. *)
Definition get_LD_btrace_store : Mon B (option loc) := λ w,
  match ld w with
  | Some l => Ok (btrace_store l, w)
  | None => Undefined
  end.

(** [LD->btrace_store = p] *)
Definition set_LD_btrace_store (p : option loc) : Mon B unit := λ w,
  match ld w with
  | Some _ => Ok ((), mkWorld (Some (mkLD p)) (heap w) (log w))
  | None => Undefined
  end.

(** [malloc(sizeof(btrace))]: a fresh cell without content, or [NULL]. *)
Definition malloc (succeeds : bool) : Mon B (option loc) := λ w,
  if succeeds
  then let p := fresh (dom (heap w)) in
       Ok (Some p, mkWorld (ld w) (<[p := None]> (heap w)) (log w))
  else Ok (None, w).

(** [free(p)] of a [malloc]'ed store. *)
Definition free (p : loc) : Mon B unit := λ w,
  match heap w !! p with
  | Some _ => Ok ((), mkWorld (ld w) (delete p (heap w)) (log w))
  | None => Undefined
  end.

(** [*p] *)
Definition load (p : loc) : Mon B B := λ w,
  match heap w !! p with
  | Some (Some b) => Ok (b, w)
  | _ => Undefined
  end.

(** [*p = b], also used for [memset(p, 0, sizeof( *p))]. *)
Definition store (p : loc) (b : B) : Mon B unit := λ w,
  match heap w !! p with
  | Some _ => Ok ((), mkWorld (ld w) (<[p := Some b]> (heap w)) (log w))
  | None => Undefined
  end.

(** A counted [for] loop over the indices [idx]. *)
Fixpoint for_each (idx : list Z) (body : Z → Mon B unit) : Mon B unit :=
  match idx with
  | [] => mret ()
  | i :: idx => body i;; for_each idx body
  end.
End Primitives.

(** The messages of a log, in order: what the diagnostic sink received. *)
Definition sink (l : list event) : list message :=
  omap (λ e, match e with Out m => Some m | _ => None end) l.

(** ** Slot reservation: [next_btrace_id]

    The function has three textual copies that differ only in the type of
    [bt]; all of them touch [bt->current] alone, so it is embedded once, on
    the cursor.  [atomic] is [#ifdef COMPARE_AND_SWAP]. *)
Module Cursor.

(** [COMPARE_AND_SWAP(&cursor, old, new)] run without interference:
    the success flag and the cursor afterwards. *)
Definition COMPARE_AND_SWAP (cursor old new : Z) : bool * Z :=
  if bool_decide (cursor = old) then (true, new) else (false, cursor).

(** The [do ... while ( !COMPARE_AND_SWAP(...) )] loop.  Result: the
    reserved index and the cursor afterwards. *)
Fixpoint cas_loop (fuel : nat) (cursor : Z) : result (Z * Z) :=
  match fuel with
  | O => Timeout
  | S fuel =>
      let current := cursor in
      let next := int_add current 1 in
      let next := if bool_decide (next = SAVE_TRACES) then 0 else next in
      let '(swapped, cursor) := COMPARE_AND_SWAP cursor current next in
      if swapped then Ok (current, cursor) else cas_loop fuel cursor
  end.

(** The [#else] branch: [current = bt->current++ % SAVE_TRACES] and the
    modulo afterwards. *)
Definition plain (cursor : Z) : Z * Z :=
  let current := int_rem cursor SAVE_TRACES in
  let cursor := int_add cursor 1 in
  let cursor :=
    if bool_decide (cursor >= SAVE_TRACES)
    then int_rem cursor SAVE_TRACES else cursor in
  (current, cursor).

Definition next_btrace_id (atomic : bool) (fuel : nat) (cursor : Z)
  : result (Z * Z) :=
  if atomic then cas_loop fuel cursor else Ok (plain cursor).

End Cursor.

(** ** The glibc configuration ([HAVE_EXECINFO_H], [HAVE_BACKTRACE]) *)
Module Glibc.

(** [struct btrace]: three parallel arrays of [SAVE_TRACES] entries.  An
    entry of [retaddr] is [NULL] or a [malloc]'ed array of return
    addresses; an entry of [why] is [NULL] or the label. *)
Record btrace := mk_btrace {
  retaddr : list (option (list Z));
  why : list (option string);
  sizes : list Z;
  current : Z;
  shared : bool
}.

(** The result of [memset(s, 0, sizeof( *s))]. *)
Definition zeroed : btrace :=
  {| retaddr := replicate (Z.to_nat SAVE_TRACES) None;
     why := replicate (Z.to_nat SAVE_TRACES) None;
     sizes := replicate (Z.to_nat SAVE_TRACES) 0;
     current := 0;
     shared := false |}.

Definition set_current (c : Z) (b : btrace) : btrace :=
  mk_btrace (retaddr b) (why b) (sizes b) c (shared b).
Definition set_shared (s : bool) (b : btrace) : btrace :=
  mk_btrace (retaddr b) (why b) (sizes b) (current b) s.

(** What [dladdr()] fills in. *)
Record Dl_info := mk_Dl_info {
  dli_fname : option string;
  dli_fbase : Z;
  dli_sname : option string;
  dli_saddr : Z
}.

(** What a call of [save_backtrace] takes from its environment: the
    return addresses on the C stack, innermost first, and the outcome
    of its two [malloc] calls. *)
Record walk_env := mk_walk_env {
  stack : list Z;
  store_alloc : bool;
  frames_alloc : bool
}.

(** glibc's [backtrace(array, size)]: the first [size] return addresses. *)
Definition backtrace (stk : list Z) (size : Z) : list Z :=
  take (Z.to_nat size) stk.

(** [strstr(s, sub) != NULL] *)
Definition strstr (s sub : string) : bool :=
  bool_decide (is_Some (String.index 0 sub s)).

(** [const char *sep] of [addr2line]. *)
Definition sep : string := "() at ".

(** Subtraction on [uintptr_t] (64 bits). *)
Definition uintptr_sub (a b : Z) : Z := (a - b) mod 2 ^ 64.

Section Build.
(** [#ifdef COMPARE_AND_SWAP], and the fuel of the unbounded loops. *)
Variable atomic : bool.
Variable fuel : nat.
(** [dladdr(addr, &info)], [None] when it returns 0. *)
Variable dladdr : Z → option Dl_info.
(** The helper process of [addr2line], as the loop sees it: what
    can be read from [popen(cmd, "r")] for the command made of
    [fname] and [offset]; [None] when the test of the command's
    length fails or the process cannot be started.  That test,
    which depends on [size], is [Addr2lineCmd.helper]. *)
Variable popen : string → Z → option string.

Local Abbreviation M := (Mon btrace).

(** The [while] loop of [addr2line] ([__APPLE__] not defined): [o] is
    what has been written to [buf], [ebuf] the offset of its last
    byte. *)
Fixpoint addr2line_read (input : string) (nl : Z) (o : string)
  (ebuf : nat) : string :=
  match input with
  | EmptyString => o                                   (* EOF *)
  | String c input =>
      if bool_decide (String.length o < ebuf)%nat then
        if Ascii.eqb c "010"%char then
          let nl := int_add nl 1 in
          if bool_decide (nl = 1)
             && bool_decide (String.length o + String.length sep < ebuf)%nat
          then addr2line_read input nl (o +:+ sep) ebuf
          else addr2line_read input nl o ebuf
        else addr2line_read input nl (o +:+ String c EmptyString) ebuf
      else o
  end.

(** [addr2line(fname, offset, buf, size)] from [popen] on: the bytes
    the loop has stored in [buf], or [None] when it returns FALSE.
    The caller reads them as a C string, up to the first NUL
    ([Addr2lineCmd.c_string]). *)
Definition addr2line (fname : string) (offset : Z) (size : Z)
  : option string :=
  match popen fname offset with
  | Some output =>
      let buf := addr2line_read output 0 "" (Z.to_nat (size - 1)) in
      if bool_decide (buf ≠ "") then Some buf else None
  | None => None
  end.

Definition btrace_destroy (bt : loc) : M unit :=
  b ← load bt;
  for_each (seqZ 0 SAVE_TRACES)
    (λ i, _ ← defined (arr_get (retaddr b) i); mret ());;
  free bt.

Definition get_trace_store (malloc_ok : bool) (create : bool)
  : M (option loc) :=
  has_ld ← HAS_LD;
  if (has_ld : bool) then
    st ← get_LD_btrace_store;
    match st with
    | None =>
        s ← malloc malloc_ok;
        match s with
        | Some s =>
            store s zeroed;;
            b ← load s;
            store s (set_shared true b);;
            set_LD_btrace_store (Some s)
        | None => mret ()
        end
    | Some _ => mret ()
    end;;
    get_LD_btrace_store
  else if create then
    s ← malloc malloc_ok;
    match s with
    | Some s => store s zeroed
    | None => mret ()
    end;;
    mret s
  else mret None.

Definition next_btrace_id (bt : loc) : M Z :=
  b ← load bt;
  match Cursor.next_btrace_id atomic fuel (current b) with
  | Ok (cur, cursor) => store bt (set_current cursor b);; mret cur
  | Undefined => undefined
  | Timeout => timeout
  end.

Definition save_backtrace (env : walk_env) (label : string)
  : M (option loc) :=
  bt ← get_trace_store (store_alloc env) true;
  match bt with
  | Some p =>
      cur ← next_btrace_id p;
      let array := backtrace (stack env) 100 in
      let frames := Z.of_nat (length array) in
      b ← load p;
      sizes' ← defined (arr_set (sizes b) cur frames);
      _ ← defined (arr_get (retaddr b) cur);
      retaddr' ← defined (arr_set (retaddr b) cur
                            (if frames_alloc env then Some array else None));
      why' ← defined (arr_set (why b) cur (Some label));
      store p (mk_btrace retaddr' why' sizes' (current b) (shared b));;
      mret (Some p)
  | None => mret None
  end.

(** The body of the [for] loop of [print_trace]. *)
Definition print_frame (b : btrace) (me : Z) (i : Z) : M unit :=
  slot ← defined (arr_get (retaddr b) me);
  array ← defined slot;
  addr ← defined (arr_get array i);
  match dladdr addr with
  | Some info =>
      let offset := uintptr_sub addr (dli_fbase info) in
      match dli_fname info with
      | Some fname =>
          match (if strstr fname ".so" then addr2line fname offset 512
                 else None) with
          | Some buf => Sdprintf (MsgFrameLine i buf addr)
          | None =>
              match dli_sname info with
              | Some sname =>
                  Sdprintf (MsgFrameSym i fname sname
                              (addr - dli_saddr info) addr)
              | None => Sdprintf (MsgFrameOff i fname offset addr)
              end
          end
      | None => Sdprintf (MsgFrameUnknown i addr)
      end
  | None => mret ()
  end.

Definition print_trace (bt : loc) (me : Z) : M unit :=
  b ← load bt;
  label ← defined (arr_get (why b) me);
  match label with
  | Some l =>
      Sdprintf (MsgTraceLabel l);;
      n ← defined (arr_get (sizes b) me);
      for_each (seqZ 0 n) (print_frame b me)
  | None => Sdprintf MsgNoStackTrace
  end.

Definition print_backtrace (malloc_ok : bool) (last : Z) : M unit :=
  bt ← get_trace_store malloc_ok false;
  match bt with
  | Some p =>
      b ← load p;
      let me := int_sub (current b) last in
      let me := if bool_decide (me < 0) then int_add me SAVE_TRACES
                else me in
      print_trace p me
  | None => Sdprintf MsgNoStore
  end.

(** [strcmp(a, b) == 0] on a label pointer that may be [NULL]. *)
Definition label_is (slot : option string) (label : string) : bool :=
  match slot with
  | Some l => String.eqb l label
  | None => false
  end.

(** The [for(;;)] loop of [bstore_print_backtrace_named]. *)
Fixpoint named_loop (n : nat) (bt : loc) (b : btrace) (label : string)
  (me : Z) : M unit :=
  match n with
  | O => timeout
  | S n =>
      let me := if bool_decide (me < 0) then int_add me SAVE_TRACES
                else me in
      slot ← defined (arr_get (why b) me);
      if label_is slot label then print_trace bt me
      else
        let me := int_sub me 1 in
        if bool_decide (me = int_sub (current b) 1)
        then Sdprintf (MsgNoBacktraceNamed label)
        else named_loop n bt b label me
  end.

Definition bstore_print_backtrace_named (bt : option loc)
  (label : string) : M unit :=
  match bt with
  | Some p =>
      b ← load p;
      let me := int_sub (current b) 1 in
      named_loop fuel p b label me
  | None => mret ()
  end.

End Build.
End Glibc.

(** ** The libunwind configuration ([HAVE_LIBUNWIND]) *)
Module Libunwind.

Definition MAX_DEPTH : Z := 10.

Record frame_info := mk_frame_info {
  f_name : string;        (* char name[32] *)
  f_offset : Z
}.

Record btrace_stack := mk_btrace_stack {
  name : option string;   (* label of the backtrace, or NULL *)
  depth : Z;
  frame : list frame_info
}.

Record btrace := mk_btrace {
  dumps : list btrace_stack;
  current : Z;
  shared : bool
}.

Definition zeroed : btrace :=
  {| dumps := replicate (Z.to_nat SAVE_TRACES)
                {| name := None; depth := 0;
                   frame := replicate (Z.to_nat MAX_DEPTH)
                              (mk_frame_info "" 0) |};
     current := 0;
     shared := false |}.

Definition set_current (c : Z) (b : btrace) : btrace :=
  mk_btrace (dumps b) c (shared b).
Definition set_shared (s : bool) (b : btrace) : btrace :=
  mk_btrace (dumps b) (current b) s.

(** What a call of [save_backtrace] takes from its environment: the
    frames [unw_step] reaches, innermost first, each with the name and
    offset [unw_get_proc_name] reports for it, and the outcome of
    [malloc]. *)
Record walk_env := mk_walk_env {
  stack : list frame_info;
  store_alloc : bool
}.

(** [unw_get_proc_name(&cursor, buf, bufsize, &offset)] at frame [f]. *)
Definition unw_get_proc_name (f : frame_info) (bufsize : Z) : frame_info :=
  mk_frame_info (String.substring 0 (Z.to_nat (bufsize - 1)) (f_name f))
                (f_offset f).

(** The [for] loop of [save_backtrace]; [cursor] holds the frames
    [unw_step] has not reached yet.  Result: the final [depth] and the
    frame array. *)
Fixpoint walk (cursor : list frame_info) (depth : Z)
  (frame : list frame_info) : option (Z * list frame_info) :=
  match cursor with
  | [] => Some (depth, frame)                 (* unw_step() <= 0 *)
  | f :: cursor =>
      if bool_decide (depth < MAX_DEPTH) then
        frame ← arr_set frame depth (unw_get_proc_name f 32);
        walk cursor (int_add depth 1) frame
      else Some (depth, frame)
  end.

Section Build.
Variable atomic : bool.
Variable fuel : nat.

Local Abbreviation M := (Mon btrace).

Definition btrace_destroy (bt : loc) : M unit := free bt.

Definition get_trace_store (malloc_ok : bool) (create : bool)
  : M (option loc) :=
  has_ld ← HAS_LD;
  if (has_ld : bool) then
    st ← get_LD_btrace_store;
    match st with
    | None =>
        s ← malloc malloc_ok;
        match s with
        | Some s =>
            store s zeroed;;
            b ← load s;
            store s (set_shared true b);;
            set_LD_btrace_store (Some s)
        | None => mret ()
        end
    | Some _ => mret ()
    end;;
    get_LD_btrace_store
  else if create then
    s ← malloc malloc_ok;
    match s with
    | Some s => store s zeroed
    | None => mret ()
    end;;
    mret s
  else mret None.

Definition next_btrace_id (bt : loc) : M Z :=
  b ← load bt;
  match Cursor.next_btrace_id atomic fuel (current b) with
  | Ok (cur, cursor) => store bt (set_current cursor b);; mret cur
  | Undefined => undefined
  | Timeout => timeout
  end.

Definition save_backtrace (env : walk_env) (why : string)
  : M (option loc) :=
  bt ← get_trace_store (store_alloc env) true;
  match bt with
  | Some p =>
      cur ← next_btrace_id p;
      b ← load p;
      s ← defined (arr_get (dumps b) cur);
      '(depth, frame) ← defined (walk (stack env) 0 (frame s));
      dumps' ← defined (arr_set (dumps b) cur
                          (mk_btrace_stack (Some why) depth frame));
      store p (mk_btrace dumps' (current b) (shared b));;
      mret (Some p)
  | None => mret None
  end.

Definition print_trace (bt : loc) (me : Z) : M unit :=
  b ← load bt;
  s ← defined (arr_get (dumps b) me);
  match name s with
  | Some l =>
      Sdprintf (MsgTraceLabel l);;
      for_each (seqZ 0 (depth s))
        (λ d, f ← defined (arr_get (frame s) d);
              Sdprintf (MsgUnwFrame d (f_name f) (f_offset f)))
  | None => Sdprintf MsgNoStackTrace
  end.

Definition print_backtrace (malloc_ok : bool) (last : Z) : M unit :=
  bt ← get_trace_store malloc_ok false;
  match bt with
  | Some p =>
      b ← load p;
      let me := int_sub (current b) last in
      let me := if bool_decide (me < 0) then int_add me SAVE_TRACES
                else me in
      print_trace p me
  | None => Sdprintf MsgNoStore
  end.

Definition label_is (slot : option string) (label : string) : bool :=
  match slot with
  | Some l => String.eqb l label
  | None => false
  end.

(** The [for(;;)] loop of [bstore_print_backtrace_named]; it ends
    silently when no slot matches. *)
Fixpoint named_loop (n : nat) (bt : loc) (b : btrace) (why : string)
  (me : Z) : M unit :=
  match n with
  | O => timeout
  | S n =>
      let me := if bool_decide (me < 0) then int_add me SAVE_TRACES
                else me in
      s ← defined (arr_get (dumps b) me);
      if label_is (name s) why then print_trace bt me
      else
        let me := int_sub me 1 in
        if bool_decide (me = int_sub (current b) 1)
        then mret ()
        else named_loop n bt b why me
  end.

Definition bstore_print_backtrace_named (bt : option loc)
  (why : string) : M unit :=
  match bt with
  | Some p =>
      b ← load p;
      let me := int_sub (current b) 1 in
      named_loop fuel p b why me
  | None => mret ()
  end.

End Build.
End Libunwind.

(** ** The Windows configuration ([__WINDOWS__], [HAVE_DBGHELP_H]) *)
Module Windows.

Definition MAX_DEPTH : Z := 10.
Definition MAX_FUNCTION_NAME_LENGTH : Z := 32.
Definition MAX_MODULE_NAME_LENGTH : Z := 64.

Record frame_info := mk_frame_info {
  f_name : string;        (* char name[MAX_FUNCTION_NAME_LENGTH] *)
  f_offset : Z;
  f_module : string;      (* char module[MAX_MODULE_NAME_LENGTH] *)
  f_module_reason : Z
}.

Record btrace_stack := mk_btrace_stack {
  name : option string;
  depth : Z;
  frame : list frame_info
}.

Record btrace := mk_btrace {
  dumps : list btrace_stack;
  current : Z;
  shared : bool
}.

Definition zeroed : btrace :=
  {| dumps := replicate (Z.to_nat SAVE_TRACES)
                {| name := None; depth := 0;
                   frame := replicate (Z.to_nat MAX_DEPTH)
                              (mk_frame_info "" 0 "" 0) |};
     current := 0;
     shared := false |}.

Definition set_current (c : Z) (b : btrace) : btrace :=
  mk_btrace (dumps b) c (shared b).
Definition set_shared (s : bool) (b : btrace) : btrace :=
  mk_btrace (dumps b) (current b) s.

(** One successful [StackWalk64] step, with what the symbol API says
    about the frame it reached. *)
Record walked := mk_walked {
  pc : Z;                          (* frame.AddrPC.Offset *)
  module_info : Z + string;        (* GetLastError(), or basename(ImageName) *)
  dwarf_symbol : option string;    (* dwarf_sym_from_addr *)
  symbol : option string           (* SymFromAddr *)
}.

Record walk_env := mk_walk_env {
  sym_initialize : bool;           (* SymInitialize() != 0 *)
  stack : list walked;             (* the steps StackWalk64 can make *)
  store_alloc : bool
}.

(** [strncpy(dst, src, n); dst[n-1] = '\0'] *)
Definition strncpy0 (src : string) (n : Z) : string :=
  String.substring 0 (Z.to_nat (n - 1)) src.

Section Build.
Variable atomic : bool.
Variable fuel : nat.
Variable have_libdwarf : bool.
(** [SymGetModuleInfo64 && dwarf_addr2line] at report time. *)
Variable dwarf_addr2line : Z → option string.

Local Abbreviation M := (Mon btrace).

Definition btrace_destroy (bt : loc) : M unit := free bt.

(** Here [LD] is dereferenced without a test, and [create] asks for a
    private store whenever the thread already has one. *)
Definition get_trace_store (malloc_ok : bool) (create : bool)
  : M (option loc) :=
  st ← get_LD_btrace_store;
  match st with
  | None =>
      s ← malloc malloc_ok;
      match s with
      | Some s =>
          store s zeroed;;
          b ← load s;
          store s (set_shared true b);;
          set_LD_btrace_store (Some s)
      | None => mret ()
      end;;
      get_LD_btrace_store
  | Some _ =>
      if create then
        s ← malloc malloc_ok;
        match s with
        | Some s => store s zeroed
        | None => mret ()
        end;;
        mret s
      else get_LD_btrace_store
  end.

Definition next_btrace_id (bt : loc) : M Z :=
  b ← load bt;
  match Cursor.next_btrace_id atomic fuel (current b) with
  | Ok (cur, cursor) => store bt (set_current cursor b);; mret cur
  | Undefined => undefined
  | Timeout => timeout
  end.

(** What one turn of the [while] loop of [backtrace] writes into
    [trace->frame[depth]]. *)
Definition record_frame (w : walked) : frame_info :=
  match module_info w with
  | inl reason => mk_frame_info "" (pc w) "" reason
  | inr image =>
      let module := strncpy0 image MAX_MODULE_NAME_LENGTH in
      let sym :=
        match (if have_libdwarf then dwarf_symbol w else None) with
        | Some s => Some s
        | None => symbol w
        end in
      match sym with
      | Some s =>
          mk_frame_info (strncpy0 s MAX_FUNCTION_NAME_LENGTH) (pc w)
                        module 0
      | None => mk_frame_info "" (pc w) module 0
      end
  end.

(** The [while] loop of [backtrace]. *)
Fixpoint stack_walk (steps : list walked) (skip : Z) (depth : Z)
  (frame : list frame_info) : option (Z * list frame_info) :=
  if bool_decide (depth < MAX_DEPTH) then
    match steps with
    | [] => Some (depth, frame)             (* StackWalk64() == 0 *)
    | w :: steps =>
        if bool_decide (skip > 0)
        then stack_walk steps (int_sub skip 1) depth frame
        else
          frame ← arr_set frame depth (record_frame w);
          stack_walk steps skip (int_add depth 1) frame
    end
  else Some (depth, frame).

(** [backtrace(trace, pExceptionInfo)]: the depth it returns and the
    frame array it leaves. *)
Definition backtrace (env : walk_env) (exception : bool)
  (frame : list frame_info) : option (Z * list frame_info) :=
  let skip := if exception then 0 else 2 in
  if sym_initialize env then stack_walk (stack env) skip 0 frame
  else Some (0, frame).

Definition win_save_backtrace (env : walk_env) (why : string)
  (exception : bool) : M (option loc) :=
  bt ← get_trace_store (store_alloc env) true;
  match bt with
  | Some p =>
      cur ← next_btrace_id p;
      b ← load p;
      s ← defined (arr_get (dumps b) cur);
      '(depth, frame) ← defined (backtrace env exception (frame s));
      dumps' ← defined (arr_set (dumps b) cur
                          (mk_btrace_stack (Some why) depth frame));
      store p (mk_btrace dumps' (current b) (shared b));;
      mret (Some p)
  | None => mret None
  end.

Definition save_backtrace (env : walk_env) (why : string)
  : M (option loc) :=
  win_save_backtrace env why false.

Definition print_trace (bt : loc) (me : Z) : M unit :=
  b ← load bt;
  s ← defined (arr_get (dumps b) me);
  match name s with
  | Some l =>
      Sdprintf (MsgWinTraceLabel l);;
      for_each (seqZ 0 (depth s))
        (λ d, f ← defined (arr_get (frame s) d);
              if bool_decide (f_module f ≠ "") then
                match (if have_libdwarf then dwarf_addr2line (f_offset f)
                       else None) with
                | Some srcline =>
                    Sdprintf (MsgWinFrameLine d (f_module f) (f_name f)
                                srcline (f_offset f))
                | None =>
                    Sdprintf (MsgWinFrame d (f_module f) (f_name f)
                                (f_offset f))
                end
              else Sdprintf (MsgWinFrameUnknown d (f_name f) (f_offset f)))
  | None => Sdprintf MsgNoStackTrace
  end.

Definition print_backtrace (malloc_ok : bool) (last : Z) : M unit :=
  bt ← get_trace_store malloc_ok false;
  match bt with
  | Some p =>
      b ← load p;
      let me := int_sub (current b) last in
      let me := if bool_decide (me < 0) then int_add me SAVE_TRACES
                else me in
      print_trace p me
  | None => Sdprintf MsgNoStore
  end.

Definition label_is (slot : option string) (label : string) : bool :=
  match slot with
  | Some l => String.eqb l label
  | None => false
  end.

Fixpoint named_loop (n : nat) (bt : loc) (b : btrace) (why : string)
  (me : Z) : M unit :=
  match n with
  | O => timeout
  | S n =>
      let me := if bool_decide (me < 0) then int_add me SAVE_TRACES
                else me in
      s ← defined (arr_get (dumps b) me);
      if label_is (name s) why then print_trace bt me
      else
        let me := int_sub me 1 in
        if bool_decide (me = int_sub (current b) 1)
        then mret ()
        else named_loop n bt b why me
  end.

Definition bstore_print_backtrace_named (bt : option loc)
  (why : string) : M unit :=
  match bt with
  | Some p =>
      b ← load p;
      let me := int_sub (current b) 1 in
      named_loop fuel p b why me
  | None => mret ()
  end.

End Build.
End Windows.

(** ** The code under "SHARED" and "PROLOG CONNECTION"

    It is compiled against whichever configuration defined [BTRACE_DONE];
    [walker] is what it uses of that configuration. *)
Record walker := mk_walker {
  wk_btrace : Type;
  wk_env : Type;
  wk_get_trace_store : bool → bool → Mon wk_btrace (option loc);
  wk_save_backtrace : wk_env → string → Mon wk_btrace (option loc);
  wk_bstore_print_backtrace_named : option loc → string → Mon wk_btrace unit;
  wk_btrace_destroy : loc → Mon wk_btrace unit;
  wk_shared : wk_btrace → bool
}.

Definition glibc_walker (atomic : bool) (fuel : nat)
  (dladdr : Z → option Glibc.Dl_info) (popen : string → Z → option string)
  : walker :=
  {| wk_btrace := Glibc.btrace;
     wk_env := Glibc.walk_env;
     wk_get_trace_store := Glibc.get_trace_store;
     wk_save_backtrace := Glibc.save_backtrace atomic fuel;
     wk_bstore_print_backtrace_named :=
       Glibc.bstore_print_backtrace_named fuel dladdr popen;
     wk_btrace_destroy := Glibc.btrace_destroy;
     wk_shared := Glibc.shared |}.

Definition libunwind_walker (atomic : bool) (fuel : nat) : walker :=
  {| wk_btrace := Libunwind.btrace;
     wk_env := Libunwind.walk_env;
     wk_get_trace_store := Libunwind.get_trace_store;
     wk_save_backtrace := Libunwind.save_backtrace atomic fuel;
     wk_bstore_print_backtrace_named :=
       Libunwind.bstore_print_backtrace_named fuel;
     wk_btrace_destroy := Libunwind.btrace_destroy;
     wk_shared := Libunwind.shared |}.

Definition windows_walker (atomic : bool) (fuel : nat) (have_libdwarf : bool)
  (dwarf_addr2line : Z → option string) : walker :=
  {| wk_btrace := Windows.btrace;
     wk_env := Windows.walk_env;
     wk_get_trace_store := Windows.get_trace_store;
     wk_save_backtrace := Windows.save_backtrace atomic fuel have_libdwarf;
     wk_bstore_print_backtrace_named :=
       Windows.bstore_print_backtrace_named fuel have_libdwarf dwarf_addr2line;
     wk_btrace_destroy := Windows.btrace_destroy;
     wk_shared := Windows.shared |}.

(** What is known of the platform when the file is compiled. *)
Record platform := mk_platform {
  SIGALRM : option Z;          (* [None]: not defined *)
  SIGABRT : option Z;
  SIGSEGV : option Z;
  HAVE_ALARM : bool;
  HAVE_KILL : bool;
  HAVE_GETPID : bool;
  PL_BT_SAFE : Z
}.

(** What the crash handler asks of the running system. *)
Record crash_env (E : Type) := mk_crash_env {
  thread_self : Z;                   (* PL_thread_self() *)
  thread_alias : option string;      (* PL_get_thread_alias(), PL_atom_wchars() *)
  ctime : string;                    (* ctime_r(&now, tbuf) *)
  signal_name : Z → string;
  pid : Z;                           (* gettid() or getpid() *)
  walk : E                           (* what the stack walker finds *)
}.
Arguments thread_self {E}.
Arguments thread_alias {E}.
Arguments ctime {E}.
Arguments signal_name {E}.
Arguments pid {E}.
Arguments walk {E}.

(** [signal(s, SIG_DFL)] under [#ifdef s]. *)
Definition signal_dfl_if_defined {B} (s : option Z) : Mon B unit :=
  match s with
  | Some s => emit (SignalDfl s)
  | None => mret ()
  end.

Module Shared.
Section Walker.
Variable W : walker.

Local Abbreviation M := (Mon (wk_btrace W)).

Definition print_backtrace_named (malloc_ok : bool) (why : string)
  : M unit :=
  bt ← wk_get_trace_store W malloc_ok false;
  wk_bstore_print_backtrace_named W bt why.

Definition print_c_backtrace (env : wk_env W) (why : string) : M unit :=
  bt ← wk_save_backtrace W env why;
  wk_bstore_print_backtrace_named W bt why;;
  match bt with
  | Some p =>
      b ← load p;
      if wk_shared W b then mret () else wk_btrace_destroy W p
  | None => mret ()
  end.

Definition sigCrashHandler (pf : platform) (env : crash_env (wk_env W))
  (sig : Z) : M unit :=
  let name := "" in
  emit (SignalDfl sig);;
  signal_dfl_if_defined (SIGALRM pf);;
  signal_dfl_if_defined (SIGABRT pf);;
  signal_dfl_if_defined (SIGSEGV pf);;
  (if HAVE_ALARM pf then emit (Alarm 10) else mret ());;
  let tid := thread_self env in
  let tbuf := String.substring 0 24 (ctime env) in
  let name := match thread_alias env with
              | Some alias => alias
              | None => name
              end in
  Sdprintf (MsgBanner (thread_self env) name tbuf sig
              (signal_name env sig));;
  print_c_backtrace (walk env) "crash";;
  Sdprintf MsgPrologStack;;
  emit (PrologBacktrace 25 (PL_BT_SAFE pf));;
  Sdprintf (MsgRunningHooks (int_add 128 sig));;
  emit (RunOnHalt (int_add 128 sig));;
  if HAVE_KILL pf then
    Sdprintf (MsgKilling (pid env));;
    emit (Kill (pid env) sig)
  else
    Sdprintf MsgAborting;;
    emit Abort.

(** [c_backtrace_clear/0]; the predicate runs with [LD] ([PRED_LD]). *)
Definition c_backtrace_clear : M bool :=
  st ← get_LD_btrace_store;
  match st with
  | Some p =>
      wk_btrace_destroy W p;;
      set_LD_btrace_store None
  | None => mret ()
  end;;
  mret true.

(** [c_backtrace_print/1]; [A1] is what [PL_get_chars] makes of the
    argument, [None] when it cannot be converted to text. *)
Definition c_backtrace_print (malloc_ok : bool) (A1 : option string)
  : M bool :=
  match A1 with
  | Some s => print_backtrace_named malloc_ok s;; mret true
  | None => mret false
  end.

End Walker.
End Shared.

(** [crashHandler], the unhandled-exception filter of the Windows
    configuration. *)
Definition Windows_crashHandler (atomic : bool) (fuel : nat)
  (have_libdwarf : bool) (dwarf_addr2line : Z → option string)
  (env : Windows.walk_env) (malloc_ok : bool) : Mon Windows.btrace unit :=
  Windows.win_save_backtrace atomic fuel have_libdwarf env "crash" true;;
  Shared.print_backtrace_named
    (windows_walker atomic fuel have_libdwarf dwarf_addr2line) malloc_ok
    "crash";;
  emit Abort.

(** ** The fallback configuration: no stack walker at all *)
Module Fallback.

(** [struct btrace] is declared but never defined here. *)
Definition btrace : Type := Empty_set.

Local Abbreviation M := (Mon btrace).

Definition save_backtrace (why : string) : M (option loc) := mret None.

Definition btrace_destroy (bt : option loc) : M unit := mret ().

Definition print_backtrace (last : Z) : M unit := Sdprintf MsgNotSupported.

Definition print_backtrace_named (why : string) : M unit :=
  Sdprintf MsgNotSupported.

Definition print_c_backtrace (why : string) : M unit := mret ().

(** [signals] is [O_SIGNALS && defined(HAVE_SIGNAL)]. *)
Definition sigCrashHandler (signals : bool) (pf : platform)
  (env : crash_env unit) (sig : Z) : M unit :=
  if signals then
    let name := "" in
    emit (SignalDfl sig);;
    let tid := thread_self env in
    let tbuf := String.substring 0 24 (ctime env) in
    let name := match thread_alias env with
                | Some alias => alias
                | None => name
                end in
    Sdprintf (MsgBanner (thread_self env) name tbuf sig
                (signal_name env sig));;
    emit (RunOnHalt 4);;
    if HAVE_KILL pf && HAVE_GETPID pf
    then emit (Kill (pid env) sig)
    else emit Abort
  else emit (FatalError "Something went wrong").

End Fallback.

(** ** Slot reservation by several callers at once

    The atomic path of [next_btrace_id] as each caller executes it: it
    reads the cursor, computes [next], and tries the compare-and-swap;
    when that fails it starts over.  The read and the compare-and-swap
    are the two accesses to shared memory; callers interleave between
    them in any order, given by a schedule. *)
Module Concurrent.

Inductive caller :=
  | AtRead                           (* about to read bt->current *)
  | AtCAS (current next : Z)         (* about to compare and swap *)
  | Returned (index : Z).            (* return current *)

Record state := mk_state {
  cursor : Z;                        (* bt->current *)
  callers : list caller
}.

(** Caller [i] makes its next access to shared memory. *)
Definition step (i : nat) (s : state) : state :=
  match callers s !! i with
  | Some AtRead =>
      let current := cursor s in
      let next := int_add current 1 in
      let next := if bool_decide (next = SAVE_TRACES) then 0 else next in
      mk_state (cursor s) (<[i := AtCAS current next]> (callers s))
  | Some (AtCAS current next) =>
      let '(swapped, c) := Cursor.COMPARE_AND_SWAP (cursor s) current next in
      mk_state c (<[i := if swapped then Returned current else AtRead]>
                    (callers s))
  | _ => s
  end.

Definition run (schedule : list nat) (s : state) : state :=
  foldl (λ s i, step i s) s schedule.

(** [m] callers enter [next_btrace_id] on a store whose cursor is [c]. *)
Definition init (c : Z) (m : nat) : state := mk_state c (replicate m AtRead).

Definition index_of (t : caller) : option Z :=
  match t with Returned r => Some r | _ => None end.

(** The indices handed out so far. *)
Definition returned (s : state) : list Z := omap index_of (callers s).

End Concurrent.


(** * Stack location and size: [CStackSize]

    The function reads and fills three fields of the thread's
    [PL_thread_info_t].  The build configuration is a record of flags;
    what [pthread_getattr_np], [pthread_attr_getstack], [getrlimit] and
    [sysconf] answer, and the address of the local variable [info], come
    from a record that stands for the system at the time of the call.
    The macros [ROUND] and [DEBUG] are defined in another file: [ROUND]
    is a parameter, and so is whether [DEBUG(1, ...)] runs its
    statement.  [size_t] and [rlim_t] have 64 bits. *)
Module CStack.

(** [(size_t)-1] *)
Definition SIZE_MAX : Z := 2 ^ 64 - 1.

(** Subtraction on [size_t]. *)
Definition size_sub (a b : Z) : Z := (a - b) mod 2 ^ 64.

Record thread_info := mk_thread_info {
  pl_tid : Z;
  c_stack_size : Z;                  (* size_t *)
  c_stack_base : Z                   (* void* *)
}.

Record config := mk_config {
  O_PLMT : bool;
  HAVE_PTHREAD_GETATTR_NP : bool;
  HAVE_GETRLIMIT : bool;
  HAVE_SYSCONF : bool                (* and [_SC_PAGESIZE] is defined *)
}.

Record system := mk_system {
  pthread_getattr_np : bool;         (* the call returns 0 *)
  (** what [pthread_attr_getstack] stores as base and size; [None]
      when it stores nothing *)
  pthread_attr_getstack : option (Z * Z);
  getrlimit : option Z;              (* [rlim_cur]; [None]: the call fails *)
  RLIM_INFINITY : Z;
  sysconf_pagesize : Z;              (* [sysconf(_SC_PAGESIZE)] as [size_t] *)
  address_of_info : Z                (* [(size_t)&info] *)
}.

(** What [DEBUG(1, Sdprintf(...))] prints. *)
Inductive debug_message :=
  | DbgThreadStack (size : Z)        (* "Thread-stack: %ld\n" *)
  | DbgStack (rlim_cur : Z).         (* "Stack: %ld\n" *)

Section Build.
Variable cfg : config.
Variable ROUND : Z → Z → Z.
Variable debug : bool.
Variable sys : system.

Definition DEBUG (m : debug_message) : list debug_message :=
  if debug then [m] else [].

Definition round_pages (n : Z) : Z :=
  let psize :=
    if HAVE_SYSCONF cfg then
      if bool_decide (sysconf_pagesize sys = SIZE_MAX) then 8192
      else sysconf_pagesize sys
    else 8192 in
  ROUND n psize.

(** [CStackSize()]: the value returned, the thread's info afterwards
    and the debug output. *)
Definition CStackSize (info : thread_info)
  : Z * thread_info * list debug_message :=
  if O_PLMT cfg then
    if bool_decide (c_stack_size info ≠ 0) then
      (c_stack_size info, info, [])
    else if bool_decide (pl_tid info ≠ 1) then
      let out := DEBUG (DbgThreadStack (c_stack_size info)) in
      let info :=
        if HAVE_PTHREAD_GETATTR_NP cfg then
          if pthread_getattr_np sys then
            match pthread_attr_getstack sys with
            | Some (base, size) => mk_thread_info (pl_tid info) size base
            | None => info
            end
          else mk_thread_info (pl_tid info) SIZE_MAX (c_stack_base info)
        else info in
      (c_stack_size info, info, out)
    else if HAVE_GETRLIMIT cfg then
      match getrlimit sys with
      | Some rlim_cur =>
          if bool_decide (rlim_cur ≠ RLIM_INFINITY sys)
             && bool_decide (rlim_cur ≠ 0) then
            let top := round_pages (address_of_info sys) in
            let out := DEBUG (DbgStack rlim_cur) in
            let info :=
              mk_thread_info (pl_tid info) rlim_cur (c_stack_base info) in
            let info :=
              mk_thread_info (pl_tid info) (c_stack_size info)
                (size_sub top (c_stack_size info)) in
            (c_stack_size info, info, out)
          else
            let info :=
              mk_thread_info (pl_tid info) SIZE_MAX (c_stack_base info) in
            (c_stack_size info, info, [])
      | None =>
          let info :=
            mk_thread_info (pl_tid info) SIZE_MAX (c_stack_base info) in
          (c_stack_size info, info, [])
      end
    else (c_stack_size info, info, [])
  else (SIZE_MAX, info, []).

End Build.
End CStack.

(** * [addr2line] when [__APPLE__] is defined

    The helper is [atos], which answers on one line, as in
    [prologToplevel (in libswipl.8.5.20.dylib) (pl-pro.c:560)].  The
    loop copies the function, puts the separator in the place of the
    first space, passes over everything up to the second opening
    parenthesis and copies what follows up to the closing one. *)
Module Apple.
Import Glibc.

(** The [while] loop: [o] is what has been written to [buf], [ebuf]
    the offset of its last byte. *)
Fixpoint addr2line_read (input : string) (field : Z) (o : string)
  (ebuf : nat) : string :=
  match input with
  | EmptyString => o                                     (* EOF *)
  | String c input =>
      if bool_decide (String.length o < ebuf)%nat then
        if bool_decide (field = 0) then
          if Ascii.eqb c " "%char then
            let o :=
              if bool_decide (String.length o + String.length sep < ebuf)%nat
              then o +:+ sep else o in
            addr2line_read input (int_add field 1) o ebuf
          else addr2line_read input field (o +:+ String c EmptyString) ebuf
        else if bool_decide (field < 3) then
          if Ascii.eqb c "("%char
          then addr2line_read input (int_add field 1) o ebuf
          else addr2line_read input field o ebuf
        else
          if Ascii.eqb c ")"%char then o                 (* break *)
          else addr2line_read input field (o +:+ String c EmptyString) ebuf
      else o
  end.

(** [addr2line(fname, offset, buf, size)] from [popen] on; [popen]
    and the result are as for the other variant, with the command of
    [atos]. *)
Definition addr2line (popen : string → Z → option string)
  (fname : string) (offset : Z) (size : Z) : option string :=
  match popen fname offset with
  | Some output =>
      let buf := addr2line_read output 0 "" (Z.to_nat (size - 1)) in
      if bool_decide (buf ≠ "") then Some buf else None
  | None => None
  end.

End Apple.

(** * [addr2line]: the command, and the text the caller reads

    [Glibc.addr2line] and [Apple.addr2line] take the stream of the
    helper process as a parameter and yield the bytes the loop stores.
    Here are the two things around them: the test that decides whether
    the helper is started at all, and the C string the caller finds in
    [buf]. *)
Module Addr2lineCmd.

(** [#define MAXCMD 1024] *)
Definition MAXCMD : Z := 1024.

Definition NUL : ascii := "000"%char.

(** The C string that starts with the bytes [s]: it ends before the
    first NUL. *)
Fixpoint c_string (s : string) : string :=
  match s with
  | EmptyString => EmptyString
  | String c s =>
      if Ascii.eqb c NUL then EmptyString else String c (c_string s)
  end.

Section Build.
(** The result of [snprintf(cmd, size, ADDR2LINE_CMD, fname,
    (void* )offset)], an [int]: the length of the complete command,
    whatever [size] is, or a negative number. *)
Variable snprintf : string → Z → Z.
(** [popen(cmd, "r")] for the complete command made of [fname] and
    [offset]: what the helper process writes, [None] when [popen]
    returns NULL. *)
Variable popen : string → Z → option string.
(** The function from [popen] on, as the build has it:
    [Glibc.addr2line] or [Apple.addr2line]. *)
Variable body :
  (string → Z → option string) → string → Z → Z → option string.

(** The test [snprintf(...) < size]; the comparison is made in
    [size_t]. *)
Definition cmd_fits (fname : string) (offset size : Z) : bool :=
  bool_decide (snprintf fname offset `mod` 2 ^ 64 < size).

(** The stream the loop reads. *)
Definition helper (size : Z) (fname : string) (offset : Z)
  : option string :=
  if cmd_fits fname offset size then popen fname offset else None.

(** [addr2line(fname, offset, buf, size)]: the C string it leaves in
    [buf], or [None] when it returns FALSE.  [snprintf] is given
    [size], not [MAXCMD], as the room in [cmd[MAXCMD]]: a longer
    command in a larger [size] is written beyond the array. *)
Definition addr2line (fname : string) (offset : Z) (size : Z)
  : result (option string) :=
  if bool_decide (MAXCMD < size ∧ MAXCMD ≤ snprintf fname offset)
  then Undefined
  else Ok (c_string <$> body (helper size) fname offset size).
End Build.

End Addr2lineCmd.

(** * Notions used to state the properties *)

(** Filling slot after slot. *)
Definition puts {S A} (put : A → S → S) (xs : list A) (s : S) : S :=
  foldl (λ s x, put x s) s xs.

(** The [i]-th most recent element of a chronological list, [i = 1] being
    the last one added. *)
Definition most_recent {A} (i : Z) (xs : list A) : option A :=
  if bool_decide (1 ≤ i) then reverse xs !! Z.to_nat (i - 1) else None.

(** The log of a world extended by the messages [ms]. *)
Definition printed {B} (w : world B) (ms : list message) : world B :=
  mkWorld (ld w) (heap w) (log w ++ (Out <$> ms)).

(** The log of a world extended by the events [es]. *)
Definition logged {B} (w : world B) (es : list event) : world B :=
  mkWorld (ld w) (heap w) (log w ++ es).

(** The thread has local data and its store pointer is [st]. *)
Definition has_LD {B} (w : world B) (st : option loc) : Prop :=
  ld w = Some (mkLD st).

(** The thread's store is the well-formed [b] at [p]. *)
Definition has_store {B} (wf : B → Prop) (w : world B) (p : loc) (b : B)
  : Prop :=
  has_LD w (Some p) ∧ heap w !! p = Some (Some b) ∧ wf b.

(** An execution context before or after its first capture. *)
Definition context {B} (wf : B → Prop) (w : world B) : Prop :=
  has_LD w None ∨ ∃ p b, has_store wf w p b.

Module GlibcSpec.
Import Glibc.

(** A store as [memset] and [save_backtrace] leave it. *)
Definition wf (b : btrace) : Prop :=
  length (retaddr b) = Z.to_nat SAVE_TRACES ∧
  length (why b) = Z.to_nat SAVE_TRACES ∧
  length (sizes b) = Z.to_nat SAVE_TRACES ∧
  0 ≤ current b < SAVE_TRACES.

(** The content of one slot of the ring. *)
Record trace := mk_trace {
  t_why : option string;
  t_size : Z;
  t_retaddr : option (list Z)
}.

Definition slot (b : btrace) (me : Z) : option trace :=
  w ← arr_get (why b) me;
  n ← arr_get (sizes b) me;
  r ← arr_get (retaddr b) me;
  Some (mk_trace w n r).

(** One capture: what the environment provides, and the label. *)
Definition capture : Type := walk_env * string.

(** The trace a capture records. *)
Definition recorded (c : capture) : trace :=
  let array := backtrace (stack c.1) 100 in
  mk_trace (Some c.2) (Z.of_nat (length array))
    (if frames_alloc c.1 then Some array else None).

(** The store after a capture recorded [t]. *)
Definition put (t : trace) (b : btrace) : btrace :=
  let cur := Z.to_nat (current b) in
  mk_btrace (<[cur := t_retaddr t]> (retaddr b))
            (<[cur := t_why t]> (why b))
            (<[cur := t_size t]> (sizes b))
            ((current b + 1) mod SAVE_TRACES)
            (shared b).

(** The world after a capture on the store [b] at [p]. *)
Definition captured (c : capture) (p : loc) (b : btrace)
  (w : world btrace) : world btrace :=
  mkWorld (ld w) (<[p := Some (put (recorded c) b)]> (heap w)) (log w).

(** A sequence of [save_backtrace] calls. *)
Fixpoint captures (atomic : bool) (fuel : nat) (cs : list capture)
  : Mon btrace unit :=
  match cs with
  | [] => mret ()
  | c :: cs => save_backtrace atomic fuel c.1 c.2;; captures atomic fuel cs
  end.

Section Rendering.
Variable dladdr : Z → option Dl_info.
Variable popen : string → Z → option string.

(** The line [print_trace] writes for frame [i] at [addr], if any. *)
Definition frame_line (i addr : Z) : option message :=
  info ← dladdr addr;
  match dli_fname info with
  | Some fname =>
      let offset := uintptr_sub addr (dli_fbase info) in
      match (if strstr fname ".so" then addr2line popen fname offset 512
             else None) with
      | Some buf => Some (MsgFrameLine i buf addr)
      | None =>
          match dli_sname info with
          | Some sname =>
              Some (MsgFrameSym i fname sname (addr - dli_saddr info) addr)
          | None => Some (MsgFrameOff i fname offset addr)
          end
      end
  | None => Some (MsgFrameUnknown i addr)
  end.

Fixpoint frame_lines (i : Z) (addrs : list Z) : list message :=
  match addrs with
  | [] => []
  | a :: addrs =>
      option_list (frame_line i a) ++ frame_lines (i + 1) addrs
  end.

(** The text of a trace with label [label] and return addresses
    [addrs]. *)
Definition rendering (label : string) (addrs : list Z) : list message :=
  MsgTraceLabel label :: frame_lines 0 addrs.
End Rendering.

(** The slots in the order [bstore_print_backtrace_named] is meant to
    visit them: backward from the slot before the cursor, once around. *)
Definition scan_order (cursor : Z) : list Z :=
  (λ k, (cursor - 1 - k) mod SAVE_TRACES) <$> seqZ 0 SAVE_TRACES.


(** The label test of [bstore_print_backtrace_named] at slot [me]. *)
Definition matches (b : btrace) (label : string) (me : Z) : bool :=
  label_is (default None (arr_get (why b) me)) label.

(** What a search that visits the slots [order] prints: the first slot
    whose label matches, or the not-found message. *)
Definition first_match (dladdr : Z → option Dl_info)
  (popen : string → Z → option string) (p : loc) (b : btrace)
  (label : string) (order : list Z) : Mon btrace unit :=
  match List.find (matches b label) order with
  | Some me => print_trace dladdr popen p me
  | None => Sdprintf (MsgNoBacktraceNamed label)
  end.

(** The label [label] is in no slot of [b]. *)
Definition unlabeled (b : btrace) (label : string) : Prop :=
  Forall (λ y, label_is y label = false) (why b).

(** The trace of a slot that was never filled. *)
Definition empty_trace : trace := mk_trace None 0 None.

(** Inputs for examples: a thread without a store yet, a capture
    environment without and with frames, no symbol information, and the
    eleven labels L0 .. L10. *)
Definition w0 : world btrace := mkWorld (Some (mkLD None)) ∅ [].
Definition w_store : world btrace :=
  mkWorld (Some (mkLD (Some 1%positive)))
    {[1%positive := Some (set_shared true zeroed)]} [].
Definition env0 : walk_env := mk_walk_env [] true true.
Definition env1 : walk_env := mk_walk_env [4198400; 4198500] true true.
Definition env2 : walk_env := mk_walk_env [4198700] true true.
Definition no_dladdr : Z → option Dl_info := λ _, None.
Definition no_popen : string → Z → option string := λ _ _, None.
Definition labels11 : list string :=
  ["L0"; "L1"; "L2"; "L3"; "L4"; "L5"; "L6"; "L7"; "L8"; "L9"; "L10"].
Definition captures11 : list capture := (λ l, (env0, l)) <$> labels11.

End GlibcSpec.

Module ConcurrentSpec.
Import Concurrent.

(** [next] as a caller computes it from the cursor value it read. *)
Definition next_of (current : Z) : Z :=
  let next := int_add current 1 in
  if bool_decide (next = SAVE_TRACES) then 0 else next.

(** The indices handed out by the first [n] successful swaps when the
    cursor started at [c]. *)
Definition handed_out (c : Z) (n : nat) : list Z :=
  (λ j, (c + j) mod SAVE_TRACES) <$> seqZ 0 (Z.of_nat n).

(** What holds in every state reached from [init c m]. *)
Definition inv (c : Z) (m : nat) (s : state) : Prop :=
  length (callers s) = m ∧
  (∀ i cur next,
     callers s !! i = Some (AtCAS cur next) → next = next_of cur) ∧
  ∃ n : nat,
    cursor s = (c + Z.of_nat n) mod SAVE_TRACES ∧
    returned s ≡ₚ handed_out c n.

End ConcurrentSpec.

Module LibunwindSpec.
Import Libunwind.

(** A slot as [memset] and [save_backtrace] leave it. *)
Definition wf_stack (s : btrace_stack) : Prop :=
  length (frame s) = Z.to_nat MAX_DEPTH ∧ 0 ≤ depth s ≤ MAX_DEPTH.

(** A store as [memset] and [save_backtrace] leave it. *)
Definition wf (b : btrace) : Prop :=
  length (dumps b) = Z.to_nat SAVE_TRACES ∧
  Forall wf_stack (dumps b) ∧
  0 ≤ current b < SAVE_TRACES.

(** The store after a capture wrote [s] into the slot at the cursor. *)
Definition put (s : btrace_stack) (b : btrace) : btrace :=
  mk_btrace (<[Z.to_nat (current b) := s]> (dumps b))
            ((current b + 1) mod SAVE_TRACES)
            (shared b).

(** The label [why] is in no slot of [b]. *)
Definition unlabeled (b : btrace) (why : string) : Prop :=
  Forall (λ s, label_is (name s) why = false) (dumps b).

(** The line [print_trace] writes for frame [d] of slot [s]. *)
Definition frame_line (s : btrace_stack) (d : Z) : list message :=
  match arr_get (frame s) d with
  | Some f => [MsgUnwFrame d (f_name f) (f_offset f)]
  | None => []
  end.

(** The text of the trace in slot [s] when it has the label [l]. *)
Definition rendering (l : string) (s : btrace_stack) : list message :=
  MsgTraceLabel l :: concat (frame_line s <$> seqZ 0 (depth s)).

(** Inputs for examples. *)
Definition w0 : world btrace := mkWorld (Some (mkLD None)) ∅ [].
Definition w_store : world btrace :=
  mkWorld (Some (mkLD (Some 1%positive)))
    {[1%positive := Some (set_shared true zeroed)]} [].
Definition deep_stack : list frame_info :=
  (λ i, mk_frame_info "f" i) <$> seqZ 0 12.
Definition env12 : walk_env := mk_walk_env deep_stack true.

End LibunwindSpec.

Module WindowsSpec.
Import Windows.

Definition wf_stack (s : btrace_stack) : Prop :=
  length (frame s) = Z.to_nat MAX_DEPTH ∧ 0 ≤ depth s ≤ MAX_DEPTH.

Definition wf (b : btrace) : Prop :=
  length (dumps b) = Z.to_nat SAVE_TRACES ∧
  Forall wf_stack (dumps b) ∧
  0 ≤ current b < SAVE_TRACES.

Definition put (s : btrace_stack) (b : btrace) : btrace :=
  mk_btrace (<[Z.to_nat (current b) := s]> (dumps b))
            ((current b + 1) mod SAVE_TRACES)
            (shared b).

Definition unlabeled (b : btrace) (why : string) : Prop :=
  Forall (λ s, label_is (name s) why = false) (dumps b).

Section Rendering.
Variable have_libdwarf : bool.
Variable dwarf_addr2line : Z → option string.

(** The line [print_trace] writes for frame [d] of slot [s]. *)
Definition frame_line (s : btrace_stack) (d : Z) : list message :=
  match arr_get (frame s) d with
  | Some f =>
      if bool_decide (f_module f ≠ "") then
        match (if have_libdwarf then dwarf_addr2line (f_offset f)
               else None) with
        | Some srcline =>
            [MsgWinFrameLine d (f_module f) (f_name f) srcline
               (f_offset f)]
        | None => [MsgWinFrame d (f_module f) (f_name f) (f_offset f)]
        end
      else [MsgWinFrameUnknown d (f_name f) (f_offset f)]
  | None => []
  end.

(** The text of the trace in slot [s] when it has the label [l]. *)
Definition rendering (l : string) (s : btrace_stack) : list message :=
  MsgWinTraceLabel l :: concat (frame_line s <$> seqZ 0 (depth s)).
End Rendering.

(** Inputs for examples. *)
Definition w0 : world btrace := mkWorld (Some (mkLD None)) ∅ [].
Definition w_store : world btrace :=
  mkWorld (Some (mkLD (Some 1%positive)))
    {[1%positive := Some (set_shared true zeroed)]} [].
Definition deep_stack : list walked :=
  (λ i, mk_walked i (inr "swipl.dll") None (Some "f")) <$> seqZ 0 14.
Definition env14 : walk_env := mk_walk_env true deep_stack true.
Definition no_dwarf : Z → option string := λ _, None.

End WindowsSpec.

(** What the crash handler of a configuration with a stack walker logs
    around the native trace. *)
Module CrashSpec.

(** The signal dispositions it resets, and the alarm. *)
Definition resets (pf : platform) (sig : Z) : list event :=
  SignalDfl sig
  :: (SignalDfl <$> option_list (SIGALRM pf))
  ++ (SignalDfl <$> option_list (SIGABRT pf))
  ++ (SignalDfl <$> option_list (SIGSEGV pf))
  ++ (if HAVE_ALARM pf then [Alarm 10] else []).

Definition banner {E} (env : crash_env E) (sig : Z) : message :=
  MsgBanner (thread_self env) (default "" (thread_alias env))
    (String.substring 0 24 (ctime env)) sig (signal_name env sig).

(** The interpreter's stack and the exit hooks, run with [status]. *)
Definition hooks (pf : platform) (status : Z) : list event :=
  [Out MsgPrologStack; PrologBacktrace 25 (PL_BT_SAFE pf);
   Out (MsgRunningHooks status); RunOnHalt status].

(** The original signal again, or [abort()]. *)
Definition terminate {E} (pf : platform) (env : crash_env E) (sig : Z)
  : list event :=
  if HAVE_KILL pf then [Out (MsgKilling (pid env)); Kill (pid env) sig]
  else [Out MsgAborting; Abort].

Definition fallback_terminate {E} (pf : platform) (env : crash_env E)
  (sig : Z) : list event :=
  if HAVE_KILL pf && HAVE_GETPID pf then [Kill (pid env) sig] else [Abort].

(** Inputs for examples. *)
Definition w_fallback : world Fallback.btrace :=
  mkWorld (Some (mkLD None)) ∅ [].
Definition linux : platform :=
  mk_platform (Some 14) (Some 6) (Some 11) true true true 1.
Definition windows : platform :=
  mk_platform None (Some 22) (Some 11) false false true 1.
Definition names (sig : Z) : string :=
  if bool_decide (sig = 11) then "segv" else "unknown".
Definition crashed {E} (walk : E) : crash_env E :=
  mk_crash_env E 1 (Some "main") "Fri Oct 30 12:00:00 2026" names 4242 walk.

End CrashSpec.

(** * Notions used for further properties *)

Module Addr2lineSpec.

(** The newline character, a line end, and text without a newline. *)
Definition newline : ascii := "010"%char.
Definition nl : string := String newline EmptyString.
Fixpoint one_line (s : string) : Prop :=
  match s with
  | EmptyString => True
  | String c s => c ≠ newline ∧ one_line s
  end.

(** Text in which the character [c] does not occur. *)
Fixpoint without (c : ascii) (s : string) : Prop :=
  match s with
  | EmptyString => True
  | String c' s => c' ≠ c ∧ without c s
  end.

(** Inputs for examples: the length of the command of [addr2line -fe]
    and of [atos -o] for a file name and an address of six
    characters, and a helper that answers with [reply]. *)
Definition cmd_length : string → Z → Z :=
  λ fname _, Z.of_nat (String.length fname) + 23.
Definition atos_cmd_length : string → Z → Z :=
  λ fname _, Z.of_nat (String.length fname) + 17.
Definition answers (reply : string) : string → Z → option string :=
  λ _ _, Some reply.

End Addr2lineSpec.

(** A computation that, when it ends, has at most printed: thread data
    and heap are what they were, and the log has grown by output only. *)
Definition only_prints {B A} (m : Mon B A) : Prop :=
  ∀ w a w', m w = Ok (a, w') → ∃ ms, w' = printed w ms.

Module LibunwindShow.
Import Libunwind.

(** The frames a capture takes from the stack [stk]: at most
    [MAX_DEPTH], each name cut to what [char name[32]] holds. *)
Definition kept (stk : list frame_info) : list frame_info :=
  (λ f, unw_get_proc_name f 32) <$> take (Z.to_nat MAX_DEPTH) stk.

(** The text of a trace with the label [why] captured on [stk]. *)
Definition shown (why : string) (stk : list frame_info) : list message :=
  MsgTraceLabel why
  :: imap (λ d f, MsgUnwFrame (Z.of_nat d) (f_name f) (f_offset f))
       (kept stk).

(** The slot a capture leaves where the frame array was [old]. *)
Definition slot_after (why : string) (stk old : list frame_info)
  : btrace_stack :=
  mk_btrace_stack (Some why) (Z.of_nat (length (kept stk)))
    (kept stk ++ drop (length (kept stk)) old).

End LibunwindShow.

Module LibunwindSearch.
Import Libunwind.

(** The label test of [bstore_print_backtrace_named] at slot [me]. *)
Definition matches (b : btrace) (why : string) (me : Z) : bool :=
  label_is (default None (name <$> arr_get (dumps b) me)) why.

(** What a search that visits the slots [order] prints: the first slot
    whose label matches, or nothing. *)
Definition first_match (p : loc) (b : btrace) (why : string)
  (order : list Z) : Mon btrace unit :=
  match List.find (matches b why) order with
  | Some me => print_trace p me
  | None => mret ()
  end.

End LibunwindSearch.

Module WindowsSearch.
Import Windows.

Definition matches (b : btrace) (why : string) (me : Z) : bool :=
  label_is (default None (name <$> arr_get (dumps b) me)) why.

Definition first_match (have_libdwarf : bool)
  (dwarf_addr2line : Z → option string) (p : loc) (b : btrace)
  (why : string) (order : list Z) : Mon btrace unit :=
  match List.find (matches b why) order with
  | Some me => print_trace have_libdwarf dwarf_addr2line p me
  | None => mret ()
  end.

End WindowsSearch.

Module WindowsShow.
Import Windows.

Section Build.
Variable have_libdwarf : bool.
Variable dwarf_addr2line : Z → option string.

(** The frames [backtrace] records: none when [SymInitialize] fails,
    else at most [MAX_DEPTH] of the steps [StackWalk64] makes, the
    first two left out unless the walk starts from an exception
    record. *)
Definition kept (env : walk_env) (exception : bool) : list frame_info :=
  if sym_initialize env then
    record_frame have_libdwarf
      <$> take (Z.to_nat MAX_DEPTH)
            (drop (if exception then 0 else 2) (stack env))
  else [].

(** The slot a capture leaves where the frame array was [old]. *)
Definition slot_after (why : string) (env : walk_env) (exception : bool)
  (old : list frame_info) : btrace_stack :=
  mk_btrace_stack (Some why) (Z.of_nat (length (kept env exception)))
    (kept env exception ++ drop (length (kept env exception)) old).

(** The line [print_trace] writes for the recorded frame [f] at
    depth [d]. *)
Definition line (d : nat) (f : frame_info) : message :=
  if bool_decide (f_module f ≠ "") then
    match (if have_libdwarf then dwarf_addr2line (f_offset f)
           else None) with
    | Some srcline =>
        MsgWinFrameLine (Z.of_nat d) (f_module f) (f_name f) srcline
          (f_offset f)
    | None =>
        MsgWinFrame (Z.of_nat d) (f_module f) (f_name f) (f_offset f)
    end
  else MsgWinFrameUnknown (Z.of_nat d) (f_name f) (f_offset f).

(** The text of a trace with the label [why] captured in [env]. *)
Definition shown (why : string) (env : walk_env) (exception : bool)
  : list message :=
  MsgWinTraceLabel why :: imap line (kept env exception).

(** What [print_trace] writes for slot [me] of the store [b]. *)
Definition slot_text (b : btrace) (me : Z) : list message :=
  match arr_get (dumps b) me with
  | Some s =>
      match name s with
      | Some l => WindowsSpec.rendering have_libdwarf dwarf_addr2line l s
      | None => [MsgNoStackTrace]
      end
  | None => []
  end.

(** What the search for [why] writes on the store [b]. *)
Definition search_text (b : btrace) (why : string) : list message :=
  match List.find (WindowsSearch.matches b why)
          (GlibcSpec.scan_order (current b)) with
  | Some me => slot_text b me
  | None => []
  end.
End Build.

(** The frame array of a slot of a zeroed store. *)
Definition no_frames : list frame_info :=
  replicate (Z.to_nat MAX_DEPTH) (mk_frame_info "" 0 "" 0).

End WindowsShow.

Module GlibcLines.
Import Glibc.

(** An input for examples: [dladdr] knows one address, in the
    executable. *)
Definition dl_main : Z → option Dl_info := λ a,
  if bool_decide (a = 4198400)
  then Some (mk_Dl_info (Some "swipl") 4194304 (Some "main") 4198000)
  else None.

End GlibcLines.

Module LibunwindRing.
Import Libunwind LibunwindShow.

(** One capture: what the environment provides, and the label. *)
Definition capture : Type := walk_env * string.

(** A sequence of [save_backtrace] calls. *)
Fixpoint captures (atomic : bool) (fuel : nat) (cs : list capture)
  : Mon btrace unit :=
  match cs with
  | [] => mret ()
  | c :: cs => save_backtrace atomic fuel c.1 c.2;; captures atomic fuel cs
  end.

(** What a slot shows: its label, and the frames its depth covers. *)
Definition view : Type := option string * list frame_info.
Definition view_of (s : btrace_stack) : view :=
  (name s, take (Z.to_nat (depth s)) (frame s)).
Definition slot_view (b : btrace) (j : Z) : option view :=
  view_of <$> arr_get (dumps b) j.

(** What a capture is to show. *)
Definition seen (c : capture) : view := (Some c.2, kept (stack c.1)).

(** The store after a capture wrote the frames of [v] over the front
    of the slot at the cursor. *)
Definition record (v : view) (b : btrace) : btrace :=
  let old := default [] (frame <$> arr_get (dumps b) (current b)) in
  LibunwindSpec.put
    (mk_btrace_stack v.1 (Z.of_nat (length v.2))
       (v.2 ++ drop (length v.2) old)) b.

(** What the ring discipline needs of a store. *)
Definition ring (b : btrace) : Prop :=
  length (dumps b) = Z.to_nat SAVE_TRACES ∧ 0 ≤ current b < SAVE_TRACES.

End LibunwindRing.
(** * Properties *)

(** ** Integers and arrays *)

Lemma wrap_small z : - 2 ^ 31 ≤ z < 2 ^ 31 → wrap z = z.
Proof.
  intros H. unfold wrap.
  rewrite Z.mod_small; lia.
Qed.

Lemma int_add_small a b : - 2 ^ 31 ≤ a + b < 2 ^ 31 → int_add a b = a + b.
Proof. apply wrap_small. Qed.

Lemma int_sub_small a b : - 2 ^ 31 ≤ a - b < 2 ^ 31 → int_sub a b = a - b.
Proof. apply wrap_small. Qed.

Lemma arr_get_lookup {A} (a : list A) (i : Z) :
  0 ≤ i → arr_get a i = a !! Z.to_nat i.
Proof. intros H. unfold arr_get. by rewrite bool_decide_eq_true_2. Qed.

Lemma arr_get_is_Some {A} (a : list A) (i : Z) :
  0 ≤ i < Z.of_nat (length a) → is_Some (arr_get a i).
Proof.
  intros H. rewrite arr_get_lookup by lia.
  apply lookup_lt_is_Some. lia.
Qed.

Lemma arr_set_in_range {A} (a : list A) (i : Z) (x : A) :
  0 ≤ i < Z.of_nat (length a) → arr_set a i x = Some (<[Z.to_nat i := x]> a).
Proof. intros H. unfold arr_set. by rewrite bool_decide_eq_true_2. Qed.

(** ** Slot reservation without interference *)

Lemma cas_loop_sequential fuel c :
  (0 < fuel)%nat → 0 ≤ c < SAVE_TRACES →
  Cursor.cas_loop fuel c = Ok (c, (c + 1) mod SAVE_TRACES).
Proof.
  intros Hf Hc. destruct fuel as [|fuel]; [lia|].
  unfold SAVE_TRACES in *. simpl.
  unfold Cursor.COMPARE_AND_SWAP. rewrite bool_decide_eq_true_2 by done.
  rewrite int_add_small by lia.
  case_bool_decide as Hn.
  - rewrite Hn. reflexivity.
  - rewrite Z.mod_small by (unfold SAVE_TRACES in *; lia). reflexivity.
Qed.

Lemma plain_sequential c :
  0 ≤ c < SAVE_TRACES →
  Cursor.plain c = (c, (c + 1) mod SAVE_TRACES).
Proof.
  intros Hc. unfold Cursor.plain, int_rem, SAVE_TRACES in *.
  rewrite int_add_small by lia.
  rewrite Z.rem_small by lia.
  case_bool_decide as Hn.
  - rewrite Z.rem_mod_nonneg by lia. reflexivity.
  - rewrite Z.mod_small by lia. reflexivity.
Qed.

Lemma next_btrace_id_sequential atomic fuel c :
  (0 < fuel)%nat → 0 ≤ c < SAVE_TRACES →
  Cursor.next_btrace_id atomic fuel c = Ok (c, (c + 1) mod SAVE_TRACES).
Proof.
  intros Hf Hc. unfold Cursor.next_btrace_id. destruct atomic.
  - by apply cas_loop_sequential.
  - by rewrite plain_sequential.
Qed.

(** ** The ring discipline, for any layout of the store *)

Section Ring.
Context {S A : Type}.
Variable inv : S → Prop.
Variable cur : S → Z.
Variable get : S → Z → option A.
Variable put : A → S → S.
Hypothesis inv_cur : ∀ s, inv s → 0 ≤ cur s < SAVE_TRACES.
Hypothesis inv_put : ∀ x s, inv s → inv (put x s).
Hypothesis cur_put : ∀ x s, inv s → cur (put x s) = (cur s + 1) mod SAVE_TRACES.
Hypothesis get_put_eq : ∀ x s, inv s → get (put x s) (cur s) = Some x.
Hypothesis get_put_ne :
  ∀ x s j, inv s → j ≠ cur s → get (put x s) j = get s j.

Lemma puts_snoc xs x s : puts put (xs ++ [x]) s = put x (puts put xs s).
Proof. unfold puts. by rewrite foldl_app. Qed.

Lemma puts_inv xs s : inv s → inv (puts put xs s).
Proof.
  intros Hs. induction xs as [|x xs IH] using rev_ind; [done|].
  rewrite puts_snoc. by apply inv_put.
Qed.

(** The [i]-th most recent of the traces put into the ring is found [i]
    slots before the cursor. *)
Lemma ring_recent xs s i :
  inv s → 1 ≤ i ≤ Z.of_nat (length xs) → i ≤ SAVE_TRACES →
  get (puts put xs s) ((cur (puts put xs s) - i) mod SAVE_TRACES)
  = xs !! (length xs - Z.to_nat i)%nat.
Proof.
  intros Hs. revert i.
  induction xs as [|x xs IH] using rev_ind; intros i Hi HK.
  { simpl in Hi. lia. }
  rewrite puts_snoc, length_app in *. simpl in Hi.
  pose proof (puts_inv xs s Hs) as Hinv.
  pose proof (inv_cur _ Hinv) as Hc.
  rewrite cur_put by done. unfold SAVE_TRACES in *.
  destruct (decide (i = 1)) as [->|Hne].
  - replace (((cur (puts put xs s) + 1) mod 10 - 1) mod 10)
      with (cur (puts put xs s)) by (Z.div_mod_to_equations; lia).
    rewrite get_put_eq by done.
    rewrite lookup_app_r by (simpl; lia).
    replace (length xs + length [x] - Z.to_nat 1 - length xs)%nat with 0%nat
      by (simpl; lia).
    done.
  - replace (((cur (puts put xs s) + 1) mod 10 - i) mod 10)
      with ((cur (puts put xs s) - (i - 1)) mod 10)
      by (Z.div_mod_to_equations; lia).
    rewrite get_put_ne; [|done|Z.div_mod_to_equations; lia].
    rewrite IH by lia.
    rewrite lookup_app_l by (simpl; lia).
    f_equal. simpl. lia.
Qed.
End Ring.

Lemma most_recent_lookup {A} (xs : list A) i :
  1 ≤ i ≤ Z.of_nat (length xs) →
  most_recent i xs = xs !! (length xs - Z.to_nat i)%nat.
Proof.
  intros H. unfold most_recent. rewrite bool_decide_eq_true_2 by lia.
  rewrite reverse_lookup by lia. f_equal. lia.
Qed.

(** ** Running the embedding *)

Ltac mon_unfold :=
  unfold mbind, Mon_bind, mret, Mon_ret, HAS_LD, get_LD_btrace_store,
    set_LD_btrace_store, malloc, free, load, store, emit, Sdprintf, defined,
    undefined, timeout.

Ltac mon_simpl :=
  repeat (progress (rewrite ?lookup_insert_eq, ?insert_insert_eq; simpl)).

Lemma bind_Ok {B A C} (m : Mon B A) (f : A → Mon B C) w a w' :
  m w = Ok (a, w') → (m ≫= f) w = f a w'.
Proof. intros H. unfold mbind, Mon_bind. by rewrite H. Qed.

Lemma ret_bind {B A C} (a : A) (f : A → Mon B C) w : (mret a ≫= f) w = f a w.
Proof. reflexivity. Qed.

Lemma printed_nil {B} (w : world B) : printed w [] = w.
Proof. destruct w. unfold printed. simpl. by rewrite app_nil_r. Qed.

Lemma printed_app {B} (w : world B) ms1 ms2 :
  printed (printed w ms1) ms2 = printed w (ms1 ++ ms2).
Proof. unfold printed. simpl. by rewrite fmap_app, app_assoc. Qed.

Lemma Sdprintf_printed {B} (w : world B) m :
  Sdprintf m w = Ok ((), printed w [m]).
Proof. reflexivity. Qed.

Lemma for_each_skip {B} (idx : list Z) (body : Z → Mon B unit) w :
  (∀ i, i ∈ idx → body i w = Ok ((), w)) →
  for_each idx body w = Ok ((), w).
Proof.
  induction idx as [|i idx IH]; intros H; [done|].
  simpl. rewrite (bind_Ok _ _ w () w) by (apply H; left).
  apply IH. intros j Hj. apply H. by right.
Qed.


Lemma for_each_printed {B} (idx : list Z) (body : Z → Mon B unit)
    (out : Z → list message) :
  (∀ i w, i ∈ idx → body i w = Ok ((), printed w (out i))) →
  ∀ w, for_each idx body w = Ok ((), printed w (concat (out <$> idx))).
Proof.
  induction idx as [|i idx IH]; intros H w.
  - simpl. unfold mret, Mon_ret. by rewrite printed_nil.
  - simpl. rewrite (bind_Ok _ _ _ _ _ (H i w ltac:(left))).
    rewrite IH by (intros j w' Hj; apply H; by right).
    by rewrite printed_app.
Qed.

Lemma logged_nil {B} (w : world B) : logged w [] = w.
Proof. destruct w. unfold logged. simpl. by rewrite app_nil_r. Qed.

Lemma logged_app {B} (w : world B) es1 es2 :
  logged (logged w es1) es2 = logged w (es1 ++ es2).
Proof. unfold logged. simpl. by rewrite app_assoc. Qed.

Lemma printed_logged {B} (w : world B) ms : printed w ms = logged w (Out <$> ms).
Proof. reflexivity. Qed.

Lemma emit_logged {B} e (w : world B) : emit e w = Ok ((), logged w [e]).
Proof. reflexivity. Qed.

Lemma signal_dfl_logged {B} s (w : world B) :
  signal_dfl_if_defined s w = Ok ((), logged w (SignalDfl <$> option_list s)).
Proof. destruct s; simpl; [reflexivity|]. by rewrite logged_nil. Qed.

Lemma context_same_memory {B} (wf : B → Prop) (w w0 : world B) :
  context wf w → ld w0 = ld w → heap w0 = heap w → context wf w0.
Proof.
  unfold context, has_store, has_LD. intros [H|(p&b&H)] Hl Hh.
  - left. congruence.
  - right. exists p, b. rewrite Hl, Hh. done.
Qed.

(** ** glibc: the store and a capture *)
Module GlibcFacts.
Import Glibc GlibcSpec.

Lemma wf_zeroed : wf zeroed.
Proof. unfold wf, SAVE_TRACES. simpl. lia. Qed.

Lemma wf_set_shared s b : wf b → wf (set_shared s b).
Proof. done. Qed.

Lemma wf_put t b : wf b → wf (put t b).
Proof.
  unfold wf, put, SAVE_TRACES. simpl. rewrite !length_insert.
  intros (?&?&?&?). repeat split; try done; Z.div_mod_to_equations; lia.
Qed.

Lemma current_put t b : current (put t b) = (current b + 1) mod SAVE_TRACES.
Proof. done. Qed.

Lemma slot_put_eq t b : wf b → slot (put t b) (current b) = Some t.
Proof.
  intros (?&?&?&?). unfold slot, put, SAVE_TRACES in *. simpl.
  rewrite !arr_get_lookup by lia.
  rewrite !list_lookup_insert_eq by lia. by destruct t.
Qed.

Lemma slot_put_ne t b j :
  wf b → j ≠ current b → slot (put t b) j = slot b j.
Proof.
  intros (?&?&?&?) Hj. unfold slot, put, arr_get. simpl.
  case_bool_decide; [|done].
  rewrite !list_lookup_insert_ne by lia. done.
Qed.

Lemma slot_is_Some b j : wf b → 0 ≤ j < SAVE_TRACES → is_Some (slot b j).
Proof.
  intros (Hr&Hw&Hs&?) Hj. unfold slot, SAVE_TRACES in *.
  destruct (arr_get_is_Some (why b) j) as [x ->]; [lia|].
  destruct (arr_get_is_Some (sizes b) j) as [y ->]; [lia|].
  destruct (arr_get_is_Some (retaddr b) j) as [z ->]; [lia|].
  by eexists.
Qed.

Lemma get_trace_store_present ok create (w : world btrace) p :
  has_LD w (Some p) → get_trace_store ok create w = Ok (Some p, w).
Proof.
  destruct w as [l h lg]; unfold has_LD; simpl; intros ->.
  unfold get_trace_store. mon_unfold. reflexivity.
Qed.

Lemma get_trace_store_fresh create (w : world btrace) :
  has_LD w None →
  let p := fresh (dom (heap w)) in
  get_trace_store true create w =
    Ok (Some p, mkWorld (Some (mkLD (Some p)))
                  (<[p := Some (set_shared true zeroed)]> (heap w)) (log w)).
Proof.
  destruct w as [l h lg]; unfold has_LD; simpl; intros ->.
  unfold get_trace_store. mon_unfold. mon_simpl. reflexivity.
Qed.

Lemma next_btrace_id_ok atomic fuel (w : world btrace) p b :
  (0 < fuel)%nat → heap w !! p = Some (Some b) → wf b →
  next_btrace_id atomic fuel p w =
    Ok (current b,
        mkWorld (ld w)
          (<[p := Some (set_current ((current b + 1) mod SAVE_TRACES) b)]>
             (heap w)) (log w)).
Proof.
  intros Hf Hp (_&_&_&Hc). unfold next_btrace_id.
  rewrite (bind_Ok _ _ w b w) by (unfold load; by rewrite Hp).
  rewrite next_btrace_id_sequential by done.
  mon_unfold. rewrite Hp. reflexivity.
Qed.

(** [save_backtrace] on a thread that has its store: slot [current] is
    filled and the cursor moves on. *)
(** [save_backtrace] once [get_trace_store] has produced the store [b]
    at [p]: slot [current] is filled and the cursor moves on. *)
Lemma save_backtrace_with atomic fuel c (w w1 : world btrace) p b :
  (0 < fuel)%nat →
  get_trace_store (store_alloc c.1) true w = Ok (Some p, w1) →
  heap w1 !! p = Some (Some b) → wf b →
  save_backtrace atomic fuel c.1 c.2 w = Ok (Some p, captured c p b w1).
Proof.
  intros Hf Hg Hp Hwf. unfold save_backtrace.
  rewrite (bind_Ok _ _ _ _ _ Hg).
  rewrite (bind_Ok _ _ _ _ _ (next_btrace_id_ok _ _ _ _ _ Hf Hp Hwf)).
  destruct Hwf as (Hr&Hy&Hs&Hc).
  mon_unfold. mon_simpl.
  rewrite !arr_set_in_range by (simpl; unfold SAVE_TRACES in *; lia).
  simpl.
  destruct (arr_get_is_Some (retaddr b) (current b)) as [x ->];
    [unfold SAVE_TRACES in *; lia|].
  simpl. mon_simpl. reflexivity.
Qed.

Lemma save_backtrace_present atomic fuel c (w : world btrace) p b :
  (0 < fuel)%nat → has_store wf w p b →
  save_backtrace atomic fuel c.1 c.2 w = Ok (Some p, captured c p b w).
Proof.
  intros Hf (Hld&Hp&Hwf).
  by apply save_backtrace_with; [|apply get_trace_store_present|..].
Qed.

(** Without [LD] the store is private to the caller. *)
Lemma get_trace_store_private (w : world btrace) :
  ld w = None →
  let p := fresh (dom (heap w)) in
  get_trace_store true true w =
    Ok (Some p, mkWorld None (<[p := Some zeroed]> (heap w)) (log w)).
Proof.
  destruct w as [l h lg]; simpl; intros ->.
  unfold get_trace_store. mon_unfold. mon_simpl. reflexivity.
Qed.

Lemma save_backtrace_fresh atomic fuel c (w : world btrace) :
  (0 < fuel)%nat → has_LD w None → store_alloc c.1 = true →
  let p := fresh (dom (heap w)) in
  save_backtrace atomic fuel c.1 c.2 w =
    Ok (Some p,
        mkWorld (Some (mkLD (Some p)))
          (<[p := Some (put (recorded c) (set_shared true zeroed))]> (heap w))
          (log w)).
Proof.
  intros Hf Hld Ha p. unfold save_backtrace. rewrite Ha.
  rewrite (bind_Ok _ _ _ _ _ (get_trace_store_fresh _ _ Hld)).
  fold p.
  set (w1 := mkWorld _ _ _).
  assert (has_store wf w1 p (set_shared true zeroed)) as Hst.
  { split; [done|]. split; [|apply wf_set_shared, wf_zeroed].
    unfold w1. simpl. by rewrite lookup_insert_eq. }
  pose proof (save_backtrace_present atomic fuel c w1 p _ Hf Hst) as H.
  unfold save_backtrace in H.
  rewrite (bind_Ok _ _ _ _ _
             (get_trace_store_present (store_alloc c.1) true w1 p
                (proj1 Hst))) in H.
  rewrite H. unfold captured, w1. simpl. by rewrite insert_insert_eq.
Qed.

Lemma captures_present atomic fuel cs (w : world btrace) p b :
  (0 < fuel)%nat → has_store wf w p b →
  captures atomic fuel cs w =
    Ok ((), mkWorld (ld w)
              (<[p := Some (puts put (recorded <$> cs) b)]> (heap w))
              (log w)).
Proof.
  intros Hf. revert w b.
  induction cs as [|c cs IH]; intros w b Hst.
  - simpl. destruct Hst as (_&Hp&_). destruct w as [l h lg]. simpl in *.
    unfold mret, Mon_ret. by rewrite insert_id.
  - simpl.
    rewrite (bind_Ok _ _ _ _ _ (save_backtrace_present _ _ c _ _ _ Hf Hst)).
    rewrite (IH (captured c p b w) (put (recorded c) b)).
    + unfold captured. simpl. by rewrite insert_insert_eq.
    + destruct Hst as (Hld&Hp&Hwf). split; [done|]. split.
      * unfold captured. simpl. by rewrite lookup_insert_eq.
      * by apply wf_put.
Qed.

Lemma puts_wf ts b : wf b → wf (puts put ts b).
Proof. apply (puts_inv wf put). intros. by apply wf_put. Qed.

(** After at least one capture the context has a store, filled from
    the store it had before or from a zeroed one. *)
Lemma captures_context atomic fuel cs (w : world btrace) :
  (0 < fuel)%nat → context wf w → cs ≠ [] →
  Forall (λ c : capture, store_alloc c.1 = true) cs →
  ∃ w' p b0,
    wf b0 ∧
    captures atomic fuel cs w = Ok ((), w') ∧
    has_store wf w' p (puts put (recorded <$> cs) b0) ∧
    log w' = log w.
Proof.
  intros Hf [Hld|(p&b&Hst)] Hne Hall.
  - destruct cs as [|c cs]; [done|].
    apply Forall_cons in Hall as [Ha _].
    set (p := fresh (dom (heap w))).
    set (b1 := put (recorded c) (set_shared true zeroed)).
    set (w1 := mkWorld (Some (mkLD (Some p))) (<[p := Some b1]> (heap w))
                 (log w)).
    assert (has_store wf w1 p b1) as Hst.
    { split; [done|]. split.
      - unfold w1. simpl. by rewrite lookup_insert_eq.
      - apply wf_put, wf_set_shared, wf_zeroed. }
    eexists _, p, (set_shared true zeroed).
    split; [apply wf_set_shared, wf_zeroed|].
    split; [|split].
    + simpl.
      rewrite (bind_Ok _ _ _ _ _ (save_backtrace_fresh _ _ c w Hf Hld Ha)).
      fold p b1 w1. by apply captures_present.
    + split; [done|]. split.
      * simpl. by rewrite lookup_insert_eq.
      * apply puts_wf. apply wf_set_shared, wf_zeroed.
    + done.
  - eexists _, p, b. destruct Hst as (Hld&Hp&Hwf).
    split; [done|]. split; [by apply captures_present|].
    split; [|done]. split; [done|]. split.
    + simpl. by rewrite lookup_insert_eq.
    + by apply puts_wf.
Qed.

(** [print_backtrace(i)] prints the slot [i] before the cursor. *)
Lemma print_backtrace_slot dladdr popen ok (w : world btrace) p b i :
  has_store wf w p b → 1 ≤ i ≤ SAVE_TRACES →
  print_backtrace dladdr popen ok i w =
    print_trace dladdr popen p ((current b - i) mod SAVE_TRACES) w.
Proof.
  intros (Hld&Hp&Hwf) Hi. unfold print_backtrace.
  rewrite (bind_Ok _ _ _ _ _ (get_trace_store_present _ _ _ _ Hld)).
  rewrite (bind_Ok _ _ w b w) by (unfold load; by rewrite Hp).
  destruct Hwf as (_&_&_&Hc). unfold SAVE_TRACES in *.
  rewrite int_sub_small by lia.
  f_equal. case_bool_decide.
  - rewrite int_add_small by lia. Z.div_mod_to_equations; lia.
  - Z.div_mod_to_equations; lia.
Qed.

Section Rendering.
Variable dladdr : Z → option Dl_info.
Variable popen : string → Z → option string.

Lemma print_frame_line b me array i addr (w : world btrace) :
  arr_get (retaddr b) me = Some (Some array) →
  arr_get array i = Some addr →
  print_frame dladdr popen b me i w =
    Ok ((), printed w (option_list (frame_line dladdr popen i addr))).
Proof.
  intros Hs Ha. unfold print_frame, frame_line.
  mon_unfold. rewrite Hs. simpl. rewrite Ha. simpl.
  destruct (dladdr addr) as [info|]; simpl;
    [|by rewrite printed_nil].
  destruct (dli_fname info) as [fname|]; [|done].
  destruct (if strstr fname ".so" then _ else None); [done|].
  by destruct (dli_sname info).
Qed.

Lemma print_frames b me array (w : world btrace) :
  arr_get (retaddr b) me = Some (Some array) →
  ∀ rest k,
    0 ≤ k → drop (Z.to_nat k) array = rest →
    for_each (seqZ k (Z.of_nat (length rest)))
      (print_frame dladdr popen b me) w =
      Ok ((), printed w (frame_lines dladdr popen k rest)).
Proof.
  intros Hs rest. revert w.
  induction rest as [|a rest IH]; intros w k Hk Hd.
  - simpl. unfold mret, Mon_ret. by rewrite printed_nil.
  - rewrite seqZ_cons by (simpl; lia). simpl for_each.
    assert (arr_get array k = Some a) as Ha.
    { rewrite arr_get_lookup by lia.
      rewrite <- (Nat.add_0_r (Z.to_nat k)), <- lookup_drop, Hd. done. }
    rewrite (bind_Ok _ _ _ _ _ (print_frame_line _ _ _ _ _ _ Hs Ha)).
    replace (Z.pred (Z.of_nat (S (length rest))))
      with (Z.of_nat (length rest)) by lia.
    rewrite IH.
    + rewrite printed_app. simpl frame_lines.
      by replace (Z.succ k) with (k + 1) by lia.
    + lia.
    + replace (Z.to_nat (Z.succ k)) with (Z.to_nat k + 1)%nat by lia.
      by rewrite <- drop_drop, Hd.
Qed.

Lemma print_trace_rendering (w : world btrace) p b me label array :
  heap w !! p = Some (Some b) →
  slot b me = Some (mk_trace (Some label) (Z.of_nat (length array))
                      (Some array)) →
  print_trace dladdr popen p me w =
    Ok ((), printed w (rendering dladdr popen label array)).
Proof.
  intros Hp Hs. unfold slot in Hs.
  destruct (arr_get (why b) me) as [y|] eqn:Hy; [|done].
  destruct (arr_get (sizes b) me) as [n|] eqn:Hn; [|done].
  destruct (arr_get (retaddr b) me) as [r|] eqn:Hr; [|done].
  simpl in Hs. injection Hs as -> -> ->.
  unfold print_trace.
  rewrite (bind_Ok _ _ w b w) by (unfold load; by rewrite Hp).
  rewrite Hy. simpl. rewrite ret_bind.
  rewrite (bind_Ok _ _ _ _ _ (Sdprintf_printed _ _)).
  rewrite Hn. simpl. rewrite ret_bind.
  rewrite (print_frames b me array _ Hr array 0) by done.
  by rewrite printed_app.
Qed.

Lemma print_trace_empty (w : world btrace) p b me n r :
  heap w !! p = Some (Some b) →
  slot b me = Some (mk_trace None n r) →
  print_trace dladdr popen p me w = Ok ((), printed w [MsgNoStackTrace]).
Proof.
  intros Hp Hs. unfold slot in Hs.
  destruct (arr_get (why b) me) as [y|] eqn:Hy; [|done].
  destruct (arr_get (sizes b) me) as [n'|] eqn:Hn; [|done].
  destruct (arr_get (retaddr b) me) as [r'|] eqn:Hr; [|done].
  simpl in Hs. injection Hs as -> -> ->.
  unfold print_trace.
  rewrite (bind_Ok _ _ w b w) by (unfold load; by rewrite Hp).
  rewrite Hy. simpl. rewrite ret_bind. reflexivity.
Qed.

(** The loop, entered for the [k]-th time with [me] one below the slot
    visited before, goes on through the rest of the scan order. *)
Lemma named_loop_scan p b label (w : world btrace) :
  wf b →
  ∀ (d : nat) (k : Z) (n : nat) (me : Z),
    (1 ≤ d)%nat → k = SAVE_TRACES - Z.of_nat d → 0 ≤ k →
    (d ≤ n)%nat →
    -1 ≤ me < SAVE_TRACES - 1 →
    me mod SAVE_TRACES = (current b - 1 - k) mod SAVE_TRACES →
    named_loop dladdr popen n p b label me w =
      first_match dladdr popen p b label
        ((λ j, (current b - 1 - j) mod SAVE_TRACES)
           <$> seqZ k (Z.of_nat d)) w.
Proof.
  intros Hwf. pose proof Hwf as (_&Hy&_&Hc).
  induction d as [|d IH]; intros k n me Hd Hk Hk0 Hn Hme Hmod; [lia|].
  destruct n as [|n]; [lia|].
  rewrite seqZ_cons by lia. rewrite fmap_cons.
  unfold first_match. simpl List.find. simpl named_loop.
  set (m := (current b - 1 - k) mod SAVE_TRACES).
  assert ((if bool_decide (me < 0) then int_add me SAVE_TRACES else me) = m)
    as ->.
  { unfold m, SAVE_TRACES in *. case_bool_decide.
    - rewrite int_add_small by lia. Z.div_mod_to_equations; lia.
    - Z.div_mod_to_equations; lia. }
  assert (0 ≤ m < SAVE_TRACES) as Hm
    by (unfold m, SAVE_TRACES; Z.div_mod_to_equations; lia).
  destruct (arr_get_is_Some (why b) m) as [y Hyv];
    [rewrite Hy; unfold SAVE_TRACES in *; lia|].
  rewrite Hyv. simpl. rewrite ret_bind.
  replace (matches b label m) with (label_is y label)
    by (unfold matches; by rewrite Hyv).
  destruct (label_is y label); [reflexivity|].
  unfold SAVE_TRACES in *.
  rewrite !int_sub_small by lia.
  case_bool_decide as Hend.
  - assert (d = 0%nat) as ->
      by (unfold m in *; Z.div_mod_to_equations; lia).
    reflexivity.
  - assert (d ≠ 0%nat) as Hd0
      by (unfold m in *; intros ->; Z.div_mod_to_equations; lia).
    rewrite (IH (Z.succ k) n (m - 1)); try lia.
    + replace (Z.pred (Z.of_nat (S d))) with (Z.of_nat d) by lia. done.
    + unfold m. Z.div_mod_to_equations; lia.
Qed.

Lemma bstore_print_backtrace_named_scan fuel p b label (w : world btrace) :
  SAVE_TRACES ≤ Z.of_nat fuel →
  heap w !! p = Some (Some b) → wf b →
  bstore_print_backtrace_named fuel dladdr popen (Some p) label w =
    first_match dladdr popen p b label (scan_order (current b)) w.
Proof.
  intros Hf Hp Hwf. unfold bstore_print_backtrace_named.
  rewrite (bind_Ok _ _ w b w) by (unfold load; by rewrite Hp).
  pose proof Hwf as (_&_&_&Hc). unfold SAVE_TRACES in *.
  rewrite int_sub_small by lia.
  apply (named_loop_scan p b label w Hwf 10 0 fuel (current b - 1));
    unfold SAVE_TRACES; try lia.
  by rewrite Z.sub_0_r.
Qed.
End Rendering.

Lemma ring_recent_glibc ts b i :
  wf b → 1 ≤ i ≤ Z.of_nat (length ts) → i ≤ SAVE_TRACES →
  slot (puts put ts b) ((current (puts put ts b) - i) mod SAVE_TRACES)
  = most_recent i ts.
Proof.
  intros Hwf Hi HK. rewrite most_recent_lookup by done.
  apply (ring_recent wf current slot put); try done.
  - by intros s (_&_&_&?).
  - intros. by apply wf_put.
  - intros. by apply slot_put_eq.
  - intros. by apply slot_put_ne.
Qed.


Lemma slot_why b j t : slot b j = Some t → arr_get (why b) j = Some (t_why t).
Proof.
  unfold slot. destruct (arr_get (why b) j); [|done].
  destruct (arr_get (sizes b) j); [|done].
  destruct (arr_get (retaddr b) j); [|done].
  simpl. by intros [= <-].
Qed.


Lemma scan_order_backward c :
  0 ≤ c < SAVE_TRACES →
  scan_order c = reverse (seqZ 0 c) ++ reverse (seqZ c (SAVE_TRACES - c)).
Proof.
  intros Hc. unfold SAVE_TRACES in Hc.
  assert (c = 0 ∨ c = 1 ∨ c = 2 ∨ c = 3 ∨ c = 4 ∨ c = 5 ∨ c = 6 ∨ c = 7
          ∨ c = 8 ∨ c = 9) as H by lia.
  repeat (destruct H as [->|H]; [vm_compute; reflexivity|]).
  subst c. vm_compute. reflexivity.
Qed.

Lemma print_backtrace_named_scan atomic fuel dladdr popen ok
    (w : world btrace) p b label :
  SAVE_TRACES ≤ Z.of_nat fuel → has_store wf w p b →
  Shared.print_backtrace_named (glibc_walker atomic fuel dladdr popen)
    ok label w =
    first_match dladdr popen p b label (scan_order (current b)) w.
Proof.
  intros Hf (Hld&Hp&Hwf). unfold Shared.print_backtrace_named. simpl.
  rewrite (bind_Ok _ _ _ _ _ (get_trace_store_present _ _ _ _ Hld)).
  by apply bstore_print_backtrace_named_scan.
Qed.


Lemma btrace_destroy_ok (w : world btrace) p b :
  heap w !! p = Some (Some b) → wf b →
  btrace_destroy p w = Ok ((), mkWorld (ld w) (delete p (heap w)) (log w)).
Proof.
  intros Hp (Hr&_). unfold btrace_destroy.
  rewrite (bind_Ok _ _ w b w) by (unfold load; by rewrite Hp).
  rewrite (bind_Ok _ _ w () w).
  - unfold free. by rewrite Hp.
  - apply for_each_skip. intros i Hi%elem_of_seqZ.
    destruct (arr_get_is_Some (retaddr b) i) as [x Hx]; [lia|].
    rewrite Hx. reflexivity.
Qed.


(** [print_c_backtrace] on an execution context. *)
Lemma glibc_print_c_backtrace atomic fuel dladdr popen env label
    (w : world btrace) :
  SAVE_TRACES ≤ Z.of_nat fuel → context wf w ∨ ld w = None →
  store_alloc env = true → frames_alloc env = true →
  ∃ w',
    Shared.print_c_backtrace (glibc_walker atomic fuel dladdr popen)
      env label w
    = Ok ((), printed w' (rendering dladdr popen label
                            (backtrace (stack env) 100))) ∧
    log w' = log w.
Proof.
  intros Hf Hctx Ha Hfa. unfold Shared.print_c_backtrace. simpl.
  assert ((0 < fuel)%nat) as Hf0 by (unfold SAVE_TRACES in Hf; lia).
  assert (∃ p w1 b0,
    save_backtrace atomic fuel env label w = Ok (Some p, w1) ∧
    heap w1 !! p = Some (Some (put (recorded (env, label)) b0)) ∧
    wf b0 ∧ log w1 = log w)
    as (p&w1&b0&Hsave&Hp&Hwf0&Hlog).
  { destruct Hctx as [[Hld|(p&b&Hst)]|Hno].
    - eexists _, _, _.
      split; [exact (save_backtrace_fresh atomic fuel (env, label) w
                       Hf0 Hld Ha)|].
      split; [simpl; by rewrite lookup_insert_eq|].
      split; [apply wf_set_shared, wf_zeroed|done].
    - eexists _, _, b.
      split; [exact (save_backtrace_present atomic fuel (env, label) w p b
                       Hf0 Hst)|].
      split; [simpl; by rewrite lookup_insert_eq|].
      by destruct Hst as (_&_&?).
    - pose proof (get_trace_store_private w Hno) as Hg. simpl in Hg.
      rewrite <- Ha in Hg at 1.
      set (p := fresh (dom (heap w))) in *.
      set (w1 := mkWorld None (<[p := Some zeroed]> (heap w)) (log w)) in *.
      assert (heap w1 !! p = Some (Some zeroed)) as Hp1
        by (unfold w1; simpl; by rewrite lookup_insert_eq).
      exists p, (captured (env, label) p zeroed w1), zeroed.
      split; [exact (save_backtrace_with atomic fuel (env, label) w w1 p
                       zeroed Hf0 Hg Hp1 wf_zeroed)|].
      split; [simpl; by rewrite lookup_insert_eq|].
      split; [apply wf_zeroed|done]. }
  assert (wf (put (recorded (env, label)) b0)) as Hwf by (by apply wf_put).
  assert (slot (put (recorded (env, label)) b0)
            ((current (put (recorded (env, label)) b0) - 1) mod SAVE_TRACES)
          = Some (recorded (env, label))) as Hslot.
  { pose proof (ring_recent_glibc [recorded (env, label)] b0 1 Hwf0) as Hr.
    rewrite most_recent_lookup in Hr by (simpl; lia).
    apply Hr; [simpl; lia|unfold SAVE_TRACES; lia]. }
  remember (put (recorded (env, label)) b0) as b eqn:Hb. clear Hb.
  rewrite (bind_Ok _ _ _ _ _ Hsave).
  rewrite (bind_Ok _ _ w1 ()
             (printed w1 (rendering dladdr popen label
                            (backtrace (stack env) 100)))).
  - rewrite (bind_Ok _ _ _ b (printed w1 _))
      by (unfold load; simpl; by rewrite Hp).
    destruct (shared b).
    + exists w1. done.
    + exists (mkWorld (ld w1) (delete p (heap w1)) (log w1)).
      split; [|done].
      rewrite (btrace_destroy_ok _ p b) by done. reflexivity.
  - rewrite (bstore_print_backtrace_named_scan dladdr popen fuel p b
               label w1) by done.
    unfold first_match, scan_order.
    rewrite seqZ_cons by (unfold SAVE_TRACES; lia). rewrite fmap_cons.
    replace (current b - 1 - 0) with (current b - 1) by lia.
    cbn [List.find]. unfold matches at 1.
    rewrite (slot_why _ _ _ Hslot). simpl. rewrite String.eqb_refl.
    apply (print_trace_rendering dladdr popen w1 p b _ label _ Hp).
    rewrite Hslot. unfold recorded. simpl. by rewrite Hfa.
Qed.
End GlibcFacts.

(** ** libunwind: the store and a capture *)
Module LibunwindFacts.
Import Libunwind LibunwindSpec.

Lemma lu_wf_zeroed : wf zeroed.
Proof.
  unfold wf, zeroed. cbn [dumps current].
  rewrite length_replicate. split; [done|]. split.
  - apply Forall_replicate. unfold wf_stack. cbn [frame depth].
    rewrite length_replicate. unfold MAX_DEPTH. lia.
  - unfold SAVE_TRACES. lia.
Qed.

Lemma lu_wf_set_shared s b : wf b → wf (set_shared s b).
Proof. done. Qed.

Lemma lu_wf_put s b : wf b → wf_stack s → wf (put s b).
Proof.
  intros (Hl&Hall&Hc) Hs. unfold wf, put. simpl.
  rewrite length_insert. split; [done|]. split.
  - apply Forall_insert; done.
  - by apply Z.mod_pos_bound.
Qed.

(** The [for] loop of [save_backtrace] stops at [MAX_DEPTH]. *)
Lemma lu_walk_bounded cursor :
  ∀ d frame,
    0 ≤ d ≤ MAX_DEPTH → length frame = Z.to_nat MAX_DEPTH →
    ∃ frame',
      walk cursor d frame
      = Some (Z.min (d + Z.of_nat (length cursor)) MAX_DEPTH, frame') ∧
      length frame' = Z.to_nat MAX_DEPTH.
Proof.
  unfold MAX_DEPTH.
  induction cursor as [|f cursor IH]; intros d frame Hd Hlen.
  - exists frame. simpl. split; [|done]. f_equal. f_equal. lia.
  - simpl. case_bool_decide as Hlt; unfold MAX_DEPTH in *.
    + rewrite arr_set_in_range by lia. simpl.
      rewrite int_add_small by lia.
      destruct (IH (d + 1) (<[Z.to_nat d := unw_get_proc_name f 32]> frame))
        as (frame'&->&Hlen'); [lia|by rewrite length_insert|].
      exists frame'. split; [|done]. f_equal. f_equal. lia.
    + exists frame. split; [|done]. f_equal. f_equal.
      unfold MAX_DEPTH in *. lia.
Qed.

Lemma lu_get_trace_store_present ok create (w : world btrace) p :
  has_LD w (Some p) → get_trace_store ok create w = Ok (Some p, w).
Proof.
  destruct w as [l h lg]; unfold has_LD; simpl; intros ->.
  unfold get_trace_store. mon_unfold. reflexivity.
Qed.

Lemma lu_get_trace_store_fresh create (w : world btrace) :
  has_LD w None →
  let p := fresh (dom (heap w)) in
  get_trace_store true create w =
    Ok (Some p, mkWorld (Some (mkLD (Some p)))
                  (<[p := Some (set_shared true zeroed)]> (heap w)) (log w)).
Proof.
  destruct w as [l h lg]; unfold has_LD; simpl; intros ->.
  unfold get_trace_store. mon_unfold. mon_simpl. reflexivity.
Qed.

Lemma lu_get_trace_store_none create (w : world btrace) :
  has_LD w None ∨ ld w = None →
  get_trace_store false create w = Ok (None, w).
Proof.
  destruct w as [l h lg]; unfold has_LD; simpl.
  intros [->| ->]; unfold get_trace_store; mon_unfold; simpl;
    by destruct create.
Qed.

Lemma lu_next_btrace_id_ok atomic fuel (w : world btrace) p b :
  (0 < fuel)%nat → heap w !! p = Some (Some b) →
  0 ≤ current b < SAVE_TRACES →
  next_btrace_id atomic fuel p w =
    Ok (current b,
        mkWorld (ld w)
          (<[p := Some (set_current ((current b + 1) mod SAVE_TRACES) b)]>
             (heap w)) (log w)).
Proof.
  intros Hf Hp Hc. unfold next_btrace_id.
  rewrite (bind_Ok _ _ w b w) by (unfold load; by rewrite Hp).
  rewrite next_btrace_id_sequential by done.
  mon_unfold. rewrite Hp. reflexivity.
Qed.

(** [save_backtrace] once [get_trace_store] has produced the store [b]
    at [p]. *)
Lemma lu_save_backtrace_with atomic fuel env why (w w1 : world btrace) p b :
  (0 < fuel)%nat →
  get_trace_store (store_alloc env) true w = Ok (Some p, w1) →
  heap w1 !! p = Some (Some b) → wf b →
  ∃ s,
    save_backtrace atomic fuel env why w =
      Ok (Some p,
          mkWorld (ld w1) (<[p := Some (put s b)]> (heap w1)) (log w1)) ∧
    wf_stack s ∧
    name s = Some why ∧
    depth s = Z.min (Z.of_nat (length (stack env))) MAX_DEPTH.
Proof.
  intros Hf Hg Hp Hwf. pose proof Hwf as (Hl&Hall&Hc).
  destruct (arr_get_is_Some (dumps b) (current b)) as [s0 Hs0];
    [rewrite Hl; unfold SAVE_TRACES in *; lia|].
  assert (wf_stack s0) as [Hfl Hd0].
  { rewrite arr_get_lookup in Hs0 by lia.
    by eapply Forall_lookup_1 in Hall. }
  destruct (lu_walk_bounded (stack env) 0 (frame s0)) as (frame'&Hwalk&Hfl');
    [unfold MAX_DEPTH; lia|done|].
  rewrite Z.add_0_l in Hwalk.
  exists (mk_btrace_stack (Some why)
            (Z.min (Z.of_nat (length (stack env))) MAX_DEPTH) frame').
  split; [|split; [|done]].
  - unfold save_backtrace.
    rewrite (bind_Ok _ _ _ _ _ Hg).
    rewrite (bind_Ok _ _ _ _ _ (lu_next_btrace_id_ok _ _ _ _ _ Hf Hp Hc)).
    mon_unfold. mon_simpl. rewrite Hs0. simpl. rewrite Hwalk. simpl.
    rewrite arr_set_in_range by (rewrite Hl; unfold SAVE_TRACES in *; lia).
    simpl. mon_simpl. reflexivity.
  - split; [done|]. simpl. unfold MAX_DEPTH. lia.
Qed.

(** [save_backtrace] on a thread that has its store. *)
Lemma lu_save_backtrace_present atomic fuel env why (w : world btrace) p b :
  (0 < fuel)%nat → has_store wf w p b →
  ∃ s,
    save_backtrace atomic fuel env why w =
      Ok (Some p, mkWorld (ld w) (<[p := Some (put s b)]> (heap w)) (log w)) ∧
    wf_stack s ∧
    name s = Some why ∧
    depth s = Z.min (Z.of_nat (length (stack env))) MAX_DEPTH.
Proof.
  intros Hf (Hld&Hp&Hwf).
  by apply (lu_save_backtrace_with atomic fuel env why w w p b Hf
              (lu_get_trace_store_present _ _ _ _ Hld)).
Qed.

(** Without [LD] the store is private to the caller. *)
Lemma lu_get_trace_store_private (w : world btrace) :
  ld w = None →
  let p := fresh (dom (heap w)) in
  get_trace_store true true w =
    Ok (Some p, mkWorld None (<[p := Some zeroed]> (heap w)) (log w)).
Proof.
  destruct w as [l h lg]; simpl; intros ->.
  unfold get_trace_store. mon_unfold. mon_simpl. reflexivity.
Qed.

Lemma lu_save_backtrace_fresh atomic fuel env why (w : world btrace) :
  (0 < fuel)%nat → has_LD w None → store_alloc env = true →
  let p := fresh (dom (heap w)) in
  ∃ s,
    save_backtrace atomic fuel env why w =
      Ok (Some p,
          mkWorld (Some (mkLD (Some p)))
            (<[p := Some (put s (set_shared true zeroed))]> (heap w))
            (log w)) ∧
    wf_stack s ∧
    name s = Some why ∧
    depth s = Z.min (Z.of_nat (length (stack env))) MAX_DEPTH.
Proof.
  intros Hf Hld Ha p.
  set (w1 := mkWorld (Some (mkLD (Some p)))
               (<[p := Some (set_shared true zeroed)]> (heap w)) (log w)).
  assert (has_store wf w1 p (set_shared true zeroed)) as Hst.
  { split; [done|]. split; [|apply lu_wf_set_shared, lu_wf_zeroed].
    unfold w1. simpl. by rewrite lookup_insert_eq. }
  destruct (lu_save_backtrace_present atomic fuel env why w1 p _ Hf Hst)
    as (s&Hsave&Hs). exists s. split; [|done].
  unfold save_backtrace in *. rewrite Ha.
  rewrite (bind_Ok _ _ _ _ _ (lu_get_trace_store_fresh _ _ Hld)).
  fold p w1.
  rewrite (bind_Ok _ _ _ _ _
             (lu_get_trace_store_present (store_alloc env) true w1 p
                (proj1 Hst))) in Hsave.
  rewrite Hsave. unfold w1. simpl. by rewrite insert_insert_eq.
Qed.

(** The search loop, entered with [d] slots left to visit, ends
    without output when none of them has the label. *)
Lemma lu_named_loop_silent p b why (w : world btrace) :
  wf b → unlabeled b why →
  ∀ (d : nat) (n : nat) (me : Z),
    (1 ≤ d ≤ 10)%nat → (d ≤ n)%nat →
    -1 ≤ me < SAVE_TRACES - 1 →
    me mod SAVE_TRACES
    = (current b - 1 - (SAVE_TRACES - Z.of_nat d)) mod SAVE_TRACES →
    named_loop n p b why me w = Ok ((), w).
Proof.
  intros (Hl&_&Hc) Hun.
  induction d as [|d IH]; intros n me Hd Hn Hme Hmod; [lia|].
  destruct n as [|n]; [lia|].
  simpl named_loop.
  set (m := (current b - 1 - (SAVE_TRACES - Z.of_nat (S d))) mod SAVE_TRACES)
    in *.
  assert ((if bool_decide (me < 0) then int_add me SAVE_TRACES else me) = m)
    as ->.
  { unfold m, SAVE_TRACES in *. case_bool_decide.
    - rewrite int_add_small by lia. Z.div_mod_to_equations; lia.
    - Z.div_mod_to_equations; lia. }
  assert (0 ≤ m < SAVE_TRACES) as Hm
    by (unfold m, SAVE_TRACES; Z.div_mod_to_equations; lia).
  destruct (arr_get_is_Some (dumps b) m) as [s Hs];
    [rewrite Hl; unfold SAVE_TRACES in *; lia|].
  rewrite Hs. simpl. rewrite ret_bind.
  assert (label_is (name s) why = false) as ->.
  { rewrite arr_get_lookup in Hs by lia.
    by eapply Forall_lookup_1 in Hun. }
  unfold SAVE_TRACES in *.
  rewrite !int_sub_small by lia.
  case_bool_decide as Hend; [reflexivity|].
  assert (d ≠ 0%nat) as Hd0
    by (unfold m in *; intros ->; Z.div_mod_to_equations; lia).
  apply IH; try lia.
  unfold m. Z.div_mod_to_equations; lia.
Qed.

Lemma lu_bstore_print_backtrace_named_silent fuel p b why (w : world btrace) :
  SAVE_TRACES ≤ Z.of_nat fuel →
  heap w !! p = Some (Some b) → wf b → unlabeled b why →
  bstore_print_backtrace_named fuel (Some p) why w = Ok ((), w).
Proof.
  intros Hf Hp Hwf Hun. unfold bstore_print_backtrace_named.
  rewrite (bind_Ok _ _ w b w) by (unfold load; by rewrite Hp).
  pose proof Hwf as (_&_&Hc). unfold SAVE_TRACES in *.
  rewrite int_sub_small by lia.
  apply (lu_named_loop_silent p b why w Hwf Hun 10); unfold SAVE_TRACES;
    try lia.
  f_equal. lia.
Qed.

Lemma lu_print_trace_rendering (w : world btrace) p b me s l :
  heap w !! p = Some (Some b) →
  arr_get (dumps b) me = Some s → wf_stack s → name s = Some l →
  print_trace p me w = Ok ((), printed w (rendering l s)).
Proof.
  intros Hp Hs (Hfl&Hd) Hn. unfold print_trace.
  rewrite (bind_Ok _ _ w b w) by (unfold load; by rewrite Hp).
  rewrite Hs. simpl. rewrite ret_bind. rewrite Hn.
  rewrite (bind_Ok _ _ _ _ _ (Sdprintf_printed _ _)).
  rewrite (for_each_printed _ _ (frame_line s)).
  - by rewrite printed_app.
  - intros d w' Hin%elem_of_seqZ. unfold frame_line.
    destruct (arr_get_is_Some (frame s) d) as [f ->];
      [rewrite Hfl; unfold MAX_DEPTH in *; lia|].
    reflexivity.
Qed.

Lemma lu_recent_put s b :
  wf b →
  arr_get (dumps (put s b)) ((current (put s b) - 1) mod SAVE_TRACES)
  = Some s.
Proof.
  intros (Hl&_&Hc). simpl. unfold SAVE_TRACES in *.
  replace (((current b + 1) mod 10 - 1) mod 10)
    with (current b) by (Z.div_mod_to_equations; lia).
  rewrite arr_get_lookup by lia.
  apply list_lookup_insert_eq. lia.
Qed.

(** The search finds at once the trace in the slot before the
    cursor. *)
Lemma lu_named_finds_latest fuel (w : world btrace) p b s why :
  (0 < fuel)%nat →
  heap w !! p = Some (Some b) → 0 ≤ current b < SAVE_TRACES →
  arr_get (dumps b) ((current b - 1) mod SAVE_TRACES) = Some s →
  wf_stack s → name s = Some why →
  bstore_print_backtrace_named fuel (Some p) why w
  = Ok ((), printed w (rendering why s)).
Proof.
  intros Hf Hp Hc Hrec Hs Hn. unfold bstore_print_backtrace_named.
  rewrite (bind_Ok _ _ w b w) by (unfold load; by rewrite Hp).
  destruct fuel as [|fuel]; [lia|]. simpl named_loop.
  assert ((if bool_decide (int_sub (current b) 1 < 0)
           then int_add (int_sub (current b) 1) SAVE_TRACES
           else int_sub (current b) 1)
          = (current b - 1) mod SAVE_TRACES) as ->.
  { unfold SAVE_TRACES in *. rewrite int_sub_small by lia.
    case_bool_decide.
    - rewrite int_add_small by lia. Z.div_mod_to_equations; lia.
    - Z.div_mod_to_equations; lia. }
  rewrite Hrec. simpl. rewrite ret_bind. rewrite Hn. simpl.
  rewrite String.eqb_refl.
  by apply (lu_print_trace_rendering w p b).
Qed.
End LibunwindFacts.

(** ** Windows: the store and a capture *)
Module WindowsFacts.
Import Windows WindowsSpec.

Lemma win_wf_zeroed : wf zeroed.
Proof.
  unfold wf, zeroed. cbn [dumps current].
  rewrite length_replicate. split; [done|]. split.
  - apply Forall_replicate. unfold wf_stack. cbn [frame depth].
    rewrite length_replicate. unfold MAX_DEPTH. lia.
  - unfold SAVE_TRACES. lia.
Qed.

Lemma win_wf_set_shared s b : wf b → wf (set_shared s b).
Proof. done. Qed.

Lemma win_wf_put s b : wf b → wf_stack s → wf (put s b).
Proof.
  intros (Hl&Hall&Hc) Hs. unfold wf, put. simpl.
  rewrite length_insert. split; [done|]. split.
  - apply Forall_insert; done.
  - by apply Z.mod_pos_bound.
Qed.

(** The [while] loop of [backtrace] stops at [MAX_DEPTH]. *)
Lemma win_stack_walk_bounded have_libdwarf steps :
  ∀ skip d frame,
    0 ≤ skip < 2 ^ 31 →
    0 ≤ d ≤ MAX_DEPTH → length frame = Z.to_nat MAX_DEPTH →
    ∃ frame',
      stack_walk have_libdwarf steps skip d frame
      = Some (Z.min (d + Z.max 0 (Z.of_nat (length steps) - skip)) MAX_DEPTH,
              frame') ∧
      length frame' = Z.to_nat MAX_DEPTH.
Proof.
  induction steps as [|x steps IH]; intros skip d frame Hskip Hd Hlen.
  - exists frame. split; [|done]. unfold MAX_DEPTH in *.
    destruct (decide (d < 10)) as [Hlt|Hge]; simpl.
    + rewrite bool_decide_eq_true_2 by done. f_equal. f_equal. lia.
    + rewrite bool_decide_eq_false_2 by done. f_equal. f_equal. lia.
  - simpl stack_walk. case_bool_decide as Hlt; unfold MAX_DEPTH in *.
    + case_bool_decide as Hsk.
      * destruct (IH (int_sub skip 1) d frame) as (frame'&->&Hlen');
          [rewrite int_sub_small by lia; lia|done|done|].
        exists frame'. split; [|done]. rewrite int_sub_small by lia.
        f_equal. f_equal. simpl length. lia.
      * rewrite arr_set_in_range by lia. simpl.
        rewrite int_add_small by lia.
        destruct (IH skip (d + 1)
                    (<[Z.to_nat d := record_frame have_libdwarf x]> frame))
          as (frame'&->&Hlen'); [lia|lia|by rewrite length_insert|].
        exists frame'. split; [|done]. f_equal. f_equal. simpl length. lia.
    + exists frame. split; [|done]. f_equal. f_equal. lia.
Qed.

Lemma win_backtrace_bounded have_libdwarf env exception frame :
  length frame = Z.to_nat MAX_DEPTH →
  ∃ d frame',
    backtrace have_libdwarf env exception frame = Some (d, frame') ∧
    0 ≤ d ≤ MAX_DEPTH ∧ length frame' = Z.to_nat MAX_DEPTH.
Proof.
  intros Hlen. unfold backtrace.
  destruct (sym_initialize env).
  - destruct (win_stack_walk_bounded have_libdwarf (stack env)
                (if exception then 0 else 2) 0 frame)
      as (frame'&->&Hlen'); [destruct exception; lia|unfold MAX_DEPTH; lia|done|].
    eexists _, frame'. split; [done|]. split; [|done].
    unfold MAX_DEPTH. lia.
  - exists 0, frame. split; [done|]. split; [unfold MAX_DEPTH; lia|done].
Qed.

Lemma win_get_trace_store_present ok (w : world btrace) p :
  has_LD w (Some p) → get_trace_store ok false w = Ok (Some p, w).
Proof.
  destruct w as [l h lg]; unfold has_LD; simpl; intros ->.
  unfold get_trace_store. mon_unfold. reflexivity.
Qed.

(** With a store already there, [create] makes a private one. *)
Lemma win_get_trace_store_private (w : world btrace) p :
  has_LD w (Some p) →
  let p' := fresh (dom (heap w)) in
  get_trace_store true true w =
    Ok (Some p', mkWorld (ld w) (<[p' := Some zeroed]> (heap w)) (log w)).
Proof.
  destruct w as [l h lg]; unfold has_LD; simpl; intros ->.
  unfold get_trace_store. mon_unfold. mon_simpl. reflexivity.
Qed.

Lemma win_get_trace_store_fresh create (w : world btrace) :
  has_LD w None →
  let p := fresh (dom (heap w)) in
  get_trace_store true create w =
    Ok (Some p, mkWorld (Some (mkLD (Some p)))
                  (<[p := Some (set_shared true zeroed)]> (heap w)) (log w)).
Proof.
  destruct w as [l h lg]; unfold has_LD; simpl; intros ->.
  unfold get_trace_store. mon_unfold. mon_simpl. reflexivity.
Qed.

Lemma win_next_btrace_id_ok atomic fuel (w : world btrace) p b :
  (0 < fuel)%nat → heap w !! p = Some (Some b) →
  0 ≤ current b < SAVE_TRACES →
  next_btrace_id atomic fuel p w =
    Ok (current b,
        mkWorld (ld w)
          (<[p := Some (set_current ((current b + 1) mod SAVE_TRACES) b)]>
             (heap w)) (log w)).
Proof.
  intros Hf Hp Hc. unfold next_btrace_id.
  rewrite (bind_Ok _ _ w b w) by (unfold load; by rewrite Hp).
  rewrite next_btrace_id_sequential by done.
  mon_unfold. rewrite Hp. reflexivity.
Qed.

(** What [win_save_backtrace] does once it has the store [b] at [p]. *)
Lemma win_save_into atomic fuel have_libdwarf env why exception
    (w : world btrace) p b :
  (0 < fuel)%nat → heap w !! p = Some (Some b) → wf b →
  ∃ s,
    (cur ← next_btrace_id atomic fuel p;
     b ← load p;
     s ← defined (arr_get (dumps b) cur);
     '(depth, frame) ← defined (backtrace have_libdwarf env exception
                                  (frame s));
     dumps' ← defined (arr_set (dumps b) cur
                         (mk_btrace_stack (Some why) depth frame));
     store p (mk_btrace dumps' (current b) (shared b));;
     mret (Some p)) w =
      Ok (Some p, mkWorld (ld w) (<[p := Some (put s b)]> (heap w)) (log w)) ∧
    wf_stack s ∧ name s = Some why.
Proof.
  intros Hf Hp Hwf. pose proof Hwf as (Hl&Hall&Hc).
  destruct (arr_get_is_Some (dumps b) (current b)) as [s0 Hs0];
    [rewrite Hl; unfold SAVE_TRACES in *; lia|].
  assert (wf_stack s0) as [Hfl Hd0].
  { rewrite arr_get_lookup in Hs0 by lia.
    by eapply Forall_lookup_1 in Hall. }
  destruct (win_backtrace_bounded have_libdwarf env exception (frame s0) Hfl)
    as (d&frame'&Hbt&Hd&Hfl').
  exists (mk_btrace_stack (Some why) d frame').
  split; [|done].
  rewrite (bind_Ok _ _ _ _ _ (win_next_btrace_id_ok _ _ _ _ _ Hf Hp Hc)).
  mon_unfold. mon_simpl. rewrite Hs0. simpl. rewrite Hbt. simpl.
  rewrite arr_set_in_range by (rewrite Hl; unfold SAVE_TRACES in *; lia).
  simpl. mon_simpl. reflexivity.
Qed.

(** The search loop, entered with [d] slots left to visit, ends
    without output when none of them has the label. *)
Lemma win_named_loop_silent have_libdwarf dwarf_addr2line p b why (w : world btrace) :
  wf b → unlabeled b why →
  ∀ (d : nat) (n : nat) (me : Z),
    (1 ≤ d ≤ 10)%nat → (d ≤ n)%nat →
    -1 ≤ me < SAVE_TRACES - 1 →
    me mod SAVE_TRACES
    = (current b - 1 - (SAVE_TRACES - Z.of_nat d)) mod SAVE_TRACES →
    named_loop have_libdwarf dwarf_addr2line n p b why me w = Ok ((), w).
Proof.
  intros (Hl&_&Hc) Hun.
  induction d as [|d IH]; intros n me Hd Hn Hme Hmod; [lia|].
  destruct n as [|n]; [lia|].
  simpl named_loop.
  set (m := (current b - 1 - (SAVE_TRACES - Z.of_nat (S d))) mod SAVE_TRACES)
    in *.
  assert ((if bool_decide (me < 0) then int_add me SAVE_TRACES else me) = m)
    as ->.
  { unfold m, SAVE_TRACES in *. case_bool_decide.
    - rewrite int_add_small by lia. Z.div_mod_to_equations; lia.
    - Z.div_mod_to_equations; lia. }
  assert (0 ≤ m < SAVE_TRACES) as Hm
    by (unfold m, SAVE_TRACES; Z.div_mod_to_equations; lia).
  destruct (arr_get_is_Some (dumps b) m) as [s Hs];
    [rewrite Hl; unfold SAVE_TRACES in *; lia|].
  rewrite Hs. simpl. rewrite ret_bind.
  assert (label_is (name s) why = false) as ->.
  { rewrite arr_get_lookup in Hs by lia.
    by eapply Forall_lookup_1 in Hun. }
  unfold SAVE_TRACES in *.
  rewrite !int_sub_small by lia.
  case_bool_decide as Hend; [reflexivity|].
  assert (d ≠ 0%nat) as Hd0
    by (unfold m in *; intros ->; Z.div_mod_to_equations; lia).
  apply IH; try lia.
  unfold m. Z.div_mod_to_equations; lia.
Qed.

Lemma win_bstore_print_backtrace_named_silent fuel have_libdwarf dwarf_addr2line p b why (w : world btrace) :
  SAVE_TRACES ≤ Z.of_nat fuel →
  heap w !! p = Some (Some b) → wf b → unlabeled b why →
  bstore_print_backtrace_named fuel have_libdwarf dwarf_addr2line (Some p) why w = Ok ((), w).
Proof.
  intros Hf Hp Hwf Hun. unfold bstore_print_backtrace_named.
  rewrite (bind_Ok _ _ w b w) by (unfold load; by rewrite Hp).
  pose proof Hwf as (_&_&Hc). unfold SAVE_TRACES in *.
  rewrite int_sub_small by lia.
  apply (win_named_loop_silent have_libdwarf dwarf_addr2line p b why w Hwf Hun 10); unfold SAVE_TRACES;
    try lia.
  f_equal. lia.
Qed.

Lemma win_recent_put s b :
  wf b →
  arr_get (dumps (put s b)) ((current (put s b) - 1) mod SAVE_TRACES)
  = Some s.
Proof.
  intros (Hl&_&Hc). simpl. unfold SAVE_TRACES in *.
  replace (((current b + 1) mod 10 - 1) mod 10)
    with (current b) by (Z.div_mod_to_equations; lia).
  rewrite arr_get_lookup by lia.
  apply list_lookup_insert_eq. lia.
Qed.


Section Rendering.
Variable have_libdwarf : bool.
Variable dwarf_addr2line : Z → option string.

Lemma win_print_trace_rendering (w : world btrace) p b me s l :
  heap w !! p = Some (Some b) →
  arr_get (dumps b) me = Some s → wf_stack s → name s = Some l →
  print_trace have_libdwarf dwarf_addr2line p me w
  = Ok ((), printed w (rendering have_libdwarf dwarf_addr2line l s)).
Proof.
  intros Hp Hs (Hfl&Hd) Hn. unfold print_trace.
  rewrite (bind_Ok _ _ w b w) by (unfold load; by rewrite Hp).
  rewrite Hs. simpl. rewrite ret_bind. rewrite Hn.
  rewrite (bind_Ok _ _ _ _ _ (Sdprintf_printed _ _)).
  rewrite (for_each_printed _ _
             (frame_line have_libdwarf dwarf_addr2line s)).
  - by rewrite printed_app.
  - intros d w' Hin%elem_of_seqZ. unfold frame_line.
    destruct (arr_get_is_Some (frame s) d) as [f ->];
      [rewrite Hfl; unfold MAX_DEPTH in *; lia|].
    simpl. rewrite ret_bind. case_bool_decide; [|done].
    by destruct (if have_libdwarf then _ else None).
Qed.

Lemma win_named_finds_latest fuel (w : world btrace) p b s why :
  (0 < fuel)%nat →
  heap w !! p = Some (Some b) → 0 ≤ current b < SAVE_TRACES →
  arr_get (dumps b) ((current b - 1) mod SAVE_TRACES) = Some s →
  wf_stack s → name s = Some why →
  bstore_print_backtrace_named fuel have_libdwarf dwarf_addr2line
    (Some p) why w
  = Ok ((), printed w (rendering have_libdwarf dwarf_addr2line why s)).
Proof.
  intros Hf Hp Hc Hrec Hs Hn. unfold bstore_print_backtrace_named.
  rewrite (bind_Ok _ _ w b w) by (unfold load; by rewrite Hp).
  destruct fuel as [|fuel]; [lia|]. simpl named_loop.
  assert ((if bool_decide (int_sub (current b) 1 < 0)
           then int_add (int_sub (current b) 1) SAVE_TRACES
           else int_sub (current b) 1)
          = (current b - 1) mod SAVE_TRACES) as ->.
  { unfold SAVE_TRACES in *. rewrite int_sub_small by lia.
    case_bool_decide.
    - rewrite int_add_small by lia. Z.div_mod_to_equations; lia.
    - Z.div_mod_to_equations; lia. }
  rewrite Hrec. simpl. rewrite ret_bind. rewrite Hn. simpl.
  rewrite String.eqb_refl.
  by apply (win_print_trace_rendering w p b).
Qed.
End Rendering.
End WindowsFacts.

(** ** Slot reservation, one caller at a time *)
Module Reservation.

Lemma next_in_range c :
0 ≤ c < SAVE_TRACES → 0 ≤ (c + 1) mod SAVE_TRACES < SAVE_TRACES.
Proof. intros _. by apply Z.mod_pos_bound. Qed.

(** C9. Run without interleaving on a cursor in [0, SAVE_TRACES - 1],
  [next_btrace_id] returns the cursor as the reserved index and leaves
  the cursor at [(previous + 1) mod SAVE_TRACES], again in range; on
  the compare-and-swap path ([atomic = true]) and on the plain path
  ([atomic = false]), in each configuration. *)
Theorem next_btrace_id_keeps_cursor (atomic : bool) (fuel : nat) (c : Z) :
(0 < fuel)%nat → 0 ≤ c < SAVE_TRACES →
let c' := (c + 1) mod SAVE_TRACES in
0 ≤ c' < SAVE_TRACES ∧
Cursor.next_btrace_id atomic fuel c = Ok (c, c') ∧
(∀ (w : world Glibc.btrace) p b,
   heap w !! p = Some (Some b) → Glibc.current b = c →
   Glibc.next_btrace_id atomic fuel p w =
     Ok (c, mkWorld (ld w) (<[p := Some (Glibc.set_current c' b)]> (heap w))
              (log w))) ∧
(∀ (w : world Libunwind.btrace) p b,
   heap w !! p = Some (Some b) → Libunwind.current b = c →
   Libunwind.next_btrace_id atomic fuel p w =
     Ok (c, mkWorld (ld w)
              (<[p := Some (Libunwind.set_current c' b)]> (heap w))
              (log w))) ∧
(∀ (w : world Windows.btrace) p b,
   heap w !! p = Some (Some b) → Windows.current b = c →
   Windows.next_btrace_id atomic fuel p w =
     Ok (c, mkWorld (ld w)
              (<[p := Some (Windows.set_current c' b)]> (heap w))
              (log w))).
Proof.
intros Hf Hc c'.
split; [by apply next_in_range|].
split; [by apply next_btrace_id_sequential|].
split; [|split]; intros w p b Hp Hb.
- unfold Glibc.next_btrace_id.
  rewrite (bind_Ok _ _ w b w) by (unfold load; by rewrite Hp).
  rewrite Hb, next_btrace_id_sequential by done.
  mon_unfold. by rewrite Hp.
- unfold Libunwind.next_btrace_id.
  rewrite (bind_Ok _ _ w b w) by (unfold load; by rewrite Hp).
  rewrite Hb, next_btrace_id_sequential by done.
  mon_unfold. by rewrite Hp.
- unfold Windows.next_btrace_id.
  rewrite (bind_Ok _ _ w b w) by (unfold load; by rewrite Hp).
  rewrite Hb, next_btrace_id_sequential by done.
  mon_unfold. by rewrite Hp.
Qed.

Lemma next_btrace_id_keeps_cursor_witness :
(Cursor.next_btrace_id true 1 9 = Ok (9, 0)) ∧
(Cursor.next_btrace_id false 1 9 = Ok (9, 0)).
Proof.
split.
- apply (next_btrace_id_keeps_cursor true 1 9); [lia | vm_compute; split; [discriminate|reflexivity]].
- apply (next_btrace_id_keeps_cursor false 1 9); [lia | vm_compute; split; [discriminate|reflexivity]].
Defined.
End Reservation.

(** ** The depth of a recorded trace *)
Module Depth.

(** C6 (as stated, refuted). In the glibc configuration a capture on a
  stack of eleven return addresses records a trace of size 11. *)
Lemma glibc_trace_of_11_frames :
∃ w' p b,
  Glibc.save_backtrace true 1 (Glibc.mk_walk_env (seqZ 1 11) true true) "gc"
    GlibcSpec.w0 = Ok (Some p, w') ∧
  heap w' !! p = Some (Some b) ∧
  arr_get (Glibc.sizes b) 0 = Some 11 ∧
  10 < 11.
Proof.
eexists _, _, _. split; [vm_compute; reflexivity|].
split; [vm_compute; reflexivity|]. split; [reflexivity|lia].
Qed.

(** C6 (amended). A trace recorded by [save_backtrace] has at most
  [MAX_DEPTH = 10] frames in the libunwind and the Windows
  configuration, where every slot of the store keeps
  [0 <= depth <= MAX_DEPTH]; in the glibc configuration it has at most
  100, the size of the array handed to [backtrace()]. *)
Theorem recorded_depth_bounded atomic fuel have_libdwarf :
(0 < fuel)%nat →
(∀ (w : world Libunwind.btrace) env why,
   context LibunwindSpec.wf w → Libunwind.store_alloc env = true →
   ∃ p w' b s,
     Libunwind.save_backtrace atomic fuel env why w = Ok (Some p, w') ∧
     has_store LibunwindSpec.wf w' p b ∧
     Forall (λ s, 0 ≤ Libunwind.depth s ≤ Libunwind.MAX_DEPTH)
       (Libunwind.dumps b) ∧
     arr_get (Libunwind.dumps b)
       ((Libunwind.current b - 1) mod SAVE_TRACES) = Some s ∧
     Libunwind.name s = Some why ∧
     Libunwind.depth s
     = Z.min (Z.of_nat (length (Libunwind.stack env))) Libunwind.MAX_DEPTH) ∧
(∀ (w : world Windows.btrace) env why,
   context WindowsSpec.wf w → Windows.store_alloc env = true →
   ∃ p w' b s,
     Windows.save_backtrace atomic fuel have_libdwarf env why w
     = Ok (Some p, w') ∧
     heap w' !! p = Some (Some b) ∧
     Forall (λ s, 0 ≤ Windows.depth s ≤ Windows.MAX_DEPTH)
       (Windows.dumps b) ∧
     arr_get (Windows.dumps b)
       ((Windows.current b - 1) mod SAVE_TRACES) = Some s ∧
     Windows.name s = Some why ∧
     0 ≤ Windows.depth s ≤ Windows.MAX_DEPTH) ∧
(∀ (w : world Glibc.btrace) env why,
   context GlibcSpec.wf w → Glibc.store_alloc env = true →
   ∃ p w' b,
     Glibc.save_backtrace atomic fuel env why w = Ok (Some p, w') ∧
     has_store GlibcSpec.wf w' p b ∧
     arr_get (Glibc.why b) ((Glibc.current b - 1) mod SAVE_TRACES)
     = Some (Some why) ∧
     arr_get (Glibc.sizes b) ((Glibc.current b - 1) mod SAVE_TRACES)
     = Some (Z.min (Z.of_nat (length (Glibc.stack env))) 100)).
Proof.
intros Hf. split; [|split].
- intros w env why Hctx Ha.
  assert (∃ p w' b0 s,
    Libunwind.save_backtrace atomic fuel env why w = Ok (Some p, w') ∧
    has_store LibunwindSpec.wf w' p (LibunwindSpec.put s b0) ∧
    LibunwindSpec.wf b0 ∧ Libunwind.name s = Some why ∧
    Libunwind.depth s
    = Z.min (Z.of_nat (length (Libunwind.stack env))) Libunwind.MAX_DEPTH)
    as (p&w'&b0&s&Hsave&Hst&Hwf0&Hname&Hdepth).
  { destruct Hctx as [Hld|(p&b&Hst)].
    - destruct (LibunwindFacts.lu_save_backtrace_fresh atomic fuel env why w
                  Hf Hld Ha) as (s&Hsave&Hs&Hn&Hd).
      eexists _, _, _, s. split; [exact Hsave|].
      assert (LibunwindSpec.wf (Libunwind.set_shared true Libunwind.zeroed))
        as Hwf0 by apply LibunwindFacts.lu_wf_set_shared,
                     LibunwindFacts.lu_wf_zeroed.
      split; [|done]. split; [done|]. split.
      + simpl. by rewrite lookup_insert_eq.
      + by apply LibunwindFacts.lu_wf_put.
    - destruct (LibunwindFacts.lu_save_backtrace_present atomic fuel env why w
                  p b Hf Hst) as (s&Hsave&Hs&Hn&Hd).
      destruct Hst as (Hld&Hp&Hwf).
      eexists _, _, b, s. split; [exact Hsave|].
      split; [|done]. split; [done|]. split.
      + simpl. by rewrite lookup_insert_eq.
      + by apply LibunwindFacts.lu_wf_put. }
  exists p, w', (LibunwindSpec.put s b0), s.
  split; [done|]. split; [done|]. split.
  + destruct Hst as (_&_&(_&Hall&_)).
    eapply Forall_impl; [exact Hall|]. by intros x [_ ?].
  + split; [by apply LibunwindFacts.lu_recent_put|done].
- intros w env why Hctx Ha.
  assert (∃ p w' b0 s,
    Windows.save_backtrace atomic fuel have_libdwarf env why w
    = Ok (Some p, w') ∧
    heap w' !! p = Some (Some (WindowsSpec.put s b0)) ∧
    WindowsSpec.wf b0 ∧ WindowsSpec.wf_stack s ∧
    Windows.name s = Some why)
    as (p&w'&b0&s&Hsave&Hp&Hwf0&Hs&Hname).
  { unfold Windows.save_backtrace, Windows.win_save_backtrace.
    rewrite Ha.
    destruct Hctx as [Hld|(p&b&Hld&Hp&Hwf)].
    - pose proof (WindowsFacts.win_get_trace_store_fresh true w Hld) as Hg.
      simpl in Hg. set (p := fresh (dom (heap w))) in *.
      set (w1 := mkWorld _ _ _) in Hg.
      assert (WindowsSpec.wf (Windows.set_shared true Windows.zeroed))
        as Hwf0 by apply WindowsFacts.win_wf_set_shared, WindowsFacts.win_wf_zeroed.
      assert (heap w1 !! p
              = Some (Some (Windows.set_shared true Windows.zeroed)))
        as Hp1 by (unfold w1; simpl; by rewrite lookup_insert_eq).
      destruct (WindowsFacts.win_save_into atomic fuel have_libdwarf env why
                  false w1 p _ Hf Hp1 Hwf0) as (s&Hsave&Hs&Hn).
      eexists p, _, _, s.
      rewrite (bind_Ok _ _ _ _ _ Hg). split; [exact Hsave|].
      split; [simpl; by rewrite lookup_insert_eq|done].
    - pose proof (WindowsFacts.win_get_trace_store_private w p Hld) as Hg.
      simpl in Hg. set (p' := fresh (dom (heap w))) in *.
      set (w1 := mkWorld _ _ _) in Hg.
      assert (heap w1 !! p' = Some (Some Windows.zeroed))
        as Hp1 by (unfold w1; simpl; by rewrite lookup_insert_eq).
      destruct (WindowsFacts.win_save_into atomic fuel have_libdwarf env why
                  false w1 p' _ Hf Hp1 WindowsFacts.win_wf_zeroed)
        as (s&Hsave&Hs&Hn).
      eexists p', _, _, s.
      rewrite (bind_Ok _ _ _ _ _ Hg). split; [exact Hsave|].
      split; [simpl; by rewrite lookup_insert_eq|].
      split; [apply WindowsFacts.win_wf_zeroed|done]. }
  exists p, w', (WindowsSpec.put s b0), s.
  split; [done|]. split; [done|].
  pose proof (WindowsFacts.win_wf_put s b0 Hwf0 Hs) as (_&Hall&_).
  split.
  + eapply Forall_impl; [exact Hall|]. by intros x [_ ?].
  + split; [by apply WindowsFacts.win_recent_put|]. split; [done|]. by destruct Hs.
- intros w env why Hctx Ha.
  destruct (GlibcFacts.captures_context atomic fuel [(env, why)] w Hf Hctx)
    as (w'&p&b0&Hwf0&Hrun&Hst&_); [done|by repeat constructor|].
  exists p, w', (puts GlibcSpec.put (GlibcSpec.recorded <$> [(env, why)]) b0).
  split.
  { simpl in Hrun. unfold mbind, Mon_bind in Hrun.
    destruct (Glibc.save_backtrace atomic fuel env why w)
      as [[r w1]| |] eqn:Hs; [|done|done].
    unfold mret, Mon_ret in Hrun. injection Hrun as <-.
    destruct Hctx as [Hld|(p0&b&Hst0)].
    - pose proof (GlibcFacts.save_backtrace_fresh atomic fuel (env, why) w
                    Hf Hld Ha) as Hs'. simpl in Hs'.
      rewrite Hs' in Hs. injection Hs as <- <-.
      destruct Hst as (Hld'&_). unfold has_LD in Hld'. simpl in Hld'.
      by injection Hld' as <-.
    - pose proof (GlibcFacts.save_backtrace_present atomic fuel (env, why) w
                    p0 b Hf Hst0) as Hs'. simpl in Hs'.
      rewrite Hs' in Hs. injection Hs as <- <-.
      destruct Hst as (Hld'&_). destruct Hst0 as (Hld0&_).
      unfold has_LD, GlibcSpec.captured in *. simpl in Hld'.
      rewrite Hld0 in Hld'. by injection Hld' as <-. }
  split; [done|].
  pose proof (GlibcFacts.ring_recent_glibc
                (GlibcSpec.recorded <$> [(env, why)]) b0 1 Hwf0) as Hr.
  rewrite most_recent_lookup in Hr by (simpl; lia). simpl in Hr.
  specialize (Hr ltac:(lia) ltac:(unfold SAVE_TRACES; lia)).
  unfold GlibcSpec.slot in Hr.
  destruct (arr_get (Glibc.why _) _) as [y|]; [|done].
  destruct (arr_get (Glibc.sizes _) _) as [n|]; [|done].
  destruct (arr_get (Glibc.retaddr _) _) as [r|]; [|done].
  simpl in Hr. injection Hr as -> -> ->.
  split; [done|]. f_equal. unfold Glibc.backtrace.
  rewrite length_take. lia.
Qed.

Lemma recorded_depth_bounded_witness :
∃ p w' b s,
  Libunwind.save_backtrace true 1 LibunwindSpec.env12 "gc" LibunwindSpec.w0
  = Ok (Some p, w') ∧
  has_store LibunwindSpec.wf w' p b ∧
  Forall (λ s, 0 ≤ Libunwind.depth s ≤ Libunwind.MAX_DEPTH)
    (Libunwind.dumps b) ∧
  arr_get (Libunwind.dumps b)
    ((Libunwind.current b - 1) mod SAVE_TRACES) = Some s ∧
  Libunwind.name s = Some "gc" ∧
  Libunwind.depth s
  = Z.min (Z.of_nat (length (Libunwind.stack LibunwindSpec.env12)))
      Libunwind.MAX_DEPTH.
Proof.
apply (proj1 (recorded_depth_bounded true 1 false ltac:(lia))
         LibunwindSpec.w0 LibunwindSpec.env12 "gc").
- left. reflexivity.
- reflexivity.
Defined.
End Depth.

(** ** glibc: the ring of the most recent traces *)
Module GlibcRing.
Import Glibc GlibcSpec GlibcFacts.

(** C1. After a sequence of at most [SAVE_TRACES] captures on one
  context, [print_backtrace(i)] for [1 <= i <= min(N, SAVE_TRACES)]
  prints the slot [cursor - i] wrapped modulo [SAVE_TRACES], and that
  slot holds the trace recorded by the [i]-th most recent capture; when
  the frame array of that capture could be allocated the output is the
  rendering of its label and return addresses. *)
Theorem print_backtrace_most_recent atomic fuel dladdr popen ok
  (w : world btrace) (cs : list capture) (i : Z) :
(0 < fuel)%nat →
context wf w →
Forall (λ c : capture, store_alloc c.1 = true) cs →
Z.of_nat (length cs) ≤ SAVE_TRACES →
1 ≤ i ≤ Z.min (Z.of_nat (length cs)) SAVE_TRACES →
∃ w' p b c,
  captures atomic fuel cs w = Ok ((), w') ∧
  has_store wf w' p b ∧
  most_recent i cs = Some c ∧
  let me := (current b - i) mod SAVE_TRACES in
  slot b me = Some (recorded c) ∧
  print_backtrace dladdr popen ok i w' =
    print_trace dladdr popen p me w' ∧
  (frames_alloc c.1 = true →
   print_backtrace dladdr popen ok i w' =
     Ok ((), printed w' (rendering dladdr popen c.2
                           (backtrace (stack c.1) 100)))).
Proof.
intros Hf Hctx Hall HN Hi.
assert (cs ≠ []) as Hne by (intros ->; simpl in Hi; lia).
destruct (captures_context atomic fuel cs w Hf Hctx Hne Hall)
  as (w'&p&b0&Hwf0&Hrun&Hst&_).
assert (is_Some (most_recent i cs)) as [c Hc].
{ rewrite most_recent_lookup by lia. apply lookup_lt_is_Some. lia. }
exists w', p, (puts put (recorded <$> cs) b0), c. split; [done|]. split; [done|]. split; [done|].
assert (slot (puts put (recorded <$> cs) b0)
          ((current (puts put (recorded <$> cs) b0) - i) mod SAVE_TRACES)
        = Some (recorded c)) as Hslot.
{ rewrite ring_recent_glibc; [|done|rewrite length_fmap; lia|lia].
  rewrite most_recent_lookup by (rewrite length_fmap; lia).
  rewrite most_recent_lookup in Hc by lia.
  rewrite list_lookup_fmap, length_fmap, Hc. done. }
simpl. split; [done|].
assert (print_backtrace dladdr popen ok i w' =
        print_trace dladdr popen p
          ((current (puts put (recorded <$> cs) b0) - i) mod SAVE_TRACES) w')
  as Hpb by (apply print_backtrace_slot; [done|lia]).
split; [done|].
intros Hfa. rewrite Hpb.
destruct Hst as (_&Hp&_).
eapply print_trace_rendering; [done|].
rewrite Hslot. unfold recorded. by rewrite Hfa.
Qed.


Lemma print_backtrace_most_recent_witness :
∃ w' p b c,
  captures true 1 [(env1, "gc"); (env1, "crash")] w0 = Ok ((), w') ∧
  has_store wf w' p b ∧
  most_recent 1 [(env1, "gc"); (env1, "crash")] = Some c ∧
  let me := (current b - 1) mod SAVE_TRACES in
  slot b me = Some (recorded c) ∧
  print_backtrace (λ _, None) (λ _ _, None) true 1 w' =
    print_trace (λ _, None) (λ _ _, None) p me w' ∧
  (frames_alloc c.1 = true →
   print_backtrace (λ _, None) (λ _ _, None) true 1 w' =
     Ok ((), printed w' (rendering (λ _, None) (λ _ _, None) c.2
                           (backtrace (stack c.1) 100)))).
Proof.
apply (print_backtrace_most_recent true 1 (λ _, None) (λ _ _, None) true w0
         [(env1, "gc"); (env1, "crash")] 1).
- lia.
- left. reflexivity.
- repeat constructor.
- vm_compute. discriminate.
- vm_compute. split; discriminate.
Defined.

(** C2 (as stated, refuted). After the eleven captures labeled L0 .. L10
  the trace labeled L1 is still in the store: it is the one
  [print_backtrace(SAVE_TRACES)] prints. *)
Lemma L1_still_stored :
∃ w' p b,
  captures true 1 captures11 w0 = Ok ((), w') ∧
  has_LD w' (Some p) ∧ heap w' !! p = Some (Some b) ∧
  Some "L1" ∈ why b ∧
  print_backtrace no_dladdr no_popen true SAVE_TRACES w' =
    Ok ((), printed w' [MsgTraceLabel "L1"]).
Proof.
eexists _, _, _. split; [vm_compute; reflexivity|].
split; [reflexivity|]. split; [vm_compute; reflexivity|].
split; [|vm_compute; reflexivity].
apply list_elem_of_lookup. exists 1%nat. reflexivity.
Qed.

(** C2 (amended). After more than [SAVE_TRACES] captures the store holds
  exactly the [SAVE_TRACES] most recent traces: each slot is one of the
  slots [cursor - i] for [1 <= i <= SAVE_TRACES], and that slot holds the
  [i]-th most recent capture.  After [SAVE_TRACES + 1] captures with
  distinct labels the label of the first one is in no slot, and the
  last one is what [print_backtrace(1)] prints. *)
Theorem ring_keeps_latest atomic fuel dladdr popen ok
  (w : world btrace) (cs : list capture) :
(0 < fuel)%nat →
context wf w →
Forall (λ c : capture, store_alloc c.1 = true) cs →
SAVE_TRACES < Z.of_nat (length cs) →
∃ w' p b,
  captures atomic fuel cs w = Ok ((), w') ∧
  has_store wf w' p b ∧
  (∀ i, 1 ≤ i ≤ SAVE_TRACES →
     slot b ((current b - i) mod SAVE_TRACES)
     = recorded <$> most_recent i cs) ∧
  (∀ j, 0 ≤ j < SAVE_TRACES →
     ∃ i, 1 ≤ i ≤ SAVE_TRACES ∧ j = (current b - i) mod SAVE_TRACES) ∧
  (∀ c0 cs' cK,
     cs = c0 :: cs' → Z.of_nat (length cs') = SAVE_TRACES →
     snd c0 ∉ (snd <$> cs') → last cs = Some cK →
     (Some (snd c0) ∉ why b) ∧
     slot b ((current b - 1) mod SAVE_TRACES) = Some (recorded cK) ∧
     print_backtrace dladdr popen ok 1 w' =
       print_trace dladdr popen p
         ((current b - 1) mod SAVE_TRACES) w').
Proof.
intros Hf Hctx Hall HN.
assert (cs ≠ []) as Hne by (intros ->; unfold SAVE_TRACES in HN; simpl in HN; lia).
destruct (captures_context atomic fuel cs w Hf Hctx Hne Hall)
  as (w'&p&b0&Hwf0&Hrun&Hst&_).
set (b := puts put (recorded <$> cs) b0) in *.
exists w', p, b. split; [done|]. split; [done|].
assert (∀ i, 1 ≤ i ≤ SAVE_TRACES →
          slot b ((current b - i) mod SAVE_TRACES)
          = recorded <$> most_recent i cs) as Hrecent.
{ intros i Hi. unfold b.
  rewrite ring_recent_glibc; [|done|rewrite length_fmap; lia|lia].
  rewrite !most_recent_lookup by (rewrite ?length_fmap; lia).
  by rewrite list_lookup_fmap, length_fmap. }
assert (∀ j, 0 ≤ j < SAVE_TRACES →
          ∃ i, 1 ≤ i ≤ SAVE_TRACES ∧ j = (current b - i) mod SAVE_TRACES)
  as Hall_slots.
{ intros j Hj. destruct Hst as (_&_&(_&_&_&Hc)).
  unfold SAVE_TRACES in *.
  destruct (decide (j < current b)).
  - exists (current b - j). split; [lia|]. Z.div_mod_to_equations; lia.
  - exists (current b - j + 10). split; [lia|]. Z.div_mod_to_equations; lia. }
split; [done|]. split; [done|].
intros c0 cs' cK -> Hlen Hfresh Hlast.
split; [|split].
- intros Hin. apply list_elem_of_lookup in Hin as [n Hn].
  assert (n < 10)%nat as Hn10.
  { apply lookup_lt_Some in Hn. destruct Hst as (_&_&(_&Hy&_)).
    rewrite Hy in Hn. unfold SAVE_TRACES in Hn. lia. }
  destruct (Hall_slots (Z.of_nat n)) as (i&Hi&Hj);
    [unfold SAVE_TRACES; lia|].
  pose proof (Hrecent i Hi) as Hs. rewrite <- Hj in Hs.
  rewrite most_recent_lookup in Hs by (simpl; lia).
  assert (∃ k, (length (c0 :: cs') - Z.to_nat i)%nat = S k) as [k Hk].
  { exists (length cs' - Z.to_nat i)%nat. simpl. lia. }
  rewrite Hk in Hs. simpl in Hs.
  destruct (cs' !! k) as [c|] eqn:Hck; simpl in Hs.
  + apply slot_why in Hs. rewrite arr_get_lookup in Hs by lia.
    rewrite Nat2Z.id, Hn in Hs. simpl in Hs. injection Hs as Hs.
    apply Hfresh. rewrite Hs.
    apply list_elem_of_fmap. exists c. split; [done|].
    by eapply list_elem_of_lookup_2.
  + apply lookup_ge_None in Hck. simpl in Hk.
    unfold SAVE_TRACES in *. lia.
- rewrite Hrecent by (unfold SAVE_TRACES; lia).
  rewrite most_recent_lookup by (simpl; lia).
  rewrite last_lookup in Hlast.
  replace (length (c0 :: cs') - Z.to_nat 1)%nat
    with (Init.Nat.pred (length (c0 :: cs'))) by (simpl; lia).
  by rewrite Hlast.
- apply print_backtrace_slot; [done|unfold SAVE_TRACES; lia].
Qed.

Lemma ring_keeps_latest_witness :
∃ w' p b,
  captures true 1 captures11 w0 = Ok ((), w') ∧
  has_store wf w' p b ∧
  (∀ i, 1 ≤ i ≤ SAVE_TRACES →
     slot b ((current b - i) mod SAVE_TRACES)
     = recorded <$> most_recent i captures11) ∧
  (∀ j, 0 ≤ j < SAVE_TRACES →
     ∃ i, 1 ≤ i ≤ SAVE_TRACES ∧ j = (current b - i) mod SAVE_TRACES) ∧
  (∀ c0 cs' cK,
     captures11 = c0 :: cs' → Z.of_nat (length cs') = SAVE_TRACES →
     snd c0 ∉ (snd <$> cs') → last captures11 = Some cK →
     (Some (snd c0) ∉ why b) ∧
     slot b ((current b - 1) mod SAVE_TRACES) = Some (recorded cK) ∧
     print_backtrace no_dladdr no_popen true 1 w' =
       print_trace no_dladdr no_popen p
         ((current b - 1) mod SAVE_TRACES) w').
Proof.
apply (ring_keeps_latest true 1 no_dladdr no_popen true w0 captures11).
- lia.
- left. reflexivity.
- repeat constructor.
- vm_compute. reflexivity.
Defined.

End GlibcRing.

(** ** glibc: clearing the store, and doing without one *)
Module GlibcStore.
Import Glibc GlibcSpec GlibcFacts.

(** C7. [c_backtrace_clear] succeeds on every context: it returns TRUE,
  frees the store if there is one and leaves [LD->btrace_store] NULL.
  A capture right after it (its allocations succeeding) makes a fresh
  store whose only filled slot is slot 0 with the captured trace, and
  [print_backtrace(1)] prints that trace. *)
Theorem clear_then_capture atomic fuel dladdr popen ok
  (w : world btrace) (c : capture) :
(0 < fuel)%nat →
context wf w →
store_alloc c.1 = true →
∃ w1,
  Shared.c_backtrace_clear (glibc_walker atomic fuel dladdr popen) w
  = Ok (true, w1) ∧
  has_LD w1 None ∧
  (∀ p, has_LD w (Some p) → heap w1 = delete p (heap w)) ∧
  ∃ w2 p' b,
    save_backtrace atomic fuel c.1 c.2 w1 = Ok (Some p', w2) ∧
    heap w1 !! p' = None ∧
    has_store wf w2 p' b ∧
    (∀ j, 0 ≤ j < SAVE_TRACES →
       slot b j = Some (if bool_decide (j = 0) then recorded c
                        else empty_trace)) ∧
    print_backtrace dladdr popen ok 1 w2 =
      print_trace dladdr popen p' 0 w2 ∧
    (frames_alloc c.1 = true →
     print_backtrace dladdr popen ok 1 w2 =
       Ok ((), printed w2 (rendering dladdr popen c.2
                             (backtrace (stack c.1) 100)))).
Proof.
intros Hf Hctx Ha.
assert (∃ w1,
  Shared.c_backtrace_clear (glibc_walker atomic fuel dladdr popen) w
  = Ok (true, w1) ∧ has_LD w1 None ∧
  (∀ p, has_LD w (Some p) → heap w1 = delete p (heap w)))
  as (w1&Hclear&Hld1&Hheap).
{ destruct Hctx as [Hld|(p&b&Hld&Hp&Hwf)].
  - exists w. destruct w as [l h lg]. unfold has_LD in *. simpl in *.
    subst l. split; [reflexivity|]. split; [done|]. intros p [=].
  - exists (mkWorld (Some (mkLD None)) (delete p (heap w)) (log w)).
    split; [|split; [done|]].
    + unfold Shared.c_backtrace_clear. simpl.
      unfold has_LD in Hld.
      rewrite (bind_Ok _ _ w (Some p) w)
        by (unfold mbind, Mon_bind, get_LD_btrace_store; by rewrite Hld).
      unfold mbind at 1, Mon_bind at 1. unfold mbind at 1, Mon_bind at 1.
      rewrite (btrace_destroy_ok w p b Hp Hwf).
      unfold set_LD_btrace_store. simpl. rewrite Hld. reflexivity.
    + intros p' Hld'. unfold has_LD in *. rewrite Hld in Hld'.
      by injection Hld' as ->. }
exists w1. split; [done|]. split; [done|]. split; [done|].
set (p' := fresh (dom (heap w1))).
set (b := put (recorded c) (set_shared true zeroed)).
exists (mkWorld (Some (mkLD (Some p'))) (<[p' := Some b]> (heap w1)) (log w1)),
  p', b.
assert (has_store wf
          (mkWorld (Some (mkLD (Some p'))) (<[p' := Some b]> (heap w1))
             (log w1)) p' b) as Hst.
{ split; [done|]. split; [simpl; by rewrite lookup_insert_eq|].
  apply wf_put, wf_set_shared, wf_zeroed. }
split; [by apply save_backtrace_fresh|].
split; [apply not_elem_of_dom, is_fresh|].
split; [done|].
assert (∀ j, 0 ≤ j < SAVE_TRACES →
          slot b j = Some (if bool_decide (j = 0) then recorded c
                           else empty_trace)) as Hslots.
{ intros j Hj. case_bool_decide as H0.
  - subst j. apply (slot_put_eq _ (set_shared true zeroed)).
    apply wf_set_shared, wf_zeroed.
  - unfold b. rewrite slot_put_ne;
      [|apply wf_set_shared, wf_zeroed|done].
    unfold slot. rewrite !arr_get_lookup by lia.
    unfold set_shared, zeroed. cbn [why sizes retaddr].
    rewrite !lookup_replicate_2 by (unfold SAVE_TRACES in *; lia).
    reflexivity. }
split; [done|].
assert (print_backtrace dladdr popen ok 1
          (mkWorld (Some (mkLD (Some p'))) (<[p' := Some b]> (heap w1))
             (log w1)) =
        print_trace dladdr popen p' 0
          (mkWorld (Some (mkLD (Some p'))) (<[p' := Some b]> (heap w1))
             (log w1))) as Hpb.
{ rewrite (print_backtrace_slot _ _ _ _ p' b) by (done || unfold SAVE_TRACES; lia).
  reflexivity. }
split; [done|].
intros Hfa. rewrite Hpb.
eapply print_trace_rendering; [simpl; by rewrite lookup_insert_eq|].
rewrite Hslots by (unfold SAVE_TRACES; lia).
rewrite bool_decide_eq_true_2 by done. unfold recorded. by rewrite Hfa.
Qed.

Lemma clear_then_capture_witness :
∃ w1,
  Shared.c_backtrace_clear
    (glibc_walker true 1 no_dladdr no_popen) w_store
  = Ok (true, w1) ∧
  has_LD w1 None ∧
  (∀ p, has_LD w_store (Some p) → heap w1 = delete p (heap w_store)) ∧
  ∃ w2 p' b,
    save_backtrace true 1 env1 "gc" w1 = Ok (Some p', w2) ∧
    heap w1 !! p' = None ∧
    has_store wf w2 p' b ∧
    (∀ j, 0 ≤ j < SAVE_TRACES →
       slot b j = Some (if bool_decide (j = 0) then recorded (env1, "gc")
                        else empty_trace)) ∧
    print_backtrace no_dladdr no_popen true 1 w2 =
      print_trace no_dladdr no_popen p' 0 w2 ∧
    (frames_alloc env1 = true →
     print_backtrace no_dladdr no_popen true 1 w2 =
       Ok ((), printed w2 (rendering no_dladdr no_popen "gc"
                             (backtrace (stack env1) 100)))).
Proof.
apply (clear_then_capture true 1 no_dladdr no_popen true w_store
         (env1, "gc")).
- lia.
- right. exists 1%positive, (set_shared true zeroed).
  split; [reflexivity|]. split; [reflexivity|].
  repeat split; vm_compute; congruence.
- reflexivity.
Defined.

(** C8. When the store cannot be allocated, [save_backtrace] returns NULL
  and changes nothing; a [print_backtrace] that finds no store then
  prints "No backtrace store?", and one whose own allocation succeeds
  prints "No stack trace" for the empty slot. *)
Theorem no_store_no_failure atomic fuel dladdr popen
  (w : world btrace) (env : walk_env) (label : string) (last : Z) :
has_LD w None ∨ ld w = None →
store_alloc env = false →
save_backtrace atomic fuel env label w = Ok (None, w) ∧
print_backtrace dladdr popen false last w
= Ok ((), printed w [MsgNoStore]) ∧
(ld w = None →
 print_backtrace dladdr popen true last w
 = Ok ((), printed w [MsgNoStore])) ∧
(has_LD w None → 1 ≤ last ≤ SAVE_TRACES →
 ∃ w', print_backtrace dladdr popen true last w
       = Ok ((), printed w' [MsgNoStackTrace]) ∧ log w' = log w).
Proof.
intros Hw Ha. destruct w as [l h lg]. unfold has_LD in *. simpl in *.
split; [|split; [|split]].
- unfold save_backtrace. rewrite Ha.
  destruct Hw as [->| ->]; reflexivity.
- destruct Hw as [->| ->]; reflexivity.
- intros ->. reflexivity.
- intros -> Hl.
  set (w := mkWorld (Some (mkLD None)) h lg).
  pose proof (get_trace_store_fresh false w eq_refl) as Hg.
  simpl in Hg. set (p := fresh (dom h)) in *.
  set (w' := mkWorld _ _ _) in Hg.
  exists w'. split; [|done].
  unfold print_backtrace. rewrite (bind_Ok _ _ _ _ _ Hg).
  assert (has_store wf w' p (set_shared true zeroed)) as Hst.
  { split; [done|]. split; [unfold w'; simpl; by rewrite lookup_insert_eq|].
    apply wf_set_shared, wf_zeroed. }
  pose proof (print_backtrace_slot dladdr popen true w' p _ last Hst Hl)
    as Hpb.
  unfold print_backtrace in Hpb.
  rewrite (bind_Ok _ _ _ _ _
             (get_trace_store_present true false w' p (proj1 Hst))) in Hpb.
  rewrite Hpb.
  destruct Hst as (_&Hp&Hwf).
  destruct (slot_is_Some (set_shared true zeroed)
              ((current (set_shared true zeroed) - last) mod SAVE_TRACES))
    as [t Ht]; [done|by apply Z.mod_pos_bound|].
  assert (t_why t = None) as Hnone.
  { apply slot_why in Ht. unfold SAVE_TRACES in *.
    rewrite arr_get_lookup in Ht by (Z.div_mod_to_equations; lia).
    unfold set_shared, zeroed in Ht. cbn [why] in Ht.
    rewrite lookup_replicate_2 in Ht
      by (unfold SAVE_TRACES; simpl; Z.div_mod_to_equations; lia).
    by injection Ht as <-. }
  destruct t as [y n r]. simpl in Hnone. subst y.
  by eapply print_trace_empty.
Qed.

Lemma no_store_no_failure_witness :
save_backtrace true 1 (mk_walk_env [4198400] false true) "gc" w0
= Ok (None, w0) ∧
print_backtrace no_dladdr no_popen false 1 w0
= Ok ((), printed w0 [MsgNoStore]).
Proof.
destruct (no_store_no_failure true 1 no_dladdr no_popen w0
            (mk_walk_env [4198400] false true) "gc" 1) as (H1&H2&_).
- left. reflexivity.
- reflexivity.
- split; [exact H1|exact H2].
Defined.
End GlibcStore.

(** ** glibc: looking a trace up by its label *)
Module GlibcNamed.
Import Glibc GlibcSpec GlibcFacts.

(** C3. With a store, [print_backtrace_named(label)] prints the first slot
  whose label equals [label] in the order: slot before the cursor, then
  backward down to slot 0, then from the last slot down to the cursor,
  every slot once; without a match it prints the not-found message.
  After captures labeled gc, gc, crash the search for gc prints the
  second capture. *)
Theorem print_backtrace_named_most_recent_match atomic fuel dladdr popen
  ok :
SAVE_TRACES ≤ Z.of_nat fuel →
(∀ (w : world btrace) p b label,
   has_store wf w p b →
   scan_order (current b)
   = reverse (seqZ 0 (current b))
     ++ reverse (seqZ (current b) (SAVE_TRACES - current b)) ∧
   Shared.print_backtrace_named
     (glibc_walker atomic fuel dladdr popen) ok label w =
     first_match dladdr popen p b label (scan_order (current b)) w) ∧
(∀ (w : world btrace) e1 e2 e3,
   context wf w →
   store_alloc e1 = true → store_alloc e2 = true → store_alloc e3 = true →
   ∃ w' p b,
     captures atomic fuel [(e1, "gc"); (e2, "gc"); (e3, "crash")] w
     = Ok ((), w') ∧
     has_store wf w' p b ∧
     let me := (current b - 2) mod SAVE_TRACES in
     slot b me = Some (recorded (e2, "gc")) ∧
     Shared.print_backtrace_named
       (glibc_walker atomic fuel dladdr popen) ok "gc" w' =
       print_trace dladdr popen p me w' ∧
     (frames_alloc e2 = true →
      Shared.print_backtrace_named
        (glibc_walker atomic fuel dladdr popen) ok "gc" w' =
        Ok ((), printed w' (rendering dladdr popen "gc"
                              (backtrace (stack e2) 100))))).
Proof.
intros Hf. split.
- intros w p b label Hst. split.
  + destruct Hst as (_&_&(_&_&_&Hc)). by apply scan_order_backward.
  + by apply print_backtrace_named_scan.
- intros w e1 e2 e3 Hctx H1 H2 H3.
  set (cs := [(e1, "gc"); (e2, "gc"); (e3, "crash")]).
  assert ((0 < fuel)%nat) as Hf0 by (unfold SAVE_TRACES in Hf; lia).
  destruct (captures_context atomic fuel cs w Hf0 Hctx) as
    (w'&p&b0&Hwf0&Hrun&Hst&_); [done|by repeat constructor|].
  set (b := puts put (recorded <$> cs) b0) in *.
  exists w', p, b. split; [done|]. split; [done|].
  assert (slot b ((current b - 1) mod SAVE_TRACES)
          = Some (recorded (e3, "crash"))) as Hs1.
  { unfold b. rewrite ring_recent_glibc; [done|done|simpl; lia|].
    unfold SAVE_TRACES; lia. }
  assert (slot b ((current b - 2) mod SAVE_TRACES)
          = Some (recorded (e2, "gc"))) as Hs2.
  { unfold b. rewrite ring_recent_glibc; [done|done|simpl; lia|].
    unfold SAVE_TRACES; lia. }
  assert (Shared.print_backtrace_named
            (glibc_walker atomic fuel dladdr popen) ok "gc" w' =
          print_trace dladdr popen p
            ((current b - 2) mod SAVE_TRACES) w') as Hpr.
  { rewrite (print_backtrace_named_scan _ _ _ _ _ _ p b) by done.
    unfold first_match, scan_order.
    rewrite seqZ_cons by (unfold SAVE_TRACES; lia).
    rewrite seqZ_cons by (unfold SAVE_TRACES; lia).
    rewrite !fmap_cons.
    replace (current b - 1 - 0) with (current b - 1) by lia.
    replace (current b - 1 - Z.succ 0) with (current b - 2) by lia.
    cbn [List.find]. unfold matches.
    rewrite (slot_why _ _ _ Hs1), (slot_why _ _ _ Hs2). reflexivity. }
  simpl. split; [done|]. split; [done|].
  intros Hfa. rewrite Hpr. destruct Hst as (_&Hp&_).
  eapply print_trace_rendering; [done|].
  rewrite Hs2. unfold recorded. simpl. by rewrite Hfa.
Qed.

Lemma print_backtrace_named_most_recent_match_witness :
∃ w' p b,
  captures true 10 [(env1, "gc"); (env2, "gc"); (env0, "crash")] w0
  = Ok ((), w') ∧
  has_store wf w' p b ∧
  let me := (current b - 2) mod SAVE_TRACES in
  slot b me = Some (recorded (env2, "gc")) ∧
  Shared.print_backtrace_named
    (glibc_walker true 10 no_dladdr no_popen) true "gc" w' =
    print_trace no_dladdr no_popen p me w' ∧
  (frames_alloc env2 = true →
   Shared.print_backtrace_named
     (glibc_walker true 10 no_dladdr no_popen) true "gc" w' =
     Ok ((), printed w' (rendering no_dladdr no_popen "gc"
                           (backtrace (stack env2) 100)))).
Proof.
apply (proj2 (print_backtrace_named_most_recent_match true 10 no_dladdr
                no_popen true ltac:(vm_compute; discriminate))
         w0 env1 env2 env0).
- left. reflexivity.
- reflexivity.
- reflexivity.
- reflexivity.
Defined.

End GlibcNamed.

(** ** Slot reservation by concurrent callers *)
Module ConcurrentFacts.
Import Concurrent ConcurrentSpec.

Lemma next_of_mod cur :
  0 ≤ cur < SAVE_TRACES → next_of cur = (cur + 1) mod SAVE_TRACES.
Proof.
  intros H. unfold next_of, SAVE_TRACES in *.
  rewrite int_add_small by lia. case_bool_decide as Hn.
  - rewrite Hn. reflexivity.
  - rewrite Z.mod_small; lia.
Qed.

Lemma omap_insert_split (l : list caller) i t0 t :
  l !! i = Some t0 →
  omap index_of l
  = omap index_of (take i l) ++ option_list (index_of t0)
      ++ omap index_of (drop (S i) l) ∧
  omap index_of (<[i := t]> l)
  = omap index_of (take i l) ++ option_list (index_of t)
      ++ omap index_of (drop (S i) l).
Proof.
  intros Hi. split.
  - rewrite <- (take_drop_middle l i t0 Hi) at 1.
    rewrite omap_app. simpl. by destruct (index_of t0).
  - rewrite insert_take_drop by (by eapply lookup_lt_Some).
    rewrite omap_app. simpl. by destruct (index_of t).
Qed.

Lemma returned_insert_same c' (s : state) i t0 t :
  callers s !! i = Some t0 → index_of t0 = None → index_of t = None →
  returned (mk_state c' (<[i := t]> (callers s))) = returned s.
Proof.
  intros Hi H0 Ht. unfold returned. simpl.
  destruct (omap_insert_split (callers s) i t0 t Hi) as [-> ->].
  by rewrite H0, Ht.
Qed.

Lemma returned_insert_new c' (s : state) i t0 r :
  callers s !! i = Some t0 → index_of t0 = None →
  returned (mk_state c' (<[i := Returned r]> (callers s)))
  ≡ₚ r :: returned s.
Proof.
  intros Hi H0. unfold returned. simpl.
  destruct (omap_insert_split (callers s) i t0 (Returned r) Hi) as [-> ->].
  rewrite H0. simpl. by rewrite Permutation_middle.
Qed.

Lemma handed_out_S c n :
  handed_out c (S n) ≡ₚ (c + Z.of_nat n) mod SAVE_TRACES :: handed_out c n.
Proof.
  unfold handed_out.
  replace (Z.of_nat (S n)) with (Z.of_nat n + 1) by lia.
  rewrite seqZ_app by lia. rewrite fmap_app. simpl.
  rewrite Z.add_0_l. by rewrite Permutation_app_comm.
Qed.

Lemma inv_init c m : 0 ≤ c < SAVE_TRACES → inv c m (init c m).
Proof.
  intros Hc. split; [apply length_replicate|]. split.
  - intros i cur next Hi. apply lookup_replicate in Hi as [? _]. done.
  - exists 0%nat. split.
    + simpl. rewrite Z.add_0_r, Z.mod_small; done.
    + unfold returned, init. simpl.
      induction m as [|m IH]; [done|]. simpl. exact IH.
Qed.

Lemma inv_step c m i s :
  0 ≤ c < SAVE_TRACES → inv c m s → inv c m (step i s).
Proof.
  intros Hc (Hlen&Hnext&n&Hcur&Hret). unfold step.
  destruct (callers s !! i) as [[|cur next|r]|] eqn:Hi;
    [| |by repeat split; eauto|by repeat split; eauto].
  - (* the read *)
    split; [simpl; by rewrite length_insert|]. split.
    + intros j cur next Hj. simpl in Hj.
      destruct (decide (i = j)) as [->|Hne].
      * rewrite list_lookup_insert_eq in Hj by (by eapply lookup_lt_Some).
        by injection Hj as <- <-.
      * rewrite list_lookup_insert_ne in Hj by done. eauto.
    + exists n. split; [done|].
      by rewrite (returned_insert_same _ s i AtRead).
  - (* the compare-and-swap *)
    unfold Cursor.COMPARE_AND_SWAP. case_bool_decide as Heq.
    + split; [simpl; by rewrite length_insert|]. split.
      * intros j cur' next' Hj. simpl in Hj.
        destruct (decide (i = j)) as [->|Hne].
        -- rewrite list_lookup_insert_eq in Hj
             by (by eapply lookup_lt_Some). done.
        -- rewrite list_lookup_insert_ne in Hj by done. eauto.
      * exists (S n). split.
        -- simpl. rewrite (Hnext i cur next Hi).
           rewrite next_of_mod
             by (rewrite <- Heq, Hcur; apply Z.mod_pos_bound; done).
           rewrite <- Heq, Hcur. unfold SAVE_TRACES.
           Z.div_mod_to_equations; lia.
        -- rewrite (returned_insert_new _ s i (AtCAS cur next)) by done.
           rewrite handed_out_S, <- Heq, Hcur. by rewrite Hret.
    + split; [simpl; by rewrite length_insert|]. split.
      * intros j cur' next' Hj. simpl in Hj.
        destruct (decide (i = j)) as [->|Hne].
        -- rewrite list_lookup_insert_eq in Hj
             by (by eapply lookup_lt_Some). done.
        -- rewrite list_lookup_insert_ne in Hj by done. eauto.
      * exists n. split; [done|].
        by rewrite (returned_insert_same _ s i (AtCAS cur next)).
Qed.

Lemma inv_run c m schedule s :
  0 ≤ c < SAVE_TRACES → inv c m s → inv c m (run schedule s).
Proof.
  intros Hc. revert s. induction schedule as [|i schedule IH]; intros s Hs.
  - done.
  - simpl. apply IH. by apply inv_step.
Qed.

Lemma handed_out_NoDup c n :
  Z.of_nat n ≤ SAVE_TRACES → NoDup (handed_out c n).
Proof.
  intros Hn. unfold handed_out. apply NoDup_fmap_2_strong.
  - intros x y Hx%elem_of_seqZ Hy%elem_of_seqZ Heq.
    unfold SAVE_TRACES in *. Z.div_mod_to_equations; lia.
  - apply NoDup_seqZ.
Qed.

Lemma returned_length_le s : (length (returned s) ≤ length (callers s))%nat.
Proof.
  unfold returned. generalize (callers s). intros l.
  induction l as [|t l IH]; [done|].
  unfold omap in *. destruct t; simpl in *; lia.
Qed.

Lemma returned_all l :
  Forall (λ t, is_Some (index_of t)) l →
  length (omap index_of l) = length l.
Proof.
  induction 1 as [|t l [r Hr] _ IH]; [done|].
  change (omap index_of (t :: l))
    with (match index_of t with
          | Some y => y :: omap index_of l
          | None => omap index_of l
          end).
  rewrite Hr. simpl. by rewrite IH.
Qed.

(** C10. Callers that run the compare-and-swap loop of [next_btrace_id]
  at the same time, interleaved in any order, never get the same
  index as long as there are at most [SAVE_TRACES] of them; when all
  [m] have returned there are [m] distinct indices, the [m] slots from
  the initial cursor on. *)
Theorem concurrent_reservations_distinct (c : Z) (m : nat)
  (schedule : list nat) :
0 ≤ c < SAVE_TRACES → Z.of_nat m ≤ SAVE_TRACES →
let s := run schedule (init c m) in
NoDup (returned s) ∧
(Forall (λ t, is_Some (index_of t)) (callers s) →
 length (returned s) = m ∧ returned s ≡ₚ handed_out c m).
Proof.
intros Hc Hm s.
pose proof (inv_run c m schedule _ Hc (inv_init c m Hc))
  as (Hlen&_&n&Hcur&Hret).
fold s in Hlen, Hcur, Hret.
assert (n ≤ m)%nat as Hnm.
{ rewrite <- Hlen. etrans; [|apply (returned_length_le s)].
  rewrite Hret. unfold handed_out. rewrite length_fmap, length_seqZ. lia. }
split.
- rewrite Hret. apply handed_out_NoDup. lia.
- intros Hall.
  assert (length (returned s) = m) as Hl.
  { rewrite <- Hlen. by apply returned_all. }
  split; [done|].
  assert (n = m) as <-; [|done].
  rewrite Hret in Hl. unfold handed_out in Hl.
  rewrite length_fmap, length_seqZ in Hl. lia.
Qed.

Lemma concurrent_reservations_distinct_witness :
let s := run [0; 1; 2; 0; 1; 2; 1; 1; 2; 2]%nat (init 9 3) in
NoDup (returned s) ∧
(Forall (λ t, is_Some (index_of t)) (callers s) →
 length (returned s) = 3%nat ∧ returned s ≡ₚ handed_out 9 3).
Proof.
apply (concurrent_reservations_distinct 9 3
         [0; 1; 2; 0; 1; 2; 1; 1; 2; 2]%nat).
- vm_compute. split; [discriminate|reflexivity].
- vm_compute. discriminate.
Defined.
End ConcurrentFacts.

(** ** Looking up a label that is in no slot *)
Module Unknown.

Lemma glibc_first_match_unlabeled dladdr popen p b label order
  (w : world Glibc.btrace) :
GlibcSpec.unlabeled b label →
GlibcSpec.first_match dladdr popen p b label order w
= Ok ((), printed w [MsgNoBacktraceNamed label]).
Proof.
intros Hun. unfold GlibcSpec.first_match.
assert (List.find (GlibcSpec.matches b label) order = None) as ->; [|done].
induction order as [|m order IH]; [done|].
simpl. rewrite IH.
assert (GlibcSpec.matches b label m = false) as ->; [|done].
unfold GlibcSpec.matches, arr_get. case_bool_decide; [|done].
destruct (Glibc.why b !! Z.to_nat m) as [y|] eqn:Hy; [|done].
simpl. by eapply Forall_lookup_1 in Hun.
Qed.

Lemma glibc_unlabeled_zeroed label :
GlibcSpec.unlabeled (Glibc.set_shared true Glibc.zeroed) label.
Proof.
unfold GlibcSpec.unlabeled, Glibc.set_shared, Glibc.zeroed.
cbn [Glibc.why]. by apply Forall_replicate.
Qed.

Lemma lu_unlabeled_zeroed why :
LibunwindSpec.unlabeled (Libunwind.set_shared true Libunwind.zeroed) why.
Proof.
unfold LibunwindSpec.unlabeled, Libunwind.set_shared, Libunwind.zeroed.
cbn [Libunwind.dumps]. by apply Forall_replicate.
Qed.

Lemma win_unlabeled_zeroed why :
WindowsSpec.unlabeled (Windows.set_shared true Windows.zeroed) why.
Proof.
unfold WindowsSpec.unlabeled, Windows.set_shared, Windows.zeroed.
cbn [Windows.dumps]. by apply Forall_replicate.
Qed.

Lemma win_get_trace_store_none create (w : world Windows.btrace) :
has_LD w None → Windows.get_trace_store false create w = Ok (None, w).
Proof.
destruct w as [l h lg]; unfold has_LD; simpl. intros ->.
unfold Windows.get_trace_store. mon_unfold. reflexivity.
Qed.

(** C5 (as stated, refuted). In the libunwind and in the Windows
  configuration a search for a label that is in no slot prints
  nothing at all; in the glibc configuration it prints nothing when
  there is no store. *)
Lemma search_prints_nothing :
Shared.c_backtrace_print (libunwind_walker true 10) true (Some "never")
  LibunwindSpec.w_store = Ok (true, LibunwindSpec.w_store) ∧
log LibunwindSpec.w_store = [] ∧
Shared.c_backtrace_print
  (windows_walker true 10 false WindowsSpec.no_dwarf) true (Some "never")
  WindowsSpec.w_store = Ok (true, WindowsSpec.w_store) ∧
log WindowsSpec.w_store = [] ∧
Shared.c_backtrace_print
  (glibc_walker true 10 GlibcSpec.no_dladdr GlibcSpec.no_popen) false
  (Some "never") GlibcSpec.w0 = Ok (true, GlibcSpec.w0) ∧
log GlibcSpec.w0 = [].
Proof. repeat split; vm_compute; reflexivity. Qed.

(** C5 (amended). A search for a label that is in no slot ends without
  error in every configuration, and [c_backtrace_print] succeeds
  whenever its argument is text (and fails, printing nothing, when it
  is not).  In the glibc configuration it prints "No backtrace named
  <label>" when the context has a store or can allocate one, and
  nothing when there is no store. *)
Theorem search_for_unknown_label atomic fuel dladdr popen have_libdwarf
  dwarf_addr2line ok (label : string) :
SAVE_TRACES ≤ Z.of_nat fuel →
let Wg := glibc_walker atomic fuel dladdr popen in
let Wl := libunwind_walker atomic fuel in
let Ww := windows_walker atomic fuel have_libdwarf dwarf_addr2line in
(∀ (w : world Glibc.btrace) p b,
   has_store GlibcSpec.wf w p b → GlibcSpec.unlabeled b label →
   Shared.c_backtrace_print Wg ok (Some label) w
   = Ok (true, printed w [MsgNoBacktraceNamed label])) ∧
(∀ (w : world Glibc.btrace),
   has_LD w None →
   ∃ w', Shared.c_backtrace_print Wg true (Some label) w
         = Ok (true, printed w' [MsgNoBacktraceNamed label]) ∧
         log w' = log w) ∧
(∀ (w : world Glibc.btrace),
   has_LD w None ∨ ld w = None →
   Shared.c_backtrace_print Wg false (Some label) w = Ok (true, w)) ∧
(∀ (w : world Libunwind.btrace) p b,
   has_store LibunwindSpec.wf w p b → LibunwindSpec.unlabeled b label →
   ∃ w', Shared.c_backtrace_print Wl ok (Some label) w = Ok (true, w')) ∧
(∀ (w : world Windows.btrace) p b,
   has_store WindowsSpec.wf w p b → WindowsSpec.unlabeled b label →
   ∃ w', Shared.c_backtrace_print Ww ok (Some label) w = Ok (true, w')) ∧
(∀ (w : world Libunwind.btrace),
   has_LD w None →
   ∃ w', Shared.c_backtrace_print Wl ok (Some label) w = Ok (true, w')) ∧
(∀ (w : world Windows.btrace),
   has_LD w None →
   ∃ w', Shared.c_backtrace_print Ww ok (Some label) w = Ok (true, w')) ∧
(∀ (w : world Glibc.btrace),
   Shared.c_backtrace_print Wg ok None w = Ok (false, w)) ∧
(∀ (w : world Libunwind.btrace),
   Shared.c_backtrace_print Wl ok None w = Ok (false, w)) ∧
(∀ (w : world Windows.btrace),
   Shared.c_backtrace_print Ww ok None w = Ok (false, w)).
Proof.
intros Hf Wg Wl Ww.
split; [|split; [|split; [|split; [|split; [|split; [|split;
  [|by repeat split]]]]]]].
- intros w p b Hst Hun.
  unfold Shared.c_backtrace_print.
  rewrite (bind_Ok _ _ w () (printed w [MsgNoBacktraceNamed label]));
    [done|].
  unfold Wg.
  rewrite (GlibcFacts.print_backtrace_named_scan _ _ _ _ _ _ p b) by done.
  by apply glibc_first_match_unlabeled.
- intros w Hld.
  pose proof (GlibcFacts.get_trace_store_fresh false w Hld) as Hg.
  simpl in Hg. set (p := fresh (dom (heap w))) in *.
  set (w' := mkWorld _ _ _) in Hg.
  exists w'. split; [|done].
  unfold Shared.c_backtrace_print.
  rewrite (bind_Ok _ _ w () (printed w' [MsgNoBacktraceNamed label]));
    [done|].
  unfold Shared.print_backtrace_named, Wg. simpl.
  rewrite (bind_Ok _ _ _ _ _ Hg).
  rewrite (GlibcFacts.bstore_print_backtrace_named_scan dladdr popen
             fuel p (Glibc.set_shared true Glibc.zeroed) label w');
    [|done| |].
  + apply glibc_first_match_unlabeled, glibc_unlabeled_zeroed.
  + unfold w'. simpl. by rewrite lookup_insert_eq.
  + apply GlibcFacts.wf_set_shared, GlibcFacts.wf_zeroed.
- intros w Hw. destruct w as [l h lg]. unfold has_LD in Hw. simpl in Hw.
  destruct Hw as [->| ->]; reflexivity.
- intros w p b (Hld&Hp&Hwf) Hun. exists w.
  unfold Shared.c_backtrace_print.
  rewrite (bind_Ok _ _ w () w); [done|].
  unfold Shared.print_backtrace_named, Wl. simpl.
  rewrite (bind_Ok _ _ _ _ _
             (LibunwindFacts.lu_get_trace_store_present _ _ _ _ Hld)).
  by apply (LibunwindFacts.lu_bstore_print_backtrace_named_silent fuel p b).
- intros w p b (Hld&Hp&Hwf) Hun. exists w.
  unfold Shared.c_backtrace_print.
  rewrite (bind_Ok _ _ w () w); [done|].
  unfold Shared.print_backtrace_named, Ww. simpl.
  rewrite (bind_Ok _ _ _ _ _
             (WindowsFacts.win_get_trace_store_present _ _ _ Hld)).
  by apply (WindowsFacts.win_bstore_print_backtrace_named_silent fuel
              have_libdwarf dwarf_addr2line p b).
- intros w Hld. unfold Shared.c_backtrace_print.
  unfold Shared.print_backtrace_named, Wl. simpl. destruct ok.
  + pose proof (LibunwindFacts.lu_get_trace_store_fresh false w Hld) as Hg.
    simpl in Hg. set (p := fresh (dom (heap w))) in *.
    set (w' := mkWorld _ _ _) in Hg. exists w'.
    rewrite (bind_Ok _ _ w () w'); [done|].
    rewrite (bind_Ok _ _ _ _ _ Hg).
    apply (LibunwindFacts.lu_bstore_print_backtrace_named_silent fuel p
             (Libunwind.set_shared true Libunwind.zeroed)); [done| | |].
    * unfold w'. simpl. by rewrite lookup_insert_eq.
    * apply LibunwindFacts.lu_wf_set_shared, LibunwindFacts.lu_wf_zeroed.
    * apply lu_unlabeled_zeroed.
  + exists w. rewrite (bind_Ok _ _ w () w); [done|].
    by rewrite (bind_Ok _ _ _ _ _
                  (LibunwindFacts.lu_get_trace_store_none false w
                     (or_introl Hld))).
- intros w Hld. unfold Shared.c_backtrace_print.
  unfold Shared.print_backtrace_named, Ww. simpl. destruct ok.
  + pose proof (WindowsFacts.win_get_trace_store_fresh false w Hld) as Hg.
    simpl in Hg. set (p := fresh (dom (heap w))) in *.
    set (w' := mkWorld _ _ _) in Hg. exists w'.
    rewrite (bind_Ok _ _ w () w'); [done|].
    rewrite (bind_Ok _ _ _ _ _ Hg).
    apply (WindowsFacts.win_bstore_print_backtrace_named_silent fuel
             have_libdwarf dwarf_addr2line p
             (Windows.set_shared true Windows.zeroed)); [done| | |].
    * unfold w'. simpl. by rewrite lookup_insert_eq.
    * apply WindowsFacts.win_wf_set_shared, WindowsFacts.win_wf_zeroed.
    * apply win_unlabeled_zeroed.
  + exists w. rewrite (bind_Ok _ _ w () w); [done|].
    by rewrite (bind_Ok _ _ _ _ _ (win_get_trace_store_none false w Hld)).
Qed.

Lemma search_for_unknown_label_witness :
∃ w', Shared.c_backtrace_print
        (glibc_walker true 10 GlibcSpec.no_dladdr GlibcSpec.no_popen)
        true (Some "never") GlibcSpec.w0
      = Ok (true, printed w' [MsgNoBacktraceNamed "never"]) ∧
      log w' = log GlibcSpec.w0.
Proof.
apply (search_for_unknown_label true 10 GlibcSpec.no_dladdr
         GlibcSpec.no_popen false WindowsSpec.no_dwarf true "never").
- vm_compute. discriminate.
- reflexivity.
Defined.
End Unknown.

(** ** The crash handler *)
Module Crash.
Import CrashSpec.

(** The log of the crash handler, given what [print_c_backtrace]
    prints. *)
Lemma sigCrashHandler_log W pf env sig (w w1 : world (wk_btrace W)) trace :
  - 2 ^ 31 ≤ 128 + sig < 2 ^ 31 →
  Shared.print_c_backtrace W (walk env) "crash"
    (logged w (resets pf sig ++ [Out (banner env sig)]))
  = Ok ((), printed w1 trace) →
  log w1 = log w ++ resets pf sig ++ [Out (banner env sig)] →
  ∃ w',
    Shared.sigCrashHandler W pf env sig w = Ok ((), w') ∧
    log w' = log w ++ resets pf sig ++ [Out (banner env sig)]
               ++ (Out <$> trace) ++ hooks pf (128 + sig)
               ++ terminate pf env sig.
Proof.
  intros Hsig Hpc Hlog. unfold Shared.sigCrashHandler.
  rewrite int_add_small by done.
  rewrite (bind_Ok _ _ _ _ _ (emit_logged _ _)).
  rewrite (bind_Ok _ _ _ _ _ (signal_dfl_logged _ _)), logged_app.
  rewrite (bind_Ok _ _ _ _ _ (signal_dfl_logged _ _)), logged_app.
  rewrite (bind_Ok _ _ _ _ _ (signal_dfl_logged _ _)), logged_app.
  rewrite (bind_Ok _ _ _ ()
             (logged w (resets pf sig))).
  2:{ unfold resets. destruct (HAVE_ALARM pf).
      - rewrite emit_logged, logged_app. by rewrite <- !app_assoc.
      - unfold mret, Mon_ret. rewrite app_nil_r. by rewrite <- !app_assoc. }
  assert (Sdprintf (MsgBanner (thread_self env)
                      match thread_alias env with
                      | Some alias => alias
                      | None => ""
                      end (String.substring 0 24 (ctime env)) sig
                      (signal_name env sig)) (logged w (resets pf sig))
          = Ok ((), logged w (resets pf sig ++ [Out (banner env sig)])))
    as Hb.
  { unfold Sdprintf. rewrite emit_logged, logged_app. unfold banner.
    by destruct (thread_alias env). }
  rewrite (bind_Ok _ _ _ _ _ Hb).
  rewrite (bind_Ok _ _ _ _ _ Hpc). rewrite printed_logged.
  unfold Sdprintf.
  rewrite (bind_Ok _ _ _ _ _ (emit_logged _ _)), logged_app.
  rewrite (bind_Ok _ _ _ _ _ (emit_logged _ _)), logged_app.
  rewrite (bind_Ok _ _ _ _ _ (emit_logged _ _)), logged_app.
  rewrite (bind_Ok _ _ _ _ _ (emit_logged _ _)), logged_app.
  unfold terminate, hooks. destruct (HAVE_KILL pf).
  - rewrite (bind_Ok _ _ _ _ _ (emit_logged _ _)), logged_app.
    rewrite emit_logged, logged_app.
    eexists. split; [reflexivity|]. unfold logged. cbn [log].
    rewrite Hlog. by rewrite <- !app_assoc.
  - rewrite (bind_Ok _ _ _ _ _ (emit_logged _ _)), logged_app.
    rewrite emit_logged, logged_app.
    eexists. split; [reflexivity|]. unfold logged. cbn [log].
    rewrite Hlog. by rewrite <- !app_assoc.
Qed.

(** C4 (as stated, refuted). On signal 11 the crash handler of the
  fallback configuration runs the exit hooks with status 4, not 139,
  and prints no trace.  With a stack walker (here glibc) the handler
  prints no trace either when the store cannot be allocated, and it
  runs into undefined behaviour, before any exit hook, when the frame
  array cannot be allocated: [print_trace] reads through the NULL
  pointer.  In the Windows configuration the handler runs into
  undefined behaviour on a thread without local data:
  [get_trace_store] reads [LD->btrace_store] without testing [LD]. *)
Lemma fallback_handler_status_4 :
(∃ w',
   Fallback.sigCrashHandler true linux (crashed ()) 11 w_fallback
   = Ok ((), w') ∧
   log w' = [SignalDfl 11; Out (banner (crashed ()) 11); RunOnHalt 4;
             Kill 4242 11] ∧
   RunOnHalt (128 + 11) ∉ log w') ∧
(∃ w',
   Shared.sigCrashHandler
     (glibc_walker true 10 GlibcSpec.no_dladdr GlibcSpec.no_popen) linux
     (crashed (Glibc.mk_walk_env [4198400] false true)) 11 GlibcSpec.w0
   = Ok ((), w') ∧
   log w' = resets linux 11
              ++ [Out (banner (crashed GlibcSpec.env1) 11)]
              ++ hooks linux (128 + 11)
              ++ terminate linux (crashed GlibcSpec.env1) 11) ∧
Shared.sigCrashHandler
  (glibc_walker true 10 GlibcSpec.no_dladdr GlibcSpec.no_popen) linux
  (crashed (Glibc.mk_walk_env [4198400] true false)) 11 GlibcSpec.w0
= Undefined ∧
Shared.sigCrashHandler
  (windows_walker true 10 false WindowsSpec.no_dwarf) windows
  (crashed WindowsSpec.env14) 11 (mkWorld None ∅ [])
= Undefined.
Proof.
split; [|split; [|split]].
- eexists. split; [vm_compute; reflexivity|].
  split; [vm_compute; reflexivity|].
  cbn [log]. rewrite !elem_of_cons, elem_of_nil.
  intros [H|[H|[H|[H|[]]]]]; vm_compute in H; discriminate.
- eexists. split; [vm_compute; reflexivity|]. vm_compute. reflexivity.
- vm_compute. reflexivity.
- vm_compute. reflexivity.
Qed.
End Crash.

(** ** The embedding at work *)
Module Examples.

(** [addr2line] joins the two lines of the helper with [sep]; a helper
  that writes nothing makes it return FALSE. *)
Example addr2line_two_lines :
let nl := String "010"%char EmptyString in
let reply := "main" +:+ nl +:+ "/src/pl-main.c:10" +:+ nl in
Glibc.addr2line (λ _ _, Some reply) "libswipl.so" 100 512
= Some "main() at /src/pl-main.c:10" ∧
Glibc.addr2line (λ _ _, Some "") "libswipl.so" 100 512 = None.
Proof. repeat split; vm_compute; reflexivity. Qed.

(** glibc: a slot whose frame array could not be allocated keeps its
  size, and printing it reads through the NULL pointer. *)
Example glibc_print_trace_without_array :
∃ w' p,
  Glibc.save_backtrace true 1 (Glibc.mk_walk_env [4198400] true false) "gc"
    GlibcSpec.w0 = Ok (Some p, w') ∧
  Glibc.print_backtrace GlibcSpec.no_dladdr GlibcSpec.no_popen true 1 w'
  = Undefined.
Proof.
eexists _, _. split; [vm_compute; reflexivity|]. vm_compute. reflexivity.
Qed.

(** Windows: once the thread has its store, [get_trace_store(TRUE)] hands
  out a private one, so the second capture does not reach the ring that
  [print_backtrace] reads. *)
Example windows_second_capture_is_private :
∃ w1 w2 p1 p2 b,
  Windows.save_backtrace true 1 false WindowsSpec.env14 "first"
    WindowsSpec.w0 = Ok (Some p1, w1) ∧
  Windows.save_backtrace true 1 false WindowsSpec.env14 "second" w1
  = Ok (Some p2, w2) ∧
  p1 ≠ p2 ∧
  has_LD w2 (Some p1) ∧
  heap w2 !! p1 = Some (Some b) ∧
  Windows.current b = 1 ∧
  Windows.name <$> Windows.dumps b
  = Some "first" :: replicate 9 None.
Proof.
eexists _, _, _, _, _. split; [vm_compute; reflexivity|].
split; [vm_compute; reflexivity|]. split; [discriminate|].
split; [reflexivity|]. split; [vm_compute; reflexivity|].
split; reflexivity.
Qed.

(** The capture of the end-to-end scenario: three frames on a fresh
  context, rendered in that order under the label. *)
Example libunwind_unit_test :
let frames := [Libunwind.mk_frame_info "f3" 16;
               Libunwind.mk_frame_info "f2" 32;
               Libunwind.mk_frame_info "f1" 48] in
∃ w' p w'',
  Libunwind.save_backtrace true 1 (Libunwind.mk_walk_env frames true)
    "unit-test" LibunwindSpec.w0 = Ok (Some p, w') ∧
  Libunwind.print_backtrace true 1 w' = Ok ((), w'') ∧
  sink (log w'')
  = [MsgTraceLabel "unit-test"; MsgUnwFrame 0 "f3" 16;
     MsgUnwFrame 1 "f2" 32; MsgUnwFrame 2 "f1" 48].
Proof.
eexists _, _, _. split; [vm_compute; reflexivity|].
split; [vm_compute; reflexivity|]. vm_compute. reflexivity.
Qed.

End Examples.

(** * Further properties of the code *)

(** ** [addr2line] *)

Module Addr2lineFacts.
Import Glibc Addr2lineSpec.

Lemma str_length_append (s1 s2 : string) :
  String.length (s1 +:+ s2) = (String.length s1 + String.length s2)%nat.
Proof.
  induction s1 as [|c s1 IH]; [done|].
  change (String c s1 +:+ s2) with (String c (s1 +:+ s2)). simpl. by rewrite IH.
Qed.

Lemma str_append_assoc (s1 s2 s3 : string) :
  (s1 +:+ s2) +:+ s3 = s1 +:+ (s2 +:+ s3).
Proof.
  induction s1 as [|c s1 IH]; [done|].
  change ((String c s1 +:+ s2) +:+ s3) with (String c ((s1 +:+ s2) +:+ s3)).
  by rewrite IH.
Qed.

Lemma str_append_nil_r (s : string) : s +:+ "" = s.
Proof.
  induction s as [|c s IH]; [done|].
  change (String c s +:+ "") with (String c (s +:+ "")). by rewrite IH.
Qed.

Lemma one_line_append s1 s2 : one_line s1 → one_line s2 → one_line (s1 +:+ s2).
Proof.
  induction s1 as [|c s1 IH]; [done|].
  change (String c s1 +:+ s2) with (String c (s1 +:+ s2)). simpl.
  intros [? ?] ?. auto.
Qed.

Lemma one_line_sep : one_line sep.
Proof. vm_compute. repeat split; discriminate. Qed.

Lemma eqb_newline c : Ascii.eqb c "010" = bool_decide (c = newline).
Proof.
  case_bool_decide as H.
  - subst. apply Ascii.eqb_refl.
  - by apply Ascii.eqb_neq.
Qed.

Lemma addr2line_read_cons c input n o ebuf :
  addr2line_read (String c input) n o ebuf
  = if bool_decide (String.length o < ebuf)%nat then
      if bool_decide (c = newline) then
        if bool_decide (int_add n 1 = 1)
           && bool_decide (String.length o + String.length sep < ebuf)%nat
        then addr2line_read input (int_add n 1) (o +:+ sep) ebuf
        else addr2line_read input (int_add n 1) o ebuf
      else addr2line_read input n (o +:+ String c EmptyString) ebuf
    else o.
Proof. by rewrite <- eqb_newline. Qed.

(** The loop never writes past [ebuf], and never a newline. *)
Lemma addr2line_read_bounded input :
  ∀ n o ebuf,
    (String.length o ≤ ebuf)%nat → one_line o →
    (String.length (addr2line_read input n o ebuf) ≤ ebuf)%nat ∧
    one_line (addr2line_read input n o ebuf).
Proof.
  induction input as [|c input IH]; intros n o ebuf Hlen Ho; [done|].
  rewrite addr2line_read_cons. case_bool_decide as Hroom; [|done].
  case_bool_decide as Hc.
  - destruct (bool_decide (int_add n 1 = 1)
              && bool_decide (String.length o + String.length sep < ebuf)%nat)
      eqn:Hsep.
    + apply andb_prop in Hsep as [_ Hfit%bool_decide_eq_true_1].
      apply IH.
      * rewrite str_length_append. lia.
      * apply one_line_append; [done|apply one_line_sep].
    + by apply IH.
  - apply IH.
    + rewrite str_length_append. simpl. lia.
    + apply one_line_append; [done|]. simpl. done.
Qed.

(** Characters other than a newline are copied as long as they fit. *)
Lemma addr2line_read_line s :
  ∀ input n o ebuf,
    one_line s → (String.length o + String.length s ≤ ebuf)%nat →
    addr2line_read (s +:+ input) n o ebuf
    = addr2line_read input n (o +:+ s) ebuf.
Proof.
  induction s as [|c s IH]; intros input n o ebuf Hs Hlen.
  - by rewrite str_append_nil_r.
  - destruct Hs as [Hc Hs]. simpl in Hlen.
    change (String c s +:+ input) with (String c (s +:+ input)).
    rewrite addr2line_read_cons.
    rewrite bool_decide_eq_true_2 by lia.
    rewrite bool_decide_eq_false_2 by done.
    rewrite IH; [|done|rewrite str_length_append; simpl; lia].
    by rewrite str_append_assoc.
Qed.

(** X2. When the helper answers with two lines, a function and a
  location, and there is room for them, [addr2line] yields the
  function, the separator and the location, and nothing of what may
  follow the second line's end. *)
Theorem addr2line_function_at_location popen fname offset size f loc :
popen fname offset = Some (f +:+ nl +:+ loc +:+ nl) →
one_line f → one_line loc →
Z.of_nat (String.length f + String.length sep + String.length loc)
< size - 1 →
addr2line popen fname offset size = Some (f +:+ sep +:+ loc).
Proof.
intros Hp Hf Hloc Hroom. unfold addr2line. rewrite Hp.
remember (Z.to_nat (size - 1)) as ebuf eqn:Hebuf.
rewrite !Nat2Z.inj_add in Hroom.
assert (addr2line_read (f +:+ nl +:+ loc +:+ nl) 0 "" ebuf
        = f +:+ sep +:+ loc) as ->.
{ assert (String.length sep = 6%nat) as Hsep by done.
  rewrite addr2line_read_line; [|done|simpl].
  2:{ lia. }
  change ("" +:+ f) with f.
  change (nl +:+ loc +:+ nl) with (String newline (loc +:+ nl)).
  rewrite addr2line_read_cons.
  rewrite bool_decide_eq_true_2 by (simpl; lia).
  rewrite (bool_decide_eq_true_2 (newline = newline)) by done.
  rewrite (bool_decide_eq_true_2 (int_add 0 1 = 1)) by done.
  rewrite bool_decide_eq_true_2 by (simpl; lia). simpl andb. cbv iota.
  rewrite addr2line_read_line
    by (done || (rewrite str_length_append; simpl; lia)).
  unfold nl. rewrite addr2line_read_cons.
  rewrite (bool_decide_eq_true_2 (newline = newline)) by done.
  rewrite (bool_decide_eq_false_2 (int_add _ _ = 1)) by done.
  simpl andb. cbv iota.
  case_bool_decide; [|by rewrite str_append_assoc].
  simpl addr2line_read. by rewrite str_append_assoc. }
rewrite bool_decide_eq_true_2; [done|].
intros H. apply (f_equal String.length) in H.
rewrite !str_length_append in H. simpl in H. lia.
Qed.

Lemma addr2line_function_at_location_witness :
addr2line (λ _ _, Some ("main" +:+ nl +:+ "/src/pl-main.c:10" +:+ nl))
  "libswipl.so" 100 512 = Some ("main" +:+ sep +:+ "/src/pl-main.c:10").
Proof.
apply (addr2line_function_at_location _ "libswipl.so" 100 512 "main"
         "/src/pl-main.c:10").
- reflexivity.
- vm_compute. repeat split; discriminate.
- vm_compute. repeat split; discriminate.
- vm_compute. reflexivity.
Defined.
End Addr2lineFacts.

(** ** Slot reservation: any number of callers, stray cursors *)

Module ReservationFacts.
Import Concurrent ConcurrentSpec.

Lemma handed_out_range c n :
  Forall (λ r, 0 ≤ r < SAVE_TRACES) (handed_out c n).
Proof.
  unfold handed_out. apply Forall_fmap, Forall_forall. intros j _. simpl.
  unfold SAVE_TRACES. Z.div_mod_to_equations; lia.
Qed.

Lemma handed_out_length c n : length (handed_out c n) = n.
Proof. unfold handed_out. rewrite length_fmap, length_seqZ. lia. Qed.

(** X3. However many callers run the compare-and-swap loop, and in
  whatever order their steps interleave, the cursor has advanced by
  exactly the number of callers that have returned, and the indices
  they got are the slots from the initial cursor on, each in the
  ring. *)
Theorem reservations_accounted (c : Z) (m : nat) (schedule : list nat) :
0 ≤ c < SAVE_TRACES →
let s := run schedule (init c m) in
let n := length (returned s) in
length (callers s) = m ∧
cursor s = (c + Z.of_nat n) mod SAVE_TRACES ∧
returned s ≡ₚ handed_out c n ∧
Forall (λ r, 0 ≤ r < SAVE_TRACES) (returned s).
Proof.
intros Hc s n.
pose proof (ConcurrentFacts.inv_run c m schedule _ Hc
              (ConcurrentFacts.inv_init c m Hc)) as (Hlen&_&k&Hcur&Hret).
fold s in Hlen, Hcur, Hret.
assert (n = k) as ->.
{ unfold n. rewrite Hret. apply handed_out_length. }
split; [done|]. split; [done|]. split; [done|].
rewrite Hret. apply handed_out_range.
Qed.

Lemma reservations_accounted_witness :
let s := run [0; 1; 2; 0; 1; 2; 1; 1; 2; 2]%nat (init 9 12) in
let n := length (returned s) in
length (callers s) = 12%nat ∧
cursor s = (9 + Z.of_nat n) mod SAVE_TRACES ∧
returned s ≡ₚ handed_out 9 n ∧
Forall (λ r, 0 ≤ r < SAVE_TRACES) (returned s).
Proof.
apply (reservations_accounted 9 12 [0; 1; 2; 0; 1; 2; 1; 1; 2; 2]%nat).
vm_compute. split; [discriminate|reflexivity].
Defined.

(** X4. A caller that is left alone for three steps has returned,
  whatever the state it starts from: a reservation can be delayed
  only by other callers completing theirs.  The other callers are
  where they were. *)
Theorem solo_caller_returns (s : state) (i : nat) (t : caller) :
callers s !! i = Some t →
let s' := run [i; i; i] s in
(∃ r, callers s' !! i = Some (Returned r)) ∧
(∀ j, j ≠ i → callers s' !! j = callers s !! j).
Proof.
intros Hi s'.
assert (i < length (callers s))%nat as Hlt by by eapply lookup_lt_Some.
assert (∀ s0 t0, callers s0 !! i = Some t0 →
          length (callers (step i s0)) = length (callers s0) ∧
          (∀ j, j ≠ i → callers (step i s0) !! j = callers s0 !! j) ∧
          match t0 with
          | AtRead =>
              ∃ next, callers (step i s0) !! i = Some (AtCAS (cursor s0) next)
                      ∧ cursor (step i s0) = cursor s0
          | AtCAS cur _ =>
              if bool_decide (cursor s0 = cur)
              then callers (step i s0) !! i = Some (Returned cur)
              else callers (step i s0) !! i = Some AtRead
          | Returned r => callers (step i s0) !! i = Some (Returned r)
          end) as Hstep.
{ intros s0 t0 H0.
  assert (i < length (callers s0))%nat by by eapply lookup_lt_Some.
  unfold step. rewrite H0. destruct t0 as [|cur next|r]; simpl.
  - rewrite length_insert. split; [done|]. split.
    + intros j Hj. by rewrite list_lookup_insert_ne.
    + eexists. by rewrite list_lookup_insert_eq.
  - unfold Cursor.COMPARE_AND_SWAP. case_bool_decide; simpl;
      rewrite length_insert, list_lookup_insert_eq by done;
      (split; [done|]); (split; [|done]);
      intros j Hj; by rewrite list_lookup_insert_ne.
  - done. }
assert (∀ s0 r, callers s0 !! i = Some (Returned r) → step i s0 = s0)
  as Hdone.
{ intros s0 r H0. unfold step. by rewrite H0. }
unfold s', run. simpl.
destruct (Hstep s t Hi) as (Hl1&Ho1&H1).
destruct t as [|cur next|r].
- (* read, swap *)
  destruct H1 as (next&H1&Hc1).
  destruct (Hstep _ _ H1) as (Hl2&Ho2&H2). simpl in H2.
  rewrite bool_decide_eq_true_2 in H2 by done.
  rewrite (Hdone _ _ H2). split; [eauto|].
  intros j Hj. by rewrite Ho2, Ho1.
- case_bool_decide.
  + (* the swap succeeds *)
    rewrite (Hdone _ _ H1), (Hdone _ _ H1). split; [eauto|done].
  + (* the swap fails: read again, swap *)
    destruct (Hstep _ _ H1) as (Hl2&Ho2&next'&H2&Hc2).
    destruct (Hstep _ _ H2) as (Hl3&Ho3&H3). simpl in H3.
    rewrite bool_decide_eq_true_2 in H3 by done.
    split; [eauto|]. intros j Hj. by rewrite Ho3, Ho2, Ho1.
- rewrite (Hdone _ _ H1), (Hdone _ _ H1), (Hdone _ _ Hi). split; [eauto|done].
Qed.

Lemma solo_caller_returns_witness :
let s := run [0; 1; 1]%nat (init 9 2) in
let s' := run [0; 0; 0]%nat s in
(∃ r, callers s' !! 0%nat = Some (Returned r)) ∧
(∀ j, j ≠ 0%nat → callers s' !! j = callers s !! j).
Proof.
apply (solo_caller_returns (run [0; 1; 1]%nat (init 9 2)) 0 (AtCAS 9 0)).
vm_compute. reflexivity.
Defined.

(** X5. The two variants of [next_btrace_id] differ on a cursor beyond
  the ring: the compare-and-swap loop hands it out as it is and moves
  it further away, the plain variant brings index and cursor back
  into the ring. *)
Theorem next_btrace_id_stray_cursor (fuel : nat) (c : Z) :
SAVE_TRACES ≤ c < 2 ^ 31 - 1 →
Cursor.next_btrace_id true (S fuel) c = Ok (c, c + 1) ∧
Cursor.next_btrace_id false fuel c
= Ok (c mod SAVE_TRACES, (c + 1) mod SAVE_TRACES).
Proof.
intros Hc. unfold SAVE_TRACES in *. split.
- simpl. unfold Cursor.COMPARE_AND_SWAP.
  rewrite bool_decide_eq_true_2 by done.
  rewrite int_add_small by lia. unfold SAVE_TRACES.
  by rewrite bool_decide_eq_false_2 by lia.
- unfold Cursor.next_btrace_id, Cursor.plain, int_rem, SAVE_TRACES.
  rewrite (int_add_small c 1) by lia.
  rewrite bool_decide_eq_true_2 by lia.
  by rewrite !Z.rem_mod_nonneg by lia.
Qed.

Lemma next_btrace_id_stray_cursor_witness :
Cursor.next_btrace_id true 1 25 = Ok (25, 25 + 1) ∧
Cursor.next_btrace_id false 0 25
= Ok (25 mod SAVE_TRACES, (25 + 1) mod SAVE_TRACES).
Proof.
apply (next_btrace_id_stray_cursor 0 25). vm_compute.
split; [discriminate|reflexivity].
Defined.
End ReservationFacts.

(** ** Queries *)

Lemma arr_get_out_of_range {A} (a : list A) (i : Z) :
  ¬ (0 ≤ i < Z.of_nat (length a)) → arr_get a i = None.
Proof.
  intros H. unfold arr_get. case_bool_decide; [|done].
  apply lookup_ge_None. lia.
Qed.

Module QueryFacts.

(** The slot [print_backtrace(last)] computes from the cursor. *)
Lemma print_backtrace_index (c last : Z) :
  0 ≤ c < SAVE_TRACES → - 2 ^ 30 ≤ last ≤ 2 ^ 30 →
  let me := int_sub c last in
  let me' := if bool_decide (me < 0) then int_add me SAVE_TRACES else me in
  if bool_decide (- SAVE_TRACES ≤ c - last < SAVE_TRACES)
  then me' = (c - last) mod SAVE_TRACES
  else ¬ (0 ≤ me' < SAVE_TRACES).
Proof.
  intros Hc Hl. unfold SAVE_TRACES in *. simpl.
  rewrite int_sub_small by lia.
  case_bool_decide; case_bool_decide;
    rewrite ?int_add_small by lia; Z.div_mod_to_equations; lia.
Qed.

Lemma glibc_print_trace_out_of_range dladdr popen (w : world Glibc.btrace)
    p b me :
  heap w !! p = Some (Some b) → GlibcSpec.wf b →
  ¬ (0 ≤ me < SAVE_TRACES) →
  Glibc.print_trace dladdr popen p me w = Undefined.
Proof.
  intros Hp (_&Hl&_) Hme. unfold Glibc.print_trace.
  rewrite (bind_Ok _ _ w b w) by (unfold load; by rewrite Hp).
  rewrite (arr_get_out_of_range (Glibc.why b)); [reflexivity|].
  rewrite Hl. unfold SAVE_TRACES in *. lia.
Qed.

Lemma lu_print_trace_out_of_range (w : world Libunwind.btrace) p b me :
  heap w !! p = Some (Some b) → LibunwindSpec.wf b →
  ¬ (0 ≤ me < SAVE_TRACES) →
  Libunwind.print_trace p me w = Undefined.
Proof.
  intros Hp (Hl&_) Hme. unfold Libunwind.print_trace.
  rewrite (bind_Ok _ _ w b w) by (unfold load; by rewrite Hp).
  rewrite arr_get_out_of_range; [reflexivity|].
  rewrite Hl. unfold SAVE_TRACES in *. lia.
Qed.

Lemma win_print_trace_out_of_range have_libdwarf dwarf_addr2line
    (w : world Windows.btrace) p b me :
  heap w !! p = Some (Some b) → WindowsSpec.wf b →
  ¬ (0 ≤ me < SAVE_TRACES) →
  Windows.print_trace have_libdwarf dwarf_addr2line p me w = Undefined.
Proof.
  intros Hp (Hl&_) Hme. unfold Windows.print_trace.
  rewrite (bind_Ok _ _ w b w) by (unfold load; by rewrite Hp).
  rewrite arr_get_out_of_range; [reflexivity|].
  rewrite Hl. unfold SAVE_TRACES in *. lia.
Qed.

(** X6. [print_backtrace(last)] reads the slot [last] places before
  the cursor, modulo the ring, as long as that place is less than a
  full turn away in either direction: [last = 0] shows the slot at the
  cursor, the one [last = SAVE_TRACES] shows.  For any other [last]
  the index is outside the arrays of the store. *)
Theorem print_backtrace_last_range dladdr popen have_libdwarf
  dwarf_addr2line ok (last : Z) :
- 2 ^ 30 ≤ last ≤ 2 ^ 30 →
(∀ (w : world Glibc.btrace) p b,
   has_store GlibcSpec.wf w p b →
   Glibc.print_backtrace dladdr popen ok last w =
     if bool_decide (- SAVE_TRACES ≤ Glibc.current b - last < SAVE_TRACES)
     then Glibc.print_trace dladdr popen p
            ((Glibc.current b - last) mod SAVE_TRACES) w
     else Undefined) ∧
(∀ (w : world Libunwind.btrace) p b,
   has_store LibunwindSpec.wf w p b →
   Libunwind.print_backtrace ok last w =
     if bool_decide
          (- SAVE_TRACES ≤ Libunwind.current b - last < SAVE_TRACES)
     then Libunwind.print_trace p
            ((Libunwind.current b - last) mod SAVE_TRACES) w
     else Undefined) ∧
(∀ (w : world Windows.btrace) p b,
   has_store WindowsSpec.wf w p b →
   Windows.print_backtrace have_libdwarf dwarf_addr2line ok last w =
     if bool_decide
          (- SAVE_TRACES ≤ Windows.current b - last < SAVE_TRACES)
     then Windows.print_trace have_libdwarf dwarf_addr2line p
            ((Windows.current b - last) mod SAVE_TRACES) w
     else Undefined).
Proof.
intros Hlast. split; [|split].
- intros w p b (Hld&Hp&Hwf). unfold Glibc.print_backtrace.
  rewrite (bind_Ok _ _ _ _ _
             (GlibcFacts.get_trace_store_present _ _ _ _ Hld)).
  rewrite (bind_Ok _ _ w b w) by (unfold load; by rewrite Hp).
  pose proof Hwf as (_&_&_&Hc).
  pose proof (print_backtrace_index _ _ Hc Hlast) as Hi. simpl in Hi.
  case_bool_decide.
  + by rewrite Hi.
  + by apply (glibc_print_trace_out_of_range dladdr popen w p b).
- intros w p b (Hld&Hp&Hwf). unfold Libunwind.print_backtrace.
  rewrite (bind_Ok _ _ _ _ _
             (LibunwindFacts.lu_get_trace_store_present _ _ _ _ Hld)).
  rewrite (bind_Ok _ _ w b w) by (unfold load; by rewrite Hp).
  pose proof Hwf as (_&_&Hc).
  pose proof (print_backtrace_index _ _ Hc Hlast) as Hi. simpl in Hi.
  case_bool_decide.
  + by rewrite Hi.
  + by apply (lu_print_trace_out_of_range w p b).
- intros w p b (Hld&Hp&Hwf). unfold Windows.print_backtrace.
  rewrite (bind_Ok _ _ _ _ _
             (WindowsFacts.win_get_trace_store_present _ _ _ Hld)).
  rewrite (bind_Ok _ _ w b w) by (unfold load; by rewrite Hp).
  pose proof Hwf as (_&_&Hc).
  pose proof (print_backtrace_index _ _ Hc Hlast) as Hi. simpl in Hi.
  case_bool_decide.
  + by rewrite Hi.
  + by apply (win_print_trace_out_of_range _ _ w p b).
Qed.

Lemma print_backtrace_last_range_witness :
Glibc.print_backtrace GlibcSpec.no_dladdr GlibcSpec.no_popen true 11
  GlibcSpec.w_store = Undefined ∧
Libunwind.print_backtrace true 0 LibunwindSpec.w_store
= Libunwind.print_trace 1%positive 0 LibunwindSpec.w_store.
Proof.
destruct (print_backtrace_last_range GlibcSpec.no_dladdr GlibcSpec.no_popen
            false WindowsSpec.no_dwarf true 11 ltac:(lia)) as (Hg&_&_).
destruct (print_backtrace_last_range GlibcSpec.no_dladdr GlibcSpec.no_popen
            false WindowsSpec.no_dwarf true 0 ltac:(lia)) as (_&Hl&_).
split.
- apply (Hg GlibcSpec.w_store 1%positive
           (Glibc.set_shared true Glibc.zeroed)).
  split; [reflexivity|]. split; [reflexivity|].
  apply GlibcFacts.wf_set_shared, GlibcFacts.wf_zeroed.
- apply (Hl LibunwindSpec.w_store 1%positive
           (Libunwind.set_shared true Libunwind.zeroed)).
  split; [reflexivity|]. split; [reflexivity|].
  apply LibunwindFacts.lu_wf_set_shared, LibunwindFacts.lu_wf_zeroed.
Defined.
End QueryFacts.

(** ** Computations that only print *)

Section OnlyPrints.
Context {B : Type}.

Lemma only_prints_ret {A} (a : A) : only_prints (mret a : Mon B A).
Proof. intros w a' w' [= <- <-]. exists []. by rewrite printed_nil. Qed.

Lemma only_prints_undefined {A} : only_prints (undefined : Mon B A).
Proof. intros w a w' [=]. Qed.

Lemma only_prints_timeout {A} : only_prints (timeout : Mon B A).
Proof. intros w a w' [=]. Qed.

Lemma only_prints_defined {A} (o : option A) :
  only_prints (defined o : Mon B A).
Proof.
  destruct o; [apply only_prints_ret|apply only_prints_undefined].
Qed.

Lemma only_prints_Sdprintf m : only_prints (Sdprintf m : Mon B unit).
Proof. intros w a w' [= <-]. by exists [m]. Qed.

Lemma only_prints_load p : only_prints (load p : Mon B B).
Proof.
  intros w a w'. unfold load.
  destruct (heap w !! p) as [[b|]|]; intros [= <- <-].
  exists []. by rewrite printed_nil.
Qed.

Lemma only_prints_bind {A C} (m : Mon B A) (f : A → Mon B C) :
  only_prints m → (∀ a, only_prints (f a)) → only_prints (m ≫= f).
Proof.
  intros Hm Hf w c w'. unfold mbind, Mon_bind.
  destruct (m w) as [[a w1]| |] eqn:H1; [|done..].
  intros H2. destruct (Hm _ _ _ H1) as [ms1 ->].
  destruct (Hf _ _ _ _ H2) as [ms2 ->].
  exists (ms1 ++ ms2). by rewrite printed_app.
Qed.

Lemma only_prints_for_each idx (body : Z → Mon B unit) :
  (∀ i, only_prints (body i)) → only_prints (for_each idx body).
Proof.
  intros Hb. induction idx as [|i idx IH]; simpl.
  - apply only_prints_ret.
  - apply only_prints_bind; [apply Hb|]. intros _. apply IH.
Qed.
End OnlyPrints.

Create HintDb only_prints.
#[export] Hint Resolve only_prints_ret only_prints_undefined
  only_prints_timeout only_prints_defined only_prints_Sdprintf
  only_prints_load : only_prints.

Ltac only_prints :=
  repeat first
    [ apply only_prints_bind; [|intros ?]
    | apply only_prints_for_each; intros ?
    | solve [auto with only_prints]
    | match goal with
      | |- only_prints (match ?x with _ => _ end) => destruct x
      | |- only_prints (if ?x then _ else _) => destruct x
      | |- only_prints (let '(_, _) := ?x in _) => destruct x
      end ].

Module OnlyPrintsFacts.

Lemma glibc_print_trace_only_prints dladdr popen p me :
  only_prints (Glibc.print_trace dladdr popen p me).
Proof. unfold Glibc.print_trace, Glibc.print_frame. only_prints. Qed.

Lemma glibc_named_loop_only_prints dladdr popen n p b label :
  ∀ me, only_prints (Glibc.named_loop dladdr popen n p b label me).
Proof.
  induction n as [|n IH]; intros me; simpl; [only_prints|].
  apply only_prints_bind; [only_prints|]. intros slot.
  destruct (Glibc.label_is slot label).
  - apply glibc_print_trace_only_prints.
  - case_bool_decide; [only_prints|apply IH].
Qed.

Lemma lu_print_trace_only_prints p me :
  only_prints (Libunwind.print_trace p me).
Proof. unfold Libunwind.print_trace. only_prints. Qed.

Lemma lu_named_loop_only_prints n p b why :
  ∀ me, only_prints (Libunwind.named_loop n p b why me).
Proof.
  induction n as [|n IH]; intros me; simpl; [only_prints|].
  apply only_prints_bind; [only_prints|]. intros s.
  destruct (Libunwind.label_is (Libunwind.name s) why).
  - apply lu_print_trace_only_prints.
  - case_bool_decide; [only_prints|apply IH].
Qed.

Lemma win_print_trace_only_prints have_libdwarf dwarf_addr2line p me :
  only_prints (Windows.print_trace have_libdwarf dwarf_addr2line p me).
Proof.
  unfold Windows.print_trace. only_prints.
Qed.

Lemma win_named_loop_only_prints have_libdwarf dwarf_addr2line n p b why :
  ∀ me, only_prints
          (Windows.named_loop have_libdwarf dwarf_addr2line n p b why me).
Proof.
  induction n as [|n IH]; intros me; simpl; [only_prints|].
  apply only_prints_bind; [only_prints|]. intros s.
  destruct (Windows.label_is (Windows.name s) why).
  - apply win_print_trace_only_prints.
  - case_bool_decide; [only_prints|apply IH].
Qed.

Lemma glibc_named_only_prints fuel dladdr popen bt label :
  only_prints (Glibc.bstore_print_backtrace_named fuel dladdr popen bt label).
Proof.
  destruct bt as [p|]; simpl; [|only_prints].
  apply only_prints_bind; [only_prints|]. intros b.
  apply glibc_named_loop_only_prints.
Qed.

Lemma lu_named_only_prints fuel bt why :
  only_prints (Libunwind.bstore_print_backtrace_named fuel bt why).
Proof.
  destruct bt as [p|]; simpl; [|only_prints].
  apply only_prints_bind; [only_prints|]. intros b.
  apply lu_named_loop_only_prints.
Qed.

Lemma win_named_only_prints fuel have_libdwarf dwarf_addr2line bt why :
  only_prints (Windows.bstore_print_backtrace_named fuel have_libdwarf
                 dwarf_addr2line bt why).
Proof.
  destruct bt as [p|]; simpl; [|only_prints].
  apply only_prints_bind; [only_prints|]. intros b.
  apply win_named_loop_only_prints.
Qed.

Lemma bind_assoc_at {B A C D} (m : Mon B A) (f : A → Mon B C)
    (g : C → Mon B D) w :
  ((m ≫= f) ≫= g) w = (m ≫= λ x, f x ≫= g) w.
Proof. unfold mbind, Mon_bind. by destruct (m w) as [[a w1]| |]. Qed.

(** A computation that starts with a step that leaves the world alone. *)
Lemma only_prints_after {B A C} (g : Mon B A) (m : A → Mon B C) w a :
  g w = Ok (a, w) → only_prints (m a) →
  ∀ c w', (g ≫= m) w = Ok (c, w') → ∃ ms, w' = printed w ms.
Proof. intros Hg Hm c w'. rewrite (bind_Ok _ _ _ _ _ Hg). apply Hm. Qed.

(** X7. A query by a thread that has its store changes neither the
  thread data nor the heap, whatever the store holds: when
  [print_backtrace], [print_backtrace_named] or [c_backtrace_print]
  ends, the world is the one before with output added. *)
Theorem queries_only_print atomic fuel dladdr popen have_libdwarf
  dwarf_addr2line ok :
let Wg := glibc_walker atomic fuel dladdr popen in
let Wl := libunwind_walker atomic fuel in
let Ww := windows_walker atomic fuel have_libdwarf dwarf_addr2line in
(∀ (w : world Glibc.btrace) p,
   has_LD w (Some p) →
   (∀ last w', Glibc.print_backtrace dladdr popen ok last w = Ok ((), w') →
               ∃ ms, w' = printed w ms) ∧
   (∀ A1 r w', Shared.c_backtrace_print Wg ok A1 w = Ok (r, w') →
               ∃ ms, w' = printed w ms)) ∧
(∀ (w : world Libunwind.btrace) p,
   has_LD w (Some p) →
   (∀ last w', Libunwind.print_backtrace ok last w = Ok ((), w') →
               ∃ ms, w' = printed w ms) ∧
   (∀ A1 r w', Shared.c_backtrace_print Wl ok A1 w = Ok (r, w') →
               ∃ ms, w' = printed w ms)) ∧
(∀ (w : world Windows.btrace) p,
   has_LD w (Some p) →
   (∀ last w',
      Windows.print_backtrace have_libdwarf dwarf_addr2line ok last w
      = Ok ((), w') →
      ∃ ms, w' = printed w ms) ∧
   (∀ A1 r w', Shared.c_backtrace_print Ww ok A1 w = Ok (r, w') →
               ∃ ms, w' = printed w ms)).
Proof.
intros Wg Wl Ww. split; [|split].
- intros w p Hld.
  pose proof (GlibcFacts.get_trace_store_present ok false w p Hld) as Hg.
  split.
  + intros last w'. unfold Glibc.print_backtrace.
    apply (only_prints_after _ _ _ _ Hg).
    apply only_prints_bind; [only_prints|]. intros b.
    apply glibc_print_trace_only_prints.
  + intros [label|] r w'; [|by apply only_prints_ret].
    unfold Shared.c_backtrace_print, Shared.print_backtrace_named.
    rewrite bind_assoc_at. apply (only_prints_after _ _ _ _ Hg).
    apply only_prints_bind; [|only_prints].
    apply glibc_named_only_prints.
- intros w p Hld.
  pose proof (LibunwindFacts.lu_get_trace_store_present ok false w p Hld)
    as Hg.
  split.
  + intros last w'. unfold Libunwind.print_backtrace.
    apply (only_prints_after _ _ _ _ Hg).
    apply only_prints_bind; [only_prints|]. intros b.
    apply lu_print_trace_only_prints.
  + intros [label|] r w'; [|by apply only_prints_ret].
    unfold Shared.c_backtrace_print, Shared.print_backtrace_named.
    rewrite bind_assoc_at. apply (only_prints_after _ _ _ _ Hg).
    apply only_prints_bind; [|only_prints].
    apply lu_named_only_prints.
- intros w p Hld.
  pose proof (WindowsFacts.win_get_trace_store_present ok w p Hld) as Hg.
  split.
  + intros last w'. unfold Windows.print_backtrace.
    apply (only_prints_after _ _ _ _ Hg).
    apply only_prints_bind; [only_prints|]. intros b.
    apply win_print_trace_only_prints.
  + intros [label|] r w'; [|by apply only_prints_ret].
    unfold Shared.c_backtrace_print, Shared.print_backtrace_named.
    rewrite bind_assoc_at. apply (only_prints_after _ _ _ _ Hg).
    apply only_prints_bind; [|only_prints].
    apply win_named_only_prints.
Qed.

Lemma queries_only_print_witness :
∃ ms, printed GlibcSpec.w_store [MsgNoStackTrace]
      = printed GlibcSpec.w_store ms.
Proof.
destruct (queries_only_print true 10 GlibcSpec.no_dladdr GlibcSpec.no_popen
            false WindowsSpec.no_dwarf true) as (Hg&_&_).
destruct (Hg GlibcSpec.w_store 1%positive ltac:(reflexivity)) as (Hp&_).
apply (Hp 1). vm_compute. reflexivity.
Defined.
End OnlyPrintsFacts.

(** ** The first query of a thread *)

Module FirstQueryFacts.

Lemma lu_print_trace_zeroed (w : world Libunwind.btrace) p s me :
  heap w !! p = Some (Some (Libunwind.set_shared s Libunwind.zeroed)) →
  0 ≤ me < SAVE_TRACES →
  Libunwind.print_trace p me w = Ok ((), printed w [MsgNoStackTrace]).
Proof.
  intros Hp Hme. unfold Libunwind.print_trace.
  rewrite (bind_Ok _ _ w _ w) by (unfold load; by rewrite Hp).
  rewrite arr_get_lookup by lia. cbn [Libunwind.dumps Libunwind.set_shared
                                      Libunwind.zeroed].
  rewrite lookup_replicate_2 by (unfold SAVE_TRACES in *; lia).
  reflexivity.
Qed.

Lemma win_print_trace_zeroed have_libdwarf dwarf_addr2line
    (w : world Windows.btrace) p s me :
  heap w !! p = Some (Some (Windows.set_shared s Windows.zeroed)) →
  0 ≤ me < SAVE_TRACES →
  Windows.print_trace have_libdwarf dwarf_addr2line p me w
  = Ok ((), printed w [MsgNoStackTrace]).
Proof.
  intros Hp Hme. unfold Windows.print_trace.
  rewrite (bind_Ok _ _ w _ w) by (unfold load; by rewrite Hp).
  rewrite arr_get_lookup by lia. cbn [Windows.dumps Windows.set_shared
                                      Windows.zeroed].
  rewrite lookup_replicate_2 by (unfold SAVE_TRACES in *; lia).
  reflexivity.
Qed.

Lemma glibc_print_trace_zeroed dladdr popen (w : world Glibc.btrace) p s me :
  heap w !! p = Some (Some (Glibc.set_shared s Glibc.zeroed)) →
  0 ≤ me < SAVE_TRACES →
  Glibc.print_trace dladdr popen p me w
  = Ok ((), printed w [MsgNoStackTrace]).
Proof.
  intros Hp Hme. unfold Glibc.print_trace.
  rewrite (bind_Ok _ _ w _ w) by (unfold load; by rewrite Hp).
  rewrite (arr_get_lookup (Glibc.why _)) by lia.
  cbn [Glibc.why Glibc.set_shared Glibc.zeroed].
  rewrite lookup_replicate_2 by (unfold SAVE_TRACES in *; lia).
  reflexivity.
Qed.

(** X8. The first query of a thread that has local data but no store
  creates the store: afterwards the thread owns a zeroed, shared
  store in a cell that was free before.  [print_backtrace] then
  reports [No stack trace]; the search by label reports that there is
  no such trace in the glibc configuration and is silent in the other
  two. *)
Theorem first_query_creates_store atomic fuel dladdr popen have_libdwarf
  dwarf_addr2line (label : string) (last : Z) :
SAVE_TRACES ≤ Z.of_nat fuel → 1 ≤ last ≤ SAVE_TRACES →
let Wg := glibc_walker atomic fuel dladdr popen in
let Wl := libunwind_walker atomic fuel in
let Ww := windows_walker atomic fuel have_libdwarf dwarf_addr2line in
(∀ (w : world Glibc.btrace),
   has_LD w None →
   let p := fresh (dom (heap w)) in
   let w1 := mkWorld (Some (mkLD (Some p)))
               (<[p := Some (Glibc.set_shared true Glibc.zeroed)]> (heap w))
               (log w) in
   heap w !! p = None ∧
   Glibc.print_backtrace dladdr popen true last w
   = Ok ((), printed w1 [MsgNoStackTrace]) ∧
   Shared.c_backtrace_print Wg true (Some label) w
   = Ok (true, printed w1 [MsgNoBacktraceNamed label])) ∧
(∀ (w : world Libunwind.btrace),
   has_LD w None →
   let p := fresh (dom (heap w)) in
   let w1 := mkWorld (Some (mkLD (Some p)))
               (<[p := Some (Libunwind.set_shared true Libunwind.zeroed)]>
                  (heap w))
               (log w) in
   heap w !! p = None ∧
   Libunwind.print_backtrace true last w
   = Ok ((), printed w1 [MsgNoStackTrace]) ∧
   Shared.c_backtrace_print Wl true (Some label) w = Ok (true, w1)) ∧
(∀ (w : world Windows.btrace),
   has_LD w None →
   let p := fresh (dom (heap w)) in
   let w1 := mkWorld (Some (mkLD (Some p)))
               (<[p := Some (Windows.set_shared true Windows.zeroed)]>
                  (heap w))
               (log w) in
   heap w !! p = None ∧
   Windows.print_backtrace have_libdwarf dwarf_addr2line true last w
   = Ok ((), printed w1 [MsgNoStackTrace]) ∧
   Shared.c_backtrace_print Ww true (Some label) w = Ok (true, w1)).
Proof.
intros Hf Hlast Wg Wl Ww.
assert (∀ B (w : world B), heap w !! fresh (dom (heap w)) = None) as Hfresh.
{ intros B w. apply not_elem_of_dom, is_fresh. }
assert ((0 - last) mod SAVE_TRACES = SAVE_TRACES - last) as Hme
  by (unfold SAVE_TRACES in *; Z.div_mod_to_equations; lia).
split; [|split].
- intros w Hld p w1. split; [apply Hfresh|].
  pose proof (GlibcFacts.get_trace_store_fresh false w Hld) as Hg.
  simpl in Hg. fold p in Hg. fold w1 in Hg.
  assert (heap w1 !! p = Some (Some (Glibc.set_shared true Glibc.zeroed)))
    as Hp by (unfold w1; simpl; by rewrite lookup_insert_eq).
  assert (has_store GlibcSpec.wf w1 p (Glibc.set_shared true Glibc.zeroed))
    as Hst.
  { split; [done|]. split; [done|].
    apply GlibcFacts.wf_set_shared, GlibcFacts.wf_zeroed. }
  split.
  + unfold Glibc.print_backtrace. rewrite (bind_Ok _ _ _ _ _ Hg).
    pose proof (GlibcFacts.print_backtrace_slot dladdr popen true w1 p _
                  last Hst Hlast) as Hs.
    unfold Glibc.print_backtrace in Hs.
    rewrite (bind_Ok _ _ _ _ _
               (GlibcFacts.get_trace_store_present _ _ _ _ (proj1 Hst)))
      in Hs.
    rewrite Hs. apply (glibc_print_trace_zeroed _ _ _ _ true); [done|].
    cbn [Glibc.current Glibc.set_shared Glibc.zeroed].
    rewrite Hme. lia.
  + unfold Shared.c_backtrace_print.
    rewrite (bind_Ok _ _ w () (printed w1 [MsgNoBacktraceNamed label]));
      [done|].
    unfold Shared.print_backtrace_named, Wg. simpl.
    rewrite (bind_Ok _ _ _ _ _ Hg).
    rewrite (GlibcFacts.bstore_print_backtrace_named_scan dladdr popen
               fuel p (Glibc.set_shared true Glibc.zeroed) label w1);
      [|done|done|apply Hst].
    apply Unknown.glibc_first_match_unlabeled,
      Unknown.glibc_unlabeled_zeroed.
- intros w Hld p w1. split; [apply Hfresh|].
  pose proof (LibunwindFacts.lu_get_trace_store_fresh false w Hld) as Hg.
  simpl in Hg. fold p in Hg. fold w1 in Hg.
  assert (heap w1 !! p
          = Some (Some (Libunwind.set_shared true Libunwind.zeroed)))
    as Hp by (unfold w1; simpl; by rewrite lookup_insert_eq).
  split.
  + unfold Libunwind.print_backtrace. rewrite (bind_Ok _ _ _ _ _ Hg).
    rewrite (bind_Ok _ _ w1 _ w1) by (unfold load; by rewrite Hp).
    cbn [Libunwind.current Libunwind.set_shared Libunwind.zeroed].
    unfold SAVE_TRACES in *. rewrite int_sub_small by lia.
    rewrite bool_decide_eq_true_2 by lia.
    rewrite int_add_small by lia.
    apply (lu_print_trace_zeroed _ _ true); [done|].
    unfold SAVE_TRACES. lia.
  + unfold Shared.c_backtrace_print.
    rewrite (bind_Ok _ _ w () w1); [done|].
    unfold Shared.print_backtrace_named, Wl. simpl.
    rewrite (bind_Ok _ _ _ _ _ Hg).
    apply (LibunwindFacts.lu_bstore_print_backtrace_named_silent fuel p
             (Libunwind.set_shared true Libunwind.zeroed)); [done|done| |].
    * apply LibunwindFacts.lu_wf_set_shared, LibunwindFacts.lu_wf_zeroed.
    * apply Unknown.lu_unlabeled_zeroed.
- intros w Hld p w1. split; [apply Hfresh|].
  pose proof (WindowsFacts.win_get_trace_store_fresh false w Hld) as Hg.
  simpl in Hg. fold p in Hg. fold w1 in Hg.
  assert (heap w1 !! p
          = Some (Some (Windows.set_shared true Windows.zeroed)))
    as Hp by (unfold w1; simpl; by rewrite lookup_insert_eq).
  split.
  + unfold Windows.print_backtrace. rewrite (bind_Ok _ _ _ _ _ Hg).
    rewrite (bind_Ok _ _ w1 _ w1) by (unfold load; by rewrite Hp).
    cbn [Windows.current Windows.set_shared Windows.zeroed].
    unfold SAVE_TRACES in *. rewrite int_sub_small by lia.
    rewrite bool_decide_eq_true_2 by lia.
    rewrite int_add_small by lia.
    apply (win_print_trace_zeroed _ _ _ _ true); [done|].
    unfold SAVE_TRACES. lia.
  + unfold Shared.c_backtrace_print.
    rewrite (bind_Ok _ _ w () w1); [done|].
    unfold Shared.print_backtrace_named, Ww. simpl.
    rewrite (bind_Ok _ _ _ _ _ Hg).
    apply (WindowsFacts.win_bstore_print_backtrace_named_silent fuel
             have_libdwarf dwarf_addr2line p
             (Windows.set_shared true Windows.zeroed)); [done|done| |].
    * apply WindowsFacts.win_wf_set_shared, WindowsFacts.win_wf_zeroed.
    * apply Unknown.win_unlabeled_zeroed.
Qed.

Lemma first_query_creates_store_witness :
let w := GlibcSpec.w0 in
let p := fresh (dom (heap w)) in
let w1 := mkWorld (Some (mkLD (Some p)))
            (<[p := Some (Glibc.set_shared true Glibc.zeroed)]> (heap w))
            (log w) in
heap w !! p = None ∧
Glibc.print_backtrace GlibcSpec.no_dladdr GlibcSpec.no_popen true 1 w
= Ok ((), printed w1 [MsgNoStackTrace]) ∧
Shared.c_backtrace_print
  (glibc_walker true 10 GlibcSpec.no_dladdr GlibcSpec.no_popen) true
  (Some "gc") w
= Ok (true, printed w1 [MsgNoBacktraceNamed "gc"]).
Proof.
destruct (first_query_creates_store true 10 GlibcSpec.no_dladdr
            GlibcSpec.no_popen false WindowsSpec.no_dwarf "gc" 1)
  as (Hg&_&_).
- vm_compute. discriminate.
- unfold SAVE_TRACES. lia.
- apply Hg. reflexivity.
Defined.
End FirstQueryFacts.

(** ** libunwind: what a capture shows *)

Module LibunwindShowFacts.
Import Libunwind LibunwindSpec LibunwindShow.

Lemma kept_length stk : (length (kept stk) ≤ 10)%nat.
Proof. unfold kept, MAX_DEPTH. rewrite length_fmap, length_take. lia. Qed.

(** The loop of [save_backtrace] writes the frames it reaches over the
    front of the array and leaves the rest. *)
Lemma lu_walk_exact cursor :
  ∀ d frame,
    0 ≤ d ≤ MAX_DEPTH → length frame = Z.to_nat MAX_DEPTH →
    walk cursor d frame
    = Some (d + Z.of_nat (length (take (Z.to_nat (MAX_DEPTH - d)) cursor)),
            take (Z.to_nat d) frame
              ++ ((λ f, unw_get_proc_name f 32)
                    <$> take (Z.to_nat (MAX_DEPTH - d)) cursor)
              ++ drop (Z.to_nat d
                       + length (take (Z.to_nat (MAX_DEPTH - d)) cursor))
                   frame).
Proof.
  unfold MAX_DEPTH.
  induction cursor as [|f cursor IH]; intros d frame Hd Hlen.
  - rewrite take_nil. simpl.
    rewrite Z.add_0_r, Nat.add_0_r, take_drop. done.
  - simpl walk. unfold MAX_DEPTH. case_bool_decide as Hlt.
    + rewrite arr_set_in_range by lia. simpl.
      rewrite int_add_small by lia.
      rewrite IH by (rewrite ?length_insert; lia).
      replace (Z.to_nat (10 - d)) with (S (Z.to_nat (10 - (d + 1)))) by lia.
      simpl. f_equal. f_equal; [lia|].
      replace (Z.to_nat (d + 1)) with (S (Z.to_nat d)) by lia.
      rewrite drop_insert_lt by lia.
      erewrite take_S_r by (apply list_lookup_insert_eq; lia).
      rewrite take_insert_ge by lia.
      rewrite <- app_assoc. simpl. rewrite Nat.add_succ_r. done.
    + replace (Z.to_nat (10 - d)) with 0%nat by lia.
      simpl. rewrite Z.add_0_r, Nat.add_0_r, take_drop. done.
Qed.

Lemma slot_after_wf why stk old :
  length old = Z.to_nat MAX_DEPTH → wf_stack (slot_after why stk old).
Proof.
  intros Hl. pose proof (kept_length stk).
  unfold wf_stack, slot_after, MAX_DEPTH in *. cbn [frame depth].
  rewrite length_app, length_drop. lia.
Qed.

Lemma lu_save_backtrace_exact atomic fuel env why (w w1 : world btrace)
    p b :
  (0 < fuel)%nat →
  get_trace_store (store_alloc env) true w = Ok (Some p, w1) →
  heap w1 !! p = Some (Some b) → wf b →
  ∃ s0,
    arr_get (dumps b) (current b) = Some s0 ∧
    save_backtrace atomic fuel env why w =
      Ok (Some p,
          mkWorld (ld w1)
            (<[p := Some (put (slot_after why (stack env) (frame s0)) b)]>
               (heap w1)) (log w1)).
Proof.
  intros Hf Hg Hp Hwf. pose proof Hwf as (Hl&Hall&Hc).
  destruct (arr_get_is_Some (dumps b) (current b)) as [s0 Hs0];
    [rewrite Hl; unfold SAVE_TRACES in *; lia|].
  assert (wf_stack s0) as [Hfl Hd0].
  { rewrite arr_get_lookup in Hs0 by lia.
    by eapply Forall_lookup_1 in Hall. }
  exists s0. split; [done|].
  pose proof (lu_walk_exact (stack env) 0 (frame s0)
                ltac:(unfold MAX_DEPTH; lia) Hfl) as Hwalk.
  rewrite Z.sub_0_r, Z.add_0_l in Hwalk.
  change (Z.to_nat 0) with 0%nat in Hwalk.
  rewrite take_0, Nat.add_0_l, app_nil_l in Hwalk.
  rewrite <- (length_fmap (λ f, unw_get_proc_name f 32)) in Hwalk.
  fold (kept (stack env)) in Hwalk.
  unfold save_backtrace.
  rewrite (bind_Ok _ _ _ _ _ Hg).
  rewrite (bind_Ok _ _ _ _ _
             (LibunwindFacts.lu_next_btrace_id_ok _ _ _ _ _ Hf Hp Hc)).
  mon_unfold. mon_simpl. rewrite Hs0. simpl.
  rewrite Hwalk. simpl.
  rewrite arr_set_in_range by (rewrite Hl; unfold SAVE_TRACES in *; lia).
  simpl. mon_simpl. reflexivity.
Qed.

Lemma frame_lines_imap (s : btrace_stack) fs :
  ∀ rest, frame s = fs ++ rest →
  concat (frame_line s <$> seqZ 0 (Z.of_nat (length fs)))
  = imap (λ d f, MsgUnwFrame (Z.of_nat d) (f_name f) (f_offset f)) fs.
Proof.
  induction fs as [|x fs IH] using rev_ind; intros rest Hfr; [done|].
  rewrite length_app. simpl length.
  replace (Z.of_nat (length fs + 1)) with (Z.of_nat (length fs) + 1) by lia.
  rewrite seqZ_app by lia. rewrite fmap_app, concat_app, imap_app.
  rewrite (IH ([x] ++ rest)) by (by rewrite Hfr, <- app_assoc).
  f_equal. simpl. rewrite Nat.add_0_r, app_nil_r.
  unfold frame_line. rewrite arr_get_lookup by lia.
  replace (Z.of_nat 0 + (0 + Z.of_nat (length fs)))
    with (Z.of_nat (length fs)) by lia.
  rewrite Hfr, Nat2Z.id, <- app_assoc.
  by rewrite (list_lookup_middle fs rest x).
Qed.

Lemma rendering_slot_after why stk old :
  rendering why (slot_after why stk old) = shown why stk.
Proof.
  unfold rendering, shown. f_equal.
  apply (frame_lines_imap _ _ (drop (length (kept stk)) old)). done.
Qed.

Lemma lu_print_backtrace_latest ok (w : world btrace) p b :
  has_store wf w p b →
  print_backtrace ok 1 w
  = print_trace p ((current b - 1) mod SAVE_TRACES) w.
Proof.
  intros (Hld&Hp&Hwf). unfold print_backtrace.
  rewrite (bind_Ok _ _ _ _ _
             (LibunwindFacts.lu_get_trace_store_present _ _ _ _ Hld)).
  rewrite (bind_Ok _ _ w b w) by (unfold load; by rewrite Hp).
  destruct Hwf as (_&_&Hc). unfold SAVE_TRACES in *.
  rewrite int_sub_small by lia.
  f_equal. case_bool_decide.
  - rewrite int_add_small by lia. Z.div_mod_to_equations; lia.
  - Z.div_mod_to_equations; lia.
Qed.

(** A capture, seen from the store it went to. *)
Lemma lu_capture_shown_with atomic fuel ok env why (w w1 : world btrace)
    p b :
  (0 < fuel)%nat →
  get_trace_store (store_alloc env) true w = Ok (Some p, w1) →
  ld w1 = Some (mkLD (Some p)) →
  heap w1 !! p = Some (Some b) → wf b →
  ∃ w',
    save_backtrace atomic fuel env why w = Ok (Some p, w') ∧
    has_LD w' (Some p) ∧ log w' = log w1 ∧
    print_backtrace ok 1 w'
    = Ok ((), printed w' (shown why (stack env))) ∧
    Shared.print_backtrace_named (libunwind_walker atomic fuel) ok why w'
    = Ok ((), printed w' (shown why (stack env))).
Proof.
  intros Hf Hg Hld Hp Hwf.
  destruct (lu_save_backtrace_exact atomic fuel env why w w1 p b Hf Hg Hp Hwf)
    as (s0&Hs0&Hsave).
  set (s := slot_after why (stack env) (frame s0)) in *.
  set (w' := mkWorld _ _ _) in Hsave.
  assert (wf_stack s0) as [Hfl _].
  { destruct Hwf as (_&Hall&Hc).
    rewrite arr_get_lookup in Hs0 by lia.
    by eapply Forall_lookup_1 in Hall. }
  pose proof (slot_after_wf why (stack env) (frame s0) Hfl) as Hs.
  fold s in Hs.
  assert (heap w' !! p = Some (Some (put s b))) as Hp'
    by (unfold w'; simpl; by rewrite lookup_insert_eq).
  assert (has_store wf w' p (put s b)) as Hst.
  { split; [done|]. split; [done|]. by apply LibunwindFacts.lu_wf_put. }
  pose proof (LibunwindFacts.lu_recent_put s b Hwf) as Hrec.
  exists w'. split; [done|]. split; [done|]. split; [done|].
  rewrite <- (rendering_slot_after why (stack env) (frame s0)). fold s.
  split.
  - rewrite (lu_print_backtrace_latest ok w' p _ Hst).
    by apply (LibunwindFacts.lu_print_trace_rendering w' p (put s b)).
  - unfold Shared.print_backtrace_named. simpl.
    rewrite (bind_Ok _ _ _ _ _
               (LibunwindFacts.lu_get_trace_store_present _ _ _ _
                  (proj1 Hst))).
    apply (LibunwindFacts.lu_named_finds_latest fuel w' p (put s b) s);
      try done.
    apply Hst.
Qed.

(** X9. libunwind: what [save_backtrace] has captured is what the
  queries show next.  Both [print_backtrace(1)] and the search for the
  label print the label and one line for each of the first
  [MAX_DEPTH] frames of the stack, with the name cut to the 31
  characters the slot has room for, and nothing of what an older trace
  left in the slot. *)
Theorem lu_capture_shown atomic fuel ok env why (w : world btrace) :
(0 < fuel)%nat → context wf w → store_alloc env = true →
∃ p w',
  save_backtrace atomic fuel env why w = Ok (Some p, w') ∧
  has_LD w' (Some p) ∧ log w' = log w ∧
  print_backtrace ok 1 w' = Ok ((), printed w' (shown why (stack env))) ∧
  Shared.print_backtrace_named (libunwind_walker atomic fuel) ok why w'
  = Ok ((), printed w' (shown why (stack env))).
Proof.
intros Hf [Hld|(p&b&Hld&Hp&Hwf)] Ha.
- pose proof (LibunwindFacts.lu_get_trace_store_fresh true w Hld) as Hg.
  simpl in Hg. set (p := fresh (dom (heap w))) in *.
  set (w1 := mkWorld _ _ _) in Hg. rewrite <- Ha in Hg at 1.
  exists p.
  apply (lu_capture_shown_with atomic fuel ok env why w w1 p
           (set_shared true zeroed) Hf Hg); [done| |].
  + unfold w1. simpl. by rewrite lookup_insert_eq.
  + apply LibunwindFacts.lu_wf_set_shared, LibunwindFacts.lu_wf_zeroed.
- exists p.
  apply (lu_capture_shown_with atomic fuel ok env why w w p b Hf); try done.
  by apply LibunwindFacts.lu_get_trace_store_present.
Qed.

Lemma lu_capture_shown_witness :
∃ p w',
  save_backtrace true 1 env12 "gc" w0 = Ok (Some p, w') ∧
  has_LD w' (Some p) ∧ log w' = log w0 ∧
  print_backtrace true 1 w' = Ok ((), printed w' (shown "gc" (stack env12))) ∧
  Shared.print_backtrace_named (libunwind_walker true 1) true "gc" w'
  = Ok ((), printed w' (shown "gc" (stack env12))).
Proof.
apply (lu_capture_shown true 1 true env12 "gc" w0).
- lia.
- left. reflexivity.
- reflexivity.
Defined.
End LibunwindShowFacts.

(** ** libunwind and Windows: the search by label *)

Module SearchFacts.
Import GlibcSpec.

Lemma lu_named_loop_scan p b why (w : world Libunwind.btrace) :
  LibunwindSpec.wf b →
  ∀ (d : nat) (k : Z) (n : nat) (me : Z),
    (1 ≤ d)%nat → k = SAVE_TRACES - Z.of_nat d → 0 ≤ k →
    (d ≤ n)%nat →
    -1 ≤ me < SAVE_TRACES - 1 →
    me mod SAVE_TRACES = (Libunwind.current b - 1 - k) mod SAVE_TRACES →
    Libunwind.named_loop n p b why me w =
      LibunwindSearch.first_match p b why
        ((λ j, (Libunwind.current b - 1 - j) mod SAVE_TRACES)
           <$> seqZ k (Z.of_nat d)) w.
Proof.
  intros Hwf. pose proof Hwf as (Hy&_&Hc).
  induction d as [|d IH]; intros k n me Hd Hk Hk0 Hn Hme Hmod; [lia|].
  destruct n as [|n]; [lia|].
  rewrite seqZ_cons by lia. rewrite fmap_cons.
  unfold LibunwindSearch.first_match. simpl List.find.
  simpl Libunwind.named_loop.
  set (m := (Libunwind.current b - 1 - k) mod SAVE_TRACES).
  assert ((if bool_decide (me < 0) then int_add me SAVE_TRACES else me) = m)
    as ->.
  { unfold m, SAVE_TRACES in *. case_bool_decide.
    - rewrite int_add_small by lia. Z.div_mod_to_equations; lia.
    - Z.div_mod_to_equations; lia. }
  assert (0 ≤ m < SAVE_TRACES) as Hm
    by (unfold m, SAVE_TRACES; Z.div_mod_to_equations; lia).
  destruct (arr_get_is_Some (Libunwind.dumps b) m) as [s Hs];
    [rewrite Hy; unfold SAVE_TRACES in *; lia|].
  rewrite Hs. simpl. rewrite ret_bind.
  replace (LibunwindSearch.matches b why m)
    with (Libunwind.label_is (Libunwind.name s) why)
    by (unfold LibunwindSearch.matches; by rewrite Hs).
  destruct (Libunwind.label_is (Libunwind.name s) why); [reflexivity|].
  unfold SAVE_TRACES in *.
  rewrite !int_sub_small by lia.
  case_bool_decide as Hend.
  - assert (d = 0%nat) as ->
      by (unfold m in *; Z.div_mod_to_equations; lia).
    reflexivity.
  - assert (d ≠ 0%nat) as Hd0
      by (unfold m in *; intros ->; Z.div_mod_to_equations; lia).
    rewrite (IH (Z.succ k) n (m - 1)); try lia.
    + replace (Z.pred (Z.of_nat (S d))) with (Z.of_nat d) by lia. done.
    + unfold m. Z.div_mod_to_equations; lia.
Qed.

Lemma lu_bstore_print_backtrace_named_scan fuel p b why
    (w : world Libunwind.btrace) :
  SAVE_TRACES ≤ Z.of_nat fuel →
  heap w !! p = Some (Some b) → LibunwindSpec.wf b →
  Libunwind.bstore_print_backtrace_named fuel (Some p) why w =
    LibunwindSearch.first_match p b why (scan_order (Libunwind.current b)) w.
Proof.
  intros Hf Hp Hwf. unfold Libunwind.bstore_print_backtrace_named.
  rewrite (bind_Ok _ _ w b w) by (unfold load; by rewrite Hp).
  pose proof Hwf as (_&_&Hc). unfold SAVE_TRACES in *.
  rewrite int_sub_small by lia.
  apply (lu_named_loop_scan p b why w Hwf 10 0 fuel
           (Libunwind.current b - 1));
    unfold SAVE_TRACES; try lia.
  by rewrite Z.sub_0_r.
Qed.

Section Windows.
Variable have_libdwarf : bool.
Variable dwarf_addr2line : Z → option string.

Lemma win_named_loop_scan p b why (w : world Windows.btrace) :
  WindowsSpec.wf b →
  ∀ (d : nat) (k : Z) (n : nat) (me : Z),
    (1 ≤ d)%nat → k = SAVE_TRACES - Z.of_nat d → 0 ≤ k →
    (d ≤ n)%nat →
    -1 ≤ me < SAVE_TRACES - 1 →
    me mod SAVE_TRACES = (Windows.current b - 1 - k) mod SAVE_TRACES →
    Windows.named_loop have_libdwarf dwarf_addr2line n p b why me w =
      WindowsSearch.first_match have_libdwarf dwarf_addr2line p b why
        ((λ j, (Windows.current b - 1 - j) mod SAVE_TRACES)
           <$> seqZ k (Z.of_nat d)) w.
Proof.
  intros Hwf. pose proof Hwf as (Hy&_&Hc).
  induction d as [|d IH]; intros k n me Hd Hk Hk0 Hn Hme Hmod; [lia|].
  destruct n as [|n]; [lia|].
  rewrite seqZ_cons by lia. rewrite fmap_cons.
  unfold WindowsSearch.first_match. simpl List.find.
  simpl Windows.named_loop.
  set (m := (Windows.current b - 1 - k) mod SAVE_TRACES).
  assert ((if bool_decide (me < 0) then int_add me SAVE_TRACES else me)
          = m) as ->.
  { unfold m, SAVE_TRACES in *. case_bool_decide.
    - rewrite int_add_small by lia. Z.div_mod_to_equations; lia.
    - Z.div_mod_to_equations; lia. }
  assert (0 ≤ m < SAVE_TRACES) as Hm
    by (unfold m, SAVE_TRACES; Z.div_mod_to_equations; lia).
  destruct (arr_get_is_Some (Windows.dumps b) m) as [s Hs];
    [rewrite Hy; unfold SAVE_TRACES in *; lia|].
  rewrite Hs. simpl. rewrite ret_bind.
  replace (WindowsSearch.matches b why m)
    with (Windows.label_is (Windows.name s) why)
    by (unfold WindowsSearch.matches; by rewrite Hs).
  destruct (Windows.label_is (Windows.name s) why); [reflexivity|].
  unfold SAVE_TRACES in *.
  rewrite !int_sub_small by lia.
  case_bool_decide as Hend.
  - assert (d = 0%nat) as ->
      by (unfold m in *; Z.div_mod_to_equations; lia).
    reflexivity.
  - assert (d ≠ 0%nat) as Hd0
      by (unfold m in *; intros ->; Z.div_mod_to_equations; lia).
    rewrite (IH (Z.succ k) n (m - 1)); try lia.
    + replace (Z.pred (Z.of_nat (S d))) with (Z.of_nat d) by lia. done.
    + unfold m. Z.div_mod_to_equations; lia.
Qed.

Lemma win_bstore_print_backtrace_named_scan fuel p b why
    (w : world Windows.btrace) :
  SAVE_TRACES ≤ Z.of_nat fuel →
  heap w !! p = Some (Some b) → WindowsSpec.wf b →
  Windows.bstore_print_backtrace_named fuel have_libdwarf
    dwarf_addr2line (Some p) why w =
    WindowsSearch.first_match have_libdwarf dwarf_addr2line p b why
      (scan_order (Windows.current b)) w.
Proof.
  intros Hf Hp Hwf. unfold Windows.bstore_print_backtrace_named.
  rewrite (bind_Ok _ _ w b w) by (unfold load; by rewrite Hp).
  pose proof Hwf as (_&_&Hc). unfold SAVE_TRACES in *.
  rewrite int_sub_small by lia.
  apply (win_named_loop_scan p b why w Hwf 10 0 fuel
           (Windows.current b - 1));
    unfold SAVE_TRACES; try lia.
  by rewrite Z.sub_0_r.
Qed.
End Windows.

(** X10. libunwind and Windows: the search by label visits the slots
  backward from the one filled last, once around the ring, and prints
  the first one that has the label, so of several traces with the
  same label the most recent; when no slot has the label it prints
  nothing. *)
Theorem search_most_recent_match atomic fuel have_libdwarf dwarf_addr2line
  ok (why : string) :
SAVE_TRACES ≤ Z.of_nat fuel →
(∀ (w : world Libunwind.btrace) p b,
   has_store LibunwindSpec.wf w p b →
   scan_order (Libunwind.current b)
   = reverse (seqZ 0 (Libunwind.current b))
     ++ reverse (seqZ (Libunwind.current b)
                   (SAVE_TRACES - Libunwind.current b)) ∧
   Shared.print_backtrace_named (libunwind_walker atomic fuel) ok why w
   = match List.find (LibunwindSearch.matches b why)
             (scan_order (Libunwind.current b)) with
     | Some me => Libunwind.print_trace p me w
     | None => Ok ((), w)
     end) ∧
(∀ (w : world Windows.btrace) p b,
   has_store WindowsSpec.wf w p b →
   scan_order (Windows.current b)
   = reverse (seqZ 0 (Windows.current b))
     ++ reverse (seqZ (Windows.current b)
                   (SAVE_TRACES - Windows.current b)) ∧
   Shared.print_backtrace_named
     (windows_walker atomic fuel have_libdwarf dwarf_addr2line) ok why w
   = match List.find (WindowsSearch.matches b why)
             (scan_order (Windows.current b)) with
     | Some me =>
         Windows.print_trace have_libdwarf dwarf_addr2line p me w
     | None => Ok ((), w)
     end).
Proof.
intros Hf. split.
- intros w p b (Hld&Hp&Hwf). split.
  + apply GlibcFacts.scan_order_backward. apply Hwf.
  + unfold Shared.print_backtrace_named, libunwind_walker.
    cbn [wk_get_trace_store wk_bstore_print_backtrace_named].
    rewrite (bind_Ok _ _ _ _ _
               (LibunwindFacts.lu_get_trace_store_present _ _ _ _ Hld)).
    rewrite (lu_bstore_print_backtrace_named_scan fuel p b) by done.
    unfold LibunwindSearch.first_match.
    destruct (List.find (LibunwindSearch.matches b why) _); reflexivity.
- intros w p b (Hld&Hp&Hwf). split.
  + apply GlibcFacts.scan_order_backward. apply Hwf.
  + unfold Shared.print_backtrace_named, windows_walker.
    cbn [wk_get_trace_store wk_bstore_print_backtrace_named].
    rewrite (bind_Ok _ _ _ _ _
               (WindowsFacts.win_get_trace_store_present _ _ _ Hld)).
    rewrite (win_bstore_print_backtrace_named_scan _ _ fuel p b) by done.
    unfold WindowsSearch.first_match.
    destruct (List.find (WindowsSearch.matches b why) _); reflexivity.
Qed.

Lemma search_most_recent_match_witness :
let s1 := LibunwindShow.slot_after "gc" [Libunwind.mk_frame_info "f" 1]
            (replicate 10 (Libunwind.mk_frame_info "" 0)) in
let s2 := LibunwindShow.slot_after "gc" [Libunwind.mk_frame_info "g" 2]
            (replicate 10 (Libunwind.mk_frame_info "" 0)) in
let b := LibunwindSpec.put s2
           (LibunwindSpec.put s1
              (Libunwind.set_shared true Libunwind.zeroed)) in
let w := mkWorld (Some (mkLD (Some 1%positive)))
           {[1%positive := Some b]} [] in
Shared.print_backtrace_named (libunwind_walker true 10) true "gc" w
= Libunwind.print_trace 1%positive 1 w.
Proof.
intros s1 s2 b w.
destruct (search_most_recent_match true 10 false WindowsSpec.no_dwarf true
            "gc") as (Hl&_).
- vm_compute. discriminate.
- apply (Hl w 1%positive b).
  split; [reflexivity|]. split; [reflexivity|].
  apply LibunwindFacts.lu_wf_put;
    [apply LibunwindFacts.lu_wf_put;
       [apply LibunwindFacts.lu_wf_set_shared, LibunwindFacts.lu_wf_zeroed|]
    |]; (split; [reflexivity|vm_compute; split; discriminate]).
Defined.
End SearchFacts.

(** ** Windows: what a capture records, and where it goes *)

Module WindowsShowFacts.
Import Windows WindowsSpec WindowsShow.

Section Build.
Variable have_libdwarf : bool.
Variable dwarf_addr2line : Z → option string.

Lemma win_kept_length env exception :
  (length (kept have_libdwarf env exception) ≤ 10)%nat.
Proof.
  unfold kept, MAX_DEPTH. destruct (sym_initialize env); simpl; [|lia].
  rewrite length_fmap, length_take. lia.
Qed.

(** The loop of [backtrace] passes over [skip] steps, then writes the
    frames it reaches over the front of the array. *)
Lemma win_stack_walk_exact steps :
  ∀ skip d frame,
    0 ≤ skip < 2 ^ 31 →
    0 ≤ d ≤ MAX_DEPTH → length frame = Z.to_nat MAX_DEPTH →
    stack_walk have_libdwarf steps skip d frame
    = Some (d + Z.of_nat (length (take (Z.to_nat (MAX_DEPTH - d))
                                    (drop (Z.to_nat skip) steps))),
            take (Z.to_nat d) frame
              ++ (record_frame have_libdwarf
                    <$> take (Z.to_nat (MAX_DEPTH - d))
                          (drop (Z.to_nat skip) steps))
              ++ drop (Z.to_nat d
                       + length (take (Z.to_nat (MAX_DEPTH - d))
                                   (drop (Z.to_nat skip) steps)))
                   frame).
Proof.
  unfold MAX_DEPTH.
  induction steps as [|x steps IH]; intros skip d frame Hskip Hd Hlen.
  - rewrite drop_nil, take_nil.
    assert (stack_walk have_libdwarf [] skip d frame = Some (d, frame))
      as -> by (simpl; by case_bool_decide).
    simpl. rewrite Z.add_0_r, Nat.add_0_r, take_drop. done.
  - simpl stack_walk. unfold MAX_DEPTH. case_bool_decide as Hlt.
    + case_bool_decide as Hsk.
      * rewrite int_sub_small by lia.
        rewrite IH by lia.
        replace (Z.to_nat skip) with (S (Z.to_nat (skip - 1))) by lia.
        done.
      * replace (Z.to_nat skip) with 0%nat by lia. rewrite drop_0.
        rewrite arr_set_in_range by lia. simpl.
        rewrite int_add_small by lia.
        rewrite IH by (rewrite ?length_insert; lia).
        replace (Z.to_nat skip) with 0%nat by lia. rewrite drop_0.
        replace (Z.to_nat (10 - d)) with (S (Z.to_nat (10 - (d + 1))))
          by lia.
        simpl. f_equal. f_equal; [lia|].
        replace (Z.to_nat (d + 1)) with (S (Z.to_nat d)) by lia.
        rewrite drop_insert_lt by lia.
        erewrite take_S_r by (apply list_lookup_insert_eq; lia).
        rewrite take_insert_ge by lia.
        rewrite <- app_assoc. simpl. rewrite Nat.add_succ_r. done.
    + replace (Z.to_nat (10 - d)) with 0%nat by lia.
      simpl. rewrite Z.add_0_r, Nat.add_0_r, take_drop. done.
Qed.

Lemma win_backtrace_exact env exception frame :
  length frame = Z.to_nat MAX_DEPTH →
  backtrace have_libdwarf env exception frame
  = Some (Z.of_nat (length (kept have_libdwarf env exception)),
          kept have_libdwarf env exception
            ++ drop (length (kept have_libdwarf env exception)) frame).
Proof.
  intros Hlen. unfold backtrace, kept.
  destruct (sym_initialize env); [|done].
  rewrite win_stack_walk_exact
    by (done || unfold MAX_DEPTH; destruct exception; lia).
  rewrite Z.sub_0_r, Z.add_0_l. change (Z.to_nat 0) with 0%nat.
  rewrite take_0, Nat.add_0_l, app_nil_l, length_fmap.
  by destruct exception.
Qed.

Lemma win_slot_after_wf why env exception old :
  length old = Z.to_nat MAX_DEPTH →
  wf_stack (slot_after have_libdwarf why env exception old).
Proof.
  intros Hl. pose proof (win_kept_length env exception).
  unfold wf_stack, slot_after, MAX_DEPTH in *. cbn [frame depth].
  rewrite length_app, length_drop. lia.
Qed.

(** What [win_save_backtrace] does once it has its store. *)
Lemma win_save_into_exact atomic fuel env why exception
    (w : world btrace) p b :
  (0 < fuel)%nat → heap w !! p = Some (Some b) → wf b →
  ∃ s0,
    arr_get (dumps b) (current b) = Some s0 ∧
    (cur ← next_btrace_id atomic fuel p;
     b ← load p;
     s ← defined (arr_get (dumps b) cur);
     '(depth, frame) ← defined (backtrace have_libdwarf env exception
                                  (frame s));
     dumps' ← defined (arr_set (dumps b) cur
                         (mk_btrace_stack (Some why) depth frame));
     store p (mk_btrace dumps' (current b) (shared b));;
     mret (Some p)) w =
      Ok (Some p,
          mkWorld (ld w)
            (<[p := Some (put (slot_after have_libdwarf why env exception
                                 (frame s0)) b)]> (heap w)) (log w)).
Proof.
  intros Hf Hp Hwf. pose proof Hwf as (Hl&Hall&Hc).
  destruct (arr_get_is_Some (dumps b) (current b)) as [s0 Hs0];
    [rewrite Hl; unfold SAVE_TRACES in *; lia|].
  assert (wf_stack s0) as [Hfl Hd0].
  { rewrite arr_get_lookup in Hs0 by lia.
    by eapply Forall_lookup_1 in Hall. }
  exists s0. split; [done|].
  rewrite (bind_Ok _ _ _ _ _
             (WindowsFacts.win_next_btrace_id_ok _ _ _ _ _ Hf Hp Hc)).
  mon_unfold. mon_simpl. rewrite Hs0. simpl.
  rewrite (win_backtrace_exact env exception (frame s0) Hfl). simpl.
  rewrite arr_set_in_range by (rewrite Hl; unfold SAVE_TRACES in *; lia).
  simpl. mon_simpl. reflexivity.
Qed.

Lemma win_frame_lines_imap (s : btrace_stack) fs :
  ∀ rest, frame s = fs ++ rest →
  concat (frame_line have_libdwarf dwarf_addr2line s
            <$> seqZ 0 (Z.of_nat (length fs)))
  = imap (line have_libdwarf dwarf_addr2line) fs.
Proof.
  induction fs as [|x fs IH] using rev_ind; intros rest Hfr; [done|].
  rewrite length_app. simpl length.
  replace (Z.of_nat (length fs + 1)) with (Z.of_nat (length fs) + 1)
    by lia.
  rewrite seqZ_app by lia. rewrite fmap_app, concat_app, imap_app.
  rewrite (IH ([x] ++ rest)) by (by rewrite Hfr, <- app_assoc).
  f_equal. simpl. rewrite Nat.add_0_r, app_nil_r.
  unfold frame_line, line. rewrite arr_get_lookup by lia.
  replace (Z.of_nat 0 + (0 + Z.of_nat (length fs)))
    with (Z.of_nat (length fs)) by lia.
  rewrite Hfr, Nat2Z.id, <- app_assoc.
  rewrite (list_lookup_middle fs rest x) by done.
  case_bool_decide; [|done].
  by destruct (if have_libdwarf then _ else None).
Qed.

Lemma win_rendering_slot_after why env exception old :
  rendering have_libdwarf dwarf_addr2line why
    (slot_after have_libdwarf why env exception old)
  = shown have_libdwarf dwarf_addr2line why env exception.
Proof.
  unfold rendering, shown. f_equal.
  by apply (win_frame_lines_imap _ _
              (drop (length (kept have_libdwarf env exception)) old)).
Qed.

(** [print_trace] on a slot of a well-formed store. *)
Lemma win_print_trace_text (w : world btrace) p b me :
  heap w !! p = Some (Some b) → wf b → 0 ≤ me < SAVE_TRACES →
  print_trace have_libdwarf dwarf_addr2line p me w
  = Ok ((), printed w (slot_text have_libdwarf dwarf_addr2line b me)).
Proof.
  intros Hp (Hl&Hall&_) Hme. unfold slot_text.
  destruct (arr_get_is_Some (dumps b) me) as [s Hs];
    [rewrite Hl; unfold SAVE_TRACES in *; lia|].
  rewrite Hs.
  assert (wf_stack s) as Hwfs.
  { rewrite arr_get_lookup in Hs by lia.
    by eapply Forall_lookup_1 in Hall. }
  destruct (name s) as [l|] eqn:Hn.
  - by apply (WindowsFacts.win_print_trace_rendering _ _ w p b me s l).
  - unfold print_trace.
    rewrite (bind_Ok _ _ w b w) by (unfold load; by rewrite Hp).
    rewrite Hs. simpl. rewrite ret_bind. by rewrite Hn.
Qed.

Lemma win_print_backtrace_text ok (w : world btrace) p b last :
  has_store wf w p b → 1 ≤ last ≤ SAVE_TRACES →
  print_backtrace have_libdwarf dwarf_addr2line ok last w
  = Ok ((), printed w (slot_text have_libdwarf dwarf_addr2line b
                         ((current b - last) mod SAVE_TRACES))).
Proof.
  intros (Hld&Hp&Hwf) Hlast. unfold print_backtrace.
  rewrite (bind_Ok _ _ _ _ _
             (WindowsFacts.win_get_trace_store_present _ _ _ Hld)).
  rewrite (bind_Ok _ _ w b w) by (unfold load; by rewrite Hp).
  pose proof Hwf as (_&_&Hc). unfold SAVE_TRACES in *.
  rewrite int_sub_small by lia.
  rewrite <- (win_print_trace_text w p b) by
    (done || unfold SAVE_TRACES; Z.div_mod_to_equations; lia).
  f_equal. case_bool_decide.
  - rewrite int_add_small by lia. Z.div_mod_to_equations; lia.
  - Z.div_mod_to_equations; lia.
Qed.

Lemma win_find_in_range b why order me :
  Forall (λ j, 0 ≤ j < SAVE_TRACES) order →
  List.find (WindowsSearch.matches b why) order = Some me →
  0 ≤ me < SAVE_TRACES.
Proof.
  intros Hall Hfind. apply find_some in Hfind as [Hin _].
  rewrite Forall_forall in Hall. apply Hall.
  by apply list_elem_of_In.
Qed.

Lemma scan_order_range c :
  Forall (λ j, 0 ≤ j < SAVE_TRACES) (GlibcSpec.scan_order c).
Proof.
  unfold GlibcSpec.scan_order. apply Forall_fmap, Forall_forall.
  intros j _. simpl. unfold SAVE_TRACES. Z.div_mod_to_equations; lia.
Qed.

Lemma win_search_text atomic fuel ok (w : world btrace) p b why :
  SAVE_TRACES ≤ Z.of_nat fuel → has_store wf w p b →
  Shared.print_backtrace_named
    (windows_walker atomic fuel have_libdwarf dwarf_addr2line) ok why w
  = Ok ((), printed w (search_text have_libdwarf dwarf_addr2line b why)).
Proof.
  intros Hf (Hld&Hp&Hwf).
  unfold Shared.print_backtrace_named, windows_walker.
  cbn [wk_get_trace_store wk_bstore_print_backtrace_named].
  rewrite (bind_Ok _ _ _ _ _
             (WindowsFacts.win_get_trace_store_present _ _ _ Hld)).
  rewrite (SearchFacts.win_bstore_print_backtrace_named_scan _ _ fuel p b)
    by done.
  unfold WindowsSearch.first_match, search_text.
  destruct (List.find (WindowsSearch.matches b why) _) as [me|] eqn:Hfind.
  - apply win_print_trace_text; [done..|].
    eapply win_find_in_range; [apply scan_order_range|done].
  - unfold mret, Mon_ret. by rewrite printed_nil.
Qed.

Lemma win_search_text_unlabeled b why :
  unlabeled b why →
  search_text have_libdwarf dwarf_addr2line b why = [].
Proof.
  intros Hun. unfold search_text.
  assert (List.find (WindowsSearch.matches b why)
            (GlibcSpec.scan_order (current b)) = None) as ->; [|done].
  generalize (GlibcSpec.scan_order (current b)). intros order.
  induction order as [|m order IH]; [done|].
  simpl. rewrite IH.
  assert (WindowsSearch.matches b why m = false) as ->; [|done].
  unfold WindowsSearch.matches, arr_get. case_bool_decide; [|done].
  destruct (dumps b !! Z.to_nat m) as [s|] eqn:Hs; [|done].
  simpl. by eapply Forall_lookup_1 in Hun.
Qed.

(** The first capture of a thread, seen from the world it leaves. *)
Lemma win_first_capture atomic fuel env why exception (w : world btrace) :
  (0 < fuel)%nat → has_LD w None → store_alloc env = true →
  let p := fresh (dom (heap w)) in
  let b := put (slot_after have_libdwarf why env exception no_frames)
             (set_shared true zeroed) in
  win_save_backtrace atomic fuel have_libdwarf env why exception w
  = Ok (Some p, mkWorld (Some (mkLD (Some p)))
                  (<[p := Some b]> (heap w)) (log w)) ∧
  wf b.
Proof.
  intros Hf Hld Ha p b. unfold win_save_backtrace. rewrite Ha.
  pose proof (WindowsFacts.win_get_trace_store_fresh true w Hld) as Hg.
  simpl in Hg. fold p in Hg. set (w1 := mkWorld _ _ _) in Hg.
  rewrite (bind_Ok _ _ _ _ _ Hg).
  assert (wf (set_shared true zeroed)) as Hwf0
    by apply WindowsFacts.win_wf_set_shared, WindowsFacts.win_wf_zeroed.
  assert (heap w1 !! p = Some (Some (set_shared true zeroed))) as Hp1
    by (unfold w1; simpl; by rewrite lookup_insert_eq).
  destruct (win_save_into_exact atomic fuel env why exception w1 p _
              Hf Hp1 Hwf0) as (s0&Hs0&Hsave).
  assert (frame s0 = no_frames) as Hfr.
  { cbn [dumps set_shared zeroed current] in Hs0.
    rewrite arr_get_lookup in Hs0 by lia.
    rewrite lookup_replicate_2 in Hs0 by (unfold SAVE_TRACES; lia).
    by injection Hs0 as <-. }
  rewrite Hfr in Hsave. rewrite Hsave. split.
  - unfold w1. simpl. by rewrite insert_insert_eq.
  - apply WindowsFacts.win_wf_put; [done|].
    apply win_slot_after_wf. unfold no_frames.
    by rewrite length_replicate.
Qed.

(** A capture by a thread that has its store. *)
Lemma win_later_capture atomic fuel env why exception (w : world btrace)
    p :
  (0 < fuel)%nat → has_LD w (Some p) → store_alloc env = true →
  let p' := fresh (dom (heap w)) in
  let b' := put (slot_after have_libdwarf why env exception no_frames)
              zeroed in
  win_save_backtrace atomic fuel have_libdwarf env why exception w
  = Ok (Some p', mkWorld (ld w) (<[p' := Some b']> (heap w)) (log w)).
Proof.
  intros Hf Hld Ha p' b'. unfold win_save_backtrace. rewrite Ha.
  pose proof (WindowsFacts.win_get_trace_store_private w p Hld) as Hg.
  simpl in Hg. fold p' in Hg. set (w1 := mkWorld _ _ _) in Hg.
  rewrite (bind_Ok _ _ _ _ _ Hg).
  assert (heap w1 !! p' = Some (Some zeroed)) as Hp1
    by (unfold w1; simpl; by rewrite lookup_insert_eq).
  destruct (win_save_into_exact atomic fuel env why exception w1 p' _
              Hf Hp1 WindowsFacts.win_wf_zeroed) as (s0&Hs0&Hsave).
  assert (frame s0 = no_frames) as Hfr.
  { cbn [dumps zeroed current] in Hs0.
    rewrite arr_get_lookup in Hs0 by lia.
    rewrite lookup_replicate_2 in Hs0 by (unfold SAVE_TRACES; lia).
    by injection Hs0 as <-. }
  rewrite Hfr in Hsave. rewrite Hsave.
  unfold w1. simpl. by rewrite insert_insert_eq.
Qed.
End Build.

(** The search for the label of the first capture of a thread. *)
Lemma win_first_capture_search atomic fuel have_libdwarf dwarf_addr2line
  ok env why exception (w : world btrace) :
(0 < fuel)%nat → has_LD w None → store_alloc env = true →
let p := fresh (dom (heap w)) in
let b := put (slot_after have_libdwarf why env exception no_frames)
           (set_shared true zeroed) in
let w' := mkWorld (Some (mkLD (Some p))) (<[p := Some b]> (heap w))
            (log w) in
has_store wf w' p b ∧
arr_get (dumps b) ((current b - 1) mod SAVE_TRACES)
= Some (slot_after have_libdwarf why env exception no_frames) ∧
Shared.print_backtrace_named
  (windows_walker atomic fuel have_libdwarf dwarf_addr2line) ok why w'
= Ok ((), printed w'
            (shown have_libdwarf dwarf_addr2line why env exception)).
Proof.
intros Hf Hld Ha p b w'.
destruct (win_first_capture have_libdwarf atomic fuel env why exception w
            Hf Hld Ha) as (_&Hwf). fold b in Hwf.
set (s := slot_after have_libdwarf why env exception no_frames) in *.
assert (wf (set_shared true zeroed)) as Hwf0
  by apply WindowsFacts.win_wf_set_shared, WindowsFacts.win_wf_zeroed.
assert (wf_stack s) as Hs.
{ apply win_slot_after_wf. unfold no_frames. by rewrite length_replicate. }
assert (heap w' !! p = Some (Some b)) as Hp
  by (unfold w'; simpl; by rewrite lookup_insert_eq).
pose proof (WindowsFacts.win_recent_put s _ Hwf0) as Hrec. fold b in Hrec.
split; [done|]. split; [done|].
rewrite <- (win_rendering_slot_after have_libdwarf dwarf_addr2line why env
              exception no_frames). fold s.
unfold Shared.print_backtrace_named, windows_walker.
cbn [wk_get_trace_store wk_bstore_print_backtrace_named].
rewrite (bind_Ok _ _ w' _ w')
  by (by apply WindowsFacts.win_get_trace_store_present).
apply (WindowsFacts.win_named_finds_latest _ _ fuel w' p b s);
  try done.
Qed.

(** X11. Windows: the first capture of a thread creates the thread's
  store and is what the queries show next: the label and one line for
  each recorded frame.  Recorded are at most [MAX_DEPTH] of the steps
  of the stack walk, after the first two unless the walk starts from
  an exception record, and none when [SymInitialize] fails; nothing of
  the slot's former content shows. *)
Theorem win_first_capture_shown atomic fuel have_libdwarf dwarf_addr2line
  ok env why exception (w : world btrace) :
(0 < fuel)%nat → has_LD w None → store_alloc env = true →
∃ p w',
  win_save_backtrace atomic fuel have_libdwarf env why exception w
  = Ok (Some p, w') ∧
  has_LD w' (Some p) ∧ log w' = log w ∧
  print_backtrace have_libdwarf dwarf_addr2line ok 1 w'
  = Ok ((), printed w'
              (shown have_libdwarf dwarf_addr2line why env exception)) ∧
  Shared.print_backtrace_named
    (windows_walker atomic fuel have_libdwarf dwarf_addr2line) ok why w'
  = Ok ((), printed w'
              (shown have_libdwarf dwarf_addr2line why env exception)).
Proof.
intros Hf Hld Ha.
destruct (win_first_capture have_libdwarf atomic fuel env why exception w
            Hf Hld Ha) as (Hsave&_).
destruct (win_first_capture_search atomic fuel have_libdwarf dwarf_addr2line
            ok env why exception w Hf Hld Ha) as (Hst&Hrec&Hsearch).
set (p := fresh (dom (heap w))) in *.
set (s := slot_after have_libdwarf why env exception no_frames) in *.
set (b := put s (set_shared true zeroed)) in *.
set (w' := mkWorld _ _ _) in *.
exists p, w'. split; [done|]. split; [done|]. split; [done|].
split; [|done].
rewrite (win_print_backtrace_text have_libdwarf dwarf_addr2line ok w' p b)
  by (done || unfold SAVE_TRACES; lia).
unfold slot_text. rewrite Hrec.
rewrite <- (win_rendering_slot_after have_libdwarf dwarf_addr2line why env
              exception no_frames).
reflexivity.
Qed.

Lemma win_first_capture_shown_witness :
∃ p w',
  win_save_backtrace true 1 false env14 "gc" false w0 = Ok (Some p, w') ∧
  has_LD w' (Some p) ∧ log w' = log w0 ∧
  print_backtrace false no_dwarf true 1 w'
  = Ok ((), printed w' (shown false no_dwarf "gc" env14 false)) ∧
  Shared.print_backtrace_named (windows_walker true 1 false no_dwarf)
    true "gc" w'
  = Ok ((), printed w' (shown false no_dwarf "gc" env14 false)).
Proof.
apply (win_first_capture_shown true 1 false no_dwarf true env14 "gc" false
         w0).
- lia.
- reflexivity.
- reflexivity.
Defined.

(** X12. Windows: a capture by a thread that already has its store
  does not go to that store.  [win_save_backtrace] records it in a
  fresh store of its own, not marked shared, which it returns; the
  thread's store is as before, so [print_backtrace] and the search by
  label print after the capture exactly what they printed before
  it. *)
Theorem win_later_capture_private atomic fuel have_libdwarf dwarf_addr2line
  ok env why exception (w : world btrace) p b :
SAVE_TRACES ≤ Z.of_nat fuel → has_store wf w p b →
store_alloc env = true →
let p' := fresh (dom (heap w)) in
let b' := put (slot_after have_libdwarf why env exception no_frames)
            zeroed in
let w' := mkWorld (ld w) (<[p' := Some b']> (heap w)) (log w) in
let Ww := windows_walker atomic fuel have_libdwarf dwarf_addr2line in
win_save_backtrace atomic fuel have_libdwarf env why exception w
= Ok (Some p', w') ∧
p' ≠ p ∧ heap w !! p' = None ∧ shared b' = false ∧
has_store wf w' p b ∧
(∀ last, 1 ≤ last ≤ SAVE_TRACES →
   let text := slot_text have_libdwarf dwarf_addr2line b
                 ((current b - last) mod SAVE_TRACES) in
   print_backtrace have_libdwarf dwarf_addr2line ok last w
   = Ok ((), printed w text) ∧
   print_backtrace have_libdwarf dwarf_addr2line ok last w'
   = Ok ((), printed w' text)) ∧
(∀ label,
   let text := search_text have_libdwarf dwarf_addr2line b label in
   Shared.print_backtrace_named Ww ok label w = Ok ((), printed w text) ∧
   Shared.print_backtrace_named Ww ok label w' = Ok ((), printed w' text)).
Proof.
intros Hf Hst Ha p' b' w' Ww. pose proof Hst as (Hld&Hp&Hwf).
assert (heap w !! p' = None) as Hfresh
  by apply not_elem_of_dom, is_fresh.
assert (p' ≠ p) as Hne by (intros ->; by rewrite Hp in Hfresh).
assert (has_store wf w' p b) as Hst'.
{ split; [done|]. split; [|done].
  unfold w'. simpl. by rewrite lookup_insert_ne. }
split.
{ apply (win_later_capture have_libdwarf atomic fuel env why exception w p);
    [unfold SAVE_TRACES in *; lia|done..]. }
split; [done|]. split; [done|]. split; [done|]. split; [done|]. split.
- intros last Hlast text. split.
  + by apply (win_print_backtrace_text _ _ ok w p b).
  + by apply (win_print_backtrace_text _ _ ok w' p b).
- intros label text. split.
  + by apply (win_search_text _ _ atomic fuel ok w p b).
  + by apply (win_search_text _ _ atomic fuel ok w' p b).
Qed.

Lemma win_later_capture_private_witness :
let w := w_store in
let p' := fresh (dom (heap w)) in
let b' := put (slot_after false "gc" env14 false no_frames) zeroed in
let w' := mkWorld (ld w) (<[p' := Some b']> (heap w)) (log w) in
win_save_backtrace true 10 false env14 "gc" false w = Ok (Some p', w') ∧
Shared.print_backtrace_named (windows_walker true 10 false no_dwarf) true
  "gc" w' = Ok ((), w').
Proof.
intros w p' b' w'.
destruct (win_later_capture_private true 10 false no_dwarf true env14 "gc"
            false w_store 1%positive (set_shared true zeroed))
  as (Hsave&_&_&_&_&_&Hsearch).
- vm_compute. discriminate.
- split; [reflexivity|]. split; [reflexivity|].
  apply WindowsFacts.win_wf_set_shared, WindowsFacts.win_wf_zeroed.
- reflexivity.
- split; [exact Hsave|]. apply (Hsearch "gc").
Defined.

(** X13. Windows: the handler of an unhandled exception records the
  trace of the exception, prints the result of the search for the
  label [crash] in the thread's store, and aborts.  On a thread that
  had no store this prints the trace of the exception.  On a thread
  that had its store the trace went elsewhere: what is printed is what
  the store held under that label before, and nothing when it held no
  such trace. *)
Theorem win_crashHandler_log atomic fuel have_libdwarf dwarf_addr2line ok
  env :
SAVE_TRACES ≤ Z.of_nat fuel → store_alloc env = true →
(∀ w : world btrace,
   has_LD w None →
   ∃ w',
     Windows_crashHandler atomic fuel have_libdwarf dwarf_addr2line env ok w
     = Ok ((), w') ∧
     log w' = log w
              ++ (Out <$> shown have_libdwarf dwarf_addr2line "crash" env
                            true)
              ++ [Abort]) ∧
(∀ (w : world btrace) p b,
   has_store wf w p b →
   ∃ w',
     Windows_crashHandler atomic fuel have_libdwarf dwarf_addr2line env ok w
     = Ok ((), w') ∧
     log w' = log w
              ++ (Out <$> search_text have_libdwarf dwarf_addr2line b
                            "crash")
              ++ [Abort] ∧
     (unlabeled b "crash" → log w' = log w ++ [Abort])).
Proof.
intros Hf Ha.
assert (0 < fuel)%nat as Hf0 by (unfold SAVE_TRACES in *; lia).
split.
- intros w Hld.
  destruct (win_first_capture have_libdwarf atomic fuel env "crash" true w
              Hf0 Hld Ha) as (Hsave&_).
  destruct (win_first_capture_search atomic fuel have_libdwarf
              dwarf_addr2line ok env "crash" true w Hf0 Hld Ha)
    as (_&_&Hsearch).
  eexists. unfold Windows_crashHandler.
  rewrite (bind_Ok _ _ _ _ _ Hsave), (bind_Ok _ _ _ _ _ Hsearch).
  split; [reflexivity|]. simpl. by rewrite <- app_assoc.
- intros w p b Hst. pose proof Hst as (Hld&Hp&Hwf).
  pose proof (win_later_capture have_libdwarf atomic fuel env "crash" true
                w p Hf0 Hld Ha) as Hsave.
  simpl in Hsave. set (p' := fresh (dom (heap w))) in *.
  set (w1 := mkWorld _ _ _) in Hsave.
  assert (heap w !! p' = None) as Hfresh
    by apply not_elem_of_dom, is_fresh.
  assert (p' ≠ p) as Hne by (intros ->; by rewrite Hp in Hfresh).
  assert (has_store wf w1 p b) as Hst1.
  { split; [done|]. split; [|done].
    unfold w1. simpl. by rewrite lookup_insert_ne. }
  pose proof (win_search_text have_libdwarf dwarf_addr2line atomic fuel ok
                w1 p b "crash" Hf Hst1) as Hsearch.
  eexists. unfold Windows_crashHandler.
  rewrite (bind_Ok _ _ _ _ _ Hsave), (bind_Ok _ _ _ _ _ Hsearch).
  split; [reflexivity|]. simpl. split; [by rewrite <- app_assoc|].
  intros Hun. rewrite win_search_text_unlabeled by done.
  simpl. by rewrite app_nil_r.
Qed.

Lemma win_crashHandler_log_witness :
∃ w',
  Windows_crashHandler true 10 false no_dwarf env14 true w_store
  = Ok ((), w') ∧
  log w' = log w_store
           ++ (Out <$> search_text false no_dwarf (set_shared true zeroed)
                         "crash")
           ++ [Abort] ∧
  (unlabeled (set_shared true zeroed) "crash" →
   log w' = log w_store ++ [Abort]).
Proof.
destruct (win_crashHandler_log true 10 false no_dwarf true env14)
  as (_&Hst).
- vm_compute. discriminate.
- reflexivity.
- apply (Hst w_store 1%positive (set_shared true zeroed)).
  split; [reflexivity|]. split; [reflexivity|].
  apply WindowsFacts.win_wf_set_shared, WindowsFacts.win_wf_zeroed.
Defined.
End WindowsShowFacts.

(** ** [print_c_backtrace]: what becomes of the store *)

Module PrintCFacts.

Lemma free_ok {B} (w : world B) p x :
  heap w !! p = Some x →
  free p w = Ok ((), mkWorld (ld w) (delete p (heap w)) (log w)).
Proof. intros H. unfold free. by rewrite H. Qed.

(** [print_c_backtrace] by its three steps. *)
Lemma print_c_backtrace_steps (W : walker) env why
    (w w1 w2 : world (wk_btrace W)) p b text :
  wk_save_backtrace W env why w = Ok (Some p, w1) →
  wk_bstore_print_backtrace_named W (Some p) why w1
  = Ok ((), printed w1 text) →
  heap w1 !! p = Some (Some b) →
  (if wk_shared W b then w2 = printed w1 text
   else wk_btrace_destroy W p (printed w1 text) = Ok ((), w2)) →
  Shared.print_c_backtrace W env why w = Ok ((), w2).
Proof.
  intros Hsave Hprint Hp Hend. unfold Shared.print_c_backtrace.
  rewrite (bind_Ok _ _ _ _ _ Hsave), (bind_Ok _ _ _ _ _ Hprint).
  rewrite (bind_Ok _ _ _ b (printed w1 text))
    by (unfold load; simpl; by rewrite Hp).
  destruct (wk_shared W b); [by subst|done].
Qed.

(** glibc: the search stops at the slot filled last when that has the
    label. *)
Lemma glibc_search_hits_latest fuel dladdr popen label
    (w : world Glibc.btrace) p b t :
  SAVE_TRACES ≤ Z.of_nat fuel →
  heap w !! p = Some (Some b) → GlibcSpec.wf b →
  GlibcSpec.slot b ((Glibc.current b - 1) mod SAVE_TRACES) = Some t →
  GlibcSpec.t_why t = Some label →
  Glibc.bstore_print_backtrace_named fuel dladdr popen (Some p) label w
  = Glibc.print_trace dladdr popen p
      ((Glibc.current b - 1) mod SAVE_TRACES) w.
Proof.
  intros Hf Hp Hwf Hslot Hlabel.
  rewrite (GlibcFacts.bstore_print_backtrace_named_scan dladdr popen fuel p b
             label w) by done.
  unfold GlibcSpec.first_match, GlibcSpec.scan_order.
  rewrite seqZ_cons by (unfold SAVE_TRACES; lia). rewrite fmap_cons.
  replace (Glibc.current b - 1 - 0) with (Glibc.current b - 1) by lia.
  cbn [List.find]. unfold GlibcSpec.matches at 1.
  rewrite (GlibcFacts.slot_why _ _ _ Hslot), Hlabel. simpl.
  by rewrite String.eqb_refl.
Qed.

Lemma glibc_slot_latest t b0 :
  GlibcSpec.wf b0 →
  GlibcSpec.slot (GlibcSpec.put t b0)
    ((Glibc.current (GlibcSpec.put t b0) - 1) mod SAVE_TRACES)
  = Some t.
Proof.
  intros Hwf0.
  pose proof (GlibcFacts.ring_recent_glibc [t] b0 1 Hwf0) as Hr.
  rewrite most_recent_lookup in Hr by (simpl; lia).
  apply Hr; [simpl; lia|unfold SAVE_TRACES; lia].
Qed.

(** glibc: the search finds the trace that was captured last. *)
Lemma glibc_search_latest fuel dladdr popen env label
    (w1 : world Glibc.btrace) p b0 :
  SAVE_TRACES ≤ Z.of_nat fuel →
  heap w1 !! p
  = Some (Some (GlibcSpec.put (GlibcSpec.recorded (env, label)) b0)) →
  GlibcSpec.wf b0 → Glibc.frames_alloc env = true →
  Glibc.bstore_print_backtrace_named fuel dladdr popen (Some p) label w1
  = Ok ((), printed w1 (GlibcSpec.rendering dladdr popen label
                          (Glibc.backtrace (Glibc.stack env) 100))).
Proof.
  intros Hf Hp Hwf0 Hfa.
  pose proof (glibc_slot_latest (GlibcSpec.recorded (env, label)) b0 Hwf0)
    as Hslot.
  rewrite (glibc_search_hits_latest fuel dladdr popen label w1 p _ _ Hf Hp
             (GlibcFacts.wf_put _ _ Hwf0) Hslot) by done.
  apply (GlibcFacts.print_trace_rendering dladdr popen w1 p _ _ label _ Hp).
  rewrite Hslot. unfold GlibcSpec.recorded. simpl. by rewrite Hfa.
Qed.

(** glibc: printing a slot that has frames but no array. *)
Lemma glibc_print_trace_null dladdr popen (w : world Glibc.btrace) p b me
    l n :
  heap w !! p = Some (Some b) →
  GlibcSpec.slot b me = Some (GlibcSpec.mk_trace (Some l) n None) →
  1 ≤ n →
  Glibc.print_trace dladdr popen p me w = Undefined.
Proof.
  intros Hp Hslot Hn. unfold GlibcSpec.slot in Hslot.
  destruct (arr_get (Glibc.why b) me) as [y|] eqn:Hy; [|done].
  destruct (arr_get (Glibc.sizes b) me) as [n'|] eqn:Hs; [|done].
  destruct (arr_get (Glibc.retaddr b) me) as [r|] eqn:Hr; [|done].
  simpl in Hslot. injection Hslot as -> -> ->.
  unfold Glibc.print_trace.
  rewrite (bind_Ok _ _ w b w) by (unfold load; by rewrite Hp).
  rewrite Hy. simpl. rewrite ret_bind.
  rewrite (bind_Ok _ _ _ _ _ (Sdprintf_printed _ _)).
  rewrite Hs. simpl. rewrite ret_bind.
  rewrite seqZ_cons by lia. simpl for_each.
  assert (∀ w0, Glibc.print_frame dladdr popen b me 0 w0 = Undefined) as Hf0.
  { intros w0. unfold Glibc.print_frame. by rewrite Hr. }
  unfold mbind at 1, Mon_bind at 1. by rewrite Hf0.
Qed.

(** X14. [print_c_backtrace] on a thread without local data, in the
  glibc and the libunwind configuration, and on a thread that has its
  store, in the Windows configuration, works on a store of its own
  that it destroys before it returns: the world afterwards is the one
  before with the trace printed, no cell of the heap is left behind,
  and the trace is recorded nowhere. *)
Theorem print_c_backtrace_private atomic fuel dladdr popen have_libdwarf
  dwarf_addr2line why :
SAVE_TRACES ≤ Z.of_nat fuel →
(∀ (w : world Glibc.btrace) env,
   ld w = None →
   Glibc.store_alloc env = true → Glibc.frames_alloc env = true →
   Shared.print_c_backtrace (glibc_walker atomic fuel dladdr popen)
     env why w
   = Ok ((), printed w (GlibcSpec.rendering dladdr popen why
                          (Glibc.backtrace (Glibc.stack env) 100)))) ∧
(∀ (w : world Libunwind.btrace) env,
   ld w = None → Libunwind.store_alloc env = true →
   Shared.print_c_backtrace (libunwind_walker atomic fuel) env why w
   = Ok ((), printed w (LibunwindShow.shown why (Libunwind.stack env)))) ∧
(∀ (w : world Windows.btrace) env p,
   has_LD w (Some p) → Windows.store_alloc env = true →
   Shared.print_c_backtrace
     (windows_walker atomic fuel have_libdwarf dwarf_addr2line) env why w
   = Ok ((), printed w (WindowsShow.shown have_libdwarf dwarf_addr2line
                          why env false))).
Proof.
intros Hf.
assert (0 < fuel)%nat as Hf0 by (unfold SAVE_TRACES in *; lia).
assert (∀ B (w : world B), heap w !! fresh (dom (heap w)) = None) as Hfresh.
{ intros B w. apply not_elem_of_dom, is_fresh. }
split; [|split].
- intros w env Hno Ha Hfa.
  pose proof (GlibcFacts.get_trace_store_private w Hno) as Hg. simpl in Hg.
  rewrite <- Ha in Hg at 1.
  set (p := fresh (dom (heap w))) in *.
  set (w1 := mkWorld None (<[p := Some Glibc.zeroed]> (heap w)) (log w))
    in *.
  assert (heap w1 !! p = Some (Some Glibc.zeroed)) as Hp1
    by (unfold w1; simpl; by rewrite lookup_insert_eq).
  pose proof (GlibcFacts.save_backtrace_with atomic fuel (env, why) w w1 p
                Glibc.zeroed Hf0 Hg Hp1 GlibcFacts.wf_zeroed) as Hsave.
  set (b := GlibcSpec.put (GlibcSpec.recorded (env, why)) Glibc.zeroed) in *.
  set (w2 := GlibcSpec.captured (env, why) p Glibc.zeroed w1) in *.
  assert (heap w2 !! p = Some (Some b)) as Hp2
    by (unfold w2; simpl; by rewrite lookup_insert_eq).
  eapply (print_c_backtrace_steps (glibc_walker atomic fuel dladdr popen)
            env why w w2 _ p b); [exact Hsave| | |].
  + by apply (glibc_search_latest fuel dladdr popen env why w2 p
                Glibc.zeroed Hf Hp2 GlibcFacts.wf_zeroed).
  + done.
  + cbn [wk_shared glibc_walker wk_btrace_destroy]. simpl Glibc.shared.
    rewrite (GlibcFacts.btrace_destroy_ok _ p b)
      by (done || apply GlibcFacts.wf_put, GlibcFacts.wf_zeroed).
    unfold printed, w2, w1. simpl. rewrite Hno.
    by rewrite insert_insert_eq, delete_insert_id by apply Hfresh.
- intros w env Hno Ha.
  pose proof (LibunwindFacts.lu_get_trace_store_private w Hno) as Hg.
  simpl in Hg. rewrite <- Ha in Hg at 1.
  set (p := fresh (dom (heap w))) in *.
  set (w1 := mkWorld None (<[p := Some Libunwind.zeroed]> (heap w)) (log w))
    in *.
  assert (heap w1 !! p = Some (Some Libunwind.zeroed)) as Hp1
    by (unfold w1; simpl; by rewrite lookup_insert_eq).
  destruct (LibunwindShowFacts.lu_save_backtrace_exact atomic fuel env why
              w w1 p Libunwind.zeroed Hf0 Hg Hp1
              LibunwindFacts.lu_wf_zeroed) as (s0&Hs0&Hsave).
  set (s := LibunwindShow.slot_after why (Libunwind.stack env)
              (Libunwind.frame s0)) in *.
  set (b := LibunwindSpec.put s Libunwind.zeroed) in *.
  set (w2 := mkWorld _ _ _) in Hsave.
  assert (heap w2 !! p = Some (Some b)) as Hp2
    by (unfold w2; simpl; by rewrite lookup_insert_eq).
  assert (LibunwindSpec.wf_stack s) as Hs.
  { apply LibunwindShowFacts.slot_after_wf.
    cbn [Libunwind.dumps Libunwind.zeroed Libunwind.current] in Hs0.
    rewrite arr_get_lookup in Hs0 by lia.
    rewrite lookup_replicate_2 in Hs0 by (unfold SAVE_TRACES; lia).
    injection Hs0 as <-. reflexivity. }
  rewrite <- (LibunwindShowFacts.rendering_slot_after why
                (Libunwind.stack env) (Libunwind.frame s0)). fold s.
  eapply (print_c_backtrace_steps (libunwind_walker atomic fuel)
            env why w w2 _ p b (LibunwindSpec.rendering why s));
    [exact Hsave| | |].
  + apply (LibunwindFacts.lu_named_finds_latest fuel w2 p b s); try done.
    all: try apply LibunwindFacts.lu_recent_put, LibunwindFacts.lu_wf_zeroed.
    all: apply LibunwindFacts.lu_wf_put;
      [apply LibunwindFacts.lu_wf_zeroed|done].
  + done.
  + cbn [wk_shared libunwind_walker wk_btrace_destroy].
    simpl Libunwind.shared.
    unfold Libunwind.btrace_destroy.
    rewrite (free_ok _ p (Some b)) by done.
    unfold printed, w2, w1. simpl. rewrite Hno.
    by rewrite insert_insert_eq, delete_insert_id by apply Hfresh.
- intros w env p Hld Ha.
  pose proof (WindowsShowFacts.win_later_capture have_libdwarf atomic fuel
                env why false w p Hf0 Hld Ha) as Hsave.
  simpl in Hsave. set (p' := fresh (dom (heap w))) in *.
  set (s := WindowsShow.slot_after have_libdwarf why env false
              WindowsShow.no_frames) in *.
  set (b := WindowsSpec.put s Windows.zeroed) in *.
  set (w2 := mkWorld _ _ _) in Hsave.
  assert (heap w2 !! p' = Some (Some b)) as Hp2
    by (unfold w2; simpl; by rewrite lookup_insert_eq).
  assert (WindowsSpec.wf_stack s) as Hs.
  { apply WindowsShowFacts.win_slot_after_wf. unfold WindowsShow.no_frames.
    by rewrite length_replicate. }
  rewrite <- (WindowsShowFacts.win_rendering_slot_after have_libdwarf
                dwarf_addr2line why env false WindowsShow.no_frames).
  fold s.
  eapply (print_c_backtrace_steps
            (windows_walker atomic fuel have_libdwarf dwarf_addr2line)
            env why w w2 _ p' b
            (WindowsSpec.rendering have_libdwarf dwarf_addr2line why s));
    [exact Hsave| | |].
  + apply (WindowsFacts.win_named_finds_latest _ _ fuel w2 p' b s);
      try done.
    all: try apply WindowsFacts.win_recent_put, WindowsFacts.win_wf_zeroed.
    all: apply WindowsFacts.win_wf_put;
      [apply WindowsFacts.win_wf_zeroed|done].
  + done.
  + cbn [wk_shared windows_walker wk_btrace_destroy]. simpl Windows.shared.
    unfold Windows.btrace_destroy.
    rewrite (free_ok _ p' (Some b)) by done.
    unfold printed, w2. simpl.
    by rewrite delete_insert_id by apply Hfresh.
Qed.

Lemma print_c_backtrace_private_witness :
Shared.print_c_backtrace
  (glibc_walker true 10 GlibcSpec.no_dladdr GlibcSpec.no_popen)
  GlibcSpec.env1 "crash" (mkWorld None ∅ [])
= Ok ((), printed (mkWorld None ∅ [])
            (GlibcSpec.rendering GlibcSpec.no_dladdr GlibcSpec.no_popen
               "crash"
               (Glibc.backtrace (Glibc.stack GlibcSpec.env1) 100))).
Proof.
destruct (print_c_backtrace_private true 10 GlibcSpec.no_dladdr
            GlibcSpec.no_popen false WindowsSpec.no_dwarf "crash")
  as (Hg&_&_).
- vm_compute. discriminate.
- apply Hg; reflexivity.
Defined.

(** glibc: a capture that gets no array for its frames, and the
    attempts to print it. *)
Lemma glibc_trace_without_array_aux atomic fuel dladdr popen env label
    (w : world Glibc.btrace) :
  SAVE_TRACES ≤ Z.of_nat fuel → context GlibcSpec.wf w →
  Glibc.store_alloc env = true → Glibc.frames_alloc env = false →
  Glibc.stack env ≠ [] →
  ∃ p w' b0,
    let t := GlibcSpec.mk_trace (Some label)
               (Z.of_nat (length (Glibc.backtrace (Glibc.stack env) 100)))
               None in
    Glibc.save_backtrace atomic fuel env label w = Ok (Some p, w') ∧
    has_store GlibcSpec.wf w' p (GlibcSpec.put t b0) ∧
    GlibcSpec.wf b0 ∧
    Glibc.print_trace dladdr popen p
      ((Glibc.current (GlibcSpec.put t b0) - 1) mod SAVE_TRACES) w'
    = Undefined ∧
    Glibc.bstore_print_backtrace_named fuel dladdr popen (Some p) label w'
    = Undefined.
Proof.
  intros Hf Hctx Ha Hfa Hstack.
  assert (0 < fuel)%nat as Hf0 by (unfold SAVE_TRACES in *; lia).
  assert (GlibcSpec.recorded (env, label)
          = GlibcSpec.mk_trace (Some label)
              (Z.of_nat (length (Glibc.backtrace (Glibc.stack env) 100)))
              None) as Ht.
  { unfold GlibcSpec.recorded. simpl. by rewrite Hfa. }
  set (t := GlibcSpec.mk_trace _ _ _) in *.
  assert (1 ≤ Z.of_nat (length (Glibc.backtrace (Glibc.stack env) 100)))
    as Hn.
  { unfold Glibc.backtrace. destruct (Glibc.stack env); [done|].
    simpl. lia. }
  assert (∃ p w' b0,
            Glibc.save_backtrace atomic fuel env label w = Ok (Some p, w') ∧
            has_LD w' (Some p) ∧
            heap w' !! p = Some (Some (GlibcSpec.put t b0)) ∧
            GlibcSpec.wf b0) as (p&w'&b0&Hsave&Hld&Hp&Hwf0).
  { rewrite <- Ht. destruct Hctx as [Hld|(p&b&Hst)].
    - eexists _, _, _.
      split; [exact (GlibcFacts.save_backtrace_fresh atomic fuel
                       (env, label) w Hf0 Hld Ha)|].
      split; [done|]. split; [simpl; by rewrite lookup_insert_eq|].
      apply GlibcFacts.wf_set_shared, GlibcFacts.wf_zeroed.
    - eexists _, _, b.
      split; [exact (GlibcFacts.save_backtrace_present atomic fuel
                       (env, label) w p b Hf0 Hst)|].
      split; [apply Hst|]. split; [simpl; by rewrite lookup_insert_eq|].
      apply Hst. }
  pose proof (glibc_slot_latest t b0 Hwf0) as Hslot.
  pose proof (GlibcFacts.wf_put t b0 Hwf0) as Hwf.
  assert (Glibc.print_trace dladdr popen p
            ((Glibc.current (GlibcSpec.put t b0) - 1) mod SAVE_TRACES) w'
          = Undefined) as Hprint
    by (by eapply glibc_print_trace_null).
  exists p, w', b0. split; [done|]. split; [done|]. split; [done|].
  split; [done|].
  by rewrite (glibc_search_hits_latest fuel dladdr popen label w' p
                (GlibcSpec.put t b0) t).
Qed.

Lemma glibc_print_c_backtrace_null atomic fuel dladdr popen env label
    (w : world Glibc.btrace) :
  SAVE_TRACES ≤ Z.of_nat fuel → context GlibcSpec.wf w →
  Glibc.store_alloc env = true → Glibc.frames_alloc env = false →
  Glibc.stack env ≠ [] →
  Shared.print_c_backtrace (glibc_walker atomic fuel dladdr popen)
    env label w = Undefined.
Proof.
  intros Hf Hctx Ha Hfa Hstack.
  destruct (glibc_trace_without_array_aux atomic fuel dladdr popen env
              label w Hf Hctx Ha Hfa Hstack)
    as (p&w'&b0&Hsave&_&_&_&Hsearch).
  unfold Shared.print_c_backtrace, glibc_walker.
  cbn [wk_save_backtrace wk_bstore_print_backtrace_named].
  rewrite (bind_Ok _ _ _ _ _ Hsave).
  unfold mbind at 1, Mon_bind at 1. by rewrite Hsearch.
Qed.

(** X15. glibc: when [save_backtrace] cannot allocate the array for the
  return addresses while the stack is not empty, it leaves the slot
  with its label and its number of frames but without array.  The
  next attempt to print that slot, by [print_backtrace(1)], by the
  search for the label or by [print_c_backtrace] itself, reads the
  first frame through the NULL pointer. *)
Theorem glibc_trace_without_array atomic fuel dladdr popen ok env label
  (w : world Glibc.btrace) :
SAVE_TRACES ≤ Z.of_nat fuel → context GlibcSpec.wf w →
Glibc.store_alloc env = true → Glibc.frames_alloc env = false →
Glibc.stack env ≠ [] →
∃ p w' b,
  Glibc.save_backtrace atomic fuel env label w = Ok (Some p, w') ∧
  has_store GlibcSpec.wf w' p b ∧
  GlibcSpec.slot b ((Glibc.current b - 1) mod SAVE_TRACES)
  = Some (GlibcSpec.mk_trace (Some label)
            (Z.of_nat (length (Glibc.backtrace (Glibc.stack env) 100)))
            None) ∧
  Glibc.print_backtrace dladdr popen ok 1 w' = Undefined ∧
  Shared.print_backtrace_named (glibc_walker atomic fuel dladdr popen)
    ok label w' = Undefined ∧
  Shared.print_c_backtrace (glibc_walker atomic fuel dladdr popen)
    env label w = Undefined.
Proof.
intros Hf Hctx Ha Hfa Hstack.
destruct (glibc_trace_without_array_aux atomic fuel dladdr popen env
            label w Hf Hctx Ha Hfa Hstack)
  as (p&w'&b0&Hsave&Hst&Hwf0&Hprint&Hsearch).
set (t := GlibcSpec.mk_trace _ _ _) in *.
exists p, w', (GlibcSpec.put t b0).
split; [done|]. split; [done|].
split; [by apply glibc_slot_latest|]. split.
- rewrite (GlibcFacts.print_backtrace_slot dladdr popen ok w' p _ 1 Hst)
    by (unfold SAVE_TRACES; lia). done.
- split.
  + unfold Shared.print_backtrace_named, glibc_walker.
    cbn [wk_get_trace_store wk_bstore_print_backtrace_named].
    rewrite (bind_Ok _ _ _ _ _
               (GlibcFacts.get_trace_store_present ok false w' p
                  (proj1 Hst))).
    done.
  + by apply glibc_print_c_backtrace_null.
Qed.

Lemma glibc_trace_without_array_witness :
∃ p w' b,
  Glibc.save_backtrace true 10 (Glibc.mk_walk_env [4198400] true false)
    "gc" GlibcSpec.w0 = Ok (Some p, w') ∧
  has_store GlibcSpec.wf w' p b ∧
  GlibcSpec.slot b ((Glibc.current b - 1) mod SAVE_TRACES)
  = Some (GlibcSpec.mk_trace (Some "gc")
            (Z.of_nat (length (Glibc.backtrace [4198400] 100))) None) ∧
  Glibc.print_backtrace GlibcSpec.no_dladdr GlibcSpec.no_popen true 1 w'
  = Undefined ∧
  Shared.print_backtrace_named
    (glibc_walker true 10 GlibcSpec.no_dladdr GlibcSpec.no_popen)
    true "gc" w' = Undefined ∧
  Shared.print_c_backtrace
    (glibc_walker true 10 GlibcSpec.no_dladdr GlibcSpec.no_popen)
    (Glibc.mk_walk_env [4198400] true false) "gc" GlibcSpec.w0 = Undefined.
Proof.
apply (glibc_trace_without_array true 10 GlibcSpec.no_dladdr
         GlibcSpec.no_popen true (Glibc.mk_walk_env [4198400] true false)
         "gc" GlibcSpec.w0).
- vm_compute. discriminate.
- left. reflexivity.
- reflexivity.
- reflexivity.
- discriminate.
Defined.
End PrintCFacts.

(** ** [print_c_backtrace] on the store of the thread *)

Module PrintCSharedFacts.
Import PrintCFacts.

(** X16. [print_c_backtrace] on a thread with local data, in the glibc
  and the libunwind configuration, records the trace in the store of
  the thread and leaves it there: it changes memory as
  [save_backtrace] does, and [print_backtrace(1)] afterwards prints
  the same text once more.  In the Windows configuration this holds
  for a thread that had no store. *)
Theorem print_c_backtrace_retained atomic fuel dladdr popen have_libdwarf
  dwarf_addr2line ok why :
SAVE_TRACES ≤ Z.of_nat fuel →
(∀ (w : world Glibc.btrace) env,
   context GlibcSpec.wf w →
   (∀ p b, has_store GlibcSpec.wf w p b → Glibc.shared b = true) →
   Glibc.store_alloc env = true → Glibc.frames_alloc env = true →
   let text := GlibcSpec.rendering dladdr popen why
                 (Glibc.backtrace (Glibc.stack env) 100) in
   ∃ p w1,
     Glibc.save_backtrace atomic fuel env why w = Ok (Some p, w1) ∧
     has_LD w1 (Some p) ∧
     Shared.print_c_backtrace (glibc_walker atomic fuel dladdr popen)
       env why w = Ok ((), printed w1 text) ∧
     Glibc.print_backtrace dladdr popen ok 1 (printed w1 text)
     = Ok ((), printed (printed w1 text) text)) ∧
(∀ (w : world Libunwind.btrace) env,
   context LibunwindSpec.wf w →
   (∀ p b, has_store LibunwindSpec.wf w p b → Libunwind.shared b = true) →
   Libunwind.store_alloc env = true →
   let text := LibunwindShow.shown why (Libunwind.stack env) in
   ∃ p w1,
     Libunwind.save_backtrace atomic fuel env why w = Ok (Some p, w1) ∧
     has_LD w1 (Some p) ∧
     Shared.print_c_backtrace (libunwind_walker atomic fuel) env why w
     = Ok ((), printed w1 text) ∧
     Libunwind.print_backtrace ok 1 (printed w1 text)
     = Ok ((), printed (printed w1 text) text)) ∧
(∀ (w : world Windows.btrace) env,
   has_LD w None → Windows.store_alloc env = true →
   let text := WindowsShow.shown have_libdwarf dwarf_addr2line why env
                 false in
   ∃ p w1,
     Windows.save_backtrace atomic fuel have_libdwarf env why w
     = Ok (Some p, w1) ∧
     has_LD w1 (Some p) ∧
     Shared.print_c_backtrace
       (windows_walker atomic fuel have_libdwarf dwarf_addr2line) env why w
     = Ok ((), printed w1 text) ∧
     Windows.print_backtrace have_libdwarf dwarf_addr2line ok 1
       (printed w1 text)
     = Ok ((), printed (printed w1 text) text)).
Proof.
intros Hf.
assert (0 < fuel)%nat as Hf0 by (unfold SAVE_TRACES in *; lia).
split; [|split].
- intros w env Hctx Hshared Ha Hfa text.
  set (t := GlibcSpec.recorded (env, why)).
  assert (∃ p w1 b0,
            Glibc.save_backtrace atomic fuel env why w = Ok (Some p, w1) ∧
            has_LD w1 (Some p) ∧
            heap w1 !! p = Some (Some (GlibcSpec.put t b0)) ∧
            GlibcSpec.wf b0 ∧ Glibc.shared b0 = true)
    as (p&w1&b0&Hsave&Hld&Hp&Hwf0&Hsh).
  { destruct Hctx as [Hld|(p&b&Hst)].
    - eexists _, _, _.
      split; [exact (GlibcFacts.save_backtrace_fresh atomic fuel (env, why)
                       w Hf0 Hld Ha)|].
      split; [done|]. split; [simpl; by rewrite lookup_insert_eq|].
      split; [apply GlibcFacts.wf_set_shared, GlibcFacts.wf_zeroed|done].
    - eexists _, _, b.
      split; [exact (GlibcFacts.save_backtrace_present atomic fuel
                       (env, why) w p b Hf0 Hst)|].
      split; [apply Hst|]. split; [simpl; by rewrite lookup_insert_eq|].
      split; [apply Hst|by apply (Hshared p)]. }
  pose proof (glibc_search_latest fuel dladdr popen env why w1 p b0 Hf Hp
                Hwf0 Hfa) as Hsearch.
  exists p, w1. split; [done|]. split; [done|]. split.
  + eapply (print_c_backtrace_steps (glibc_walker atomic fuel dladdr popen)
              env why w w1 _ p (GlibcSpec.put t b0));
      [exact Hsave|exact Hsearch|exact Hp|].
    cbn [wk_shared glibc_walker]. simpl Glibc.shared. by rewrite Hsh.
  + assert (has_store GlibcSpec.wf (printed w1 text) p (GlibcSpec.put t b0))
      as Hst.
    { split; [done|]. split; [done|]. by apply GlibcFacts.wf_put. }
    rewrite (GlibcFacts.print_backtrace_slot dladdr popen ok _ p _ 1 Hst)
      by (unfold SAVE_TRACES; lia).
    apply (GlibcFacts.print_trace_rendering dladdr popen _ p
             (GlibcSpec.put t b0) _ why); [done|].
    rewrite (glibc_slot_latest t b0 Hwf0). unfold t, GlibcSpec.recorded.
    simpl. by rewrite Hfa.
- intros w env Hctx Hshared Ha text.
  assert (∃ p w0 b0,
            Libunwind.get_trace_store (Libunwind.store_alloc env) true w
            = Ok (Some p, w0) ∧
            has_LD w0 (Some p) ∧ heap w0 !! p = Some (Some b0) ∧
            LibunwindSpec.wf b0 ∧ Libunwind.shared b0 = true)
    as (p&w0&b0&Hg&Hld0&Hp0&Hwf0&Hsh).
  { destruct Hctx as [Hld|(p&b&Hst)].
    - pose proof (LibunwindFacts.lu_get_trace_store_fresh true w Hld) as Hg.
      simpl in Hg. rewrite <- Ha in Hg at 1.
      eexists _, _, _. split; [exact Hg|]. split; [done|].
      split; [simpl; by rewrite lookup_insert_eq|].
      split; [|done].
      apply LibunwindFacts.lu_wf_set_shared, LibunwindFacts.lu_wf_zeroed.
    - exists p, w, b.
      split; [apply LibunwindFacts.lu_get_trace_store_present, Hst|].
      split; [apply Hst|]. split; [apply Hst|].
      split; [apply Hst|by apply (Hshared p)]. }
  destruct (LibunwindShowFacts.lu_save_backtrace_exact atomic fuel env why
              w w0 p b0 Hf0 Hg Hp0 Hwf0) as (s0&Hs0&Hsave).
  set (s := LibunwindShow.slot_after why (Libunwind.stack env)
              (Libunwind.frame s0)) in *.
  set (b := LibunwindSpec.put s b0) in *.
  set (w1 := mkWorld _ _ _) in Hsave.
  assert (heap w1 !! p = Some (Some b)) as Hp
    by (unfold w1; simpl; by rewrite lookup_insert_eq).
  assert (LibunwindSpec.wf_stack s) as Hs.
  { apply LibunwindShowFacts.slot_after_wf.
    destruct Hwf0 as (_&Hall&Hc).
    rewrite arr_get_lookup in Hs0 by lia.
    eapply Forall_lookup_1 in Hall; [|done]. apply Hall. }
  assert (LibunwindSpec.wf b) as Hwf
    by (by apply LibunwindFacts.lu_wf_put).
  pose proof (LibunwindFacts.lu_recent_put s b0 Hwf0) as Hrec.
  fold b in Hrec.
  unfold text.
  rewrite <- (LibunwindShowFacts.rendering_slot_after why
                (Libunwind.stack env) (Libunwind.frame s0)). fold s.
  exists p, w1. split; [done|]. split; [done|]. split.
  + eapply (print_c_backtrace_steps (libunwind_walker atomic fuel)
              env why w w1 _ p b (LibunwindSpec.rendering why s));
      [exact Hsave| |exact Hp|].
    * apply (LibunwindFacts.lu_named_finds_latest fuel w1 p b s);
        try done. apply Hwf.
    * cbn [wk_shared libunwind_walker]. simpl Libunwind.shared.
      by rewrite Hsh.
  + assert (has_store LibunwindSpec.wf
              (printed w1 (LibunwindSpec.rendering why s)) p b) as Hst
      by done.
    rewrite (LibunwindShowFacts.lu_print_backtrace_latest ok _ p b Hst).
    by apply (LibunwindFacts.lu_print_trace_rendering _ p b).
- intros w env Hld Ha text.
  destruct (WindowsShowFacts.win_first_capture have_libdwarf atomic fuel
              env why false w Hf0 Hld Ha) as (Hsave&Hwf).
  destruct (WindowsShowFacts.win_first_capture_search atomic fuel
              have_libdwarf dwarf_addr2line ok env why false w Hf0 Hld Ha)
    as (Hst&Hrec&_).
  set (p := fresh (dom (heap w))) in *.
  set (s := WindowsShow.slot_after have_libdwarf why env false
              WindowsShow.no_frames) in *.
  set (b := WindowsSpec.put s (Windows.set_shared true Windows.zeroed))
    in *.
  set (w1 := mkWorld _ _ _) in *.
  assert (Windows.bstore_print_backtrace_named fuel have_libdwarf
            dwarf_addr2line (Some p) why w1 = Ok ((), printed w1 text))
    as Hsearch.
  { unfold text.
    rewrite <- (WindowsShowFacts.win_rendering_slot_after have_libdwarf
                  dwarf_addr2line why env false WindowsShow.no_frames).
    fold s.
    apply (WindowsFacts.win_named_finds_latest _ _ fuel w1 p b s);
      try done; try apply Hst.
    apply WindowsShowFacts.win_slot_after_wf.
    unfold WindowsShow.no_frames. by rewrite length_replicate. }
  exists p, w1. split; [done|]. split; [apply Hst|]. split.
  + eapply (print_c_backtrace_steps
              (windows_walker atomic fuel have_libdwarf dwarf_addr2line)
              env why w w1 _ p b);
      [exact Hsave|exact Hsearch|apply Hst|].
    reflexivity.
  + assert (has_store WindowsSpec.wf (printed w1 text) p b) as Hst' by done.
    rewrite (WindowsShowFacts.win_print_backtrace_text have_libdwarf
               dwarf_addr2line ok _ p b 1 Hst')
      by (unfold SAVE_TRACES; lia).
    unfold WindowsShow.slot_text. rewrite Hrec.
    unfold text.
    rewrite <- (WindowsShowFacts.win_rendering_slot_after have_libdwarf
                  dwarf_addr2line why env false WindowsShow.no_frames).
    reflexivity.
Qed.

Lemma print_c_backtrace_retained_witness :
let text := LibunwindShow.shown "crash"
              (Libunwind.stack LibunwindSpec.env12) in
∃ p w1,
  Libunwind.save_backtrace true 10 LibunwindSpec.env12 "crash"
    LibunwindSpec.w0 = Ok (Some p, w1) ∧
  has_LD w1 (Some p) ∧
  Shared.print_c_backtrace (libunwind_walker true 10) LibunwindSpec.env12
    "crash" LibunwindSpec.w0 = Ok ((), printed w1 text) ∧
  Libunwind.print_backtrace true 1 (printed w1 text)
  = Ok ((), printed (printed w1 text) text).
Proof.
destruct (print_c_backtrace_retained true 10 GlibcSpec.no_dladdr
            GlibcSpec.no_popen false WindowsSpec.no_dwarf true "crash")
  as (_&Hl&_).
- vm_compute. discriminate.
- apply Hl.
  + left. reflexivity.
  + intros p b (Hld&_). vm_compute in Hld. discriminate.
  + reflexivity.
Defined.
End PrintCSharedFacts.

(** ** The crash handler: the sequence it logs *)

Module CrashTrace.
Import CrashSpec.

(** libunwind: [print_c_backtrace] prints the frames it has just
    captured, on the store of the thread or on one of its own. *)
Lemma lu_print_c_backtrace_shown atomic fuel env why
    (w : world Libunwind.btrace) :
  (0 < fuel)%nat → context LibunwindSpec.wf w ∨ ld w = None →
  Libunwind.store_alloc env = true →
  ∃ w',
    Shared.print_c_backtrace (libunwind_walker atomic fuel) env why w
    = Ok ((), printed w' (LibunwindShow.shown why (Libunwind.stack env))) ∧
    log w' = log w.
Proof.
  intros Hf Hctx Ha.
  assert (∃ p w0 b0,
            Libunwind.get_trace_store (Libunwind.store_alloc env) true w
            = Ok (Some p, w0) ∧
            heap w0 !! p = Some (Some b0) ∧ LibunwindSpec.wf b0 ∧
            log w0 = log w)
    as (p&w0&b0&Hg&Hp0&Hwf0&Hlog0).
  { destruct Hctx as [[Hld|(p&b&Hst)]|Hno].
    - pose proof (LibunwindFacts.lu_get_trace_store_fresh true w Hld) as Hg.
      simpl in Hg. rewrite <- Ha in Hg at 1.
      eexists _, _, _. split; [exact Hg|].
      split; [simpl; by rewrite lookup_insert_eq|].
      split; [|done].
      apply LibunwindFacts.lu_wf_set_shared, LibunwindFacts.lu_wf_zeroed.
    - exists p, w, b.
      split; [apply LibunwindFacts.lu_get_trace_store_present, Hst|].
      split; [apply Hst|]. split; [apply Hst|done].
    - pose proof (LibunwindFacts.lu_get_trace_store_private w Hno) as Hg.
      simpl in Hg. rewrite <- Ha in Hg at 1.
      eexists _, _, _. split; [exact Hg|].
      split; [simpl; by rewrite lookup_insert_eq|].
      split; [apply LibunwindFacts.lu_wf_zeroed|done]. }
  destruct (LibunwindShowFacts.lu_save_backtrace_exact atomic fuel env why
              w w0 p b0 Hf Hg Hp0 Hwf0) as (s0&Hs0&Hsave).
  set (s := LibunwindShow.slot_after why (Libunwind.stack env)
              (Libunwind.frame s0)) in *.
  set (b := LibunwindSpec.put s b0) in *.
  set (w1 := mkWorld _ _ _) in Hsave.
  assert (heap w1 !! p = Some (Some b)) as Hp
    by (unfold w1; simpl; by rewrite lookup_insert_eq).
  assert (log w1 = log w) as Hlog by done.
  clearbody w1.
  assert (LibunwindSpec.wf_stack s) as Hs.
  { apply LibunwindShowFacts.slot_after_wf.
    destruct Hwf0 as (_&Hall&Hc).
    rewrite arr_get_lookup in Hs0 by lia.
    eapply Forall_lookup_1 in Hall; [|done]. apply Hall. }
  pose proof (LibunwindFacts.lu_wf_put s b0 Hwf0 Hs) as (_&_&Hc).
  rewrite <- (LibunwindShowFacts.rendering_slot_after why
                (Libunwind.stack env) (Libunwind.frame s0)). fold s.
  unfold Shared.print_c_backtrace, libunwind_walker.
  cbn [wk_save_backtrace wk_bstore_print_backtrace_named wk_shared
       wk_btrace_destroy].
  rewrite (bind_Ok _ _ _ _ _ Hsave).
  rewrite (bind_Ok _ _ _ _ _
             (LibunwindFacts.lu_named_finds_latest fuel w1 p b s why Hf Hp Hc
                (LibunwindFacts.lu_recent_put s b0 Hwf0) Hs eq_refl)).
  rewrite (bind_Ok _ _ _ b (printed w1 (LibunwindSpec.rendering why s)))
    by (unfold load; simpl; by rewrite Hp).
  destruct (Libunwind.shared b).
  - exists w1. done.
  - exists (mkWorld (ld w1) (delete p (heap w1)) (log w1)).
    split; [|done].
    unfold Libunwind.btrace_destroy.
    rewrite (PrintCFacts.free_ok _ p (Some b)) by done. reflexivity.
Qed.

(** Windows: [print_c_backtrace] on a thread with local data prints
    the frames it has just captured. *)
Lemma win_print_c_backtrace_shown atomic fuel have_libdwarf dwarf_addr2line
    env why (w : world Windows.btrace) :
  (0 < fuel)%nat → context WindowsSpec.wf w →
  Windows.store_alloc env = true →
  ∃ w',
    Shared.print_c_backtrace
      (windows_walker atomic fuel have_libdwarf dwarf_addr2line) env why w
    = Ok ((), printed w' (WindowsShow.shown have_libdwarf dwarf_addr2line
                            why env false)) ∧
    log w' = log w.
Proof.
  intros Hf Hctx Ha.
  set (s := WindowsShow.slot_after have_libdwarf why env false
              WindowsShow.no_frames).
  assert (WindowsSpec.wf_stack s) as Hs.
  { apply WindowsShowFacts.win_slot_after_wf. unfold WindowsShow.no_frames.
    by rewrite length_replicate. }
  assert (∃ p w1 b0,
            Windows.save_backtrace atomic fuel have_libdwarf env why w
            = Ok (Some p, w1) ∧
            heap w1 !! p = Some (Some (WindowsSpec.put s b0)) ∧
            WindowsSpec.wf b0 ∧ log w1 = log w)
    as (p&w1&b0&Hsave&Hp&Hwf0&Hlog).
  { destruct Hctx as [Hld|(p&b&Hld&_)].
    - destruct (WindowsShowFacts.win_first_capture have_libdwarf atomic fuel
                  env why false w Hf Hld Ha) as (Hsave&_).
      eexists _, _, _. split; [exact Hsave|].
      split; [simpl; by rewrite lookup_insert_eq|].
      split; [|done].
      apply WindowsFacts.win_wf_set_shared, WindowsFacts.win_wf_zeroed.
    - pose proof (WindowsShowFacts.win_later_capture have_libdwarf atomic
                    fuel env why false w p Hf Hld Ha) as Hsave.
      eexists _, _, _. split; [exact Hsave|].
      split; [simpl; by rewrite lookup_insert_eq|].
      split; [apply WindowsFacts.win_wf_zeroed|done]. }
  set (b := WindowsSpec.put s b0) in *.
  pose proof (WindowsFacts.win_wf_put s b0 Hwf0 Hs) as (_&_&Hc).
  rewrite <- (WindowsShowFacts.win_rendering_slot_after have_libdwarf
                dwarf_addr2line why env false WindowsShow.no_frames).
  fold s.
  unfold Shared.print_c_backtrace, windows_walker.
  cbn [wk_save_backtrace wk_bstore_print_backtrace_named wk_shared
       wk_btrace_destroy].
  rewrite (bind_Ok _ _ _ _ _ Hsave).
  rewrite (bind_Ok _ _ _ _ _
             (WindowsFacts.win_named_finds_latest have_libdwarf
                dwarf_addr2line fuel w1 p b s why Hf Hp Hc
                (WindowsFacts.win_recent_put s b0 Hwf0) Hs eq_refl)).
  rewrite (bind_Ok _ _ _ b
             (printed w1 (WindowsSpec.rendering have_libdwarf
                            dwarf_addr2line why s)))
    by (unfold load; simpl; by rewrite Hp).
  destruct (Windows.shared b).
  - exists w1. done.
  - exists (mkWorld (ld w1) (delete p (heap w1)) (log w1)).
    split; [|done].
    unfold Windows.btrace_destroy.
    rewrite (PrintCFacts.free_ok _ p (Some b)) by done. reflexivity.
Qed.

(** C4 (amended). In a configuration with a stack walker the crash
  handler logs, in this order: the reset of the signal dispositions
  (and the alarm), the banner, the native trace labeled crash, the
  interpreter's stack and the exit hooks with status [128 + sig], and
  then the signal again or [abort()]; it returns normally.  The trace
  is the one of the stack the handler runs on: the label and, in the
  glibc configuration, one line for each of the first 100 return
  addresses that [dladdr] resolves, in the libunwind configuration
  one line for each of the first [MAX_DEPTH] frames, in the Windows
  configuration one line for each of the first [MAX_DEPTH] steps of
  the walk after the first two (none when [SymInitialize] fails).
  This holds when the store, and in the glibc configuration the frame
  array, can be allocated, on a thread with or without local data in
  the glibc and the libunwind configuration and on a thread with
  local data in the Windows configuration.  In the fallback
  configuration with signals the handler logs the reset, the banner,
  the exit hooks and the signal again or [abort()], and no trace. *)
Theorem crash_handler_sequence atomic fuel dladdr popen have_libdwarf
  dwarf_addr2line (pf : platform) (sig : Z) :
SAVE_TRACES ≤ Z.of_nat fuel →
- 2 ^ 31 ≤ 128 + sig < 2 ^ 31 →
(∀ (w : world Glibc.btrace) (env : crash_env Glibc.walk_env),
   context GlibcSpec.wf w ∨ ld w = None →
   Glibc.store_alloc (walk env) = true →
   Glibc.frames_alloc (walk env) = true →
   ∃ w',
     Shared.sigCrashHandler (glibc_walker atomic fuel dladdr popen)
       pf env sig w = Ok ((), w') ∧
     log w' = log w ++ resets pf sig ++ [Out (banner env sig)]
                ++ (Out <$> GlibcSpec.rendering dladdr popen "crash"
                              (Glibc.backtrace (Glibc.stack (walk env)) 100))
                ++ hooks pf (128 + sig) ++ terminate pf env sig) ∧
(∀ (w : world Libunwind.btrace) (env : crash_env Libunwind.walk_env),
   context LibunwindSpec.wf w ∨ ld w = None →
   Libunwind.store_alloc (walk env) = true →
   ∃ w',
     Shared.sigCrashHandler (libunwind_walker atomic fuel) pf env sig w
     = Ok ((), w') ∧
     log w' = log w ++ resets pf sig ++ [Out (banner env sig)]
                ++ (Out <$> LibunwindShow.shown "crash"
                              (Libunwind.stack (walk env)))
                ++ hooks pf (128 + sig) ++ terminate pf env sig) ∧
(∀ (w : world Windows.btrace) (env : crash_env Windows.walk_env),
   context WindowsSpec.wf w →
   Windows.store_alloc (walk env) = true →
   ∃ w',
     Shared.sigCrashHandler
       (windows_walker atomic fuel have_libdwarf dwarf_addr2line)
       pf env sig w = Ok ((), w') ∧
     log w' = log w ++ resets pf sig ++ [Out (banner env sig)]
                ++ (Out <$> WindowsShow.shown have_libdwarf dwarf_addr2line
                              "crash" (walk env) false)
                ++ hooks pf (128 + sig) ++ terminate pf env sig) ∧
(∀ (w : world Fallback.btrace) (env : crash_env unit),
   ∃ w' status,
     Fallback.sigCrashHandler true pf env sig w = Ok ((), w') ∧
     log w' = log w ++ [SignalDfl sig; Out (banner env sig);
                        RunOnHalt status]
                ++ fallback_terminate pf env sig).
Proof.
intros Hf Hsig.
assert ((0 < fuel)%nat) as Hf0 by (unfold SAVE_TRACES in Hf; lia).
split; [|split; [|split]].
- intros w env Hctx Ha Hfa.
  set (w0 := logged w (resets pf sig ++ [Out (banner env sig)])).
  assert (context GlibcSpec.wf w0 ∨ ld w0 = None) as Hctx0
    by (destruct Hctx; [left; by apply (context_same_memory _ w)|by right]).
  destruct (GlibcFacts.glibc_print_c_backtrace atomic fuel dladdr popen
              (walk env) "crash" w0 Hf Hctx0 Ha Hfa) as (w1&Hpc&Hlog).
  apply (Crash.sigCrashHandler_log (glibc_walker atomic fuel dladdr popen)
           pf env sig w w1 _ Hsig Hpc).
  rewrite Hlog. reflexivity.
- intros w env Hctx Ha.
  set (w0 := logged w (resets pf sig ++ [Out (banner env sig)])).
  assert (context LibunwindSpec.wf w0 ∨ ld w0 = None) as Hctx0
    by (destruct Hctx; [left; by apply (context_same_memory _ w)|by right]).
  destruct (lu_print_c_backtrace_shown atomic fuel (walk env) "crash" w0
              Hf0 Hctx0 Ha) as (w1&Hpc&Hlog).
  apply (Crash.sigCrashHandler_log (libunwind_walker atomic fuel) pf env sig
           w w1 _ Hsig Hpc).
  rewrite Hlog. reflexivity.
- intros w env Hctx Ha.
  set (w0 := logged w (resets pf sig ++ [Out (banner env sig)])).
  assert (context WindowsSpec.wf w0) as Hctx0
    by (by apply (context_same_memory _ w)).
  destruct (win_print_c_backtrace_shown atomic fuel have_libdwarf
              dwarf_addr2line (walk env) "crash" w0 Hf0 Hctx0 Ha)
    as (w1&Hpc&Hlog).
  apply (Crash.sigCrashHandler_log
           (windows_walker atomic fuel have_libdwarf dwarf_addr2line)
           pf env sig w w1 _ Hsig Hpc).
  rewrite Hlog. reflexivity.
- intros w env. unfold Fallback.sigCrashHandler, fallback_terminate.
  rewrite (bind_Ok _ _ _ _ _ (emit_logged _ _)).
  unfold Sdprintf.
  rewrite (bind_Ok _ _ _ _ _ (emit_logged _ _)), logged_app.
  rewrite (bind_Ok _ _ _ _ _ (emit_logged _ _)), logged_app.
  destruct (HAVE_KILL pf && HAVE_GETPID pf);
    rewrite emit_logged, logged_app;
    eexists _, 4; (split; [reflexivity|]);
    unfold logged, banner; cbn [log]; by destruct (thread_alias env).
Qed.

Lemma crash_handler_sequence_witness :
(∃ w',
   Shared.sigCrashHandler
     (glibc_walker true 10 GlibcSpec.no_dladdr GlibcSpec.no_popen)
     linux (crashed GlibcSpec.env1) 11 GlibcSpec.w0 = Ok ((), w') ∧
   log w' = log GlibcSpec.w0 ++ resets linux 11
              ++ [Out (banner (crashed GlibcSpec.env1) 11)]
              ++ (Out <$> GlibcSpec.rendering GlibcSpec.no_dladdr
                            GlibcSpec.no_popen "crash"
                            (Glibc.backtrace
                               (Glibc.stack (walk (crashed GlibcSpec.env1)))
                               100))
              ++ hooks linux (128 + 11)
              ++ terminate linux (crashed GlibcSpec.env1) 11) ∧
(∃ w',
   Shared.sigCrashHandler (libunwind_walker true 10) linux
     (crashed LibunwindSpec.env12) 11 (mkWorld None ∅ []) = Ok ((), w') ∧
   log w' = resets linux 11
              ++ [Out (banner (crashed LibunwindSpec.env12) 11)]
              ++ (Out <$> LibunwindShow.shown "crash"
                            (Libunwind.stack
                               (walk (crashed LibunwindSpec.env12))))
              ++ hooks linux (128 + 11)
              ++ terminate linux (crashed LibunwindSpec.env12) 11) ∧
(∃ w',
   Shared.sigCrashHandler
     (windows_walker true 10 false WindowsSpec.no_dwarf) windows
     (crashed WindowsSpec.env14) 11 WindowsSpec.w_store = Ok ((), w') ∧
   log w' = log WindowsSpec.w_store ++ resets windows 11
              ++ [Out (banner (crashed WindowsSpec.env14) 11)]
              ++ (Out <$> WindowsShow.shown false WindowsSpec.no_dwarf
                            "crash" (walk (crashed WindowsSpec.env14))
                            false)
              ++ hooks windows (128 + 11)
              ++ terminate windows (crashed WindowsSpec.env14) 11).
Proof.
destruct (crash_handler_sequence true 10 GlibcSpec.no_dladdr
            GlibcSpec.no_popen false WindowsSpec.no_dwarf linux 11)
  as (Hg&Hl&_&_); [vm_compute; discriminate|lia|].
destruct (crash_handler_sequence true 10 GlibcSpec.no_dladdr
            GlibcSpec.no_popen false WindowsSpec.no_dwarf windows 11)
  as (_&_&Hw&_); [vm_compute; discriminate|lia|].
split; [|split].
- apply Hg; [left; left; reflexivity|reflexivity|reflexivity].
- apply (Hl (mkWorld None ∅ [])); [right; reflexivity|reflexivity].
- apply Hw; [|reflexivity].
  right. exists 1%positive, (Windows.set_shared true Windows.zeroed).
  split; [reflexivity|]. split; [reflexivity|].
  apply WindowsFacts.win_wf_set_shared, WindowsFacts.win_wf_zeroed.
Defined.
End CrashTrace.

(** ** The crash handler when memory is short *)

Module CrashMemoryFacts.
Import CrashSpec.

(** The handler up to its call of [print_c_backtrace]. *)
Lemma sigCrashHandler_prefix W pf env sig :
  ∃ k : unit → Mon (wk_btrace W) unit,
    ∀ w, Shared.sigCrashHandler W pf env sig w
         = (Shared.print_c_backtrace W (walk env) "crash" ≫= k)
             (logged w (resets pf sig ++ [Out (banner env sig)])).
Proof.
  eexists. intros w. unfold Shared.sigCrashHandler.
  rewrite (bind_Ok _ _ _ _ _ (emit_logged _ _)).
  rewrite (bind_Ok _ _ _ _ _ (signal_dfl_logged _ _)), logged_app.
  rewrite (bind_Ok _ _ _ _ _ (signal_dfl_logged _ _)), logged_app.
  rewrite (bind_Ok _ _ _ _ _ (signal_dfl_logged _ _)), logged_app.
  rewrite (bind_Ok _ _ _ ()
             (logged w (resets pf sig))).
  2:{ unfold resets. destruct (HAVE_ALARM pf).
      - rewrite emit_logged, logged_app. by rewrite <- !app_assoc.
      - unfold mret, Mon_ret. rewrite app_nil_r. by rewrite <- !app_assoc. }
  assert (Sdprintf (MsgBanner (thread_self env)
                      match thread_alias env with
                      | Some alias => alias
                      | None => ""
                      end (String.substring 0 24 (ctime env)) sig
                      (signal_name env sig)) (logged w (resets pf sig))
          = Ok ((), logged w (resets pf sig ++ [Out (banner env sig)])))
    as Hb.
  { unfold Sdprintf. rewrite emit_logged, logged_app. unfold banner.
    by destruct (thread_alias env). }
  rewrite (bind_Ok _ _ _ _ _ Hb).
  reflexivity.
Qed.

(** The handler from its call of [print_c_backtrace] on. *)
Lemma sigCrashHandler_world W pf env sig (w w1 : world (wk_btrace W)) :
  - 2 ^ 31 ≤ 128 + sig < 2 ^ 31 →
  Shared.print_c_backtrace W (walk env) "crash"
    (logged w (resets pf sig ++ [Out (banner env sig)])) = Ok ((), w1) →
  Shared.sigCrashHandler W pf env sig w
  = Ok ((), logged w1 (hooks pf (128 + sig) ++ terminate pf env sig)).
Proof.
  intros Hsig Hpc. unfold Shared.sigCrashHandler.
  rewrite int_add_small by done.
  rewrite (bind_Ok _ _ _ _ _ (emit_logged _ _)).
  rewrite (bind_Ok _ _ _ _ _ (signal_dfl_logged _ _)), logged_app.
  rewrite (bind_Ok _ _ _ _ _ (signal_dfl_logged _ _)), logged_app.
  rewrite (bind_Ok _ _ _ _ _ (signal_dfl_logged _ _)), logged_app.
  rewrite (bind_Ok _ _ _ ()
             (logged w (resets pf sig))).
  2:{ unfold resets. destruct (HAVE_ALARM pf).
      - rewrite emit_logged, logged_app. by rewrite <- !app_assoc.
      - unfold mret, Mon_ret. rewrite app_nil_r. by rewrite <- !app_assoc. }
  assert (Sdprintf (MsgBanner (thread_self env)
                      match thread_alias env with
                      | Some alias => alias
                      | None => ""
                      end (String.substring 0 24 (ctime env)) sig
                      (signal_name env sig)) (logged w (resets pf sig))
          = Ok ((), logged w (resets pf sig ++ [Out (banner env sig)])))
    as Hb.
  { unfold Sdprintf. rewrite emit_logged, logged_app. unfold banner.
    by destruct (thread_alias env). }
  rewrite (bind_Ok _ _ _ _ _ Hb).
  rewrite (bind_Ok _ _ _ _ _ Hpc).
  unfold Sdprintf.
  rewrite (bind_Ok _ _ _ _ _ (emit_logged _ _)).
  rewrite (bind_Ok _ _ _ _ _ (emit_logged _ _)), logged_app.
  rewrite (bind_Ok _ _ _ _ _ (emit_logged _ _)), logged_app.
  rewrite (bind_Ok _ _ _ _ _ (emit_logged _ _)), logged_app.
  unfold terminate, hooks. destruct (HAVE_KILL pf).
  - rewrite (bind_Ok _ _ _ _ _ (emit_logged _ _)), logged_app.
    rewrite emit_logged, logged_app. by rewrite <- !app_assoc.
  - rewrite (bind_Ok _ _ _ _ _ (emit_logged _ _)), logged_app.
    rewrite emit_logged, logged_app. by rewrite <- !app_assoc.
Qed.

Lemma sigCrashHandler_undefined W pf env sig (w : world (wk_btrace W)) :
  Shared.print_c_backtrace W (walk env) "crash"
    (logged w (resets pf sig ++ [Out (banner env sig)])) = Undefined →
  Shared.sigCrashHandler W pf env sig w = Undefined.
Proof.
  intros H. destruct (sigCrashHandler_prefix W pf env sig) as [k Hk].
  rewrite Hk. unfold mbind, Mon_bind. by rewrite H.
Qed.

Lemma print_c_backtrace_nothing W env why (w : world (wk_btrace W)) :
  wk_save_backtrace W env why w = Ok (None, w) →
  (∀ w', wk_bstore_print_backtrace_named W None why w' = Ok ((), w')) →
  Shared.print_c_backtrace W env why w = Ok ((), printed w []).
Proof.
  intros Hsave Hnone. unfold Shared.print_c_backtrace.
  rewrite (bind_Ok _ _ _ _ _ Hsave), (bind_Ok _ _ _ _ _ (Hnone w)).
  unfold mret, Mon_ret. by rewrite printed_nil.
Qed.

Lemma glibc_save_backtrace_no_memory atomic fuel env label
    (w : world Glibc.btrace) :
  has_LD w None ∨ ld w = None → Glibc.store_alloc env = false →
  Glibc.save_backtrace atomic fuel env label w = Ok (None, w).
Proof.
  intros Hw Ha. destruct w as [l h lg]. unfold has_LD in Hw. simpl in Hw.
  unfold Glibc.save_backtrace, Glibc.get_trace_store. rewrite Ha.
  destruct Hw as [->| ->]; reflexivity.
Qed.

Lemma lu_save_backtrace_no_memory atomic fuel env why
    (w : world Libunwind.btrace) :
  has_LD w None ∨ ld w = None → Libunwind.store_alloc env = false →
  Libunwind.save_backtrace atomic fuel env why w = Ok (None, w).
Proof.
  intros Hw Ha. destruct w as [l h lg]. unfold has_LD in Hw. simpl in Hw.
  unfold Libunwind.save_backtrace, Libunwind.get_trace_store. rewrite Ha.
  destruct Hw as [->| ->]; reflexivity.
Qed.

Lemma win_save_backtrace_no_memory atomic fuel have_libdwarf env why
    (w : world Windows.btrace) st :
  has_LD w st → Windows.store_alloc env = false →
  st = None →
  Windows.save_backtrace atomic fuel have_libdwarf env why w = Ok (None, w).
Proof.
  intros Hw Ha ->. destruct w as [l h lg]. unfold has_LD in Hw.
  simpl in Hw. subst l.
  unfold Windows.save_backtrace, Windows.win_save_backtrace,
    Windows.get_trace_store. rewrite Ha. reflexivity.
Qed.

(** X17. The crash handler when memory is short.  When the store
  cannot be allocated, on a thread that has none, the handler prints
  no trace and goes on: banner, interpreter stack, exit hooks with
  status 128+sig, and the end of the process, with thread data and
  heap untouched.  In the glibc configuration, when the store is
  there but the array of return addresses cannot be allocated and the
  stack is not empty, the handler reads through the NULL pointer
  before it has run any exit hook. *)
Theorem crash_handler_without_memory atomic fuel dladdr popen
  have_libdwarf dwarf_addr2line (pf : platform) (sig : Z) :
SAVE_TRACES ≤ Z.of_nat fuel →
- 2 ^ 31 ≤ 128 + sig < 2 ^ 31 →
(∀ (w : world Glibc.btrace) (env : crash_env Glibc.walk_env),
   has_LD w None ∨ ld w = None →
   Glibc.store_alloc (walk env) = false →
   Shared.sigCrashHandler (glibc_walker atomic fuel dladdr popen)
     pf env sig w
   = Ok ((), logged w (resets pf sig ++ [Out (banner env sig)]
                         ++ hooks pf (128 + sig)
                         ++ terminate pf env sig))) ∧
(∀ (w : world Libunwind.btrace) (env : crash_env Libunwind.walk_env),
   has_LD w None ∨ ld w = None →
   Libunwind.store_alloc (walk env) = false →
   Shared.sigCrashHandler (libunwind_walker atomic fuel) pf env sig w
   = Ok ((), logged w (resets pf sig ++ [Out (banner env sig)]
                         ++ hooks pf (128 + sig)
                         ++ terminate pf env sig))) ∧
(∀ (w : world Windows.btrace) (env : crash_env Windows.walk_env),
   has_LD w None →
   Windows.store_alloc (walk env) = false →
   Shared.sigCrashHandler
     (windows_walker atomic fuel have_libdwarf dwarf_addr2line)
     pf env sig w
   = Ok ((), logged w (resets pf sig ++ [Out (banner env sig)]
                         ++ hooks pf (128 + sig)
                         ++ terminate pf env sig))) ∧
(∀ (w : world Glibc.btrace) (env : crash_env Glibc.walk_env),
   context GlibcSpec.wf w →
   Glibc.store_alloc (walk env) = true →
   Glibc.frames_alloc (walk env) = false →
   Glibc.stack (walk env) ≠ [] →
   Shared.sigCrashHandler (glibc_walker atomic fuel dladdr popen)
     pf env sig w = Undefined).
Proof.
intros Hf Hsig.
assert (∀ W env (w : world (wk_btrace W)),
          wk_save_backtrace W (walk env) "crash"
            (logged w (resets pf sig ++ [Out (banner env sig)]))
          = Ok (None, logged w (resets pf sig ++ [Out (banner env sig)])) →
          (∀ w', wk_bstore_print_backtrace_named W None "crash" w'
                 = Ok ((), w')) →
          Shared.sigCrashHandler W pf env sig w
          = Ok ((), logged w (resets pf sig ++ [Out (banner env sig)]
                                ++ hooks pf (128 + sig)
                                ++ terminate pf env sig))) as Hgo.
{ intros W env w Hsave Hnone.
  rewrite (sigCrashHandler_world W pf env sig w _ Hsig
             (print_c_backtrace_nothing W _ _ _ Hsave Hnone)).
  rewrite printed_nil, logged_app. by rewrite <- !app_assoc. }
split; [|split; [|split]].
- intros w env Hw Ha.
  apply (Hgo (glibc_walker atomic fuel dladdr popen)); [|done].
  by apply glibc_save_backtrace_no_memory.
- intros w env Hw Ha.
  apply (Hgo (libunwind_walker atomic fuel)); [|done].
  by apply lu_save_backtrace_no_memory.
- intros w env Hw Ha.
  apply (Hgo (windows_walker atomic fuel have_libdwarf dwarf_addr2line));
    [|done].
  by apply (win_save_backtrace_no_memory _ _ _ _ _ _ None).
- intros w env Hctx Ha Hfa Hstack.
  apply sigCrashHandler_undefined.
  apply PrintCFacts.glibc_print_c_backtrace_null; [done| |done..].
  by apply (context_same_memory _ w).
Qed.

Lemma crash_handler_without_memory_witness :
Shared.sigCrashHandler
  (glibc_walker true 10 GlibcSpec.no_dladdr GlibcSpec.no_popen) linux
  (crashed (Glibc.mk_walk_env [4198400] true false)) 11 GlibcSpec.w0
= Undefined.
Proof.
destruct (crash_handler_without_memory true 10 GlibcSpec.no_dladdr
            GlibcSpec.no_popen false WindowsSpec.no_dwarf linux 11)
  as (_&_&_&H).
- vm_compute. discriminate.
- lia.
- apply H.
  + left. reflexivity.
  + reflexivity.
  + reflexivity.
  + discriminate.
Defined.
End CrashMemoryFacts.

(** ** [CStackSize] *)

Module CStackFacts.
Import CStack.

Ltac cstack_cases :=
  repeat first
    [ progress simplify_eq/=
    | case_bool_decide
    | match goal with
      | |- context [match ?x with _ => _ end] => destruct x eqn:?
      | H : context [match ?x with _ => _ end] |- _ => destruct x eqn:?
      end ].

(** X18. Once [CStackSize] has returned a size other than 0, every
  later call returns the same size and leaves the thread's info as it
  is, whatever the system answers by then, and prints nothing: the
  size is asked for at most once. *)
Theorem CStackSize_stable cfg ROUND debug debug' sys sys' info r info' out :
CStackSize cfg ROUND debug sys info = (r, info', out) →
r ≠ 0 →
CStackSize cfg ROUND debug' sys' info' = (r, info', []).
Proof.
unfold CStackSize. intros H Hr.
destruct (O_PLMT cfg); [|by simplify_eq].
destruct (bool_decide (c_stack_size info ≠ 0)) eqn:Hc.
{ simplify_eq. by rewrite Hc. }
assert (c_stack_size info' = r) as Hsize.
{ cstack_cases; done. }
assert ((r, info', out).1.2 = info') as _ by done.
rewrite bool_decide_eq_true_2 by (by rewrite Hsize).
by rewrite Hsize.
Qed.

Lemma CStackSize_stable_witness :
let cfg := mk_config true true true true in
let sys := mk_system true (Some (4096, 8388608)) (Some 8388608) (-1) 4096
             140737488347000 in
let sys' := mk_system false None None (-1) 4096 0 in
let info' := mk_thread_info 1 8388608
               (size_sub (140737488347000 + 4096) 8388608) in
CStackSize cfg (λ n p, n + p) false sys' info' = (8388608, info', []).
Proof.
intros cfg sys sys' info'.
apply (CStackSize_stable cfg (λ n p, n + p) true false sys sys'
         (mk_thread_info 1 0 0) 8388608 info' [DbgStack 8388608]).
- vm_compute. reflexivity.
- lia.
Defined.

(** X19. The main thread, in a build with threads and [getrlimit]: the
  first call of [CStackSize] never returns 0.  It returns the soft
  limit of the stack when [getrlimit] succeeds with a limit that is
  neither infinite nor 0, and then puts the base of the stack that
  many bytes below the page-rounded address of a local variable; in
  every other case it returns [(size_t)-1] and leaves the base
  alone.  Either way the size is stored in the thread's info. *)
Theorem CStackSize_main_thread cfg ROUND debug sys info :
O_PLMT cfg = true → HAVE_GETRLIMIT cfg = true →
pl_tid info = 1 → c_stack_size info = 0 →
∃ r info' out,
  CStackSize cfg ROUND debug sys info = (r, info', out) ∧
  r ≠ 0 ∧ c_stack_size info' = r ∧ pl_tid info' = 1 ∧
  ((getrlimit sys = Some r ∧ r ≠ RLIM_INFINITY sys ∧
    c_stack_base info'
    = size_sub (round_pages cfg ROUND sys (address_of_info sys)) r)
   ∨ (r = SIZE_MAX ∧ c_stack_base info' = c_stack_base info ∧ out = [] ∧
      (getrlimit sys = None ∨ getrlimit sys = Some (RLIM_INFINITY sys)
       ∨ getrlimit sys = Some 0))).
Proof.
intros Hmt Hrl Htid Hsize. unfold CStackSize.
rewrite Hmt, Hrl, Hsize, Htid.
rewrite (bool_decide_eq_false_2 (0 ≠ 0)) by (by intros ?).
rewrite (bool_decide_eq_false_2 (1 ≠ 1)) by (by intros ?).
destruct (getrlimit sys) as [rlim_cur|] eqn:Hg.
- destruct (decide (rlim_cur = RLIM_INFINITY sys)) as [Hinf|Hinf].
  { rewrite (bool_decide_eq_false_2 (rlim_cur ≠ _)) by (by intros ?).
    simpl. eexists _, _, _. split; [done|]. split; [done|].
    split; [done|]. split; [done|]. right. rewrite Hinf. auto 10. }
  rewrite (bool_decide_eq_true_2 (rlim_cur ≠ _)) by done.
  destruct (decide (rlim_cur = 0)) as [H0|H0].
  { rewrite (bool_decide_eq_false_2 (rlim_cur ≠ 0)) by (by intros ?).
    simpl. eexists _, _, _. split; [done|]. split; [done|].
    split; [done|]. split; [done|]. right. rewrite H0. auto 10. }
  rewrite (bool_decide_eq_true_2 (rlim_cur ≠ 0)) by done.
  simpl. eexists _, _, _. split; [done|]. split; [done|].
  split; [done|]. split; [done|]. left. auto.
- simpl. eexists _, _, _. split; [done|]. split; [done|].
  split; [done|]. split; [done|]. right. auto 10.
Qed.

Lemma CStackSize_main_thread_witness :
let cfg := mk_config true true true true in
let sys := mk_system true None (Some 8388608) (-1) 4096 140737488347000 in
∃ r info' out,
  CStackSize cfg (λ n p, n + p) true sys (mk_thread_info 1 0 0)
  = (r, info', out) ∧
  r ≠ 0 ∧ c_stack_size info' = r ∧ pl_tid info' = 1 ∧
  ((getrlimit sys = Some r ∧ r ≠ RLIM_INFINITY sys ∧
    c_stack_base info'
    = size_sub (round_pages cfg (λ n p, n + p) sys (address_of_info sys)) r)
   ∨ (r = SIZE_MAX ∧ c_stack_base info' = 0 ∧ out = [] ∧
      (getrlimit sys = None ∨ getrlimit sys = Some (RLIM_INFINITY sys)
       ∨ getrlimit sys = Some 0))).
Proof.
intros cfg sys.
apply (CStackSize_main_thread cfg (λ n p, n + p) true sys
         (mk_thread_info 1 0 0)); reflexivity.
Defined.

(** X20. When [CStackSize] returns 0.  That happens only in a build
  with threads, on a thread whose size is not known yet, and then in
  these cases: the thread is not the main one and the build lacks
  [pthread_getattr_np], or that call succeeds and
  [pthread_attr_getstack] stores nothing or a size of 0; or the thread
  is the main one and the build lacks [getrlimit].  In all of them
  the size stored in the thread's info is still 0, so that the next
  call starts over. *)
Theorem CStackSize_zero cfg ROUND debug sys info r info' out :
CStackSize cfg ROUND debug sys info = (r, info', out) →
(r = 0 ↔
 O_PLMT cfg = true ∧ c_stack_size info = 0 ∧
 ((pl_tid info ≠ 1 ∧
   (HAVE_PTHREAD_GETATTR_NP cfg = false
    ∨ (HAVE_PTHREAD_GETATTR_NP cfg = true ∧ pthread_getattr_np sys = true ∧
       (pthread_attr_getstack sys = None
        ∨ ∃ base, pthread_attr_getstack sys = Some (base, 0)))))
  ∨ (pl_tid info = 1 ∧ HAVE_GETRLIMIT cfg = false))) ∧
(r = 0 → c_stack_size info' = 0).
Proof.
unfold CStackSize, SIZE_MAX. intros H.
destruct (O_PLMT cfg) eqn:Hmt.
2:{ simplify_eq. split; [|done]. split; [done|]. by intros (?&_). }
destruct (decide (c_stack_size info = 0)) as [Hs|Hs].
2:{ rewrite bool_decide_eq_true_2 in H by done. simplify_eq.
    split; [|done]. split; [done|]. by intros (_&?&_). }
rewrite bool_decide_eq_false_2 in H by (by intros ?).
destruct (decide (pl_tid info = 1)) as [Ht|Ht].
- rewrite bool_decide_eq_false_2 in H by (by intros ?).
  destruct (HAVE_GETRLIMIT cfg) eqn:Hrl.
  + destruct (getrlimit sys) as [v|].
    * destruct (decide (v = RLIM_INFINITY sys)), (decide (v = 0));
        rewrite ?(bool_decide_eq_false_2 (v ≠ RLIM_INFINITY sys)) in H
          by (by intros ?);
        rewrite ?(bool_decide_eq_true_2 (v ≠ RLIM_INFINITY sys)) in H
          by done;
        rewrite ?(bool_decide_eq_false_2 (v ≠ 0)) in H by (by intros ?);
        rewrite ?(bool_decide_eq_true_2 (v ≠ 0)) in H by done;
        simpl in H; simplify_eq; (split; [|done]);
        (split; [done|]); intros (_&_&[(?&_)|(_&?)]); done.
    * simpl in H. simplify_eq. split; [|done].
      split; [done|]. intros (_&_&[(?&_)|(_&?)]); done.
  + simplify_eq. split; [|done]. split; [|done]. intros _. auto.
- rewrite bool_decide_eq_true_2 in H by done.
  destruct (HAVE_PTHREAD_GETATTR_NP cfg) eqn:Hga.
  + destruct (pthread_getattr_np sys) eqn:Hnp.
    * destruct (pthread_attr_getstack sys) as [[base size]|] eqn:Hgs.
      -- simpl in H. simplify_eq. split; [|done]. split.
         ++ intros ->. eauto 10.
         ++ intros (_&_&[(_&[?|(_&_&[?|[b' ?]])])|(?&_)]);
              by simplify_eq.
      -- simplify_eq. split; [|done]. split; [|done]. intros _. auto 10.
    * simpl in H. simplify_eq. split; [|done]. split; [done|].
      intros (_&_&[(_&[?|(_&?&_)])|(?&_)]); done.
  + simplify_eq. split; [|done]. split; [|done]. intros _. auto 10.
Qed.

Lemma CStackSize_zero_witness :
let cfg := mk_config true false false false in
let sys := mk_system true None None (-1) 4096 0 in
(0 = 0 ↔
 O_PLMT cfg = true ∧ c_stack_size (mk_thread_info 1 0 0) = 0 ∧
 ((pl_tid (mk_thread_info 1 0 0) ≠ 1 ∧
   (HAVE_PTHREAD_GETATTR_NP cfg = false
    ∨ (HAVE_PTHREAD_GETATTR_NP cfg = true ∧ pthread_getattr_np sys = true ∧
       (pthread_attr_getstack sys = None
        ∨ ∃ base, pthread_attr_getstack sys = Some (base, 0)))))
  ∨ (pl_tid (mk_thread_info 1 0 0) = 1 ∧ HAVE_GETRLIMIT cfg = false))) ∧
(0 = 0 → c_stack_size (mk_thread_info 1 0 0) = 0).
Proof.
intros cfg sys.
apply (CStackSize_zero cfg (λ n p, n + p) false sys (mk_thread_info 1 0 0)
         0 (mk_thread_info 1 0 0) []).
reflexivity.
Defined.
End CStackFacts.

(** ** glibc: the lines of a trace *)

Module GlibcLinesFacts.
Import Glibc GlibcSpec.

Lemma frame_line_resolved dladdr popen i a :
  is_Some (frame_line dladdr popen i a) ↔ is_Some (dladdr a).
Proof.
  unfold frame_line. destruct (dladdr a) as [info|]; simpl.
  - split; [eauto|]. intros _.
    destruct (dli_fname info) as [fname|]; [|eauto].
    destruct (if strstr fname ".so" then _ else None); [eauto|].
    destruct (dli_sname info); eauto.
  - split; intros [? ?]; done.
Qed.

Lemma frame_lines_length dladdr popen addrs :
  ∀ i, length (frame_lines dladdr popen i addrs)
       = length (filter (λ a, is_Some (dladdr a)) addrs).
Proof.
  induction addrs as [|a addrs IH]; intros i; [done|].
  simpl. rewrite length_app, IH, filter_cons.
  pose proof (frame_line_resolved dladdr popen i a) as Hr.
  destruct (decide (is_Some (dladdr a))) as [Hd|Hd].
  - apply Hr in Hd as [m ->]. done.
  - destruct (frame_line dladdr popen i a) eqn:Hl; [|done].
    exfalso. apply Hd, Hr. eauto.
Qed.

Lemma frame_line_without_helper dladdr popen popen' i a :
  (∀ info fname,
     dladdr a = Some info → dli_fname info = Some fname →
     strstr fname ".so" = false) →
  frame_line dladdr popen i a = frame_line dladdr popen' i a.
Proof.
  intros Hso. unfold frame_line.
  destruct (dladdr a) as [info|]; [|done]. simpl.
  destruct (dli_fname info) as [fname|] eqn:Hf; [|done].
  by rewrite (Hso info fname).
Qed.

Lemma frame_lines_without_helper dladdr popen popen' addrs :
  (∀ a info fname,
     a ∈ addrs → dladdr a = Some info → dli_fname info = Some fname →
     strstr fname ".so" = false) →
  ∀ i, frame_lines dladdr popen i addrs
       = frame_lines dladdr popen' i addrs.
Proof.
  induction addrs as [|a addrs IH]; intros Hso i; [done|].
  simpl. rewrite (frame_line_without_helper dladdr popen popen' i a).
  - rewrite IH; [done|]. intros a' info fname Hin.
    apply Hso. by right.
  - intros info fname. apply Hso. by left.
Qed.

(** X21. glibc [print_trace] on a slot that holds a trace prints the
  label and then one line for each return address that [dladdr]
  resolves; an address it does not resolve gets no line.  The helper
  process of [addr2line] is used only for addresses in a file whose
  name contains [.so]: when there is none, what is printed does not
  depend on it. *)
Theorem glibc_print_trace_lines dladdr popen (w : world btrace) p b me label
  array :
heap w !! p = Some (Some b) →
slot b me
= Some (mk_trace (Some label) (Z.of_nat (length array)) (Some array)) →
∃ ms,
  print_trace dladdr popen p me w
  = Ok ((), printed w (MsgTraceLabel label :: ms)) ∧
  length ms = length (filter (λ a, is_Some (dladdr a)) array) ∧
  ((∀ a info fname,
      a ∈ array → dladdr a = Some info → dli_fname info = Some fname →
      strstr fname ".so" = false) →
   ∀ popen',
     print_trace dladdr popen' p me w
     = Ok ((), printed w (MsgTraceLabel label :: ms))).
Proof.
intros Hp Hslot. exists (frame_lines dladdr popen 0 array).
split; [by apply (GlibcFacts.print_trace_rendering dladdr popen w p b)|].
split; [apply frame_lines_length|].
intros Hso popen'.
rewrite (frame_lines_without_helper dladdr popen popen' array Hso).
by apply (GlibcFacts.print_trace_rendering dladdr popen' w p b).
Qed.

Lemma glibc_print_trace_lines_witness :
let b := put (recorded (env1, "gc")) (set_shared true zeroed) in
let w := mkWorld (Some (mkLD (Some 1%positive)))
           {[1%positive := Some b]} [] in
∃ ms,
  print_trace GlibcLines.dl_main no_popen 1%positive 0 w
  = Ok ((), printed w (MsgTraceLabel "gc" :: ms)) ∧
  length ms
  = length (filter (λ a, is_Some (GlibcLines.dl_main a)) (stack env1)) ∧
  ((∀ a info fname,
      a ∈ stack env1 → GlibcLines.dl_main a = Some info →
      dli_fname info = Some fname → strstr fname ".so" = false) →
   ∀ popen',
     print_trace GlibcLines.dl_main popen' 1%positive 0 w
     = Ok ((), printed w (MsgTraceLabel "gc" :: ms))).
Proof.
intros b w.
apply (glibc_print_trace_lines GlibcLines.dl_main no_popen w 1%positive b 0
         "gc" (stack env1)).
- reflexivity.
- reflexivity.
Defined.
End GlibcLinesFacts.

(** ** libunwind: the ring *)

Module LibunwindRingFacts.
Import Libunwind LibunwindSpec LibunwindShow LibunwindRing.

Lemma ring_record v b : ring b → ring (record v b).
Proof.
  intros (Hl&Hc). split; simpl.
  - by rewrite length_insert.
  - unfold SAVE_TRACES. Z.div_mod_to_equations; lia.
Qed.

Lemma slot_view_record_eq v b :
  ring b → slot_view (record v b) (current b) = Some v.
Proof.
  intros (Hl&Hc). unfold slot_view, record. cbn [dumps put].
  rewrite arr_get_lookup by lia.
  rewrite list_lookup_insert_eq by (unfold SAVE_TRACES in *; lia).
  simpl. unfold view_of. cbn [name depth frame].
  rewrite Nat2Z.id, take_app_length. by destruct v.
Qed.

Lemma slot_view_record_ne v b j :
  ring b → j ≠ current b → slot_view (record v b) j = slot_view b j.
Proof.
  intros (Hl&Hc) Hj. unfold slot_view, record, arr_get. cbn [dumps put].
  case_bool_decide; [|done].
  rewrite list_lookup_insert_ne by lia. done.
Qed.

(** The [i]-th most recent view recorded is [i] slots before the
    cursor. *)
Lemma lu_ring_recent vs b i :
  ring b → 1 ≤ i ≤ Z.of_nat (length vs) → i ≤ SAVE_TRACES →
  slot_view (puts record vs b)
    ((current (puts record vs b) - i) mod SAVE_TRACES)
  = most_recent i vs.
Proof.
  intros Hr Hi HK. rewrite most_recent_lookup by done.
  apply (ring_recent ring current slot_view record); try done.
  - by intros s (_&?).
  - intros. by apply ring_record.
  - intros. by apply slot_view_record_eq.
  - intros. by apply slot_view_record_ne.
Qed.

Lemma wf_ring b : wf b → ring b.
Proof. by intros (?&_&?). Qed.

Lemma record_seen c b s0 :
  arr_get (dumps b) (current b) = Some s0 →
  record (seen c) b = put (slot_after c.2 (stack c.1) (frame s0)) b.
Proof. intros Hs0. unfold record. by rewrite Hs0. Qed.

Lemma wf_record_seen c b : wf b → wf (record (seen c) b).
Proof.
  intros Hwf. pose proof Hwf as (Hl&Hall&Hc).
  destruct (arr_get_is_Some (dumps b) (current b)) as [s0 Hs0];
    [rewrite Hl; unfold SAVE_TRACES in *; lia|].
  rewrite (record_seen c b s0 Hs0).
  apply LibunwindFacts.lu_wf_put; [done|].
  apply LibunwindShowFacts.slot_after_wf.
  rewrite arr_get_lookup in Hs0 by lia.
  eapply Forall_lookup_1 in Hall; [|done]. apply Hall.
Qed.

Lemma wf_records cs : ∀ b, wf b → wf (puts record (seen <$> cs) b).
Proof.
  induction cs as [|c cs IH]; intros b Hwf; [done|].
  simpl. apply IH. by apply wf_record_seen.
Qed.

Lemma lu_save_backtrace_record atomic fuel c (w : world btrace) p b :
  (0 < fuel)%nat → has_store wf w p b →
  save_backtrace atomic fuel c.1 c.2 w
  = Ok (Some p, mkWorld (ld w) (<[p := Some (record (seen c) b)]> (heap w))
                  (log w)).
Proof.
  intros Hf (Hld&Hp&Hwf).
  destruct (LibunwindShowFacts.lu_save_backtrace_exact atomic fuel c.1 c.2
              w w p b Hf
              (LibunwindFacts.lu_get_trace_store_present _ _ _ _ Hld)
              Hp Hwf) as (s0&Hs0&Hsave).
  by rewrite (record_seen c b s0 Hs0).
Qed.

Lemma lu_captures_present atomic fuel cs :
  ∀ (w : world btrace) p b,
    (0 < fuel)%nat → has_store wf w p b →
    captures atomic fuel cs w =
      Ok ((), mkWorld (ld w)
                (<[p := Some (puts record (seen <$> cs) b)]> (heap w))
                (log w)).
Proof.
  induction cs as [|c cs IH]; intros w p b Hf Hst.
  - simpl. destruct Hst as (_&Hp&_). destruct w as [l h lg]. simpl in *.
    unfold mret, Mon_ret. by rewrite insert_id.
  - simpl.
    rewrite (bind_Ok _ _ _ _ _ (lu_save_backtrace_record _ _ c _ _ _ Hf Hst)).
    rewrite (IH _ p (record (seen c) b)); [|done|].
    + simpl. by rewrite insert_insert_eq.
    + destruct Hst as (Hld&Hp&Hwf). split; [done|]. split.
      * simpl. by rewrite lookup_insert_eq.
      * by apply wf_record_seen.
Qed.

Lemma lu_captures_context atomic fuel cs (w : world btrace) :
  (0 < fuel)%nat → context wf w → cs ≠ [] →
  Forall (λ c : capture, store_alloc c.1 = true) cs →
  ∃ w' p b0,
    wf b0 ∧
    captures atomic fuel cs w = Ok ((), w') ∧
    has_store wf w' p (puts record (seen <$> cs) b0) ∧
    log w' = log w.
Proof.
  intros Hf [Hld|(p&b&Hst)] Hne Hall.
  - destruct cs as [|c cs]; [done|].
    apply Forall_cons in Hall as [Ha _].
    pose proof (LibunwindFacts.lu_get_trace_store_fresh true w Hld) as Hg.
    simpl in Hg. rewrite <- Ha in Hg at 1.
    set (p := fresh (dom (heap w))) in *.
    set (w0 := mkWorld _ _ _) in Hg.
    assert (wf (set_shared true zeroed)) as Hwf0
      by apply LibunwindFacts.lu_wf_set_shared, LibunwindFacts.lu_wf_zeroed.
    assert (heap w0 !! p = Some (Some (set_shared true zeroed))) as Hp0
      by (unfold w0; simpl; by rewrite lookup_insert_eq).
    destruct (LibunwindShowFacts.lu_save_backtrace_exact atomic fuel c.1 c.2
                w w0 p _ Hf Hg Hp0 Hwf0) as (s0&Hs0&Hsave).
    rewrite <- (record_seen c _ s0 Hs0) in Hsave.
    set (b1 := record (seen c) (set_shared true zeroed)) in *.
    set (w1 := mkWorld _ _ _) in Hsave.
    assert (has_store wf w1 p b1) as Hst.
    { split; [done|]. split.
      - unfold w1. simpl. by rewrite lookup_insert_eq.
      - by apply wf_record_seen. }
    eexists _, p, (set_shared true zeroed).
    split; [done|]. split; [|split].
    + simpl. rewrite (bind_Ok _ _ _ _ _ Hsave).
      by apply lu_captures_present.
    + split; [done|]. split.
      * simpl. by rewrite lookup_insert_eq.
      * by apply (wf_records (c :: cs)).
    + done.
  - eexists _, p, b. destruct Hst as (Hld&Hp&Hwf).
    split; [done|]. split; [by apply lu_captures_present|].
    split; [|done]. split; [done|]. split.
    + simpl. by rewrite lookup_insert_eq.
    + by apply wf_records.
Qed.

Lemma lu_print_backtrace_slot ok (w : world btrace) p b i :
  has_store wf w p b → 1 ≤ i ≤ SAVE_TRACES →
  print_backtrace ok i w
  = print_trace p ((current b - i) mod SAVE_TRACES) w.
Proof.
  intros (Hld&Hp&Hwf) Hi. unfold print_backtrace.
  rewrite (bind_Ok _ _ _ _ _
             (LibunwindFacts.lu_get_trace_store_present _ _ _ _ Hld)).
  rewrite (bind_Ok _ _ w b w) by (unfold load; by rewrite Hp).
  destruct Hwf as (_&_&Hc). unfold SAVE_TRACES in *.
  rewrite int_sub_small by lia.
  f_equal. case_bool_decide.
  - rewrite int_add_small by lia. Z.div_mod_to_equations; lia.
  - Z.div_mod_to_equations; lia.
Qed.

(** What [print_trace] writes for a slot, by what the slot shows. *)
Lemma lu_print_trace_view (w : world btrace) p b me c :
  heap w !! p = Some (Some b) → wf b →
  slot_view b me = Some (seen c) →
  print_trace p me w = Ok ((), printed w (shown c.2 (stack c.1))).
Proof.
  intros Hp (Hl&Hall&_) Hv. unfold slot_view in Hv.
  destruct (arr_get (dumps b) me) as [s|] eqn:Hs; [|done].
  simpl in Hv. injection Hv as Hn Hfs.
  assert (wf_stack s) as Hwfs.
  { unfold arr_get in Hs. case_bool_decide; [|done].
    by eapply Forall_lookup_1 in Hall. }
  rewrite (LibunwindFacts.lu_print_trace_rendering w p b me s c.2)
    by done.
  do 3 f_equal. unfold rendering, shown. f_equal.
  destruct Hwfs as (Hfl&Hd). unfold MAX_DEPTH in *.
  rewrite <- Hfs.
  rewrite <- (LibunwindShowFacts.frame_lines_imap s
                (take (Z.to_nat (depth s)) (frame s))
                (drop (Z.to_nat (depth s)) (frame s)))
    by (by rewrite take_drop).
  rewrite length_take. do 3 f_equal. lia.
Qed.

(** X22. libunwind: the store is a ring of the [SAVE_TRACES] most
  recent captures.  After any number of captures on a thread with
  local data, [print_backtrace(i)] prints the [i]-th most recent of
  them, for every [i] from 1 up to the number of captures and at most
  [SAVE_TRACES]: its label, and its first [MAX_DEPTH] frames. *)
Theorem lu_print_backtrace_most_recent atomic fuel ok (w : world btrace)
  (cs : list capture) (i : Z) :
(0 < fuel)%nat →
context wf w →
Forall (λ c : capture, store_alloc c.1 = true) cs →
1 ≤ i ≤ Z.min (Z.of_nat (length cs)) SAVE_TRACES →
∃ w' c,
  captures atomic fuel cs w = Ok ((), w') ∧
  log w' = log w ∧
  most_recent i cs = Some c ∧
  print_backtrace ok i w' = Ok ((), printed w' (shown c.2 (stack c.1))).
Proof.
intros Hf Hctx Hall Hi.
assert (cs ≠ []) as Hne by (intros ->; simpl in Hi; lia).
destruct (lu_captures_context atomic fuel cs w Hf Hctx Hne Hall)
  as (w'&p&b0&Hwf0&Hrun&Hst&Hlog).
assert (is_Some (most_recent i cs)) as [c Hc].
{ rewrite most_recent_lookup by lia. apply lookup_lt_is_Some. lia. }
exists w', c. split; [done|]. split; [done|]. split; [done|].
rewrite (lu_print_backtrace_slot ok w' p _ i Hst) by lia.
apply (lu_print_trace_view w' p (puts record (seen <$> cs) b0));
  [apply Hst..|].
rewrite lu_ring_recent;
  [|by apply wf_ring|rewrite length_fmap; lia|lia].
rewrite most_recent_lookup by (rewrite length_fmap; lia).
rewrite most_recent_lookup in Hc by lia.
by rewrite list_lookup_fmap, length_fmap, Hc.
Qed.

Lemma lu_print_backtrace_most_recent_witness :
let c1 : capture := (env12, "gc") in
let c2 : capture := (mk_walk_env [mk_frame_info "main" 8] true, "crash") in
∃ w' c,
  captures true 1 [c1; c2] w0 = Ok ((), w') ∧
  log w' = log w0 ∧
  most_recent 2 [c1; c2] = Some c ∧
  print_backtrace true 2 w' = Ok ((), printed w' (shown c.2 (stack c.1))).
Proof.
intros c1 c2.
apply (lu_print_backtrace_most_recent true 1 true w0 [c1; c2] 2).
- lia.
- left. reflexivity.
- repeat constructor.
- vm_compute. split; discriminate.
Defined.
End LibunwindRingFacts.

(** ** Windows: a thread without local data *)

Module WindowsNoLDFacts.
Import CrashSpec.

Lemma win_get_trace_store_no_LD ok create (w : world Windows.btrace) :
  ld w = None → Windows.get_trace_store ok create w = Undefined.
Proof.
  intros Hno. unfold Windows.get_trace_store, mbind, Mon_bind,
    get_LD_btrace_store. by rewrite Hno.
Qed.

(** X23. Windows: [get_trace_store] reads [LD->btrace_store] without
  testing [LD], unlike its two namesakes.  On a thread without local
  data every entry point of the Windows configuration therefore
  dereferences a NULL pointer: capture, the queries,
  [print_c_backtrace], the exception handler, and the signal handler
  once it has printed its banner. *)
Theorem win_without_local_data atomic fuel have_libdwarf dwarf_addr2line ok
  (w : world Windows.btrace) :
ld w = None →
let Ww := windows_walker atomic fuel have_libdwarf dwarf_addr2line in
(∀ env why exception,
   Windows.win_save_backtrace atomic fuel have_libdwarf env why exception w
   = Undefined) ∧
(∀ last,
   Windows.print_backtrace have_libdwarf dwarf_addr2line ok last w
   = Undefined) ∧
(∀ why, Shared.print_backtrace_named Ww ok why w = Undefined) ∧
(∀ env why, Shared.print_c_backtrace Ww env why w = Undefined) ∧
(∀ env,
   Windows_crashHandler atomic fuel have_libdwarf dwarf_addr2line env ok w
   = Undefined) ∧
(∀ pf env sig, Shared.sigCrashHandler Ww pf env sig w = Undefined).
Proof.
intros Hno Ww.
assert (∀ (w0 : world Windows.btrace) env why exception,
          ld w0 = None →
          Windows.win_save_backtrace atomic fuel have_libdwarf env why
            exception w0 = Undefined) as Hsave.
{ intros w0 env why exception H0. unfold Windows.win_save_backtrace.
  unfold mbind at 1, Mon_bind at 1.
  by rewrite win_get_trace_store_no_LD. }
assert (∀ (w0 : world Windows.btrace) env why,
          ld w0 = None →
          Shared.print_c_backtrace Ww env why w0 = Undefined) as Hpc.
{ intros w0 env why H0. unfold Shared.print_c_backtrace, Ww, windows_walker.
  cbn [wk_save_backtrace]. unfold Windows.save_backtrace.
  unfold mbind at 1, Mon_bind at 1. by rewrite Hsave. }
split; [by intros; apply Hsave|]. split.
{ intros last. unfold Windows.print_backtrace.
  unfold mbind at 1, Mon_bind at 1.
  by rewrite win_get_trace_store_no_LD. }
split.
{ intros why. unfold Shared.print_backtrace_named, Ww, windows_walker.
  cbn [wk_get_trace_store]. unfold mbind at 1, Mon_bind at 1.
  by rewrite win_get_trace_store_no_LD. }
split; [by intros; apply Hpc|]. split.
{ intros env. unfold Windows_crashHandler.
  unfold mbind at 1, Mon_bind at 1. by rewrite Hsave. }
intros pf env sig. apply CrashMemoryFacts.sigCrashHandler_undefined.
by apply Hpc.
Qed.

Lemma win_without_local_data_witness :
Shared.sigCrashHandler (windows_walker true 10 false WindowsSpec.no_dwarf)
  linux (crashed WindowsSpec.env14) 11 (mkWorld None ∅ []) = Undefined.
Proof.
destruct (win_without_local_data true 10 false WindowsSpec.no_dwarf true
            (mkWorld None ∅ [])) as (_&_&_&_&_&H).
- reflexivity.
- apply H.
Defined.
End WindowsNoLDFacts.

(** ** Slot reservation: more callers than slots *)

Module CollisionFacts.
Import Concurrent ConcurrentSpec.

Lemma NoDup_in_ring (l : list Z) :
  NoDup l → Forall (λ r, 0 ≤ r < SAVE_TRACES) l →
  Z.of_nat (length l) ≤ SAVE_TRACES.
Proof.
  intros Hnd Hall.
  assert (l ⊆+ seqZ 0 SAVE_TRACES) as Hsub.
  { apply NoDup_submseteq; [done|]. intros x Hx.
    rewrite Forall_forall in Hall. apply elem_of_seqZ.
    specialize (Hall x Hx). lia. }
  apply submseteq_length in Hsub. rewrite length_seqZ in Hsub.
  unfold SAVE_TRACES in *. lia.
Qed.

(** X24. The bound of [SAVE_TRACES] callers is sharp: when more callers
  than there are slots have all come back from the compare-and-swap
  loop, two of them hold the same index. *)
Theorem reservations_collide (c : Z) (m : nat) (schedule : list nat) :
0 ≤ c < SAVE_TRACES → SAVE_TRACES < Z.of_nat m →
let s := run schedule (init c m) in
Forall (λ t, is_Some (index_of t)) (callers s) →
length (returned s) = m ∧ ¬ NoDup (returned s).
Proof.
intros Hc Hm s Hall.
pose proof (ConcurrentFacts.inv_run c m schedule _ Hc
              (ConcurrentFacts.inv_init c m Hc)) as (Hlen&_&k&Hcur&Hret).
fold s in Hlen, Hcur, Hret.
assert (length (returned s) = m) as Hl.
{ rewrite <- Hlen. by apply ConcurrentFacts.returned_all. }
split; [done|]. intros Hnd.
assert (Forall (λ r, 0 ≤ r < SAVE_TRACES) (returned s)) as Hrange.
{ rewrite Hret. apply ReservationFacts.handed_out_range. }
pose proof (NoDup_in_ring _ Hnd Hrange). lia.
Qed.

Lemma reservations_collide_witness :
let s := run ((seq 0 11 ≫= λ i, [i; i])) (init 0 11) in
length (returned s) = 11%nat ∧ ¬ NoDup (returned s).
Proof.
apply (reservations_collide 0 11 ((seq 0 11 ≫= λ i, [i; i]))).
- vm_compute. split; [discriminate|reflexivity].
- vm_compute. reflexivity.
- vm_compute. repeat constructor; eexists; reflexivity.
Defined.
End CollisionFacts.

(** ** [addr2line] with [atos] *)

Module AppleFacts.
Import Glibc Addr2lineSpec Addr2lineFacts.

Lemma ascii_eqb_decide (c d : ascii) : Ascii.eqb c d = bool_decide (c = d).
Proof.
  case_bool_decide as H.
  - subst. apply Ascii.eqb_refl.
  - by apply Ascii.eqb_neq.
Qed.

Lemma apple_read_cons c input field o ebuf :
  Apple.addr2line_read (String c input) field o ebuf
  = if bool_decide (String.length o < ebuf)%nat then
      if bool_decide (field = 0) then
        if bool_decide (c = " "%char) then
          Apple.addr2line_read input (int_add field 1)
            (if bool_decide (String.length o + String.length sep < ebuf)%nat
             then o +:+ sep else o) ebuf
        else Apple.addr2line_read input field (o +:+ String c EmptyString)
               ebuf
      else if bool_decide (field < 3) then
        if bool_decide (c = "("%char)
        then Apple.addr2line_read input (int_add field 1) o ebuf
        else Apple.addr2line_read input field o ebuf
      else
        if bool_decide (c = ")"%char) then o
        else Apple.addr2line_read input field (o +:+ String c EmptyString)
               ebuf
    else o.
Proof. by rewrite <- !ascii_eqb_decide. Qed.

(** The loop never writes past [ebuf]. *)
Lemma apple_read_bounded input :
  ∀ field o ebuf,
    (String.length o ≤ ebuf)%nat →
    (String.length (Apple.addr2line_read input field o ebuf) ≤ ebuf)%nat.
Proof.
  induction input as [|c input IH]; intros field o ebuf Hlen; [done|].
  rewrite apple_read_cons. case_bool_decide as Hroom; [|done].
  repeat case_bool_decide; try done; apply IH;
    rewrite ?str_length_append; simpl in *; lia.
Qed.

(** Field 0: characters other than a space are copied. *)
Lemma apple_read_function s :
  ∀ input o ebuf,
    without " " s → (String.length o + String.length s ≤ ebuf)%nat →
    Apple.addr2line_read (s +:+ input) 0 o ebuf
    = Apple.addr2line_read input 0 (o +:+ s) ebuf.
Proof.
  induction s as [|c s IH]; intros input o ebuf Hs Hlen.
  - by rewrite str_append_nil_r.
  - destruct Hs as [Hc Hs]. simpl in Hlen.
    change (String c s +:+ input) with (String c (s +:+ input)).
    rewrite apple_read_cons.
    rewrite bool_decide_eq_true_2 by lia.
    rewrite (bool_decide_eq_true_2 (0 = 0)) by done.
    rewrite (bool_decide_eq_false_2 (c = _)) by done.
    rewrite IH; [|done|rewrite str_length_append; simpl; lia].
    by rewrite str_append_assoc.
Qed.

(** Fields 1 and 2: characters other than an opening parenthesis are
    passed over. *)
Lemma apple_read_skip s :
  ∀ input field o ebuf,
    without "(" s → 1 ≤ field < 3 → (String.length o < ebuf)%nat →
    Apple.addr2line_read (s +:+ input) field o ebuf
    = Apple.addr2line_read input field o ebuf.
Proof.
  induction s as [|c s IH]; intros input field o ebuf Hs Hf Hlen; [done|].
  destruct Hs as [Hc Hs].
  change (String c s +:+ input) with (String c (s +:+ input)).
  rewrite apple_read_cons.
  rewrite bool_decide_eq_true_2 by lia.
  rewrite (bool_decide_eq_false_2 (field = 0)) by lia.
  rewrite (bool_decide_eq_true_2 (field < 3)) by lia.
  rewrite (bool_decide_eq_false_2 (c = _)) by done.
  by apply IH.
Qed.

(** Field 3: characters other than a closing parenthesis are copied. *)
Lemma apple_read_location s :
  ∀ input o ebuf,
    without ")" s → (String.length o + String.length s ≤ ebuf)%nat →
    Apple.addr2line_read (s +:+ input) 3 o ebuf
    = Apple.addr2line_read input 3 (o +:+ s) ebuf.
Proof.
  induction s as [|c s IH]; intros input o ebuf Hs Hlen.
  - by rewrite str_append_nil_r.
  - destruct Hs as [Hc Hs]. simpl in Hlen.
    change (String c s +:+ input) with (String c (s +:+ input)).
    rewrite apple_read_cons.
    rewrite bool_decide_eq_true_2 by lia.
    rewrite (bool_decide_eq_false_2 (3 = 0)) by done.
    rewrite (bool_decide_eq_false_2 (3 < 3)) by done.
    rewrite (bool_decide_eq_false_2 (c = _)) by done.
    rewrite IH; [|done|rewrite str_length_append; simpl; lia].
    by rewrite str_append_assoc.
Qed.

(** X26. [addr2line] with [atos]: from an answer of the form
  [function (in library) (location)], with room for function,
  separator and location, it makes [function() at location]; what
  follows the closing parenthesis is not read. *)
Theorem apple_addr2line_function_at_location popen fname offset size
  f lib loc rest :
popen fname offset
= Some (f +:+ " (in " +:+ lib +:+ ") (" +:+ loc +:+ ")" +:+ rest) →
without " " f → without "(" lib → without ")" loc →
Z.of_nat (String.length f + String.length sep + String.length loc)
< size - 1 →
Apple.addr2line popen fname offset size = Some (f +:+ sep +:+ loc).
Proof.
intros Hp Hf Hlib Hloc Hroom. unfold Apple.addr2line. rewrite Hp.
remember (Z.to_nat (size - 1)) as ebuf eqn:Hebuf.
rewrite !Nat2Z.inj_add in Hroom.
assert (String.length sep = 6%nat) as Hsep by done.
assert (Apple.addr2line_read
          (f +:+ " (in " +:+ lib +:+ ") (" +:+ loc +:+ ")" +:+ rest) 0 ""
          ebuf = f +:+ sep +:+ loc) as ->.
{ rewrite apple_read_function; [|done|simpl; lia].
  change ("" +:+ f) with f.
  change (" (in " +:+ ?x) with (String " " (String "(" ("in " +:+ x))).
  rewrite apple_read_cons.
  rewrite bool_decide_eq_true_2 by lia.
  rewrite (bool_decide_eq_true_2 (0 = 0)) by done.
  rewrite (bool_decide_eq_true_2 (_ = _)) by done.
  rewrite bool_decide_eq_true_2 by lia.
  change (int_add 0 1) with 1.
  assert (String.length (f +:+ sep) < ebuf)%nat as Hlen
    by (rewrite str_length_append; lia).
  rewrite apple_read_cons.
  rewrite bool_decide_eq_true_2 by done.
  rewrite (bool_decide_eq_false_2 (1 = 0)) by done.
  rewrite (bool_decide_eq_true_2 (1 < 3)) by done.
  rewrite (bool_decide_eq_true_2 (_ = _)) by done.
  change (int_add 1 1) with 2.
  rewrite (apple_read_skip "in ")
    by (done || lia || (repeat split; discriminate)).
  rewrite (apple_read_skip lib) by (done || lia).
  change (") (" +:+ ?x) with (") " +:+ String "(" x).
  rewrite (apple_read_skip ") ")
    by (done || lia || (repeat split; discriminate)).
  rewrite apple_read_cons.
  rewrite bool_decide_eq_true_2 by done.
  rewrite (bool_decide_eq_false_2 (2 = 0)) by done.
  rewrite (bool_decide_eq_true_2 (2 < 3)) by done.
  rewrite (bool_decide_eq_true_2 (_ = _)) by done.
  change (int_add 2 1) with 3.
  rewrite apple_read_location
    by (done || (rewrite str_length_append; lia)).
  change (")" +:+ ?x) with (String ")" x).
  rewrite apple_read_cons.
  rewrite (bool_decide_eq_false_2 (3 = 0)) by done.
  rewrite (bool_decide_eq_false_2 (3 < 3)) by done.
  rewrite (bool_decide_eq_true_2 (_ = _)) by done.
  rewrite str_append_assoc. by case_bool_decide. }
rewrite bool_decide_eq_true_2; [done|].
intros H. apply (f_equal String.length) in H.
rewrite !str_length_append in H. simpl in H. lia.
Qed.

Lemma apple_addr2line_function_at_location_witness :
Apple.addr2line
  (λ _ _, Some ("prologToplevel" +:+ " (in " +:+ "libswipl.8.5.20.dylib"
                  +:+ ") (" +:+ "pl-pro.c:560" +:+ ")" +:+ nl))
  "libswipl.8.5.20.dylib" 100 512
= Some ("prologToplevel" +:+ sep +:+ "pl-pro.c:560").
Proof.
apply (apple_addr2line_function_at_location _ "libswipl.8.5.20.dylib" 100
         512 "prologToplevel" "libswipl.8.5.20.dylib" "pl-pro.c:560" nl).
- reflexivity.
- vm_compute. repeat split; discriminate.
- vm_compute. repeat split; discriminate.
- vm_compute. repeat split; discriminate.
- vm_compute. reflexivity.
Defined.
End AppleFacts.

(** ** [addr2line]: the buffer and the command *)

Module Addr2lineCmdFacts.
Import Glibc Addr2lineSpec Addr2lineFacts Addr2lineCmd.

Lemma c_string_length s : (String.length (c_string s) ≤ String.length s)%nat.
Proof.
  induction s as [|c s IH]; [done|]. simpl.
  destruct (Ascii.eqb c NUL); simpl; lia.
Qed.

Lemma c_string_one_line s : one_line s → one_line (c_string s).
Proof.
  induction s as [|c s IH]; [done|]. simpl. intros [Hc Hs].
  destruct (Ascii.eqb c NUL); simpl; auto.
Qed.

Lemma c_string_without_nul s : without NUL (c_string s).
Proof.
  induction s as [|c s IH]; [done|]. simpl.
  destruct (Ascii.eqb c NUL) eqn:Hc; [done|]. simpl.
  split; [by apply Ascii.eqb_neq|done].
Qed.

Lemma c_string_text s : without NUL s → c_string s = s.
Proof.
  induction s as [|c s IH]; [done|]. simpl. intros [Hc Hs].
  apply Ascii.eqb_neq in Hc. rewrite Hc. by rewrite IH.
Qed.

Lemma without_append c s1 s2 :
  without c s1 → without c s2 → without c (s1 +:+ s2).
Proof.
  induction s1 as [|c1 s1 IH]; [done|].
  change (String c1 s1 +:+ s2) with (String c1 (s1 +:+ s2)). simpl.
  intros [? ?] ?. auto.
Qed.

Lemma without_nul_sep : without NUL sep.
Proof. vm_compute. repeat split; discriminate. Qed.

(** The loop stores a NUL only if the helper wrote one. *)
Lemma addr2line_read_text input :
  ∀ n o ebuf,
    without NUL input → without NUL o →
    without NUL (addr2line_read input n o ebuf).
Proof.
  induction input as [|c input IH]; intros n o ebuf Hin Ho; [done|].
  destruct Hin as [Hc Hin].
  rewrite addr2line_read_cons. case_bool_decide as Hroom; [|done].
  case_bool_decide as Hnl.
  - destruct (bool_decide (int_add n 1 = 1)
              && bool_decide (String.length o + String.length sep < ebuf)%nat).
    + apply IH; [done|]. apply without_append; [done|apply without_nul_sep].
    + by apply IH.
  - apply IH; [done|]. apply without_append; [done|]. simpl. done.
Qed.

Lemma apple_read_text input :
  ∀ field o ebuf,
    without NUL input → without NUL o →
    without NUL (Apple.addr2line_read input field o ebuf).
Proof.
  induction input as [|c input IH]; intros field o ebuf Hin Ho; [done|].
  destruct Hin as [Hc Hin].
  rewrite AppleFacts.apple_read_cons.
  repeat case_bool_decide; try done; apply IH; try done;
    apply without_append; try done; try apply without_nul_sep;
    simpl; done.
Qed.

(** The test of the command's length, for a buffer and a command that
    [cmd] can hold. *)
Lemma addr2line_defined snprintf popen body fname offset size :
  size ≤ MAXCMD ∨ snprintf fname offset < MAXCMD →
  addr2line snprintf popen body fname offset size
  = Ok (c_string <$> body (helper snprintf popen size) fname offset size).
Proof.
  intros H. unfold addr2line. rewrite bool_decide_eq_false_2; [done|lia].
Qed.

Lemma helper_too_long snprintf popen fname offset size :
  0 ≤ size → size ≤ snprintf fname offset < 2 ^ 31 →
  helper snprintf popen size fname offset = None.
Proof.
  intros H0 Hn. unfold helper, cmd_fits.
  rewrite bool_decide_eq_false_2; [done|].
  rewrite Z.mod_small by lia. lia.
Qed.

Lemma helper_Some snprintf popen fname offset size output :
  helper snprintf popen size fname offset = Some output →
  popen fname offset = Some output.
Proof. unfold helper. by destruct (cmd_fits _ _ _ _). Qed.

(** X1. [addr2line] ([__APPLE__] not defined) does not write beyond
  [buf], and does not start the helper for a command it has cut short.
  With a buffer and a command that [cmd] can hold, the call is
  defined.  It returns FALSE when the command has [size] characters
  or more, and when [popen] fails.  When it returns TRUE the loop has
  stored fewer than [size] bytes, so that the final NUL is inside
  [buf], and the text the caller finds there is shorter than [size]
  and has no newline; it is not empty unless the helper wrote a NUL
  byte. *)
Theorem addr2line_fits snprintf popen fname offset size :
0 ≤ size →
size ≤ MAXCMD ∨ snprintf fname offset < MAXCMD →
∃ r,
  Addr2lineCmd.addr2line snprintf popen Glibc.addr2line fname offset size
  = Ok r ∧
  (size ≤ snprintf fname offset < 2 ^ 31 → r = None) ∧
  (popen fname offset = None → r = None) ∧
  ∀ buf, r = Some buf →
    ∃ output,
      popen fname offset = Some output ∧
      let stored := addr2line_read output 0 "" (Z.to_nat (size - 1)) in
      buf = c_string stored ∧
      Z.of_nat (String.length stored) < size ∧
      Z.of_nat (String.length buf) < size ∧
      one_line buf ∧ without NUL buf ∧
      (without NUL output → buf ≠ "").
Proof.
intros Hsize Hcmd. eexists.
split; [by apply addr2line_defined|]. split; [|split].
- intros Hlong. unfold Glibc.addr2line.
  by rewrite helper_too_long.
- intros Hp. unfold Glibc.addr2line, helper. rewrite Hp.
  by destruct (cmd_fits _ _ _ _).
- intros buf. unfold Glibc.addr2line.
  destruct (helper snprintf popen size fname offset) as [output|] eqn:Hh;
    [|done].
  assert (1 ≤ size) as Hsize1.
  { unfold helper, cmd_fits in Hh. case_bool_decide as Hfit; [|done].
    pose proof (Z.mod_pos_bound (snprintf fname offset) (2 ^ 64)). lia. }
  apply helper_Some in Hh.
  case_bool_decide as Hne; [|done]. simpl. intros [= <-].
  exists output. split; [done|]. cbv zeta.
  set (stored := addr2line_read _ _ _ _).
  destruct (addr2line_read_bounded output 0 "" (Z.to_nat (size - 1)))
    as [Hlen Hline]; [simpl; lia|done|]. fold stored in Hlen, Hline.
  pose proof (c_string_length stored).
  split; [done|]. split; [lia|]. split; [lia|].
  split; [by apply c_string_one_line|].
  split; [apply c_string_without_nul|].
  intros Hout. rewrite c_string_text; [done|].
  by apply addr2line_read_text.
Qed.

Lemma addr2line_fits_witness :
∃ r,
  Addr2lineCmd.addr2line cmd_length
    (answers ("main" +:+ nl +:+ "/src/pl-main.c:10" +:+ nl))
    Glibc.addr2line "libswipl.so" 4096 512 = Ok r ∧
  (512 ≤ cmd_length "libswipl.so" 4096 < 2 ^ 31 → r = None) ∧
  (answers ("main" +:+ nl +:+ "/src/pl-main.c:10" +:+ nl) "libswipl.so" 4096
   = None → r = None) ∧
  ∀ buf, r = Some buf →
    ∃ output,
      answers ("main" +:+ nl +:+ "/src/pl-main.c:10" +:+ nl) "libswipl.so"
        4096 = Some output ∧
      let stored := addr2line_read output 0 "" (Z.to_nat (512 - 1)) in
      buf = c_string stored ∧
      Z.of_nat (String.length stored) < 512 ∧
      Z.of_nat (String.length buf) < 512 ∧
      one_line buf ∧ without NUL buf ∧
      (without NUL output → buf ≠ "").
Proof.
apply (addr2line_fits cmd_length
         (answers ("main" +:+ nl +:+ "/src/pl-main.c:10" +:+ nl))
         "libswipl.so" 4096 512).
- lia.
- left. vm_compute. discriminate.
Defined.

(** X25. [addr2line] with [atos] keeps the same bounds: FALSE for a
  command of [size] characters or more and when [popen] fails; when
  it returns TRUE, fewer than [size] bytes stored and a text shorter
  than [size], which is not empty unless the helper wrote a NUL
  byte. *)
Theorem apple_addr2line_fits snprintf popen fname offset size :
0 ≤ size →
size ≤ MAXCMD ∨ snprintf fname offset < MAXCMD →
∃ r,
  Addr2lineCmd.addr2line snprintf popen Apple.addr2line fname offset size
  = Ok r ∧
  (size ≤ snprintf fname offset < 2 ^ 31 → r = None) ∧
  (popen fname offset = None → r = None) ∧
  ∀ buf, r = Some buf →
    ∃ output,
      popen fname offset = Some output ∧
      let stored := Apple.addr2line_read output 0 "" (Z.to_nat (size - 1)) in
      buf = c_string stored ∧
      Z.of_nat (String.length stored) < size ∧
      Z.of_nat (String.length buf) < size ∧
      without NUL buf ∧
      (without NUL output → buf ≠ "").
Proof.
intros Hsize Hcmd. eexists.
split; [by apply addr2line_defined|]. split; [|split].
- intros Hlong. unfold Apple.addr2line.
  by rewrite helper_too_long.
- intros Hp. unfold Apple.addr2line, helper. rewrite Hp.
  by destruct (cmd_fits _ _ _ _).
- intros buf. unfold Apple.addr2line.
  destruct (helper snprintf popen size fname offset) as [output|] eqn:Hh;
    [|done].
  assert (1 ≤ size) as Hsize1.
  { unfold helper, cmd_fits in Hh. case_bool_decide as Hfit; [|done].
    pose proof (Z.mod_pos_bound (snprintf fname offset) (2 ^ 64)). lia. }
  apply helper_Some in Hh.
  case_bool_decide as Hne; [|done]. simpl. intros [= <-].
  exists output. split; [done|]. cbv zeta.
  set (stored := Apple.addr2line_read _ _ _ _).
  pose proof (AppleFacts.apple_read_bounded output 0 ""
                (Z.to_nat (size - 1)) ltac:(simpl; lia)) as Hlen.
  fold stored in Hlen.
  pose proof (c_string_length stored).
  split; [done|]. split; [lia|]. split; [lia|].
  split; [apply c_string_without_nul|].
  intros Hout. rewrite c_string_text; [done|].
  by apply apple_read_text.
Qed.

Lemma apple_addr2line_fits_witness :
∃ r,
  Addr2lineCmd.addr2line atos_cmd_length
    (answers ("prologToplevel (in libswipl.dylib) (pl-pro.c:560)" +:+ nl))
    Apple.addr2line "libswipl.dylib" 4096 512 = Ok r ∧
  (512 ≤ atos_cmd_length "libswipl.dylib" 4096 < 2 ^ 31 → r = None) ∧
  (answers ("prologToplevel (in libswipl.dylib) (pl-pro.c:560)" +:+ nl)
     "libswipl.dylib" 4096 = None → r = None) ∧
  ∀ buf, r = Some buf →
    ∃ output,
      answers ("prologToplevel (in libswipl.dylib) (pl-pro.c:560)" +:+ nl)
        "libswipl.dylib" 4096 = Some output ∧
      let stored :=
        Apple.addr2line_read output 0 "" (Z.to_nat (512 - 1)) in
      buf = c_string stored ∧
      Z.of_nat (String.length stored) < 512 ∧
      Z.of_nat (String.length buf) < 512 ∧
      without NUL buf ∧
      (without NUL output → buf ≠ "").
Proof.
apply (apple_addr2line_fits atos_cmd_length
         (answers ("prologToplevel (in libswipl.dylib) (pl-pro.c:560)"
                   +:+ nl))
         "libswipl.dylib" 4096 512).
- lia.
- left. vm_compute. discriminate.
Defined.

(** The three outcomes at work: the text of the helper; no text for a
  command that does not fit into [size] characters, although it fits
  into [cmd]; and success with an empty text when the helper starts
  with a NUL byte. *)
Example addr2line_outcomes :
let reply := "main" +:+ nl +:+ "/src/pl-main.c:10" +:+ nl in
Addr2lineCmd.addr2line cmd_length (answers reply) Glibc.addr2line
  "libswipl.so" 4096 512 = Ok (Some "main() at /src/pl-main.c:10") ∧
Addr2lineCmd.addr2line cmd_length (answers reply) Glibc.addr2line
  "libswipl.so" 4096 8 = Ok None ∧
Addr2lineCmd.addr2line cmd_length (answers (String NUL reply))
  Glibc.addr2line "libswipl.so" 4096 512 = Ok (Some "") ∧
Addr2lineCmd.addr2line atos_cmd_length
  (answers ("prologToplevel (in libswipl.dylib) (pl-pro.c:560)" +:+ nl))
  Apple.addr2line "libswipl.dylib" 4096 512
= Ok (Some "prologToplevel() at pl-pro.c:560").
Proof. repeat split; vm_compute; reflexivity. Qed.

End Addr2lineCmdFacts.
